(* ===== verification/_CoqProject ===== *)
-Q . S2P
Prelude.v
Errors.v
Etherparse.v
Packet.v
Bench.v
BenchMain.v
Runtime.v
Tcb.v
TcbSpec.v
Tcp.v
TcpPacket.v
TcpLoop.v
TcpFoot.v
TcpSafety.v
TcpOrder.v
TcpSend.v
TcpApi.v
TcpDeliver.v
TcpTrace.v
TcpWake.v
TcpOpen.v
TcpClose.v
TcpWrapper.v
Udp.v
Unknown.v
Stream.v
Stack.v
StackSpec.v
StackInv.v
Run.v
System.v
SystemOrder.v
SystemSend.v
SystemSafe.v
Icmp.v
Examples.v
WintunDevice.v
ExampleMain.v
Reference.v
Scenario.v
TcbTheorems.v
TcpTheorems.v
TcpLifeTheorems.v
TcpFindings.v
StreamTheorems.v
StackTheorems.v
RunTheorems.v
ExchangeTheorems.v
SystemTheorems.v
SurvivalTheorems.v
ExampleTheorems.v
