(* ===== verification/Prelude.v ===== *)
(** * ipstack: a verification development

    ipstack is a userspace TCP/IP stack for TUN devices, written on tokio.  This
    library models the crate (src/src) and the two programs that come with it
    (src/examples) as executable definitions, function by function, and proves
    what the parts guarantee, alone and together.

    ** The program and its model

    A task owns the device and a table of sessions (lib.rs).  A packet read from
    the device is parsed (packet.rs) and sent through a channel to the stream of
    its session, or opens a session, or is handed to the user as it is.  Streams
    (stream/*.rs) are polled by the user's tasks; they take packets from their
    channel and send packets, through one shared channel, to the task, which
    writes them to the device.  A packet with TTL 0 is never written: it asks the
    task to forget a session.  A TCP stream is a connection (tcp.rs) around a
    control block (tcb.rs), inside a wrapper (tcp_wrapper.rs) that shuts the
    connection down in the background when the user drops it.  The programs accept
    streams in a loop, connect each to a server, and copy between the two.

    - [Prelude.v] (this file): machine integers as [Z] with their wrap-around,
      panics, the build profile, a state monad with early exit ([M]: [Ret] falls
      through, [Throw] is [return] or [continue], [Panic] is a panic; the state
      reached is kept on every outcome), loops with fuel, [wp] and its rules,
      [keeps] for invariants of monadic code with its hint database, and shared
      lemmas and tactics.
    - [Errors.v]: error.rs.
    - [Etherparse.v], [Runtime.v]: the interfaces to the packet library and to
      tokio, which are not part of the repository: a class of operations, and a
      class of laws that state their documented behaviour.  [Runtime] abstracts
      over the world [W] (channels, clock, wakers); its laws leave open when a
      receive finds nothing, how late a sleep is and how time flows.  A platform has a
      last instant, and time stays below a horizon; a timeout is [timely] if it can be
      added to every time below that.
    - [Packet.v]: packet.rs, with the addresses of std::net and the TTLs of
      lib.rs.  [Bench.v]: the benchmark module at its end; [BenchMain.v]: its test
      function, with the parsing of an [f32] and its conversion to a [Duration].
    - [Tcb.v]: stream/tcb.rs, one definition per operation; [TcbSpec.v]: its
      specification as byte streams ([SendBuf], [send_rel], [recv_rel]).
    - [Tcp.v]: stream/tcp.rs.  The state [Conn] is the stream and the world.
      [poll_read] is [loop fuel poll_read_body]; the body is cut at the blank
      lines of the source into [read_retransmit], ..., [read_packet], and the
      handling of a packet into one handler per connection state ([on_...]).
    - [TcpPacket.v]: the packets a connection builds.  [TcpLoop.v]: the state
      machine [tcp_step] and the termination of [poll_read].  [TcpFoot.v]: the types
      of a connection and the footprint [own] of every call.  [TcpSafety.v]: the
      invariant [conn_inv] of a connection, from its SYN on, for a peer ([Peer]) whose
      payloads are bounded and who does not acknowledge one number.  [TcpOrder.v]: in-order
      delivery.  [TcpSend.v]: what is sent is what was written, at its place, on
      every outcome ([talks]).  [TcpApi.v], [TcpDeliver.v]: writes, flushes, resets,
      timeouts, shutdown, one iteration of the read loop.  [TcpTrace.v]: the end of
      the handshake and arbitrary sequences of calls.  [TcpOpen.v]: the first read of a
      new connection.  [TcpWake.v]: who wakes a waiting writer.  [TcpClose.v]: the
      closing handshake, as the table [closing].
    - [TcpWrapper.v]: stream/tcp_wrapper.rs, with the background task.
    - [Udp.v]: stream/udp.rs.  [Unknown.v]: stream/unknown.rs.  [Stream.v]:
      stream/mod.rs.
    - [Stack.v]: lib.rs ([process_device_read], [create_stream],
      [process_upstream_recv], the arms of the loop in [run], [accept]).
      [StackSpec.v]: what each case of the dispatch does.  [StackInv.v]: runs of
      the stack as a step relation and the dispatch invariant.  [Run.v]: the task,
      with the rounds of its [select!] and its end.
    - [System.v]: the stack with the streams its user holds and the tasks of
      dropped streams, as one transition system built from the models of its
      parts.  A step is labelled with an [event] (a packet read from the device or
      taken for it, the bytes a call returned or accepted); [sys_trace] is a run with
      its events, [sys_step] a step without its label.  A call that panics unwinds its
      task, which drops the stream as the call left it.  Its steps are steps of
      [StackInv.v] ([system_refines]), so nothing is assumed of the streams.
      [SystemOrder.v] and [SystemSend.v]: the invariants of the received and of the
      sent data over these runs.  [SystemSafe.v]: what a step of the system is for one
      connection ([conn_step]), and the invariant of connections over runs.
    - [Icmp.v]: the interface to the ICMP part of the packet library.
      [Examples.v]: examples/tun2.rs and the loop of examples/tun_wintun.rs; the
      two [await]s of the loop are program points, and what is awaited is an
      input of the step.  A run of tun2.rs ([tun2_run]) interleaves its [main], the task
      of the stack, the tasks of dropped streams and the copying tasks, which copy, end
      or panic.  [WintunDevice.v]: module wintun of tun_wintun.rs, over
      an interface to the driver.  [ExampleMain.v]: what the two [main]s do before
      their loops, over an interface to the tun crate.
    - [Reference.v]: one packet library, one runtime and one driver that satisfy
      the laws.  [Scenario.v]: concrete connections over them.
    - [TcbTheorems.v], [TcpTheorems.v], [TcpLifeTheorems.v], [TcpFindings.v],
      [StreamTheorems.v], [StackTheorems.v], [RunTheorems.v], [ExchangeTheorems.v],
      [SystemTheorems.v], [SurvivalTheorems.v], [ExampleTheorems.v]: the properties
      (C1 to C40), with concrete applications, and a few theorems beside them.

    ** What the theorems show

    - The whole system (C3, C4, C5, C9, C14, C36): in every run, whatever the order of
      device, users and tasks, no packet makes a call on a TCP stream panic or hang,
      what a user reads is a beginning of the peer's byte stream, what is sent is what
      users wrote, packets reach the stream of their session, no packet exceeds the
      MTU on its way to the device, and the Windows device takes each whole.
    - Exchanges through the stack (C10, C11, C34): a SYN from the device is answered
      and its handshake completed; a datagram is read by the user and answered; a
      ping is answered.
    - Termination (C1, C21, C31): [poll_read] returns within one iteration per
      waiting packet plus the height of the state machine; [poll_shutdown] and
      the IPv4 [send] of other transports return.
    - Safety (C2, C3, C37): no well-formed packet and no sequence of calls makes a
      connection panic, alone or in the system, under the conditions below; a packet
      from the device makes the task panic in three cases only.
    - Refinement (C6, C7, C8, C32): reads deliver the peer's byte stream in
      order, until one side closes; acknowledgments and writes implement an abstract
      send buffer; a run of the program tun2.rs is a run of the system, as long as the
      task of the stack goes on.
    - Types and bounds (C15, C16): every call keeps the fields of a connection in the
      ranges of their types, on every outcome, and touches only its own channel and
      session; the unacknowledged data is bounded.
    - Functional behaviour on each branch (C12, C13, C20, C26 to C31), and of
      the closing handshake (C17, C18).
    - Wake-ups (C19): a writer that waits is woken by the next ACK that matters; data
      does not wake it ([push_wakes_nobody]).
    - The task (C23 to C25): why it ends, what a failed read does to it, and what its
      users see afterwards.
    - Cleaning up (C22, C29): a dropped stream ends in the removal of exactly
      its session.
    - The programs (C32 to C36): they answer pings, agree with each other, and count
      their sessions, and for ever those whose task panicked.
    - Failures (C24, C38 to C40): conditions under which the code does not do what
      it means to, for every connection that meets them.  More failures, beside the
      numbered properties, most of them as concrete runs:
      [wrapped_rejects_all], [empty_write_blocks_retransmission],
      [small_buffer_panics], [passive_close_acks_beyond], [push_wakes_nobody] (TCP),
      [late_drop_removes_session], [device_read_panics], [endless_timeout_panics] (stack),
      [unknown_send_diverges], [unknown_send_v6_truncates], [stale_segment_stays],
      [bad_ping_stops] and [device_eof_floods] (programs).

    ** Bounds, fuel and assumptions

    - Loops take fuel and return [None] when it runs out; the theorems give
      enough fuel: [length (rxq c) + rank (conn_state c) < n] for [poll_read]
      ([rank] is at most 6), [length bs < n] for [send].  More fuel does not
      change the result ([loop_mono]).
    - The invariant of a connection counts window updates: 2^47 of them are
      within the range of the running average, which no connection reaches.
    - C2 to C4, C6 to C8 and C16 speak of connections whose sequence numbers do not
      wrap; [wrapped_rejects_all] shows what happens when they do.  C5 has no such
      bound: it counts modulo 2{^32}.  Writes of no bytes are allowed everywhere; what
      they do to retransmission is [empty_write_blocks_retransmission].
    - C2 and C3 hold from the SYN on for a peer that never acknowledges the number of
      the SYN|ACK itself; C39 shows why.  C3 asks for fewer than 2{^47} - 1 steps, so
      that the window updates stay within the invariant.
    - C4 and C6 speak of peers that send no FIN|ACK, and C6 of connections neither side
      has closed; C38 shows what a FIN|ACK that overtakes data does.
    - C10 assumes that the first read takes less than the timeout of the connection.
    - Runs of the system start with no packet in any channel.  In a development build
      a panic unwinds the task it happens in, in the release profile it aborts the
      process ([unwinds]); there the runs have no steps that panic.
    - Durations and instants are integers, in nanoseconds.  A sum past the last instant
      of the platform panics ([instant_add]), so theorems that need a deadline ask for
      a [timely] timeout: those of connections through their invariant (C2, C8, C16,
      C19, C21, C22) and C3, C10, C11, C20, C25, C28, C38 to C40 in their statements.

    ** What is not modelled

    Logging (the calls of the log crate change nothing that is modelled); the
    parsing and printing inside the packet library; the scheduler (a poll is one
    atomic step, tasks interleave between polls); the content of error values that
    only third-party code looks into; the inside of criterion, of the
    packet builder and of the random generator; in the programs the command-line
    parser, the set-up of the logger, the inside of the tun crate, the sockets and what
    the server at the other end of a session does.  These are third-party code, or
    have no effect on what is modelled; nothing else of the repository is left out.

    Progress of the whole system (every accepted byte arrives in the end) is not
    stated: it needs a fair scheduler and an answering peer, and it does not hold of
    the code in general, as [empty_write_blocks_retransmission], [wrapped_rejects_all],
    C24 and C40 show.
*)

From Stdlib Require Export ZArith Lia.
From stdpp Require Export base tactics numbers option list gmap relations.

Declare Scope ipstack_scope.
Delimit Scope ipstack_scope with ips.
Open Scope Z_scope.

(** ** Bytes and machine integers *)

Abbreviation byte := Corelib.Init.Byte.byte.

(** Machine integers are [Z] in the range of their width.  The moduli are
    literals so that [lia] computes with them. *)
Abbreviation U8 := 256.
Abbreviation U16 := 65536.
Abbreviation U32 := 4294967296.
Abbreviation U64 := 18446744073709551616.

Notation "x ∈u w" := (0 <= x < w) (at level 70, only parsing) : ipstack_scope.
Open Scope ipstack_scope.

(** [as u16], [as u32]: the truncating casts. *)
Definition cast (w z : Z) : Z := z mod w.
(** [wrapping_add], [wrapping_sub] of std's integer types. *)
Definition wrapping_add (w a b : Z) : Z := (a + b) mod w.
Definition wrapping_sub (w a b : Z) : Z := (a - b) mod w.
(** [saturating_sub] of the unsigned types. *)
Definition saturating_sub (a b : Z) : Z := Z.max 0 (a - b).

(** [Vec::len]. *)
Definition len {A} (l : list A) : Z := Z.of_nat (length l).

(** [Vec::truncate(n)] and the front part of [Vec::drain(0..n)]. *)
Definition truncate {A} (n : Z) (l : list A) : list A := take (Z.to_nat n) l.
Definition drain_front {A} (n : Z) (l : list A) : list A := drop (Z.to_nat n) l.

(** ** Panics, early exits and the build profile *)

(** What makes the process panic: a checked arithmetic operation that
    overflows, an explicit [panic!], [unreachable!], a [put_slice] that does
    not fit, a slice index out of range, a division by zero, a [copy_from_slice]
    between different lengths, an [unwrap] of an error, a failed assertion, a
    [select!] whose branches are all disabled, an instant past the last one. *)
Inductive panic :=
  | POverflow
  | PExplicit
  | PUnreachable
  | PPutSlice
  | PSliceIndex
  | PDivZero
  | PCopySlice
  | PUnwrap
  | PAssert
  | PSelect
  | PInstant.
#[export] Instance panic_eq_dec : EqDecision panic.
Proof. solve_decision. Defined.

Inductive Result (A E : Type) :=
  | Ok (a : A)
  | Err (e : E).
Arguments Ok {A E} a.
Arguments Err {A E} e.

Inductive Poll (A : Type) :=
  | Ready (a : A)
  | Pending.
Arguments Ready {A} a.
Arguments Pending {A}.

Definition is_pending {A} (p : Poll A) : bool :=
  match p with Pending => true | Ready _ => false end.

Definition map_err {A E F} (f : E -> F) (r : Result A E) : Result A F :=
  match r with Ok a => Ok a | Err e => Err (f e) end.

(** The result of running a fragment of code: it falls through with a value,
    leaves the enclosing function or loop early with [Throw], or panics. *)
Inductive exec (E A : Type) :=
  | Ret (a : A)
  | Throw (e : E)
  | Panic (p : panic).
Arguments Ret {E A} a.
Arguments Throw {E A} e.
Arguments Panic {E A} p.

#[export] Instance exec_ret E : MRet (exec E) := fun A a => Ret a.
#[export] Instance exec_bind E : MBind (exec E) := fun A B k m =>
  match m with
  | Ret a => k a
  | Throw e => Throw e
  | Panic p => Panic p
  end.

(** A [Result] as a fragment: [?] on it exits with its error. *)
Definition of_result {E A} (r : Result A E) : exec E A :=
  match r with Ok a => Ret a | Err e => Throw e end.
(** [unwrap]. *)
Definition unwrap {A X E} (r : Result A X) : exec E A :=
  match r with Ok a => Ret a | Err _ => Panic PUnwrap end.

(** What the code asks of the build with [cfg]: the platform, and whether
    arithmetic is checked and debug assertions are on (they are in a
    development build, and off in the release profile of Cargo.toml); and whether a
    panic unwinds the task it is in (it does in a development build) or aborts the
    process (in the release profile). *)
Inductive Target :=
  | Linux
  | LinuxLike    (** android, freebsd *)
  | Apple        (** macos, ios *)
  | Windows.
#[export] Instance Target_eq_dec : EqDecision Target.
Proof. solve_decision. Defined.

Record Build := {
  target : Target;
  overflow_checks : bool;
  debug_assertions : bool;
  unwinds : bool;
}.
Definition dev_build : Build :=
  {| target := Linux; overflow_checks := true; debug_assertions := true; unwinds := true |}.
Definition release_build : Build :=
  {| target := Linux; overflow_checks := false; debug_assertions := false; unwinds := false |}.

(** The plain operators [+] and [*] on a type of modulus [w]: a panic where the
    build checks overflow, wrap-around where it does not. *)
Definition arith {E} (b : Build) (w z : Z) : exec E Z :=
  if z <? w then Ret z
  else if overflow_checks b then Panic POverflow
  else Ret (z mod w).
Definition plain_add {E} (b : Build) (w x y : Z) : exec E Z := arith b w (x + y).
Definition plain_mul {E} (b : Build) (w x y : Z) : exec E Z := arith b w (x * y).
(** The plain [-] on an unsigned type, likewise. *)
Definition plain_sub {E} (b : Build) (w x y : Z) : exec E Z :=
  if y <=? x then Ret (x - y)
  else if overflow_checks b then Panic POverflow
  else Ret ((x - y) mod w).
(** The plain [/], which panics on zero in every build. *)
Definition plain_div {E} (x y : Z) : exec E Z :=
  if y =? 0 then Panic PDivZero else Ret (x / y).

(** [Instant + Duration], which panics past the [last] instant there is. *)
Definition instant_add {E} (last now d : Z) : exec E Z :=
  if now + d <=? last then Ret (now + d) else Panic PInstant.

Lemma instant_add_ok {E} last now d : now + d <= last -> @instant_add E last now d = Ret (now + d).
Proof. intros H. unfold instant_add. by rewrite (proj2 (Z.leb_le _ _) H). Qed.

Lemma delete_insert_list {A} (i : nat) (x : A) (l : list A) : delete i (<[i := x]> l) = delete i l.
Proof. revert i. induction l as [|y l IH]; intros [|i]; simpl; [done..|]. by rewrite IH. Qed.

(** ** The state monad with early exit *)

(** Code that mutates a state [S]: the state is returned on every outcome, so
    the effects made before an early exit or a panic are kept. *)
Definition M (S E A : Type) : Type := S -> S * exec E A.

#[export] Instance M_ret S E : MRet (M S E) := fun A a s => (s, Ret a).
#[export] Instance M_bind S E : MBind (M S E) := fun A B k m s =>
  match m s with
  | (s', Ret a) => k a s'
  | (s', Throw e) => (s', Throw e)
  | (s', Panic p) => (s', Panic p)
  end.

Section monad_ops.
Context {S E : Type}.

Definition gets {A} (f : S -> A) : M S E A := fun s => (s, Ret (f s)).
Definition modify (f : S -> S) : M S E unit := fun s => (f s, Ret tt).
Definition throw {A} (e : E) : M S E A := fun s => (s, Throw e).
Definition panic_with {A} (p : panic) : M S E A := fun s => (s, Panic p).
Definition when (b : bool) (m : M S E unit) : M S E unit := if b then m else mret tt.

(** A pure fragment that may exit or panic, run in a stateful one. *)
Definition lift {A} (m : S -> exec E A) : M S E A := fun s => (s, m s).

(** The [?] operator: a fallible pure fragment whose error is converted and
    returned from the enclosing function. *)
Definition try_with {X A} (ret : X -> E) (m : S -> exec X A) : M S E A := fun s =>
  match m s with
  | Ret a => (s, Ret a)
  | Throw x => (s, Throw (ret x))
  | Panic p => (s, Panic p)
  end.

(** A pure state update that may panic (it never exits early). *)
Definition try_modify (f : S -> exec Empty_set S) : M S E unit := fun s =>
  match f s with
  | Ret s' => (s', Ret tt)
  | Throw e => match e with end
  | Panic p => (s, Panic p)
  end.

End monad_ops.

(** A function body: [return v] is [throw v], so running it as a call merges
    the early exits with the value it falls through with. *)
Definition call {S E R} (body : M S R R) : M S E R := fun s =>
  match body s with
  | (s', Ret r) => (s', Ret r)
  | (s', Throw r) => (s', Ret r)
  | (s', Panic p) => (s', Panic p)
  end.

(** Running code on a component [T] of a larger state. *)
Definition zoom {S T E A} (get : S -> T) (put : T -> S -> S) (m : M T E A) : M S E A := fun s =>
  let '(t, r) := m (get s) in (put t s, r).

(** How an iteration of a [loop] ends early. *)
Inductive loop_exit (R : Type) :=
  | Return (r : R)
  | Continue.
Arguments Return {R} r.
Arguments Continue {R}.

(** [loop { body }] with fuel: [None] is running out of it. *)
Fixpoint loop {S R} (fuel : nat) (body : M S (loop_exit R) unit) (s : S)
    : option (S * exec Empty_set R) :=
  match fuel with
  | O => None
  | Datatypes.S n =>
      match body s with
      | (s', Ret _) => loop n body s'
      | (s', Throw Continue) => loop n body s'
      | (s', Throw (Return r)) => Some (s', Ret r)
      | (s', Panic p) => Some (s', Panic p)
      end
  end.

(** ** Reasoning about effectful code *)

Create HintDb ipstack.

(** [wp m Φ s]: running [m] from [s] ends in a state and an outcome that
    satisfy [Φ]. *)
Definition wp {S E A} (m : M S E A) (Φ : S -> exec E A -> Prop) (s : S) : Prop :=
  Φ (m s).1 (m s).2.

Section wp_rules.
Context {S E : Type}.
Implicit Types s : S.

Lemma wp_mono {A} (m : M S E A) (Φ Ψ : S -> exec E A -> Prop) s :
  wp m Φ s -> (forall s' r, Φ s' r -> Ψ s' r) -> wp m Ψ s.
Proof. unfold wp. auto. Qed.

Lemma wp_and {A} (m : M S E A) (Φ Ψ : S -> exec E A -> Prop) s :
  wp m Φ s -> wp m Ψ s -> wp m (fun s' r => Φ s' r /\ Ψ s' r) s.
Proof. unfold wp. auto. Qed.

Lemma wp_bind {A B} (m : M S E A) (k : A -> M S E B) (Φ : S -> exec E B -> Prop) s :
  wp m (fun s' r => match r with
                    | Ret a => wp (k a) Φ s'
                    | Throw e => Φ s' (Throw e)
                    | Panic p => Φ s' (Panic p)
                    end) s ->
  wp (m ≫= k) Φ s.
Proof.
  unfold wp, mbind, M_bind. destruct (m s) as [s' [a|e|p]]; simpl; auto.
Qed.

Lemma wp_ret {A} (a : A) (Φ : S -> exec E A -> Prop) s :
  Φ s (Ret a) -> wp (mret a) Φ s.
Proof. done. Qed.

Lemma wp_gets {A} (f : S -> A) (Φ : S -> exec E A -> Prop) s :
  Φ s (Ret (f s)) -> wp (gets f) Φ s.
Proof. done. Qed.

Lemma wp_modify (f : S -> S) (Φ : S -> exec E unit -> Prop) s :
  Φ (f s) (Ret tt) -> wp (modify f) Φ s.
Proof. done. Qed.

Lemma wp_throw {A} (e : E) (Φ : S -> exec E A -> Prop) s :
  Φ s (Throw e) -> wp (throw e) Φ s.
Proof. done. Qed.

Lemma wp_panic {A} p (Φ : S -> exec E A -> Prop) s :
  Φ s (Panic p) -> wp (panic_with p) Φ s.
Proof. done. Qed.

Lemma wp_lift {A} (f : S -> exec E A) (Φ : S -> exec E A -> Prop) s :
  Φ s (f s) -> wp (lift f) Φ s.
Proof. done. Qed.

Lemma wp_when (b : bool) (m : M S E unit) (Φ : S -> exec E unit -> Prop) s :
  (b = true -> wp m Φ s) -> (b = false -> Φ s (Ret tt)) -> wp (when b m) Φ s.
Proof. unfold when. destruct b; [auto|]. intros _ H. by apply H. Qed.

Lemma wp_try_modify (f : S -> exec Empty_set S) (Φ : S -> exec E unit -> Prop) s :
  (forall s', f s = Ret s' -> Φ s' (Ret tt)) ->
  (forall p, f s = Panic p -> Φ s (Panic p)) ->
  wp (try_modify f) Φ s.
Proof.
  unfold wp, try_modify. destruct (f s) as [s'|[]|p]; simpl; auto.
Qed.

Lemma wp_try_with {X A} (ret : X -> E) (m : S -> exec X A) (Φ : S -> exec E A -> Prop) s :
  (forall a, m s = Ret a -> Φ s (Ret a)) ->
  (forall x, m s = Throw x -> Φ s (Throw (ret x))) ->
  (forall p, m s = Panic p -> Φ s (Panic p)) ->
  wp (try_with ret m) Φ s.
Proof. unfold wp, try_with. destruct (m s); simpl; auto. Qed.

Lemma wp_call {R} (m : M S R R) (Φ : S -> exec E R -> Prop) s :
  wp m (fun s' r => match r with
                    | Ret v | Throw v => Φ s' (Ret v)
                    | Panic p => Φ s' (Panic p)
                    end) s ->
  wp (call m) Φ s.
Proof. unfold wp, call. destruct (m s) as [s' [a|e|p]]; simpl; auto. Qed.

End wp_rules.

Lemma wp_zoom {S T E A} (get : S -> T) put (m : M T E A) (Φ : S -> exec E A -> Prop) s :
  wp m (fun t r => Φ (put t s) r) (get s) -> wp (zoom get put m) Φ s.
Proof. unfold wp, zoom. by destruct (m (get s)). Qed.

(** Running a sequence whose first part is known. *)
Lemma bind_run {S E A B} (m : M S E A) (k : A -> M S E B) s s' a :
  m s = (s', Ret a) -> (m ≫= k) s = k a s'.
Proof. unfold mbind, M_bind. by intros ->. Qed.

Lemma bind_throw {S E A B} (m : M S E A) (k : A -> M S E B) s s' e :
  m s = (s', Throw e) -> (m ≫= k) s = (s', Throw e).
Proof. unfold mbind, M_bind. by intros ->. Qed.

Lemma bind_panic {S E A B} (m : M S E A) (k : A -> M S E B) s s' p :
  m s = (s', Panic p) -> (m ≫= k) s = (s', Panic p).
Proof. unfold mbind, M_bind. by intros ->. Qed.

(** One syntax-directed step of symbolic execution. *)
Ltac wp_step :=
  match goal with
  | |- wp (_ ≫= _) _ _ => apply wp_bind
  | |- wp (mret _) _ _ => apply wp_ret
  | |- wp (gets _) _ _ => apply wp_gets
  | |- wp (modify _) _ _ => apply wp_modify
  | |- wp (throw _) _ _ => apply wp_throw
  | |- wp (panic_with _) _ _ => apply wp_panic
  | |- wp (lift _) _ _ => apply wp_lift
  | |- wp (call _) _ _ => apply wp_call
  | |- wp (zoom _ _ _) _ _ => apply wp_zoom
  end; cbn beta iota.

(** A loop whose body keeps an invariant and decreases a measure on every
    [continue] returns, whatever the fuel above the measure. *)
Lemma loop_wp {S R} (body : M S (loop_exit R) unit) (I : S -> Prop) (μ : S -> nat)
    (Φ : S -> exec Empty_set R -> Prop) :
  (forall s, I s ->
    wp body (fun s' r => match r with
                         | Ret _ | Throw Continue => I s' /\ (μ s' < μ s)%nat
                         | Throw (Return v) => Φ s' (Ret v)
                         | Panic p => Φ s' (Panic p)
                         end) s) ->
  forall n s, I s -> (μ s < n)%nat -> exists s' r, loop n body s = Some (s', r) /\ Φ s' r.
Proof.
  intros Hbody n. induction n as [|n IH]; intros s HI Hμ; [lia|].
  specialize (Hbody s HI). unfold wp in Hbody. simpl.
  destruct (body s) as [s' [[]|[v|]|p]]; simpl in *; eauto.
  - destruct Hbody as [HI' Hlt]. apply IH; [done|lia].
  - destruct Hbody as [HI' Hlt]. apply IH; [done|lia].
Qed.

(** [keeps I Q m]: [m] keeps the invariant [I] on every outcome, and a value it
    falls through with satisfies [Q]. *)
Definition keeps {S E A} (I : S -> Prop) (Q : A -> Prop) (m : M S E A) : Prop :=
  forall s, I s -> wp m (fun s' r => I s' /\ forall a, r = Ret a -> Q a) s.

Create HintDb keeps.

Section keeps.
Context {S E : Type} (I : S -> Prop).

Lemma keeps_bind {A B} (Q : A -> Prop) (Q' : B -> Prop) (m : M S E A) (k : A -> M S E B) :
  keeps I Q m -> (forall a, Q a -> keeps I Q' (k a)) -> keeps I Q' (m ≫= k).
Proof.
  intros Hm Hk s Hs. apply wp_bind. eapply wp_mono; [by apply Hm|].
  intros s' [a|e|p] [HI HQ]; [by apply Hk; [apply HQ|]|done..].
Qed.

Lemma keeps_ret {A} (Q : A -> Prop) (a : A) : Q a -> keeps I Q (mret a : M S E A).
Proof. intros HQ s Hs. split; [done|]. by intros ? [= <-]. Qed.
Lemma keeps_gets {A} (Q : A -> Prop) (f : S -> A) :
  (forall s, I s -> Q (f s)) -> keeps I Q (gets f : M S E A).
Proof. intros HQ s Hs. split; [done|]. intros ? [= <-]. auto. Qed.
Lemma keeps_throw {A} (Q : A -> Prop) (e : E) : keeps I Q (throw e : M S E A).
Proof. by intros s Hs. Qed.
Lemma keeps_panic {A} (Q : A -> Prop) p : keeps I Q (panic_with p : M S E A).
Proof. by intros s Hs. Qed.
Lemma keeps_modify f :
  (forall s, I s -> I (f s)) -> keeps I (fun _ => True) (modify f : M S E unit).
Proof. intros Hf s Hs. split; [by apply Hf|done]. Qed.
Lemma keeps_try_modify f :
  (forall s s', I s -> f s = Ret s' -> I s') ->
  keeps I (fun _ => True) (try_modify f : M S E unit).
Proof. intros Hf s Hs. apply wp_try_modify; [|done]. intros s' Hs'. split; [by eapply Hf|done]. Qed.
Lemma keeps_try_with {X A} (Q : A -> Prop) (ret : X -> E) (m : S -> exec X A) :
  (forall s a, I s -> m s = Ret a -> Q a) -> keeps I Q (try_with ret m).
Proof.
  intros HQ s Hs. apply wp_try_with; [|done..]. intros a Ha. split; [done|].
  intros ? [= <-]. by eapply HQ.
Qed.
Lemma keeps_when t (m : M S E unit) :
  keeps I (fun _ => True) m -> keeps I (fun _ => True) (when t m).
Proof. destruct t; [done|]. intros _. by apply keeps_ret. Qed.
Lemma keeps_call {R} (Q : R -> Prop) (m : M S R R) :
  keeps I Q m -> keeps I (fun _ => True) (call m : M S E R).
Proof.
  intros Hm s Hs. apply wp_call. eapply wp_mono; [by apply Hm|]. by intros s' [a|e|p] [? _].
Qed.

End keeps.

(** A loop keeps what its body keeps, whatever the fuel. *)
Lemma keeps_loop {S R} (I : S -> Prop) (body : M S (loop_exit R) unit) n s s' r :
  keeps I (fun _ => True) body -> I s -> loop n body s = Some (s', r) -> I s'.
Proof.
  intros Hb. revert s. induction n as [|n IH]; intros s Hs; [done|]. simpl.
  pose proof (Hb s Hs) as Hw. unfold wp in Hw.
  destruct (body s) as [s1 [[]|[v|]|p]]; simpl in *; destruct Hw as [Hs1 _]; [by apply IH| |by apply IH|];
    by intros [= <- <-].
Qed.

(** More fuel does not change the result. *)
Lemma loop_mono {S R} (body : M S (loop_exit R) unit) n m s x :
  loop n body s = Some x -> (n <= m)%nat -> loop m body s = Some x.
Proof.
  revert m s. induction n as [|n IH]; intros m s; [done|]. intros Hx Hle.
  destruct m as [|m]; [lia|]. simpl in *.
  destruct (body s) as [s' [[]|[v|]|p]]; try done; apply IH; auto with lia.
Qed.

(** ** Shared lemmas and tactics on machine integers, lists and options *)

Ltac word := unfold cast, wrapping_add, wrapping_sub, saturating_sub, len in *;
             Z.to_euclidean_division_equations; lia.

Lemma cast_small w z : z ∈u w -> cast w z = z.
Proof. intros. apply Z.mod_small. done. Qed.

Lemma cast_range w z : 0 < w -> cast w z ∈u w.
Proof. intros. apply Z.mod_pos_bound. done. Qed.

Lemma wrapping_add_range w a b : 0 < w -> wrapping_add w a b ∈u w.
Proof. intros. apply Z.mod_pos_bound. done. Qed.

Lemma wrapping_add_small w a b : a + b ∈u w -> wrapping_add w a b = a + b.
Proof. intros. apply Z.mod_small. done. Qed.

Lemma wrapping_sub_range w a b : 0 < w -> wrapping_sub w a b ∈u w.
Proof. intros. apply Z.mod_pos_bound. done. Qed.

Lemma wrapping_sub_small w a b : a - b ∈u w -> wrapping_sub w a b = a - b.
Proof. intros. apply Z.mod_small. done. Qed.

(** Wrap-around subtraction undoes wrap-around addition. *)
Lemma wrapping_add_sub w a b : a ∈u w -> wrapping_add w b (wrapping_sub w a b) = a.
Proof.
  intros. unfold wrapping_add, wrapping_sub.
  rewrite Zplus_mod_idemp_r. replace (b + (a - b)) with a by lia.
  by apply Z.mod_small.
Qed.

Lemma arith_small {E} b w z : z < w -> @arith E b w z = Ret z.
Proof. unfold arith. intros. by rewrite (proj2 (Z.ltb_lt _ _)). Qed.

Lemma arith_panic {E} b w z :
  w <= z -> overflow_checks b = true -> @arith E b w z = Panic POverflow.
Proof.
  intros ? Hb. unfold arith. rewrite (proj2 (Z.ltb_ge _ _)) by done. by rewrite Hb.
Qed.

Lemma len_nonneg {A} (l : list A) : 0 <= len l.
Proof. unfold len. lia. Qed.

Lemma len_nil {A} : len (@nil A) = 0.
Proof. done. Qed.

Lemma len_app {A} (l k : list A) : len (l ++ k) = len l + len k.
Proof. unfold len. rewrite length_app. lia. Qed.

Lemma len_zero {A} (l : list A) : len l <= 0 -> l = [].
Proof. destruct l; [done|]. unfold len. simpl. lia. Qed.

Lemma len_pos {A} (l : list A) : l <> [] -> 0 < len l.
Proof. destruct l; [done|]. unfold len. simpl. lia. Qed.

Lemma len_truncate {A} n (l : list A) : 0 <= n -> len (truncate n l) = Z.min n (len l).
Proof. intros. unfold len, truncate. rewrite length_take. lia. Qed.

Lemma truncate_all {A} n (l : list A) : len l <= n -> truncate n l = l.
Proof. intros. unfold truncate. apply take_ge. unfold len in *. lia. Qed.

Lemma len_drain_front {A} n (l : list A) :
  0 <= n -> len (drain_front n l) = Z.max 0 (len l - n).
Proof. intros. unfold len, drain_front. rewrite length_drop. lia. Qed.

Lemma drain_front_0 {A} (l : list A) : drain_front 0 l = l.
Proof. done. Qed.

Lemma drain_front_ge {A} n (l : list A) : len l <= n -> drain_front n l = [].
Proof. intros. unfold drain_front. apply drop_ge. unfold len in *. lia. Qed.

Lemma drain_front_app {A} n (l k : list A) :
  0 <= n -> drain_front n (l ++ k) = drain_front n l ++ drain_front (n - len l) k.
Proof.
  intros. unfold drain_front, len. rewrite drop_app. f_equal. f_equal. lia.
Qed.

Lemma drain_front_nonempty {A} n (l : list A) : 0 <= n < len l -> drain_front n l <> [].
Proof.
  intros Hn Hnil. apply (f_equal len) in Hnil. rewrite len_drain_front in Hnil by lia.
  change (len []) with 0 in Hnil. lia.
Qed.

Lemma truncate_drain {A} n (l : list A) : truncate n l ++ drain_front n l = l.
Proof. apply take_drop. Qed.

Lemma Forall_filter_2 {A} (P Q : A -> Prop) `{!forall x, Decision (Q x)} (l : list A) :
  Forall P l -> Forall P (filter Q l).
Proof.
  rewrite !Forall_forall. intros HP x Hx. apply HP. by apply list_elem_of_filter in Hx as [_ ?].
Qed.

Lemma filter_none {A} (P : A -> Prop) `{!forall x, Decision (P x)} (l : list A) :
  (forall x, x ∈ l -> ~ P x) -> filter P l = [].
Proof.
  induction l as [|x l IH]; intros Hl; [done|]. rewrite filter_cons.
  rewrite decide_False by (apply Hl; constructor). apply IH. intros y Hy. apply Hl. by constructor.
Qed.

(** Boolean comparisons of the code as the propositions they decide. *)
Ltac propify :=
  repeat match goal with
  | H : context [andb _ _ = true] |- _ => rewrite andb_true_iff in H
  | H : context [orb _ _ = false] |- _ => rewrite orb_false_iff in H
  | H : context [negb _ = true] |- _ => rewrite negb_true_iff in H
  | H : context [negb _ = false] |- _ => rewrite negb_false_iff in H
  | H : context [andb _ _ = false] |- _ => rewrite andb_false_iff in H
  | H : context [orb _ _ = true] |- _ => rewrite orb_true_iff in H
  | H : context [Z.eqb _ _ = true] |- _ => rewrite Z.eqb_eq in H
  | H : context [Z.eqb _ _ = false] |- _ => rewrite Z.eqb_neq in H
  | H : context [Z.ltb _ _ = true] |- _ => rewrite Z.ltb_lt in H
  | H : context [Z.ltb _ _ = false] |- _ => rewrite Z.ltb_ge in H
  | H : context [Z.leb _ _ = true] |- _ => rewrite Z.leb_le in H
  | H : context [Z.leb _ _ = false] |- _ => rewrite Z.leb_gt in H
  | H : context [bool_decide _ = true] |- _ => rewrite bool_decide_eq_true in H
  | H : context [bool_decide _ = false] |- _ => rewrite bool_decide_eq_false in H
  end.

#[export] Hint Resolve cast_range wrapping_add_range wrapping_sub_range len_nonneg : ipstack.
