(* ===== verification/Errors.v ===== *)
(** * Errors: error.rs

    The crate's error type and its conversion to [std::io::Error].  The
    payloads that only third-party code looks into (the numbers inside a
    [ValueTooBigError], the stream inside a [SendError]) are not kept. *)

From S2P Require Import Prelude.

(** [std::io::ErrorKind], the kinds the crate names. *)
Inductive ErrorKind :=
  | NotConnected
  | ConnectionReset
  | ConnectionAborted
  | TimedOut
  | InvalidInput
  | UnexpectedEof
  | Other.
#[export] Instance ErrorKind_eq_dec : EqDecision ErrorKind.
Proof. solve_decision. Defined.

(** [IpStackError], with [std::io::Error]: an error of a kind
    ([Error::from(kind)]), or one that wraps a source ([Error::new]). *)
Inductive IpStackError :=
  | UnsupportedTransportProtocol
  | InvalidPacket
  | ValueTooBigErrorU16
  | ValueTooBigErrorUsize
  | InvalidTcpPacket
  | IpStackIoError (e : IoError)
  | AcceptError
  | SendError
with IoError :=
  | IoKind (k : ErrorKind)
  | IoCustom (k : ErrorKind) (source : IoSource)
with IoSource :=
  | FromIpStack (e : IpStackError)
  | FromMessage.

(** [impl From<IpStackError> for std::io::Error]. *)
Definition io_error_from (e : IpStackError) : IoError :=
  match e with
  | IpStackIoError e => e
  | _ => IoCustom Other (FromIpStack e)
  end.

(** [impl From<std::io::Error> for IpStackError], derived by [#[from]]. *)
Definition ipstack_error_from_io (e : IoError) : IpStackError := IpStackIoError e.

(** What the poll functions return, and [?] inside one. *)
Definition PollUnit : Type := Poll (Result unit IoError).
Definition PollSize : Type := Poll (Result Z IoError).
Definition ready_err {A} (e : IoError) : Poll (Result A IoError) := Ready (Err e).

