(* ===== verification/Etherparse.v ===== *)
(** * Etherparse: the interface to the packet library

    The crate parses and prints headers with the third-party crate
    etherparse, whose code is not part of the repository.  Its types and
    functions are parameters: [EtherparseTypes] holds the types the crate never
    looks into, the header records list the fields the crate reads or writes
    (and the rest as an opaque extension), [Etherparse] holds the functions the
    crate calls, and [EtherparseLaws] the documented behaviour the theorems
    use.  [Reference.v] gives an instance, so the laws can hold. *)

From S2P Require Import Prelude Errors.

Class EtherparseTypes := {
  IpNumber : Type;
  IpNumber_eq_dec :: EqDecision IpNumber;
  FlowLabel : Type;
  TcpExt : Type;      (** ns, urgent pointer, options *)
  UdpExt : Type;      (** length, checksum *)
  Ipv4Ext : Type;     (** dscp, ecn, identification, fragment offset, options, ... *)
}.

Section headers.
Context `{ET : EtherparseTypes}.

(** [[u8; 4]] and [[u8; 16]], as the number their octets spell. *)
Definition Octets : Type := Z.

Record TcpHeader := mkTcpHeader {
  tcp_source_port : Z;
  tcp_destination_port : Z;
  sequence_number : Z;
  acknowledgment_number : Z;
  tcp_fin : bool;
  tcp_syn : bool;
  tcp_rst : bool;
  tcp_psh : bool;
  tcp_ack : bool;
  tcp_urg : bool;
  tcp_ece : bool;
  tcp_cwr : bool;
  window_size : Z;
  tcp_checksum : Z;
  tcp_ext : TcpExt;
}.

Record UdpHeader := mkUdpHeader {
  udp_source_port : Z;
  udp_destination_port : Z;
  udp_ext : UdpExt;
}.

Record Ipv4Header := mkIpv4Header {
  ip4_total_len : Z;
  ip4_dont_fragment : bool;
  ip4_time_to_live : Z;
  ip4_protocol : IpNumber;
  ip4_source : Octets;
  ip4_destination : Octets;
  ip4_ext : Ipv4Ext;
}.

Record Ipv6Header := mkIpv6Header {
  ip6_traffic_class : Z;
  ip6_flow_label : FlowLabel;
  ip6_payload_length : Z;
  ip6_next_header : IpNumber;
  ip6_hop_limit : Z;
  ip6_source : Octets;
  ip6_destination : Octets;
}.

(** [NetSlice] and [TransportSlice], by the constructors the crate matches on
    and the two things it takes from each: [to_header()] and the payload. *)
Inductive NetSlice :=
  | NetIpv4 (header : Ipv4Header) (payload : list byte)
  | NetIpv6 (header : Ipv6Header) (payload : list byte)
  | NetArp.

Inductive TransportSlice :=
  | SliceTcp (header : TcpHeader) (payload : list byte)
  | SliceUdp (header : UdpHeader) (payload : list byte)
  | SliceOther.

Record SlicedPacket := mkSlicedPacket {
  sliced_net : option NetSlice;
  sliced_transport : option TransportSlice;
}.

End headers.

(** [ValueTooBigError<u16>] or [ValueTooBigError<usize>]. *)
Inductive ValueTooBig :=
  | TooBigU16
  | TooBigUsize.

(** [IpStackError::from], derived by [#[from]]. *)
Definition ipstack_error_from (e : ValueTooBig) : IpStackError :=
  match e with
  | TooBigU16 => ValueTooBigErrorU16
  | TooBigUsize => ValueTooBigErrorUsize
  end.

(** [.map_err(IpStackError::from)?] in a function that returns [io::Error]. *)
Definition try_ether {A} (r : Result A ValueTooBig) : exec IoError A :=
  of_result (map_err (fun e => io_error_from (ipstack_error_from e)) r).

Lemma try_ether_ok {A} (r : Result A ValueTooBig) a : r = Ok a -> try_ether r = Ret a.
Proof. by intros ->. Qed.

Class Etherparse `{ET : EtherparseTypes} := {
  IpNumber_TCP : IpNumber;
  IpNumber_UDP : IpNumber;
  FlowLabel_ZERO : FlowLabel;

  tcp_header_new : Z -> Z -> Z -> Z -> TcpHeader;
  tcp_header_len : TcpHeader -> Z;
  calc_checksum_ipv4 : TcpHeader -> Ipv4Header -> list byte -> Result Z ValueTooBig;
  calc_checksum_ipv6 : TcpHeader -> Ipv6Header -> list byte -> Result Z ValueTooBig;
  tcp_write : TcpHeader -> Result (list byte) IoError;

  with_ipv4_checksum : Z -> Z -> Ipv4Header -> list byte -> Result UdpHeader ValueTooBig;
  with_ipv6_checksum : Z -> Z -> Ipv6Header -> list byte -> Result UdpHeader ValueTooBig;
  udp_write : UdpHeader -> Result (list byte) IoError;

  ipv4_header_new : Z -> Z -> IpNumber -> Octets -> Octets -> Result Ipv4Header ValueTooBig;
  ipv4_header_len : Ipv4Header -> Z;
  ipv4_set_payload_len : Ipv4Header -> Z -> Result Ipv4Header ValueTooBig;
  ipv4_write : Ipv4Header -> Result (list byte) IoError;

  ipv6_header_len : Ipv6Header -> Z;
  ipv6_set_payload_length : Ipv6Header -> Z -> Result Ipv6Header ValueTooBig;
  ipv6_write : Ipv6Header -> Result (list byte) IoError;

  (** [SlicedPacket::from_ip]; the error value is discarded by the crate. *)
  sliced_from_ip : list byte -> option SlicedPacket;
}.

(** What the documentation of etherparse promises of these functions. *)
Class EtherparseLaws `{EP : Etherparse} := {
  (** extensions of headers built by the constructors: no options *)
  tcp_default_ext : TcpExt;
  ipv4_default_ext : Ipv4Ext;
  ipv4_default_df : bool;

  tcp_header_new_spec : forall sp dp s w,
    tcp_header_new sp dp s w =
      mkTcpHeader sp dp s 0 false false false false false false false false w 0 tcp_default_ext;
  (** the length of a header without options *)
  tcp_header_len_default : forall h, tcp_ext h = tcp_default_ext -> tcp_header_len h = 20;
  ipv4_header_len_default : forall h, ip4_ext h = ipv4_default_ext -> ipv4_header_len h = 20;
  ipv6_header_len_spec : forall h, ipv6_header_len h = 40;

  ipv4_header_new_spec : forall n ttl proto src dst,
    0 <= n <= 65515 ->
    ipv4_header_new n ttl proto src dst =
      Ok (mkIpv4Header (20 + n) ipv4_default_df ttl proto src dst ipv4_default_ext);
  (** setting the payload length fails only when the total does not fit 16 bits *)
  ipv4_set_payload_len_spec : forall h n,
    0 <= n -> ipv4_header_len h + n < U16 ->
    ipv4_set_payload_len h n =
      Ok (mkIpv4Header (ipv4_header_len h + n) (ip4_dont_fragment h) (ip4_time_to_live h)
            (ip4_protocol h) (ip4_source h) (ip4_destination h) (ip4_ext h));
  ipv6_set_payload_length_spec : forall h n,
    0 <= n < U16 ->
    ipv6_set_payload_length h n =
      Ok (mkIpv6Header (ip6_traffic_class h) (ip6_flow_label h) n (ip6_next_header h)
            (ip6_hop_limit h) (ip6_source h) (ip6_destination h));

  (** the checksum fails only when the segment is too long for its length field *)
  calc_checksum_ipv4_spec : forall h ip p,
    tcp_header_len h + len p < U16 ->
    exists c, calc_checksum_ipv4 h ip p = Ok c /\ 0 <= c < U16;
  calc_checksum_ipv6_spec : forall h ip p,
    tcp_header_len h + len p < U32 ->
    exists c, calc_checksum_ipv6 h ip p = Ok c /\ 0 <= c < U16;
  with_ipv4_checksum_spec : forall sp dp ip p,
    8 + len p < U16 -> exists e, with_ipv4_checksum sp dp ip p = Ok (mkUdpHeader sp dp e);
  with_ipv6_checksum_spec : forall sp dp ip p,
    8 + len p < U16 -> exists e, with_ipv6_checksum sp dp ip p = Ok (mkUdpHeader sp dp e);

  (** the fields of a parsed header have the width of their types *)
  sliced_tcp_range : forall bs p h pl,
    sliced_from_ip bs = Some p -> sliced_transport p = Some (SliceTcp h pl) ->
    sequence_number h ∈u U32 /\ acknowledgment_number h ∈u U32 /\ window_size h ∈u U16;

  (** a written header occupies its length *)
  tcp_write_len : forall h bs, tcp_write h = Ok bs -> len bs = tcp_header_len h;
  udp_write_len : forall h bs, udp_write h = Ok bs -> len bs = 8;
  ipv4_write_len : forall h bs, ipv4_write h = Ok bs -> len bs = ipv4_header_len h;
  ipv6_write_len : forall h bs, ipv6_write h = Ok bs -> len bs = 40;
}.
