(* ===== verification/Packet.v ===== *)
(** * Packets: packet.rs

    Addresses of [std::net], the crate's view of a packet (IP header, transport
    header, payload), its connection key, parsing and printing. *)

From S2P Require Import Prelude Errors Etherparse.

(** ** The TTLs of lib.rs: a packet with [DROP_TTL] asks the stack to forget the
    session it belongs to *)

Definition DROP_TTL : Z := 0.
Definition TTL (b : Build) : Z := if decide (target b = Windows) then 128 else 64.

(** ** [std::net] addresses *)

Inductive IpAddr :=
  | IpV4 (a : Z)
  | IpV6 (a : Z).

Inductive SocketAddr :=
  | SockV4 (a port : Z)
  | SockV6 (a port flowinfo scope_id : Z).

(** [SocketAddr::new]. *)
Definition socket_addr_new (a : IpAddr) (port : Z) : SocketAddr :=
  match a with
  | IpV4 a => SockV4 a port
  | IpV6 a => SockV6 a port 0 0
  end.

Definition sock_ip (s : SocketAddr) : IpAddr :=
  match s with SockV4 a _ => IpV4 a | SockV6 a _ _ _ => IpV6 a end.
Definition sock_port (s : SocketAddr) : Z :=
  match s with SockV4 _ p => p | SockV6 _ p _ _ => p end.
Definition is_ipv4 (s : SocketAddr) : bool :=
  match s with SockV4 _ _ => true | SockV6 _ _ _ _ => false end.

(** An address that carries no IPv6 flow or scope, as those of packets do. *)
Definition plain_addr (a : SocketAddr) : Prop := socket_addr_new (sock_ip a) (sock_port a) = a.

#[export] Instance IpAddr_eq_dec : EqDecision IpAddr.
Proof. solve_decision. Defined.
#[export] Instance SocketAddr_eq_dec : EqDecision SocketAddr.
Proof. solve_decision. Defined.
#[export] Program Instance SocketAddr_countable : Countable SocketAddr :=
  inj_countable'
    (fun s => match s with
              | SockV4 a p => inl (a, p)
              | SockV6 a p f i => inr (a, p, f, i)
              end)
    (fun x => match x with
              | inl (a, p) => SockV4 a p
              | inr (a, p, f, i) => SockV6 a p f i
              end) _.
Next Obligation. by intros []. Qed.

Record NetworkTuple := mkNetworkTuple {
  src : SocketAddr;
  dst : SocketAddr;
  tcp : bool;
}.
#[export] Instance NetworkTuple_eq_dec : EqDecision NetworkTuple.
Proof. solve_decision. Defined.
#[export] Program Instance NetworkTuple_countable : Countable NetworkTuple :=
  inj_countable' (fun t => (src t, dst t, tcp t))
                 (fun x => match x with (s, d, t) => mkNetworkTuple s d t end) _.
Next Obligation. by intros []. Qed.

(** ** [tcp_flags] *)

Definition CWR : Z := 128.
Definition ECE : Z := 64.
Definition URG : Z := 32.
Definition ACK : Z := 16.
Definition PSH : Z := 8.
Definition RST : Z := 4.
Definition SYN : Z := 2.
Definition FIN : Z := 1.
Definition NON : Z := 0.

Section packet.
Context `{EP : Etherparse}.

Record TcpHeaderWrapper := mkTcpHeaderWrapper { header : TcpHeader }.

Definition inner (h : TcpHeaderWrapper) : TcpHeader := header h.

(** [TcpHeaderWrapper::flags]: the flag bits, accumulated one by one. *)
Definition flags (h : TcpHeaderWrapper) : Z :=
  let inner := inner h in
  let flags := 0 in
  let flags := if tcp_cwr inner then Z.lor flags CWR else flags in
  let flags := if tcp_ece inner then Z.lor flags ECE else flags in
  let flags := if tcp_urg inner then Z.lor flags URG else flags in
  let flags := if tcp_ack inner then Z.lor flags ACK else flags in
  let flags := if tcp_psh inner then Z.lor flags PSH else flags in
  let flags := if tcp_rst inner then Z.lor flags RST else flags in
  let flags := if tcp_syn inner then Z.lor flags SYN else flags in
  let flags := if tcp_fin inner then Z.lor flags FIN else flags in
  flags.

(** [impl From<&TcpHeader> for TcpHeaderWrapper]. *)
Definition wrap_tcp_header (h : TcpHeader) : TcpHeaderWrapper := mkTcpHeaderWrapper h.

Inductive IpStackPacketProtocol :=
  | ProtoTcp (h : TcpHeaderWrapper)
  | ProtoUnknown
  | ProtoUdp.

Inductive IpHeader :=
  | Ipv4 (h : Ipv4Header)
  | Ipv6 (h : Ipv6Header).

Inductive TransportHeader :=
  | TransTcp (h : TcpHeader)
  | TransUdp (h : UdpHeader)
  | TransUnknown.

Record NetworkPacket := mkNetworkPacket {
  ip : IpHeader;
  transport : TransportHeader;
  payload : list byte;
}.

(** [NetworkPacket::parse]: the network header, then the transport header;
    a packet whose transport is neither TCP nor UDP keeps the IP payload. *)
Definition parse (buf : list byte) : Result NetworkPacket IpStackError :=
  match sliced_from_ip buf with
  | None => Err InvalidPacket
  | Some p =>
      match sliced_net p with
      | None => Err InvalidPacket
      | Some net =>
          match
            match net with
            | NetIpv4 h pl => Ok (Ipv4 h, pl)
            | NetIpv6 h pl => Ok (Ipv6 h, pl)
            | NetArp => Err UnsupportedTransportProtocol
            end
          with
          | Err e => Err e
          | Ok (ip, ip_payload) =>
              let '(transport, payload) :=
                match sliced_transport p with
                | Some (SliceTcp h pl) => (TransTcp h, pl)
                | Some (SliceUdp h pl) => (TransUdp h, pl)
                | _ => (TransUnknown, ip_payload)
                end in
              Ok (mkNetworkPacket ip transport payload)
          end
      end
  end.

Definition transport_protocol (p : NetworkPacket) : IpStackPacketProtocol :=
  match transport p with
  | TransUdp _ => ProtoUdp
  | TransTcp h => ProtoTcp (wrap_tcp_header h)
  | _ => ProtoUnknown
  end.

Definition src_addr (p : NetworkPacket) : SocketAddr :=
  let port :=
    match transport p with
    | TransUdp udp => udp_source_port udp
    | TransTcp tcp => tcp_source_port tcp
    | _ => 0
    end in
  match ip p with
  | Ipv4 ip => socket_addr_new (IpV4 (ip4_source ip)) port
  | Ipv6 ip => socket_addr_new (IpV6 (ip6_source ip)) port
  end.

Definition dst_addr (p : NetworkPacket) : SocketAddr :=
  let port :=
    match transport p with
    | TransUdp udp => udp_destination_port udp
    | TransTcp tcp => tcp_destination_port tcp
    | _ => 0
    end in
  match ip p with
  | Ipv4 ip => socket_addr_new (IpV4 (ip4_destination ip)) port
  | Ipv6 ip => socket_addr_new (IpV6 (ip6_destination ip)) port
  end.

Definition is_tcp (p : NetworkPacket) : bool :=
  match transport p with TransTcp _ => true | _ => false end.

Definition network_tuple (p : NetworkPacket) : NetworkTuple :=
  mkNetworkTuple (src_addr p) (dst_addr p) (is_tcp p).

Definition reverse_network_tuple (p : NetworkPacket) : NetworkTuple :=
  mkNetworkTuple (dst_addr p) (src_addr p) (is_tcp p).

(** [NetworkPacket::to_bytes]: the headers' [write] append to the buffer. *)
Definition to_bytes (p : NetworkPacket) : Result (list byte) IpStackError :=
  match
    match ip p with
    | Ipv4 ip => ipv4_write ip
    | Ipv6 ip => ipv6_write ip
    end
  with
  | Err e => Err (ipstack_error_from_io e)
  | Ok buf =>
      match
        match transport p with
        | TransTcp h => tcp_write h
        | TransUdp h => udp_write h
        | _ => Ok []
        end
      with
      | Err e => Err (ipstack_error_from_io e)
      | Ok t => Ok (buf ++ t ++ payload p)
      end
  end.

Definition ttl (p : NetworkPacket) : Z :=
  match ip p with
  | Ipv4 ip => ip4_time_to_live ip
  | Ipv6 ip => ip6_hop_limit ip
  end.

(** The number of bytes the IP header says the packet has. *)
Definition ip_total_len (p : NetworkPacket) : Z :=
  match ip p with
  | Ipv4 ip => ip4_total_len ip
  | Ipv6 ip => 40 + ip6_payload_length ip
  end.

Definition ip_header_len (p : NetworkPacket) : Z :=
  match ip p with
  | Ipv4 ip => ipv4_header_len ip
  | Ipv6 ip => ipv6_header_len ip
  end.

Definition transport_header_len (p : NetworkPacket) : Z :=
  match transport p with
  | TransTcp h => tcp_header_len h
  | TransUdp _ => 8
  | TransUnknown => 0
  end.

(** The printed packet is no longer than the MTU [m], or than the longest headers. *)
Definition fits (m : Z) (p : NetworkPacket) : Prop :=
  forall bs, to_bytes p = Ok bs -> len bs <= Z.max 60 m.

(** ** Properties *)

(** What is printed is the headers and the payload. *)
Lemma to_bytes_len `{EL : !EtherparseLaws} p bs :
  to_bytes p = Ok bs -> len bs = ip_header_len p + transport_header_len p + len (payload p).
Proof.
  unfold to_bytes, ip_header_len, transport_header_len.
  assert (forall ib, match ip p with Ipv4 ip => ipv4_write ip | Ipv6 ip => ipv6_write ip end = Ok ib ->
    len ib = match ip p with Ipv4 ip => ipv4_header_len ip | Ipv6 ip => ipv6_header_len ip end) as Hip.
  { destruct (ip p); intros ib Hib; [by apply ipv4_write_len|].
    rewrite ipv6_header_len_spec. by eapply ipv6_write_len. }
  destruct (match ip p with Ipv4 _ => _ | Ipv6 _ => _ end) as [ib|]; [|done].
  specialize (Hip ib eq_refl).
  destruct (transport p) as [h|h|]; [destruct (tcp_write h) as [tb|] eqn:Ht
    |destruct (udp_write h) as [tb|] eqn:Ht|]; try done; intros [= <-]; rewrite !len_app.
  - apply tcp_write_len in Ht. lia.
  - apply udp_write_len in Ht. lia.
  - change (len []) with 0. lia.
Qed.

(** Each flag of the header is one bit of the flag byte. *)
Lemma flags_bits (h : TcpHeaderWrapper) :
  Z.testbit (flags h) 7 = tcp_cwr (header h) /\ Z.testbit (flags h) 6 = tcp_ece (header h) /\
  Z.testbit (flags h) 5 = tcp_urg (header h) /\ Z.testbit (flags h) 4 = tcp_ack (header h) /\
  Z.testbit (flags h) 3 = tcp_psh (header h) /\ Z.testbit (flags h) 2 = tcp_rst (header h) /\
  Z.testbit (flags h) 1 = tcp_syn (header h) /\ Z.testbit (flags h) 0 = tcp_fin (header h).
Proof.
  unfold flags, inner.
  by destruct (tcp_cwr _), (tcp_ece _), (tcp_urg _), (tcp_ack _),
    (tcp_psh _), (tcp_rst _), (tcp_syn _), (tcp_fin _).
Qed.

(** [flags & RST != 0] tests the header's RST bit, whatever the other flags. *)
Lemma flags_rst h : (Z.land (flags h) RST =? 0) = negb (tcp_rst (header h)).
Proof.
  unfold flags, inner.
  by destruct (tcp_cwr _), (tcp_ece _), (tcp_urg _), (tcp_ack _),
    (tcp_psh _), (tcp_rst _), (tcp_syn _), (tcp_fin _).
Qed.

(** Equal flag bytes mean the same eight flags. *)
Lemma flags_inj h h' :
  flags h = flags h' ->
  tcp_cwr (header h) = tcp_cwr (header h') /\ tcp_ece (header h) = tcp_ece (header h') /\
  tcp_urg (header h) = tcp_urg (header h') /\ tcp_ack (header h) = tcp_ack (header h') /\
  tcp_psh (header h) = tcp_psh (header h') /\ tcp_rst (header h) = tcp_rst (header h') /\
  tcp_syn (header h) = tcp_syn (header h') /\ tcp_fin (header h) = tcp_fin (header h').
Proof.
  intros Heq. pose proof (flags_bits h) as Hh. pose proof (flags_bits h') as Hh'.
  rewrite Heq in Hh. intuition congruence.
Qed.

End packet.
