(* ===== verification/Bench.v ===== *)
(** * The benchmark module of packet.rs

    It builds random TCP packets of given sizes with etherparse's packet builder
    (a parameter), parses and prints them, and reads the benchmark filter from
    the command line. *)

From Stdlib Require Import Strings.String.
From stdpp Require Import strings pretty.
From S2P Require Import Prelude Errors Etherparse Packet.

(** ** The packet builder *)

(** The random values of one packet. *)
Record RandomHeader := mkRandomHeader {
  r_source : Octets; r_destination : Octets; r_ttl : Z;
  r_source_port : Z; r_destination_port : Z; r_seq : Z; r_window : Z; r_ack : Z;
}.

Class PacketBuilder := {
  Builder : Type;
  (** [PacketBuilder::ipv4(..).tcp(..).fin().psh().ack(..)] *)
  ipv4_tcp_fin_psh_ack : RandomHeader -> Builder;
  builder_size : Builder -> Z -> Z;
  builder_write : Builder -> list byte -> Result (list byte) unit;
}.

Section bench.
Context `{EP : Etherparse, PB : !PacketBuilder}.
Context (b : Build).

(** [assert_eq!]. *)
Definition assert_eq {E} (x y : Z) : exec E unit := if x =? y then Ret tt else Panic PAssert.

(** [r] and [rnd] are what [random] returns, for the header and for each byte. *)
Definition create_raw_packet {E} (r : RandomHeader) (rnd : nat -> byte) (mtu : Z) : exec E (list byte) :=
  let builder := ipv4_tcp_fin_psh_ack r in
  payload_len ← plain_sub b U64 mtu (builder_size builder 0);
  _ ← assert_eq mtu (builder_size builder payload_len);
  let payload := rnd <$> seq 0 (Z.to_nat payload_len) in
  buf ← unwrap (builder_write builder payload);
  _ ← assert_eq mtu (len buf);
  mret buf.

Definition create_packet {E} (r : RandomHeader) (rnd : nat -> byte) (mtu : Z) : exec E NetworkPacket :=
  packet ← create_raw_packet r rnd mtu;
  unwrap (parse packet).

Definition BENCH_MTUS : list Z := [64; 1500; 4096; 16384; 65515].

(** [for x in l]. *)
Fixpoint for_each {A E} (body : A -> exec E unit) (l : list A) : exec E unit :=
  match l with
  | [] => mret tt
  | x :: l => _ ← body x; for_each body l
  end.

(** One round of each of the two loops: criterion runs the measured closure as
    often as it likes, not at all when the filter leaves it out; what it returns
    is dropped. *)
Definition decode_round {E} (r : RandomHeader) (rnd : nat -> byte) (iterations : nat) (mtu : Z)
    : exec E unit :=
  buf ← create_raw_packet r rnd mtu;
  for_each (fun _ => _ ← unwrap (parse buf); mret tt) (seq 0 iterations).
Definition encode_round {E} (r : RandomHeader) (rnd : nat -> byte) (iterations : nat) (mtu : Z)
    : exec E unit :=
  packet ← create_packet r rnd mtu;
  for_each (fun _ => let _ := to_bytes packet in mret tt) (seq 0 iterations).

(** [runs name] is how often criterion runs the closure of that name. *)
Definition benchmarks {E} (r : Z -> RandomHeader) (rnd : Z -> nat -> byte) (runs : string -> nat)
    : exec E unit :=
  _ ← for_each (fun mtu =>
        decode_round (r mtu) (rnd mtu) (runs ("decode_mtu_" +:+ pretty mtu)) mtu) BENCH_MTUS;
  for_each (fun mtu =>
        encode_round (r mtu) (rnd mtu) (runs ("encode_mtu_" +:+ pretty mtu)) mtu) BENCH_MTUS.

(** ** Packets of every size from the headers' to the largest *)

(** What the documentation of the builder promises. *)
Class PacketBuilderLaws := {
  builder_size_spec : forall r n, 0 <= n -> builder_size (ipv4_tcp_fin_psh_ack r) n = 40 + n;
  builder_write_spec : forall r pl, len pl <= 65495 ->
    exists bs ih th ipl, builder_write (ipv4_tcp_fin_psh_ack r) pl = Ok bs /\ len bs = 40 + len pl /\
      sliced_from_ip bs =
        Some (mkSlicedPacket (Some (NetIpv4 ih ipl)) (Some (SliceTcp th pl)));
}.
Context `{PL : !PacketBuilderLaws}.

Lemma create_raw_packet_ok {E} r rnd mtu :
  40 <= mtu <= 65535 ->
  exists bs ih th, @create_raw_packet E r rnd mtu = Ret bs /\ len bs = mtu /\
    parse bs = Ok (mkNetworkPacket (Ipv4 ih) (TransTcp th) (rnd <$> seq 0 (Z.to_nat (mtu - 40)))).
Proof.
  intros Hm. unfold create_raw_packet, plain_sub. rewrite (builder_size_spec r 0) by lia.
  destruct (Z.leb_spec (40 + 0) mtu); [|lia]. cbn [mbind exec_bind].
  replace (mtu - (40 + 0)) with (mtu - 40) by lia. rewrite builder_size_spec by lia.
  unfold assert_eq. replace (40 + (mtu - 40)) with mtu by lia. rewrite Z.eqb_refl.
  cbn [mbind exec_bind]. set (pl := rnd <$> _).
  assert (len pl = mtu - 40) as Hpl by (unfold len, pl; rewrite length_fmap, length_seq; lia).
  destruct (builder_write_spec r pl) as (bs & ih & th & ipl & -> & Hl & Hs); [lia|].
  cbn [unwrap mbind exec_bind]. replace (len bs) with mtu by lia. rewrite Z.eqb_refl.
  exists bs, ih, th. split; [done|]. split; [lia|]. unfold parse. rewrite Hs. done.
Qed.

Lemma for_each_ok {A E} (body : A -> exec E unit) l :
  Forall (fun x => body x = Ret tt) l -> for_each body l = Ret tt.
Proof. induction 1 as [|x l Hx _ IH]; [done|]. simpl. rewrite Hx. apply IH. Qed.

Lemma rounds_ok {E} r rnd n mtu :
  40 <= mtu <= 65535 -> @decode_round E r rnd n mtu = Ret tt /\ @encode_round E r rnd n mtu = Ret tt.
Proof.
  intros Hm. destruct (create_raw_packet_ok (E := E) r rnd mtu Hm) as (bs & ih & th & Hc & _ & Hp).
  unfold decode_round, encode_round, create_packet. rewrite Hc. cbn [mbind exec_bind]. rewrite Hp.
  split; apply for_each_ok, Forall_true; done.
Qed.

Lemma benchmarks_ok {E} r rnd runs : @benchmarks E r rnd runs = Ret tt.
Proof.
  assert (Forall (fun mtu => 40 <= mtu <= 65535) BENCH_MTUS) as Hall
    by (unfold BENCH_MTUS; repeat (constructor; [lia|]); constructor).
  assert (forall body, (forall mtu, 40 <= mtu <= 65535 -> body mtu = Ret tt) ->
    @for_each Z E body BENCH_MTUS = Ret tt) as Hloop.
  { intros body Hb. apply for_each_ok. eapply Forall_impl; [exact Hall|]. exact Hb. }
  unfold benchmarks. rewrite !Hloop; [done|..]; intros mtu Hm; by apply rounds_ok.
Qed.

End bench.

(** ** The benchmark filter *)

(** [slice::windows(n)]. *)
Fixpoint windows {A} (n : nat) (l : list A) : list (list A) :=
  match l with
  | [] => []
  | _ :: l' => if (n <=? List.length l)%nat then take n l :: windows n l' else []
  end.

Fixpoint starts_rev (suffix s : list Ascii.ascii) : bool :=
  match suffix, s with
  | [], _ => true
  | c :: suffix, d :: s => bool_decide (c = d) && starts_rev suffix s
  | _, [] => false
  end.
(** [str::ends_with]. *)
Definition ends_with (suffix s : string) : bool :=
  starts_rev (rev (list_ascii_of_string suffix)) (rev (list_ascii_of_string s)).

Definition bench_filter (args : list string) : option string :=
  head ((fun s : list string => default ""%string (s !! 2%nat)) <$>
    filter (fun p : list string =>
              (2 <=? List.length p)%nat &&
              match p with
              | p0 :: p1 :: _ => ends_with "bench" p0 && String.eqb p1 "--"
              | _ => false
              end = true) (windows 3 args)).

(** The value of [--profile-time], as text. *)
Definition profile_time (args : list string) : option string :=
  head ((fun s : list string => default ""%string (s !! 1%nat)) <$>
    filter (fun p : list string =>
              (List.length p =? 2)%nat &&
              match p with p0 :: _ => String.eqb p0 "--profile-time" | [] => false end = true)
      (windows 2 args)).

(** The same as [bench_filter], by recursion on the arguments: the argument after the first
    [... "bench"], ["--"] that has one. *)
Fixpoint filter_after (args : list string) : option string :=
  match args with
  | a :: ((d :: f :: _) as rest) =>
      if ends_with "bench" a && String.eqb d "--" then Some f else filter_after rest
  | _ => None
  end.

Lemma windows_short {A} n (l : list A) : (List.length l < n)%nat -> windows n l = [].
Proof.
  destruct l as [|x l]; [done|]. intros Hl. cbn [windows].
  by destruct (Nat.leb_spec n (List.length (x :: l))); [lia|].
Qed.

Lemma windows_3 {A} (x y z : A) l : windows 3 (x :: y :: z :: l) = [x; y; z] :: windows 3 (y :: z :: l).
Proof. done. Qed.

Lemma bench_filter_spec args : bench_filter args = filter_after args.
Proof.
  induction args as [|x args IH]; [done|]. destruct args as [|y [|z l]].
  - unfold bench_filter. by rewrite windows_short by (simpl; lia).
  - unfold bench_filter. by rewrite windows_short by (simpl; lia).
  - unfold bench_filter in *. rewrite windows_3, filter_cons. cbn [filter_after]. simpl andb.
    destruct (ends_with "bench" x && String.eqb y "--") eqn:Hm.
    + rewrite decide_True by done. done.
    + rewrite decide_False by done. exact IH.
Qed.
