(* ===== verification/BenchMain.v ===== *)
(** * The entry point of the benchmarks

    [bench] of packet.rs: it reads the filter and the profile time from the
    arguments, sets criterion up (a parameter) and runs the benchmarks.  The time
    is parsed as an [f32] and turned into a [Duration]; floats are the
    specification floats of the Standard Library, with 24 bits and exponents below
    128. *)

From Stdlib Require Import Strings.Ascii Strings.String Floats.SpecFloat.
From S2P Require Import Prelude Errors Etherparse Packet Bench.

(** ** [f32] *)

Definition f32_div : spec_float -> spec_float -> spec_float := SFdiv 24 128.
Definition f32_of_Z (m : Z) : spec_float := binary_normalize 24 128 m 0 false.

(** [m * 10^e], rounded once. *)
Definition f32_decimal (m : positive) (e : Z) : spec_float :=
  if 0 <=? e then f32_of_Z (Zpos m * 10 ^ e)
  else f32_div (S754_finite false m 0) (S754_finite false (Z.to_pos (10 ^ (- e))) 0).

Definition digit (c : ascii) : option Z :=
  let n := Z.of_N (N_of_ascii c) - 48 in if (0 <=? n) && (n <=? 9) then Some n else None.

(** The digits at the front: the number they make after [acc], how many there
    are, and the rest. *)
Fixpoint digits (acc : Z) (n : Z) (s : list ascii) : Z * Z * list ascii :=
  match s with
  | c :: s' => match digit c with Some d => digits (10 * acc + d) (n + 1) s' | None => (acc, n, s) end
  | [] => (acc, n, [])
  end.

(** An exponent: nothing, or [e] with a sign and at least one digit. *)
Definition exponent (s : list ascii) : option Z :=
  match s with
  | [] => Some 0
  | c :: s =>
      if bool_decide (c = "e"%char) || bool_decide (c = "E"%char) then
        let '(neg, s) :=
          match s with
          | c' :: s' => if bool_decide (c' = "-"%char) then (true, s')
                        else if bool_decide (c' = "+"%char) then (false, s') else (false, s)
          | [] => (false, s)
          end in
        match digits 0 0 s with
        | (x, n, []) => if n =? 0 then None else Some (if (neg : bool) then - x else x)
        | _ => None
        end
      else None
  end.

Definition number (s : list ascii) : option spec_float :=
  let '(m, n, s) := digits 0 0 s in
  let '(m, frac, s) :=
    match s with
    | c :: s' => if bool_decide (c = "."%char) then digits m 0 s' else (m, 0, s)
    | [] => (m, 0, [])
    end in
  if n + frac =? 0 then None
  else e ← exponent s; Some (match m with Zpos p => f32_decimal p (e - frac) | _ => S754_zero false end).

Definition to_lower (c : ascii) : ascii :=
  let n := N_of_ascii c in if (65 <=? n)%N && (n <=? 90)%N then ascii_of_N (n + 32) else c.

(** [str::parse::<f32>()]. *)
Definition parse_f32 (s : string) : option spec_float :=
  let '(neg, s) :=
    match list_ascii_of_string s with
    | c :: s' => if bool_decide (c = "-"%char) then (true, s')
                 else if bool_decide (c = "+"%char) then (false, s') else (false, c :: s')
    | [] => (false, [])
    end in
  let lower := string_of_list_ascii (to_lower <$> s) in
  v ← (if bool_decide (lower = "inf"%string) || bool_decide (lower = "infinity"%string)
       then Some (S754_infinity false)
       else if bool_decide (lower = "nan"%string) then Some S754_nan
       else number s);
  Some (if (neg : bool) then SFopp v else v).

(** ** [Duration::from_secs_f32], in nanoseconds *)

(** [num / den] rounded to the nearest integer, ties to the even one. *)
Definition round_even (num den : Z) : Z :=
  let q := num / den in
  match 2 * (num mod den) ?= den with
  | Lt => q
  | Gt => q + 1
  | Eq => if Z.even q then q else q + 1
  end.

(** It panics on a negative value, on one that is not finite, and on one whose
    seconds do not fit 64 bits. *)
Definition from_secs_f32 {E} (x : spec_float) : exec E Z :=
  match x with
  | S754_zero _ => Ret 0
  | S754_finite false m e =>
      let nanos :=
        if 0 <=? e then Zpos m * 2 ^ e * 1000000000
        else round_even (Zpos m * 1000000000) (2 ^ (- e)) in
      if nanos / 1000000000 <? U64 then Ret nanos else Panic PExplicit
  | _ => Panic PExplicit
  end.

(** [0.5_f32]. *)
Definition half : spec_float := S754_finite false 8388608 (-24).

(** ** [bench] *)

Class CriterionApi := {
  Criterion : Type;
  criterion_default : Criterion;
  with_output_color : bool -> Criterion -> Criterion;
  without_plots : Criterion -> Criterion;
  with_filter : string -> Criterion -> Criterion;
  warm_up_time : Z -> Criterion -> Criterion;
  measurement_time : Z -> Criterion -> Criterion;
  set_profile_time : option Z -> Criterion -> Criterion;
  (** how often [bench_function] runs the closure of a name *)
  iterations : Criterion -> string -> nat;
}.

Section bench_main.
Context `{EP : Etherparse, PB : !PacketBuilder, CR : CriterionApi}.
Context (b : Build).

Definition profile_duration {E} (s : string) : exec E Z :=
  match parse_f32 s with Some x => from_secs_f32 x | None => Panic PUnwrap end.

(** The summary at the end only prints. *)
Definition bench {E} (r : Z -> RandomHeader) (rnd : Z -> nat -> byte) (args : list string) : exec E unit :=
  match bench_filter args with
  | None => mret tt
  | Some filter =>
      let c := with_filter filter (without_plots (with_output_color true criterion_default)) in
      warm ← from_secs_f32 half;
      let c := warm_up_time warm c in
      measure ← from_secs_f32 half;
      let c := measurement_time measure c in
      profile ← match profile_time args with
                | Some s => d ← profile_duration s; mret (Some d)
                | None => mret None
                end;
      let c := set_profile_time profile c in
      benchmarks b r rnd (iterations c)
  end.

(** The benchmarks run through unless the profile time is no time. *)
Lemma bench_ok {E} `{PL : !PacketBuilderLaws} r rnd args :
  (forall s, profile_time args = Some s -> exists d, @profile_duration E s = Ret d) ->
  @bench E r rnd args = Ret tt.
Proof.
  intros Hp. unfold bench. destruct (bench_filter args) as [f|]; [|done].
  assert (@from_secs_f32 E half = Ret 500000000) as Hh by reflexivity. rewrite Hh. cbn [mbind exec_bind].
  destruct (profile_time args) as [s|]; [|exact (benchmarks_ok b r rnd _)].
  destruct (Hp s eq_refl) as [d ->]. exact (benchmarks_ok b r rnd _).
Qed.

End bench_main.

(** A few times, and texts that are none. *)
Lemma profile_durations :
  profile_duration (E := Empty_set) "5" = Ret 5000000000 /\
  profile_duration (E := Empty_set) "0.1" = Ret 100000001 /\
  profile_duration (E := Empty_set) "2.5e-3" = Ret 2500000 /\
  profile_duration (E := Empty_set) "-1" = Panic PExplicit /\
  profile_duration (E := Empty_set) "inf" = Panic PExplicit /\
  profile_duration (E := Empty_set) "soon" = Panic PUnwrap.
Proof. vm_compute. repeat split. Qed.
