(* ===== verification/Runtime.v ===== *)
(** * Runtime: the interface to tokio

    Streams and the stack talk to the world through tokio: unbounded channels,
    sleeps, wakers and read buffers.  That code is not part of the repository,
    so it is a parameter: [Runtime W A] holds the calls the crate makes, over an
    abstract world [W], with messages of type [A]; [RuntimeLaws] holds the
    documented behaviour the theorems use, through what can be observed of the
    world (the messages in flight on a channel, whether its receiver is still
    open, whether the channel was ever created, how often a waker was woken, the
    content of a read buffer, the end of the program's time).  The laws are
    deliberately weak where tokio leaves room: a receive may find nothing although
    messages are queued (tokio's cooperative budget), a sleep may be late, and time
    flows as it likes.  [Reference.v] gives an instance. *)

From S2P Require Import Prelude.

Class Runtime (W A : Type) := {
  Chan : Type;
  Chan_eq_dec :: EqDecision Chan;
  Waker : Type;
  Waker_eq_dec :: EqDecision Waker;
  ReadBuf : Type;

  (** [mpsc::unbounded_channel()]; both halves are named by the channel. *)
  chan_new : W -> Chan * W;
  (** [UnboundedSender::send]: [true] is [Ok(())]. *)
  chan_send : Chan -> A -> W -> bool * W;
  (** [UnboundedReceiver::poll_recv]. *)
  chan_poll_recv : Chan -> Waker -> W -> Poll (option A) * W;
  (** The receiver is dropped. *)
  chan_close : Chan -> W -> W;
  (** [Instant::now()], in nanoseconds, and the last instant the platform can
      represent. *)
  instant_now : W -> Z;
  instant_max : Z;
  (** Polling a [Sleep] with the given deadline: [true] is [Poll::Ready]. *)
  sleep_poll : Z -> Waker -> W -> bool * W;
  (** [Waker::wake_by_ref]. *)
  wake_by_ref : Waker -> W -> W;
  (** [ReadBuf::put_slice]; [None] is its panic. *)
  put_slice : list byte -> ReadBuf -> option ReadBuf;
  (** [ReadBuf::uninit] over a slice of the given length. *)
  read_buf_uninit : Z -> ReadBuf;
}.

Section observe.
Context {W A : Type} `{RT : Runtime W A}.

(** What can be observed of the world. *)
Class RuntimeObs := {
  queue : Chan -> W -> list A;
  rx_open : Chan -> W -> bool;
  used : Chan -> W -> bool;
  wakes : Waker -> W -> nat;
  filled : ReadBuf -> list byte;
  remaining : ReadBuf -> Z;
  (** the end of the time the program runs in *)
  horizon : Z;
}.

(** Two worlds that agree on every channel. *)
Definition same_chans `{RuntimeObs} (w w' : W) : Prop :=
  (forall c, queue c w' = queue c w) /\ (forall c, rx_open c w' = rx_open c w).

Class RuntimeLaws `{RO : RuntimeObs} := {
  (** a new channel is one that was never used *)
  chan_new_fresh : forall w, used (chan_new w).1 w = false;
  chan_open_used : forall c w, rx_open c w = true -> used c w = true;
  chan_new_queue : forall w c,
    queue c (chan_new w).2 = if decide (c = (chan_new w).1) then [] else queue c w;
  chan_new_open : forall w c,
    rx_open c (chan_new w).2 = if decide (c = (chan_new w).1) then true else rx_open c w;

  chan_new_used : forall w c, used c (chan_new w).2 = bool_decide (c = (chan_new w).1) || used c w;
  chan_send_used : forall c a w d, used d (chan_send c a w).2 = used d w;
  chan_recv_used : forall c k w d, used d (chan_poll_recv c k w).2 = used d w;
  chan_close_used : forall c w d, used d w = true -> used d (chan_close c w) = true;

  (** sending succeeds exactly while the receiver is open, and appends *)
  chan_send_ok : forall c a w, (chan_send c a w).1 = rx_open c w;
  chan_send_queue : forall c a w d,
    queue d (chan_send c a w).2 =
      if decide (d = c) then (if rx_open c w then queue c w ++ [a] else queue c w)
      else queue d w;
  chan_send_open : forall c a w d, rx_open d (chan_send c a w).2 = rx_open d w;

  (** receiving takes the oldest message or none *)
  chan_recv_spec : forall c k w,
    match (chan_poll_recv c k w).1 with
    | Ready (Some a) => queue c w = a :: queue c (chan_poll_recv c k w).2
    | Ready None => queue c w = [] /\ queue c (chan_poll_recv c k w).2 = []
    | Pending => queue c (chan_poll_recv c k w).2 = queue c w
    end;
  chan_recv_other : forall c k w d,
    d <> c -> queue d (chan_poll_recv c k w).2 = queue d w;
  chan_recv_open : forall c k w d, rx_open d (chan_poll_recv c k w).2 = rx_open d w;

  chan_close_open : forall c w d,
    rx_open d (chan_close c w) = if decide (d = c) then false else rx_open d w;
  (** ... and what was in flight to a dropped receiver is dropped *)
  chan_close_queue : forall c w d,
    queue d (chan_close c w) = if decide (d = c) then [] else queue d w;

  instant_now_horizon : forall w, instant_now w <= horizon;
  (** a sleep never ends before its deadline *)
  sleep_poll_deadline : forall d k w, (sleep_poll d k w).1 = true -> d <= instant_now w;
  sleep_poll_chans : forall d k w, same_chans w (sleep_poll d k w).2;
  sleep_poll_used : forall d k w c, used c (sleep_poll d k w).2 = used c w;

  wake_chans : forall k w, same_chans w (wake_by_ref k w);
  wake_used : forall k w c, used c (wake_by_ref k w) = used c w;
  wake_counts : forall k w k',
    wakes k' (wake_by_ref k w) = (if decide (k' = k) then S (wakes k' w) else wakes k' w);

  put_slice_fits : forall bs b,
    len bs <= remaining b ->
    exists b', put_slice bs b = Some b' /\
      filled b' = filled b ++ bs /\ remaining b' = remaining b - len bs;
  put_slice_overflow : forall bs b, remaining b < len bs -> put_slice bs b = None;
  read_buf_uninit_spec : forall n,
    0 <= n -> filled (read_buf_uninit n) = [] /\ remaining (read_buf_uninit n) = n;
}.

End observe.
Arguments RuntimeObs W A {RT}.
Arguments RuntimeLaws W A {RT RO}.
Arguments instant_max W {A _}.
Arguments horizon W {A RT _}.

(** A duration after every instant of the program there still are instants. *)
Definition timely {W A} `{RO : RuntimeObs W A} (d : Z) : Prop := horizon W + d <= instant_max W.

Lemma timely_add {W A E} `{RL : RuntimeLaws W A} (d : Z) (w : W) :
  timely d -> @instant_add E (instant_max W) (instant_now w) d = Ret (instant_now w + d).
Proof. intros Hd. apply instant_add_ok. pose proof (instant_now_horizon w). unfold timely in Hd. lia. Qed.

#[export] Instance same_chans_preorder {W A} `{RO : RuntimeObs W A} : PreOrder same_chans.
Proof.
  split.
  - by split.
  - intros w1 w2 w3 [Hq1 Ho1] [Hq2 Ho2]. split; intros c; by rewrite ?Hq2, ?Ho2.
Qed.
