(* ===== verification/Tcb.v ===== *)
(** * The TCP control block: stream/tcb.rs

    The record of a connection, its operations, and the facts about each of
    them: widths, the average window, the packet classification, the
    acknowledgment of in-flight data, the reassembly map.  [TcbSpec.v] states
    what the block promises to the stream as a byte-stream specification. *)

From S2P Require Import Prelude Etherparse Packet.

Definition MAX_UNACK : Z := 1024 * 16.
Definition READ_BUFFER_SIZE : Z := 1024 * 16.

Inductive TcpState :=
  | SynReceived (syn_ack_sent : bool)
  | Established
  | FinWait1 (b : bool)
  | FinWait2 (waiting_for_ack : bool)
  | Closed.
#[export] Instance TcpState_eq_dec : EqDecision TcpState.
Proof. solve_decision. Defined.

Inductive PacketStatus :=
  | WindowUpdate
  | Invalid
  | RetransmissionRequest
  | NewPacket
  | Ack
  | KeepAlive.
#[export] Instance PacketStatus_eq_dec : EqDecision PacketStatus.
Proof. solve_decision. Defined.

(** ** In-flight and out-of-order packets *)

Record InflightPacket := mkInflightPacket {
  inflight_seq : Z;
  inflight_payload : list byte;
}.

(** [InflightPacket::contains]: the second conjunct is evaluated only if the
    first holds, and its addition is a plain [+] on [u32]. *)
Definition contains {E} (b : Build) (p : InflightPacket) (seq : Z) : exec E bool :=
  if inflight_seq p <? seq then
    last ← plain_add b U32 (inflight_seq p) (cast U32 (len (inflight_payload p)));
    mret (seq <=? last)
  else mret false.

Record UnorderedPacket := mkUnorderedPacket {
  unordered_payload : list byte;
}.

(** ** The control block *)

Record Tcb := mkTcb {
  seq : Z;
  retransmission : option Z;
  ack : Z;
  last_ack : Z;
  timeout : Z;                                  (** the deadline of the sleep *)
  tcp_timeout : Z;
  recv_window : Z;
  send_window : Z;
  state : TcpState;
  avg_send_window : Z * Z;                      (** (avg, count) *)
  inflight_packets : list InflightPacket;
  unordered_packets : gmap Z UnorderedPacket;   (** BTreeMap<u32, UnorderedPacket> *)
}.

(** Field assignments. *)
Definition set_seq (v : Z) (t : Tcb) : Tcb :=
  mkTcb v (retransmission t) (ack t) (last_ack t) (timeout t) (tcp_timeout t) (recv_window t)
    (send_window t) (state t) (avg_send_window t) (inflight_packets t) (unordered_packets t).
Definition set_retransmission (v : option Z) (t : Tcb) : Tcb :=
  mkTcb (seq t) v (ack t) (last_ack t) (timeout t) (tcp_timeout t) (recv_window t)
    (send_window t) (state t) (avg_send_window t) (inflight_packets t) (unordered_packets t).
Definition set_ack (v : Z) (t : Tcb) : Tcb :=
  mkTcb (seq t) (retransmission t) v (last_ack t) (timeout t) (tcp_timeout t) (recv_window t)
    (send_window t) (state t) (avg_send_window t) (inflight_packets t) (unordered_packets t).
Definition set_last_ack (v : Z) (t : Tcb) : Tcb :=
  mkTcb (seq t) (retransmission t) (ack t) v (timeout t) (tcp_timeout t) (recv_window t)
    (send_window t) (state t) (avg_send_window t) (inflight_packets t) (unordered_packets t).
Definition set_timeout (v : Z) (t : Tcb) : Tcb :=
  mkTcb (seq t) (retransmission t) (ack t) (last_ack t) v (tcp_timeout t) (recv_window t)
    (send_window t) (state t) (avg_send_window t) (inflight_packets t) (unordered_packets t).
Definition set_recv_window (v : Z) (t : Tcb) : Tcb :=
  mkTcb (seq t) (retransmission t) (ack t) (last_ack t) (timeout t) (tcp_timeout t) v
    (send_window t) (state t) (avg_send_window t) (inflight_packets t) (unordered_packets t).
Definition set_send_window (v : Z) (avg : Z * Z) (t : Tcb) : Tcb :=
  mkTcb (seq t) (retransmission t) (ack t) (last_ack t) (timeout t) (tcp_timeout t)
    (recv_window t) v (state t) avg (inflight_packets t) (unordered_packets t).
Definition set_state (v : TcpState) (t : Tcb) : Tcb :=
  mkTcb (seq t) (retransmission t) (ack t) (last_ack t) (timeout t) (tcp_timeout t)
    (recv_window t) (send_window t) v (avg_send_window t) (inflight_packets t)
    (unordered_packets t).
Definition set_inflight (v : list InflightPacket) (t : Tcb) : Tcb :=
  mkTcb (seq t) (retransmission t) (ack t) (last_ack t) (timeout t) (tcp_timeout t)
    (recv_window t) (send_window t) (state t) (avg_send_window t) v (unordered_packets t).
Definition set_unordered (v : gmap Z UnorderedPacket) (t : Tcb) : Tcb :=
  mkTcb (seq t) (retransmission t) (ack t) (last_ack t) (timeout t) (tcp_timeout t)
    (recv_window t) (send_window t) (state t) (avg_send_window t) (inflight_packets t) v.

(** [Tcb::new]: [rnd] is what [rand::random] returns, [now] what
    [Instant::now] does, [last] is the last instant there is. *)
Definition tcb_start (b : Build) (rnd deadline : Z) (ack tcp_timeout : Z) : Tcb :=
  let seq := if debug_assertions b then 100 else rnd in
  {| seq := seq;
     retransmission := None;
     ack := ack;
     last_ack := seq;
     tcp_timeout := tcp_timeout;
     timeout := deadline;
     send_window := U16 - 1;
     recv_window := 0;
     state := SynReceived false;
     avg_send_window := (1, 1);
     inflight_packets := [];
     unordered_packets := ∅ |}.
Definition tcb_new {E} (b : Build) (last rnd now : Z) (ack tcp_timeout : Z) : exec E Tcb :=
  deadline ← instant_add last now tcp_timeout;
  mret (tcb_start b rnd deadline ack tcp_timeout).

Definition add_inflight_packet (seq' : Z) (buf : list byte) (t : Tcb) : Tcb :=
  let buf_len := cast U32 (len buf) in
  let t := set_inflight (inflight_packets t ++ [mkInflightPacket seq' buf]) t in
  set_seq (wrapping_add U32 (seq t) buf_len) t.

Definition add_unordered_packet (seq' : Z) (buf : list byte) (t : Tcb) : Tcb :=
  if seq' <? ack t then t
  else set_unordered (<[seq' := mkUnorderedPacket buf]> (unordered_packets t)) t.

(** The bytes waiting in the reassembly map. *)
Definition unordered_size (m : gmap Z UnorderedPacket) : Z :=
  map_fold (fun _ p acc => acc + len (unordered_payload p)) 0 m.

Definition get_available_read_buffer_size (t : Tcb) : Z :=
  saturating_sub READ_BUFFER_SIZE (unordered_size (unordered_packets t)).

(** Removes the packet that starts at [ack], if any. *)
Definition get_unordered_packets (t : Tcb) : option (list byte) * Tcb :=
  (unordered_payload <$> unordered_packets t !! ack t,
   set_unordered (delete (ack t) (unordered_packets t)) t).

Definition add_seq_one (t : Tcb) : Tcb := set_seq (wrapping_add U32 (seq t) 1) t.
Definition get_seq (t : Tcb) : Z := seq t.
Definition add_ack (add : Z) (t : Tcb) : Tcb := set_ack (wrapping_add U32 (ack t) add) t.
Definition get_ack (t : Tcb) : Z := ack t.
Definition get_last_ack (t : Tcb) : Z := last_ack t.
Definition change_state (s : TcpState) (t : Tcb) : Tcb := set_state s t.
Definition get_state (t : Tcb) : TcpState := state t.

(** The running average is kept in [u64]s with plain arithmetic. *)
Definition change_send_window {E} (b : Build) (window : Z) (t : Tcb) : exec E Tcb :=
  let '(avg, count) := avg_send_window t in
  prod ← plain_mul b U64 avg count;
  sum ← plain_add b U64 prod window;
  count1 ← plain_add b U64 count 1;
  avg ← plain_div sum count1;
  mret (set_send_window window (avg, count1) t).

Definition get_send_window (t : Tcb) : Z := send_window t.
Definition get_avg_send_window (t : Tcb) : Z := (avg_send_window t).1.
Definition change_recv_window (window : Z) (t : Tcb) : Tcb := set_recv_window window t.
Definition get_recv_window (t : Tcb) : Z := recv_window t.

Definition is_send_buffer_full (t : Tcb) : bool :=
  MAX_UNACK <=? wrapping_sub U32 (seq t) (last_ack t).

Definition reset_timeout {E} (last now : Z) (t : Tcb) : exec E Tcb :=
  deadline ← instant_add last now (tcp_timeout t);
  mret (set_timeout deadline t).
(** What it leaves when it does not panic. *)
Definition rearm (now : Z) (t : Tcb) : Tcb := set_timeout (now + tcp_timeout t) t.

Lemma reset_timeout_inv {E} last now t t' : @reset_timeout E last now t = Ret t' -> t' = rearm now t.
Proof. unfold reset_timeout, instant_add. case_match; [by intros [= <-]|done]. Qed.

Section check.
Context `{EP : Etherparse}.

Definition check_pkt_type (t : Tcb) (header : TcpHeaderWrapper) (p : list byte) : PacketStatus :=
  let tcp_header := inner header in
  let received_ack_distance := wrapping_sub U32 (seq t) (acknowledgment_number tcp_header) in
  let current_ack_distance := wrapping_sub U32 (seq t) (last_ack t) in
  if (current_ack_distance <? received_ack_distance)
     || (negb (acknowledgment_number tcp_header =? seq t)
         && (saturating_sub (seq t) (acknowledgment_number tcp_header) =? 0))
  then Invalid
  else if last_ack t =? acknowledgment_number tcp_header then
    if negb (bool_decide (p = [])) then NewPacket
    else if (send_window t =? window_size tcp_header) && negb (seq t =? last_ack t)
    then RetransmissionRequest
    else if wrapping_sub U32 (ack t) 1 =? sequence_number tcp_header then KeepAlive
    else WindowUpdate
  else if last_ack t <? acknowledgment_number tcp_header then
    if negb (bool_decide (p = [])) then NewPacket else Ack
  else Invalid.

End check.

(** [iter().position(|p| p.contains(ack))]: stops at the first hit, or at the
    first panic. *)
Fixpoint position_contains {E} (b : Build) (ack : Z) (l : list InflightPacket)
    : exec E (option nat) :=
  match l with
  | [] => mret None
  | p :: l =>
      hit ← contains b p ack;
      if (hit : bool) then mret (Some O)
      else i ← position_contains b ack l; mret (S <$> i)
  end.

(** The [retain] predicate of [change_last_ack]. *)
Definition retained (last_ack : Z) (p : InflightPacket) : bool :=
  let last_byte :=
    wrapping_add U32 (inflight_seq p) (cast U32 (len (inflight_payload p))) in
  0 <? saturating_sub last_byte last_ack.

(** The packet that contains the acknowledgment is taken out, and what is left
    of it put back at the end of the list. *)
Definition split_inflight (ack : Z) (i : nat) (l : list InflightPacket) : list InflightPacket :=
  match l !! i with
  | None => l
  | Some p =>
      let l := delete i l in
      let distance := wrapping_sub U32 ack (inflight_seq p) in
      if distance <? len (inflight_payload p)
      then l ++ [mkInflightPacket ack (drain_front distance (inflight_payload p))]
      else l
  end.

Definition change_last_ack {E} (b : Build) (ack : Z) (t : Tcb) : exec E Tcb :=
  let distance := wrapping_sub U32 ack (last_ack t) in
  let t := set_last_ack (wrapping_add U32 (last_ack t) distance) t in
  if decide (state t = Established) then
    i ← position_contains b ack (inflight_packets t);
    let l := match i with
             | Some i => split_inflight ack i (inflight_packets t)
             | None => inflight_packets t
             end in
    mret (set_inflight (filter (fun p => retained (last_ack t) p = true) l) t)
  else mret t.

(** ** Well-formedness: every field in the range of its type *)

Record tcb_wf (t : Tcb) : Prop := {
  wf_seq : seq t ∈u U32;
  wf_ack : ack t ∈u U32;
  wf_last_ack : last_ack t ∈u U32;
  wf_recv_window : recv_window t ∈u U16;
  wf_send_window : send_window t ∈u U16;
  wf_avg : (avg_send_window t).1 ∈u U64;
  wf_count : (avg_send_window t).2 ∈u U64;
  wf_inflight : Forall (fun p => inflight_seq p ∈u U32) (inflight_packets t);
  wf_unordered : map_Forall (fun k _ => k ∈u U32) (unordered_packets t);
}.

(** The number of window updates after which the running average could
    overflow a [u64] is out of reach; [count_ok n] says that [n] more of them are
    within it. *)
Definition count_ok (n : Z) (t : Tcb) : Prop :=
  (avg_send_window t).1 ∈u U16 /\ 1 <= (avg_send_window t).2 /\ (avg_send_window t).2 + n < 2 ^ 47.

Lemma tcb_start_wf b rnd dl a d :
  rnd ∈u U32 -> a ∈u U32 -> tcb_wf (tcb_start b rnd dl a d).
Proof.
  intros. unfold tcb_start. destruct (debug_assertions b); split; simpl;
    try done; try lia; by apply map_Forall_empty.
Qed.

Lemma add_inflight_packet_wf s buf t :
  s ∈u U32 -> tcb_wf t -> tcb_wf (add_inflight_packet s buf t).
Proof.
  intros Hs []. split; simpl; auto with ipstack lia.
  apply Forall_app; split; [done|]. by constructor.
Qed.

Lemma add_unordered_packet_wf s buf t :
  s ∈u U32 -> tcb_wf t -> tcb_wf (add_unordered_packet s buf t).
Proof.
  intros Hs []. unfold add_unordered_packet. case_match; [by split|].
  split; simpl; auto. by apply map_Forall_insert_2.
Qed.

Lemma get_unordered_packets_wf t : tcb_wf t -> tcb_wf (get_unordered_packets t).2.
Proof. intros []. split; simpl; auto. by apply map_Forall_delete. Qed.

Lemma add_seq_one_wf t : tcb_wf t -> tcb_wf (add_seq_one t).
Proof. intros []. split; simpl; auto with ipstack lia. Qed.

Lemma add_ack_wf n t : tcb_wf t -> tcb_wf (add_ack n t).
Proof. intros []. split; simpl; auto with ipstack lia. Qed.

Lemma change_recv_window_wf n t : n ∈u U16 -> tcb_wf t -> tcb_wf (change_recv_window n t).
Proof. intros ? []. by split. Qed.

(** Assignments of fields that carry no range constraint. *)
Lemma set_state_wf s t : tcb_wf t -> tcb_wf (set_state s t).
Proof. intros []. by split. Qed.
Lemma set_timeout_wf d t : tcb_wf t -> tcb_wf (set_timeout d t).
Proof. intros []. by split. Qed.
Lemma set_retransmission_wf r t : tcb_wf t -> tcb_wf (set_retransmission r t).
Proof. intros []. by split. Qed.

(** ** The window average *)

(** A weighted mean lies between its operands. *)
Lemma weighted_mean_between a n w :
  0 <= a -> 0 <= w -> 1 <= n ->
  Z.min a w <= (a * n + w) / (n + 1) <= Z.max a w.
Proof.
  intros. split.
  - apply Z.div_le_lower_bound; nia.
  - apply Z.div_le_upper_bound; nia.
Qed.

(** While the counter is below 2^47, the update does not overflow, whatever the
    build, and computes the mean. *)
Lemma change_send_window_ok {E} b w t :
  w ∈u U16 -> count_ok 0 t ->
  @change_send_window E b w t =
    Ret (set_send_window w
           (((avg_send_window t).1 * (avg_send_window t).2 + w) / ((avg_send_window t).2 + 1),
            (avg_send_window t).2 + 1) t).
Proof.
  intros Hw (Ha & Hn & Hc). unfold change_send_window, plain_mul, plain_add in *.
  destruct (avg_send_window t) as [a n]; simpl in *.
  assert (a * n <= 65535 * 2 ^ 47) by (apply Z.mul_le_mono_nonneg; lia).
  rewrite arith_small by lia. unfold mbind, exec_bind, mret, exec_ret; cbn beta iota.
  rewrite arith_small by lia. cbn beta iota.
  rewrite arith_small by lia. cbn beta iota. unfold plain_div.
  destruct (Z.eqb_spec (n + 1) 0); [lia|done].
Qed.

(** ... so one update less is within the range. *)
Lemma change_send_window_count {E} b w t t' n :
  w ∈u U16 -> 0 <= n -> count_ok (n + 1) t ->
  @change_send_window E b w t = Ret t' -> count_ok n t'.
Proof.
  intros Hw Hn Hc. assert (count_ok 0 t) as Hc0 by (destruct Hc as (? & ? & ?); repeat split; lia).
  rewrite change_send_window_ok by done. intros [= <-]. destruct Hc as (Ha & H1 & H2).
  pose proof (weighted_mean_between (avg_send_window t).1 (avg_send_window t).2 w).
  split; simpl; lia.
Qed.

(** The update stays in the range of the types in any case. *)
Lemma arith_range {E} b w z v : 0 < w -> 0 <= z -> @arith E b w z = Ret v -> v ∈u w.
Proof.
  intros Hw Hz. unfold arith. destruct (Z.ltb_spec z w); [intros [= <-]; lia|].
  case_match; [done|]. intros [= <-]. by apply Z.mod_pos_bound.
Qed.

Lemma change_send_window_wf {E} b w t t' :
  w ∈u U16 -> tcb_wf t -> @change_send_window E b w t = Ret t' -> tcb_wf t'.
Proof.
  intros Hw [] Heq. unfold change_send_window, plain_mul, plain_add, plain_div in Heq.
  destruct (avg_send_window t) as [a n]; simpl in *. unfold mbind, exec_bind in Heq.
  destruct (arith b U64 (a * n)) as [prod| |] eqn:H1; [|done..].
  apply arith_range in H1; [|lia|nia].
  destruct (arith b U64 (prod + w)) as [sum| |] eqn:H2; [|done..]. apply arith_range in H2; [|lia..].
  destruct (arith b U64 (n + 1)) as [n1| |] eqn:H3; [|done..]. apply arith_range in H3; [|lia..].
  destruct (Z.eqb_spec n1 0); [done|]. injection Heq as <-. split; simpl; auto.
  assert (0 <= sum / n1 <= sum); [|lia].
  split; [apply Z.div_pos; lia|apply Z.div_le_upper_bound; nia].
Qed.

(** ** Bounds of the receive window *)

Lemma unordered_size_nonneg m : 0 <= unordered_size m.
Proof.
  unfold unordered_size.
  apply (map_fold_weak_ind (fun r _ => 0 <= r)); [done|].
  intros. pose proof (len_nonneg (unordered_payload x)). lia.
Qed.

Lemma available_bounds t : 0 <= get_available_read_buffer_size t <= READ_BUFFER_SIZE.
Proof.
  unfold get_available_read_buffer_size, saturating_sub.
  pose proof (unordered_size_nonneg (unordered_packets t)). unfold READ_BUFFER_SIZE in *. lia.
Qed.

#[export] Hint Resolve add_inflight_packet_wf add_unordered_packet_wf get_unordered_packets_wf
  add_seq_one_wf add_ack_wf change_recv_window_wf set_state_wf set_timeout_wf
  set_retransmission_wf : ipstack.

(** ** The packet classification *)

Section classify.
Context `{EP : Etherparse}.
Implicit Types (h : TcpHeaderWrapper) (p : list byte).

(** Outside wrap-around, a packet is valid exactly when it acknowledges
    something between the last acknowledgment and the next byte to send. *)
Lemma check_pkt_type_valid t h p :
  tcb_wf t -> acknowledgment_number (inner h) ∈u U32 -> last_ack t <= seq t ->
  check_pkt_type t h p <> Invalid <->
  last_ack t <= acknowledgment_number (inner h) <= seq t.
Proof.
  intros [] Ha Hle. unfold check_pkt_type.
  repeat case_match; propify; split; intros; try done; try (exfalso; done); try word.
  all: destruct_or?; word.
Qed.

(** Once the sequence number has wrapped past zero with data outstanding, no
    packet at all is classified as valid. *)
Lemma check_pkt_type_wrapped t h p :
  tcb_wf t -> acknowledgment_number (inner h) ∈u U32 -> seq t < last_ack t ->
  check_pkt_type t h p = Invalid.
Proof.
  intros [] Ha Hlt. unfold check_pkt_type.
  repeat case_match; propify; try done; word.
Qed.

End classify.

(** ** Acknowledging in-flight data *)

Lemma change_last_ack_frame {E} b a t t' :
  tcb_wf t -> a ∈u U32 -> @change_last_ack E b a t = Ret t' ->
  exists l, t' = set_inflight l (set_last_ack a t) /\
    Forall (fun p => inflight_seq p ∈u U32) l.
Proof.
  intros Hwf Ha. unfold change_last_ack. rewrite wrapping_add_sub by done.
  case_decide as Hs.
  - unfold mbind, exec_bind. destruct position_contains as [i|e|q]; [|done..].
    intros [= <-]. eexists. split; [done|]. apply Forall_filter_2. simpl.
    destruct i as [i|]; [|apply Hwf]. unfold split_inflight.
    destruct (inflight_packets t !! i); [|apply Hwf].
    case_match; [apply Forall_app; split; [|by constructor]|]; apply Forall_delete, Hwf.
  - intros [= <-]. exists (inflight_packets t). split; [by destruct t|apply Hwf].
Qed.

Lemma change_last_ack_wf {E} b a t t' :
  tcb_wf t -> a ∈u U32 -> @change_last_ack E b a t = Ret t' -> tcb_wf t'.
Proof.
  intros Hwf Ha Heq. apply change_last_ack_frame in Heq as (l & -> & Hl); [|done..].
  destruct Hwf. by split.
Qed.

(** Outside the established state only the acknowledgment number is stored. *)
Lemma change_last_ack_other {E} b a t :
  a ∈u U32 -> state t <> Established -> @change_last_ack E b a t = Ret (set_last_ack a t).
Proof.
  intros. unfold change_last_ack. rewrite wrapping_add_sub by done. by case_decide.
Qed.
