(* ===== verification/TcbSpec.v ===== *)
(** * What the control block promises: byte streams

    Two abstract components and the refinement theorems of the control block.

    Sending side: [SendBuf] is the sequence number of the oldest unacknowledged
    byte and the bytes from there on.  The block keeps it as a list of in-flight
    packets in no particular order (a partly acknowledged packet moves to the
    end); [send_rel] says the packets tile the unacknowledged bytes.

    Receiving side: [recv_rel] says that the reassembly map holds pieces of the
    peer's byte stream.  Both hold as long as sequence numbers do not wrap. *)

From S2P Require Import Prelude Etherparse Packet Tcb.

(** ** The send buffer *)

Record SendBuf := mkSendBuf {
  una : Z;
  unacked : list byte;
}.

Definition sb_write (bs : list byte) (s : SendBuf) : SendBuf :=
  mkSendBuf (una s) (unacked s ++ bs).
Definition sb_ack (a : Z) (s : SendBuf) : SendBuf :=
  mkSendBuf a (drain_front (a - una s) (unacked s)).

(** [tiles u l v]: the packets of [l], in order, cover [u..v) without gaps; some
    of them may be empty. *)
Fixpoint tiles (u : Z) (l : list InflightPacket) (v : Z) : Prop :=
  match l with
  | [] => u = v
  | p :: l =>
      inflight_seq p = u /\ tiles (u + len (inflight_payload p)) l v
  end.

Definition bytes_of (l : list InflightPacket) : list byte :=
  concat (map inflight_payload l).

Definition send_rel (t : Tcb) (s : SendBuf) : Prop :=
  exists l, l ≡ₚ inflight_packets t /\ tiles (una s) l (seq t) /\
    unacked s = bytes_of l /\ last_ack t = una s /\ 0 <= una s /\ seq t < U32.

(** *** Tilings *)

Lemma tiles_len u l v : tiles u l v -> v = u + len (bytes_of l).
Proof.
  revert u. induction l as [|p l IH]; intros u; simpl.
  - unfold bytes_of. simpl. rewrite len_nil. lia.
  - intros [_ H]. apply IH in H. unfold bytes_of in *. simpl. rewrite len_app. lia.
Qed.

Lemma tiles_le u l v : tiles u l v -> u <= v.
Proof. intros ->%tiles_len. pose proof (len_nonneg (bytes_of l)). lia. Qed.

Lemma tiles_app u l k v w :
  tiles u l v -> tiles v k w -> tiles u (l ++ k) w.
Proof.
  revert u. induction l as [|p l IH]; intros u; simpl; [by intros ->|].
  intros [? ?] ?. eauto.
Qed.

(** Every tile lies inside the tiled range. *)
Lemma tiles_in u l v p :
  tiles u l v -> p ∈ l ->
  u <= inflight_seq p /\ inflight_seq p + len (inflight_payload p) <= v.
Proof.
  revert u. induction l as [|q l IH]; intros u; simpl; [by intros _ ?%not_elem_of_nil|].
  intros [Hs Ht] [->|Hin]%elem_of_cons.
  - apply tiles_le in Ht. auto with lia.
  - pose proof (len_nonneg (inflight_payload q)). apply IH in Ht as [? ?]; auto with lia.
Qed.

(** [has a p]: the packet ends at or after [a] and starts before it. *)
Definition has (a : Z) (p : InflightPacket) : Prop :=
  inflight_seq p < a <= inflight_seq p + len (inflight_payload p).
#[export] Instance has_dec a p : Decision (has a p).
Proof. unfold has. apply _. Defined.

Lemma tiles_has_none u l v a : tiles u l v -> a <= u -> filter (has a) l = [].
Proof.
  intros Ht Hle. apply filter_none. intros p Hp Hh.
  apply (tiles_in _ _ _ _ Ht) in Hp as [? _]. destruct Hh. lia.
Qed.

Lemma tiles_has_one u l v a : tiles u l v -> (length (filter (has a) l) <= 1)%nat.
Proof.
  revert u. induction l as [|p l IH]; intros u; simpl; [lia|].
  intros [Hs Ht]. rewrite filter_cons. case_decide as Hh; [|eauto].
  rewrite (tiles_has_none _ _ _ _ Ht); [done|]. destruct Hh. lia.
Qed.

(** *** One packet under an acknowledgment *)

Definition ack_one (a : Z) (p : InflightPacket) : list InflightPacket :=
  if inflight_seq p + len (inflight_payload p) <=? a then []
  else if inflight_seq p <? a
  then [mkInflightPacket a (drain_front (a - inflight_seq p) (inflight_payload p))]
  else [p].

(** A packet in range. *)
Definition in_range (p : InflightPacket) : Prop :=
  0 <= inflight_seq p /\ inflight_seq p + len (inflight_payload p) < U32.

Lemma contains_spec {E} b p a :
  in_range p -> @contains E b p a = Ret (bool_decide (has a p)).
Proof.
  intros [? ?]. pose proof (len_nonneg (inflight_payload p)).
  unfold contains, has, plain_add. destruct (Z.ltb_spec (inflight_seq p) a).
  - rewrite cast_small by lia. rewrite arith_small by lia.
    unfold mbind, exec_bind, mret, exec_ret. f_equal. symmetry.
    destruct (Z.leb_spec a (inflight_seq p + len (inflight_payload p)));
      [apply bool_decide_eq_true | apply bool_decide_eq_false]; lia.
  - unfold mret, exec_ret. f_equal. symmetry. apply bool_decide_eq_false. lia.
Qed.

Lemma retained_spec a p :
  in_range p -> retained a p = true <-> a < inflight_seq p + len (inflight_payload p).
Proof.
  intros [? ?]. pose proof (len_nonneg (inflight_payload p)).
  unfold retained. rewrite cast_small, wrapping_add_small by lia.
  rewrite Z.ltb_lt. unfold saturating_sub. lia.
Qed.

Lemma ack_one_not_has a p :
  in_range p -> ~ has a p -> ack_one a p = filter (fun q => retained a q = true) [p].
Proof.
  intros Hr Hn. rewrite filter_cons, filter_nil. unfold ack_one, has in *.
  pose proof (len_nonneg (inflight_payload p)).
  case_decide as Hd; rewrite (retained_spec a p Hr) in Hd; repeat case_match; propify; auto; lia.
Qed.

Lemma ack_filter_not_has a l :
  Forall in_range l -> filter (has a) l = [] ->
  filter (fun q => retained a q = true) l = l ≫= ack_one a.
Proof.
  induction l as [|p l IH]; [done|]. intros [Hp Hl]%Forall_cons Hf.
  rewrite filter_cons in Hf. case_decide; [done|].
  rewrite bind_cons, ack_one_not_has, <-IH by done.
  rewrite !filter_cons, filter_nil. by case_decide.
Qed.

(** *** The acknowledgment of a whole list *)

Lemma split_inflight_cons a i p l :
  split_inflight a (S i) (p :: l) ≡ₚ p :: split_inflight a i l.
Proof. unfold split_inflight. simpl. destruct (l !! i); [|done]. by case_match. Qed.

(** The position search and the split together: the packets change one by one,
    up to the order of the list. *)
Lemma ack_inflight {E} b a l :
  Forall in_range l -> 0 <= a -> (length (filter (has a) l) <= 1)%nat ->
  exists i, @position_contains E b a l = Ret i /\
    filter (fun q => retained a q = true)
      (match i with Some i => split_inflight a i l | None => l end) ≡ₚ l ≫= ack_one a.
Proof.
  intros Hl Ha. induction Hl as [|p l Hp Hl IH]; intros Hf; [by exists None|].
  simpl position_contains. rewrite contains_spec by done.
  unfold mbind at 1, exec_bind at 1. rewrite filter_cons in Hf. case_decide as Hh.
  - rewrite bool_decide_eq_true_2 by done. exists (Some 0%nat). split; [done|].
    simpl in Hf. assert (filter (has a) l = []) as Hnone
      by (apply nil_length_inv; lia).
    rewrite bind_cons. unfold split_inflight. simpl.
    destruct Hp as [? ?], Hh. pose proof (len_nonneg (inflight_payload p)).
    rewrite wrapping_sub_small by lia. unfold ack_one at 1.
    destruct (Z.ltb_spec (a - inflight_seq p) (len (inflight_payload p))).
    + rewrite (proj2 (Z.leb_gt _ _)), (proj2 (Z.ltb_lt _ _)) by lia.
      rewrite filter_app, (ack_filter_not_has a l) by done.
      rewrite (Permutation_app_comm _ (filter _ _)). apply Permutation_app_tail.
      rewrite filter_cons, filter_nil, decide_True; [done|].
      apply retained_spec; unfold in_range; simpl; rewrite len_drain_front by lia.
      * lia.
      * lia.
    + rewrite (proj2 (Z.leb_le _ _)) by lia. by rewrite ack_filter_not_has.
  - rewrite bool_decide_eq_false_2 by done. destruct (IH Hf) as (i & -> & Hi).
    exists (S <$> i). split; [done|].
    rewrite bind_cons, ack_one_not_has by done. rewrite <-Hi.
    destruct i as [i|]; simpl;
      [rewrite split_inflight_cons|]; rewrite filter_cons, (filter_cons _ _ []), filter_nil;
      by case_decide.
Qed.

(** The same on a tiling: what remains tiles from the acknowledgment on, and
    holds the remaining bytes. *)
Lemma tiles_ack_before u l v a :
  tiles u l v -> a <= u -> tiles u (l ≫= ack_one a) v /\ bytes_of (l ≫= ack_one a) = bytes_of l.
Proof.
  revert u. induction l as [|p l IH]; intros u; [done|].
  cbn [tiles]. intros [Hs Ht] Hle. pose proof (len_nonneg (inflight_payload p)).
  destruct (IH _ Ht) as [IH1 IH2]; [lia|]. rewrite bind_cons. unfold ack_one at 1 3.
  rewrite (proj2 (Z.ltb_ge (inflight_seq p) a)) by lia. destruct (Z.leb_spec (inflight_seq p + len (inflight_payload p)) a).
  - assert (inflight_payload p = []) as Hp by (apply len_zero; lia). unfold bytes_of in *. simpl.
    rewrite Hp in *. rewrite len_nil, Z.add_0_r in IH1. done.
  - split; [by split|]. unfold bytes_of in *. simpl. by rewrite IH2.
Qed.

Lemma tiles_ack u l v a :
  tiles u l v -> u <= a <= v ->
  tiles a (l ≫= ack_one a) v /\
  bytes_of (l ≫= ack_one a) = drain_front (a - u) (bytes_of l).
Proof.
  revert u. induction l as [|p l IH]; intros u; cbn [tiles].
  - intros -> ?. assert (a = v) as -> by lia. by rewrite Z.sub_diag.
  - intros [Hs Ht] Ha. destruct (decide (a = u)) as [->|Hau].
    { rewrite Z.sub_diag. by apply (tiles_ack_before u (p :: l)). }
    pose proof (len_nonneg (inflight_payload p)). rewrite bind_cons. unfold ack_one at 1 3.
    unfold bytes_of at 2; simpl. rewrite drain_front_app by lia. rewrite Hs.
    destruct (Z.leb_spec (u + len (inflight_payload p)) a); [|rewrite (proj2 (Z.ltb_lt _ _)) by lia].
    + destruct (IH _ Ht) as [IH1 IH2]; [lia|]. split; [done|]. simpl. rewrite IH2.
      rewrite (drain_front_ge (a - u)) by lia. simpl. f_equal. lia.
    + destruct (tiles_ack_before _ _ _ a Ht) as [IH1 IH2]; [lia|]. split.
      * simpl. split; [done|]. rewrite len_drain_front by lia.
        replace (a + _) with (u + len (inflight_payload p)) by lia. done.
      * unfold bytes_of in *. simpl. rewrite IH2. f_equal.
        unfold drain_front. replace (Z.to_nat (a - u - _)) with 0%nat by lia. done.
Qed.

(** *** Refinement of the send buffer *)

Lemma send_rel_in_range t s : send_rel t s -> Forall in_range (inflight_packets t).
Proof.
  intros (l & Hp & Ht & _ & _ & ? & ?). apply Forall_forall. intros p Hin.
  rewrite <-Hp in Hin. apply (tiles_in _ _ _ _ Ht) in Hin as [? ?].
  unfold in_range. auto with lia.
Qed.

(** The relation only looks at four fields. *)
Lemma send_rel_ext t t' s :
  seq t' = seq t -> last_ack t' = last_ack t -> inflight_packets t' = inflight_packets t ->
  send_rel t s -> send_rel t' s.
Proof. unfold send_rel. by intros -> -> ->. Qed.

Lemma add_inflight_packet_rel t s bs :
  send_rel t s -> seq t + len bs < U32 ->
  send_rel (add_inflight_packet (seq t) bs t) (sb_write bs s).
Proof.
  intros (l & Hp & Ht & Hu & Hl & Hpos & Hlt) Hfit.
  pose proof (tiles_le _ _ _ Ht). pose proof (len_nonneg bs).
  exists (l ++ [mkInflightPacket (seq t) bs]). simpl.
  rewrite cast_small, wrapping_add_small by lia. repeat split; auto; [by rewrite Hp| |].
  - eapply tiles_app; [done|]. simpl. auto.
  - rewrite Hu. unfold bytes_of. rewrite map_app, concat_app. simpl. by rewrite app_nil_r.
Qed.

Lemma change_last_ack_rel {E} b a t s :
  send_rel t s -> state t = Established -> una s <= a <= seq t ->
  exists l, @change_last_ack E b a t = Ret (set_inflight l (set_last_ack a t)) /\
    send_rel (set_inflight l (set_last_ack a t)) (sb_ack a s).
Proof.
  intros Hrel Hst Ha. pose proof (send_rel_in_range _ _ Hrel) as Hin.
  destruct Hrel as (l & Hp & Ht & Hu & Hl & Hpos & Hlt).
  destruct (@ack_inflight E b a (inflight_packets t)) as (i & Hi & Hperm);
    [done|lia|rewrite <-Hp; by eapply tiles_has_one|].
  unfold change_last_ack. rewrite wrapping_add_sub by lia.
  rewrite decide_True by done. cbn [inflight_packets set_last_ack]. rewrite Hi.
  eexists. split; [reflexivity|]. simpl.
  destruct (tiles_ack _ _ _ _ Ht Ha) as [Ht' Hb'].
  exists (l ≫= ack_one a). simpl. repeat split; auto; [|by rewrite Hb', Hu|lia].
  by rewrite Hperm, Hp.
Qed.

(** The unacknowledged bytes are those between the two numbers. *)
Lemma send_rel_len t s : send_rel t s -> len (unacked s) = seq t - last_ack t.
Proof. intros (l & _ & Ht & -> & -> & _). apply tiles_len in Ht. lia. Qed.

(** The bytes of a packet that starts where a tiling does begin the tiling's. *)
Lemma tiles_first u l v p :
  tiles u l v -> p ∈ l -> inflight_seq p = u -> inflight_payload p `prefix_of` bytes_of l.
Proof.
  revert u. induction l as [|q l IH]; intros u; simpl; [by intros _ ?%not_elem_of_nil|].
  intros [Hs Ht] [->|Hin]%elem_of_cons Hu; [by apply prefix_app_r|].
  pose proof (len_nonneg (inflight_payload q)).
  destruct (tiles_in _ _ _ _ Ht Hin) as [Hle _].
  assert (inflight_payload q = []) as Hq by (apply len_zero; lia).
  unfold bytes_of in *. simpl. rewrite Hq in *. simpl.
  rewrite len_nil, Z.add_0_r in Ht. by apply (IH u).
Qed.

(** While data is unacknowledged, a packet that starts at the last acknowledgment
    is in flight, and holds the oldest unacknowledged bytes. *)
Lemma send_rel_oldest t s :
  send_rel t s -> last_ack t <> seq t ->
  exists p, List.find (fun p => inflight_seq p =? last_ack t) (inflight_packets t) = Some p /\
    inflight_payload p `prefix_of` unacked s.
Proof.
  intros (l & Hp & Ht & Hu & Hl & Hpos & Hlt) Hne. rewrite Hl in *.
  destruct (List.find _ (inflight_packets t)) as [p|] eqn:Hf.
  - apply List.find_some in Hf as [Hin Hseq]. propify.
    apply list_elem_of_In in Hin. rewrite <-Hp in Hin. exists p. split; [done|].
    rewrite Hu. by eapply tiles_first.
  - destruct l as [|q l]; simpl in Ht; [done|]. destruct Ht as [Hs Ht].
    apply List.find_none with (x := q) in Hf; [propify; lia|].
    apply list_elem_of_In. rewrite <-Hp. constructor.
Qed.

(** ** The receive stream *)

(** [piece irs S k bs]: [bs] is what the stream [S], whose first byte has
    sequence number [irs], holds from sequence number [k] on. *)
Definition piece (irs : Z) (S : list byte) (k : Z) (bs : list byte) : Prop :=
  irs <= k /\ bs `prefix_of` drain_front (k - irs) S.

Record recv_rel (irs : Z) (S : list byte) (t : Tcb) : Prop := {
  rr_irs : 0 <= irs;
  rr_ack : irs <= ack t <= irs + len S;
  rr_fit : irs + len S < U32;
  rr_pieces : map_Forall (fun k p => piece irs S k (unordered_payload p)) (unordered_packets t);
}.

(** The bytes up to the acknowledgment number: what was delivered so far. *)
Definition delivered (irs : Z) (S : list byte) (t : Tcb) : list byte := truncate (ack t - irs) S.

Lemma recv_rel_ext irs S t t' :
  ack t' = ack t -> unordered_packets t' = unordered_packets t ->
  recv_rel irs S t -> recv_rel irs S t'.
Proof. intros Ha Hu []. split; by rewrite ?Ha, ?Hu. Qed.

Lemma add_unordered_packet_rel irs S t k bs :
  recv_rel irs S t -> piece irs S k bs -> recv_rel irs S (add_unordered_packet k bs t).
Proof.
  intros [] Hpc. unfold add_unordered_packet. case_match; [by split|].
  split; simpl; auto. by apply map_Forall_insert_2.
Qed.

Lemma get_unordered_packets_rel irs S t :
  recv_rel irs S t -> recv_rel irs S (get_unordered_packets t).2.
Proof. intros []. split; simpl; auto. by apply map_Forall_delete. Qed.

(** Taking the packet at the acknowledgment number and advancing the number by
    its length extends what was delivered by exactly its bytes. *)
Lemma deliver_rel irs S t bs :
  recv_rel irs S t -> (get_unordered_packets t).1 = Some bs ->
  let t' := add_ack (cast U32 (len bs)) (get_unordered_packets t).2 in
  recv_rel irs S t' /\ delivered irs S t' = delivered irs S t ++ bs.
Proof.
  intros [] Hg. simpl in Hg.
  apply fmap_Some in Hg as (p & Hp & ->). pose proof (rr_pieces0 _ _ Hp) as [? [k Hk]].
  set (bs := unordered_payload p) in *. pose proof (len_nonneg bs).
  assert (len bs <= len S - (ack t - irs)) as Hle.
  { apply (f_equal len) in Hk. rewrite len_app, len_drain_front in Hk by lia.
    pose proof (len_nonneg k). lia. }
  assert (wrapping_add U32 (ack t) (cast U32 (len bs)) = ack t + len bs) as Hack
    by (rewrite cast_small by lia; apply wrapping_add_small; lia).
  simpl. split.
  - split; simpl; rewrite ?Hack; auto; [lia|]. by apply map_Forall_delete.
  - unfold delivered. simpl. rewrite Hack. unfold truncate, drain_front, len in *.
    replace (Z.to_nat (ack t + Z.of_nat (length bs) - irs))
      with (Z.to_nat (ack t - irs) + length bs)%nat by lia.
    rewrite <-take_take_drop, Hk. f_equal. by rewrite take_app_length.
Qed.
