(* ===== verification/Tcp.v ===== *)
(** * The TCP stream: stream/tcp.rs

    The state of a connection, the packets it builds, and its poll functions.
    [poll_read] is a loop; its body is cut at the blank lines of the source into
    the blocks [read_retransmit] ... [read_packet], and the handling of one
    received packet into one definition per connection state. *)

From S2P Require Import Prelude Errors Etherparse Packet Runtime Tcb.

Section tcp.
Context `{EP : Etherparse} {W : Type} `{RT : !Runtime W NetworkPacket}.
Context (b : Build).

Inductive Shutdown :=
  | ShutReady
  | ShutPending (w : Waker)
  | ShutNone.

Definition is_shut_ready (s : Shutdown) : bool :=
  match s with ShutReady => true | _ => false end.
Definition is_shut_pending (s : Shutdown) : bool :=
  match s with ShutPending _ => true | _ => false end.
Definition is_shut_none (s : Shutdown) : bool :=
  match s with ShutNone => true | _ => false end.

Record IpStackTcpStream := mkTcpStream {
  src_addr : SocketAddr;
  dst_addr : SocketAddr;
  stream_receiver : Chan;
  packet_sender : Chan;
  packet_to_send : option NetworkPacket;
  tcb : Tcb;
  mtu : Z;
  shutdown : Shutdown;
  write_notify : option Waker;
}.

Definition set_packet_to_send v s :=
  mkTcpStream (src_addr s) (dst_addr s) (stream_receiver s) (packet_sender s) v
    (tcb s) (mtu s) (shutdown s) (write_notify s).
Definition set_tcb v s :=
  mkTcpStream (src_addr s) (dst_addr s) (stream_receiver s) (packet_sender s) (packet_to_send s)
    v (mtu s) (shutdown s) (write_notify s).
Definition set_shutdown v s :=
  mkTcpStream (src_addr s) (dst_addr s) (stream_receiver s) (packet_sender s) (packet_to_send s)
    (tcb s) (mtu s) v (write_notify s).
Definition set_write_notify v s :=
  mkTcpStream (src_addr s) (dst_addr s) (stream_receiver s) (packet_sender s) (packet_to_send s)
    (tcb s) (mtu s) (shutdown s) v.

(** ** Building packets *)

Definition calculate_payload_len {E} (s : IpStackTcpStream) (ip_header_size tcp_header_size : Z)
    : exec E Z :=
  hdr ← plain_add b U16 ip_header_size tcp_header_size;
  mret (Z.min (get_send_window (tcb s)) (saturating_sub (mtu s) hdr)).

(** The header's field assignments. *)
Definition set_flags (ackno : Z) (flags : Z) (h : TcpHeader) : TcpHeader :=
  let set bit := negb (Z.land flags bit =? 0) in
  mkTcpHeader (tcp_source_port h) (tcp_destination_port h) (sequence_number h) ackno
    (set FIN) (set SYN) (set RST) (set PSH) (set ACK) (tcp_urg h) (tcp_ece h) (tcp_cwr h)
    (window_size h) (tcp_checksum h) (tcp_ext h).
Definition set_checksum (c : Z) (h : TcpHeader) : TcpHeader :=
  mkTcpHeader (tcp_source_port h) (tcp_destination_port h) (sequence_number h)
    (acknowledgment_number h) (tcp_fin h) (tcp_syn h) (tcp_rst h) (tcp_psh h) (tcp_ack h)
    (tcp_urg h) (tcp_ece h) (tcp_cwr h) (window_size h) c (tcp_ext h).
Definition set_dont_fragment (v : bool) (h : Ipv4Header) : Ipv4Header :=
  mkIpv4Header (ip4_total_len h) v (ip4_time_to_live h) (ip4_protocol h) (ip4_source h)
    (ip4_destination h) (ip4_ext h).

Definition create_rev_packet (s : IpStackTcpStream) (flags ttl : Z) (seq' : option Z)
    (payload : list byte) : exec IoError NetworkPacket :=
  let tcp_header :=
    tcp_header_new (sock_port (dst_addr s)) (sock_port (src_addr s))
      (default (get_seq (tcb s)) seq') (get_recv_window (tcb s)) in
  let tcp_header := set_flags (get_ack (tcb s)) flags tcp_header in
  '(ip_header, payload) ←
    match sock_ip (dst_addr s), sock_ip (src_addr s) with
    | IpV4 dst, IpV4 src =>
        ip_h ← try_ether (ipv4_header_new 0 ttl IpNumber_TCP dst src);
        payload_len ← calculate_payload_len s (cast U16 (ipv4_header_len ip_h))
                        (cast U16 (tcp_header_len tcp_header));
        let payload := truncate payload_len payload in
        ip_h ← try_ether (ipv4_set_payload_len ip_h (len payload + tcp_header_len tcp_header));
        mret (Ipv4 (set_dont_fragment true ip_h), payload)
    | IpV6 dst, IpV6 src =>
        let ip_h := {| ip6_traffic_class := 0;
                       ip6_flow_label := FlowLabel_ZERO;
                       ip6_payload_length := 0;
                       ip6_next_header := IpNumber_TCP;
                       ip6_hop_limit := ttl;
                       ip6_source := dst;
                       ip6_destination := src |} in
        payload_len ← calculate_payload_len s (cast U16 (ipv6_header_len ip_h))
                        (cast U16 (tcp_header_len tcp_header));
        let payload := truncate payload_len payload in
        let l := len payload + tcp_header_len tcp_header in
        ip_h ← try_ether (ipv6_set_payload_length ip_h l);
        mret (Ipv6 ip_h, payload)
    | _, _ => Panic PUnreachable
    end;
  checksum ←
    of_result (map_err (fun _ => IoKind InvalidInput)
      match ip_header with
      | Ipv4 ip_header => calc_checksum_ipv4 tcp_header ip_header payload
      | Ipv6 ip_header => calc_checksum_ipv6 tcp_header ip_header payload
      end);
  mret (mkNetworkPacket ip_header (TransTcp (set_checksum checksum tcp_header)) payload).

(** ** The state the poll functions work on *)

Record Conn := mkConn {
  self : IpStackTcpStream;
  world : W;
}.

Definition upd_self (f : IpStackTcpStream -> IpStackTcpStream) (c : Conn) : Conn :=
  mkConn (f (self c)) (world c).
Definition upd_world (f : W -> W) (c : Conn) : Conn := mkConn (self c) (f (world c)).
Definition upd_tcb (f : Tcb -> Tcb) (c : Conn) : Conn :=
  upd_self (fun s => set_tcb (f (tcb s)) s) c.

Section ops.
Context {E : Type}.

Definition modify_tcb (f : Tcb -> Tcb) : M Conn E unit := modify (upd_tcb f).

(** An operation of the control block that may panic. *)
Definition try_tcb (f : Tcb -> exec Empty_set Tcb) : M Conn E unit :=
  try_modify (fun c => t ← f (tcb (self c)); mret (upd_tcb (fun _ => t) c)).

(** [self.packet_sender.send(packet).is_ok()]. *)
Definition send_packet (p : NetworkPacket) : M Conn E bool := fun c =>
  let '(ok, w) := chan_send (packet_sender (self c)) p (world c) in
  (mkConn (self c) w, Ret ok).

(** [self.stream_receiver.poll_recv(cx)]. *)
Definition recv_packet (k : Waker) : M Conn E (Poll (option NetworkPacket)) := fun c =>
  let '(r, w) := chan_poll_recv (stream_receiver (self c)) k (world c) in
  (mkConn (self c) w, Ret r).

(** [Pin::new(&mut self.tcb.timeout).poll(cx)]. *)
Definition poll_timeout (k : Waker) : M Conn E bool := fun c =>
  let '(r, w) := sleep_poll (timeout (tcb (self c))) k (world c) in
  (mkConn (self c) w, Ret r).

Definition wake (k : Waker) : M Conn E unit := modify (upd_world (wake_by_ref k)).

(** [self.tcb.reset_timeout()]. *)
Definition tcb_reset_timeout : M Conn E unit := fun c =>
  try_tcb (reset_timeout (instant_max W) (instant_now (world c))) c.

Definition shutdown_pending (k : Waker) (c : Conn) : Conn :=
  upd_self (set_shutdown (ShutPending k)) c.

Definition shutdown_ready : M Conn E unit :=
  s ← gets (fun c => shutdown (self c));
  match s with ShutPending k => wake k | _ => mret tt end;;
  modify (upd_self (set_shutdown ShutReady)).

(** [if let Some(ref n) = self.write_notify { n.wake_by_ref(); ... = None }]. *)
Definition notify_writer : M Conn E unit :=
  n ← gets (fun c => write_notify (self c));
  match n with
  | Some k => wake k;; modify (upd_self (set_write_notify None))
  | None => mret tt
  end.

Context (ret : IoError -> E).

(** [self.create_rev_packet(...)?]. *)
Definition rev_packet (flags ttl : Z) (seq' : option Z) (payload : list byte)
    : M Conn E NetworkPacket :=
  try_with ret (fun c => create_rev_packet (self c) flags ttl seq' payload).

(** [self.packet_sender.send(p).or(Err(ErrorKind::UnexpectedEof))?]. *)
Definition send_or_eof (p : NetworkPacket) : M Conn E unit :=
  ok ← send_packet p;
  if (ok : bool) then mret tt else throw (ret (IoKind UnexpectedEof)).

(** [self.packet_to_send = Some(self.create_rev_packet(...)?)]. *)
Definition queue_packet (flags ttl : Z) : M Conn E unit :=
  p ← rev_packet flags ttl None [];
  modify (upd_self (set_packet_to_send (Some p))).

End ops.

(** ** [poll_flush] *)

Definition poll_flush_body : M Conn PollUnit PollUnit :=
  st ← gets (fun c => get_state (tcb (self c)));
  if negb (bool_decide (st = Established)) then throw (ready_err (IoKind NotConnected))
  else
    s ← gets (fun c => retransmission (tcb (self c)));
    modify_tcb (set_retransmission None);;
    match s with
    | Some s =>
        packet ← gets (fun c =>
          List.find (fun p => inflight_seq p =? s) (inflight_packets (tcb (self c))));
        match packet with
        | Some packet =>
            rev ← rev_packet ready_err (Z.lor PSH ACK) (TTL b) (Some (inflight_seq packet))
                    (inflight_payload packet);
            send_or_eof ready_err rev;;
            mret (Ready (Ok tt))
        | None => panic_with PExplicit
        end
    | None => mret (Ready (Ok tt))
    end.

Definition poll_flush {E} : M Conn E PollUnit := call poll_flush_body.

(** ** [poll_read] *)

Definition Exit : Type := loop_exit PollUnit.
Definition exit_err (e : IoError) : Exit := Return (ready_err e).
Definition return_ {S A} (r : PollUnit) : M S Exit A := throw (Return r).
Definition continue_ {S A} : M S Exit A := throw Continue.

Definition in_state (s : TcpState) (c : Conn) : bool :=
  bool_decide (get_state (tcb (self c)) = s).

Definition read_retransmit (k : Waker) : M Conn Exit unit :=
  r ← gets (fun c => retransmission (tcb (self c)));
  when (bool_decide (is_Some r))
    (modify (upd_self (set_write_notify (Some k)));;
     p ← poll_flush;
     when (is_pending p) (return_ Pending)).

Definition read_send_queued : M Conn Exit unit :=
  p ← gets (fun c => packet_to_send (self c));
  modify (upd_self (set_packet_to_send None));;
  match p with
  | Some packet => send_or_eof exit_err packet
  | None => mret tt
  end.

Definition read_closed : M Conn Exit unit :=
  closed ← gets (in_state Closed);
  when closed (shutdown_ready;; return_ (Ready (Ok tt)));;
  finished ← gets (in_state (FinWait2 false));
  when finished
    (queue_packet exit_err NON DROP_TTL;;
     modify_tcb (change_state Closed);;
     shutdown_ready;;
     return_ (ready_err (IoKind ConnectionAborted))).

Definition read_timeout (k : Waker) : M Conn Exit unit :=
  min ← gets (fun c => cast U16 (get_available_read_buffer_size (tcb (self c))));
  modify_tcb (change_recv_window min);;
  elapsed ← poll_timeout k;
  when elapsed
    (p ← rev_packet exit_err (Z.lor RST ACK) (TTL b) None [];
     send_or_eof exit_err p;;
     modify_tcb (change_state Closed);;
     shutdown_ready;;
     return_ (ready_err (IoKind TimedOut)));;
  tcb_reset_timeout.

Definition read_handshake : M Conn Exit unit :=
  fresh ← gets (in_state (SynReceived false));
  when fresh
    (queue_packet exit_err (Z.lor SYN ACK) (TTL b);;
     modify_tcb add_seq_one;;
     modify_tcb (change_state (SynReceived true));;
     continue_).

(** [self.tcb.get_unordered_packets().filter(...)]: the packet is removed from
    the map before the filter looks at it. *)
Definition take_unordered : M Conn Exit (option (list byte)) :=
  p ← gets (fun c => (get_unordered_packets (tcb (self c))).1);
  modify_tcb (fun t => (get_unordered_packets t).2);;
  keep ← gets (fun c => is_shut_none (shutdown (self c)));
  mret (if (keep : bool) then p else None).

Definition read_fin : M Conn Exit unit :=
  last ← gets (in_state (FinWait1 true));
  shut ← gets (fun c => is_shut_pending (shutdown (self c))
                        && in_state Established c
                        && (get_last_ack (tcb (self c)) =? get_seq (tcb (self c))));
  if (last : bool) then
    queue_packet exit_err (Z.lor FIN ACK) (TTL b);;
    modify_tcb add_seq_one;;
    modify_tcb (add_ack 1);;
    modify_tcb (change_state (FinWait2 true));;
    continue_
  else when shut
    (queue_packet exit_err (Z.lor FIN ACK) (TTL b);;
     modify_tcb add_seq_one;;
     modify_tcb (change_state (FinWait1 false));;
     continue_).

(** *** One received packet, by connection state *)

Definition ackno (t : TcpHeaderWrapper) : Z := acknowledgment_number (inner t).
Definition seqno (t : TcpHeaderWrapper) : Z := sequence_number (inner t).

Definition store_ack (t : TcpHeaderWrapper) : M Conn Exit unit :=
  try_tcb (change_last_ack b (ackno t)).
Definition store_window (t : TcpHeaderWrapper) : M Conn Exit unit :=
  try_tcb (change_send_window b (window_size (inner t))).

Definition on_syn_received (t : TcpHeaderWrapper) : M Conn Exit unit :=
  when (flags t =? ACK)
    (store_ack t;; store_window t;; modify_tcb (change_state Established)).

(** The arms of the [match] on the status of a pure ACK... *)
Definition ack_arm (status : PacketStatus) (t : TcpHeaderWrapper) (payload : list byte)
    : M Conn Exit unit :=
  match status with
  | WindowUpdate => store_window t;; notify_writer
  | Invalid => mret tt
  | KeepAlive => store_ack t;; store_window t;; queue_packet exit_err ACK (TTL b)
  | RetransmissionRequest =>
      store_window t;;
      modify_tcb (set_retransmission (Some (ackno t)));;
      p ← poll_flush;
      when (is_pending p) (return_ Pending)
  | NewPacket =>
      store_ack t;;
      modify_tcb (add_unordered_packet (seqno t) payload);;
      store_window t;;
      notify_writer
  | Ack => store_ack t;; store_window t;; notify_writer
  end.

(** ... every one of which ends in [continue]. *)
Definition on_ack (t : TcpHeaderWrapper) (payload : list byte) : M Conn Exit unit :=
  status ← gets (fun c => check_pkt_type (tcb (self c)) t payload);
  ack_arm status t payload;;
  continue_.

Definition on_fin_ack : M Conn Exit unit :=
  modify_tcb (add_ack 1);;
  queue_packet exit_err ACK (TTL b);;
  modify_tcb (change_state (FinWait1 true));;
  continue_.

Definition on_push (t : TcpHeaderWrapper) (payload : list byte) : M Conn Exit unit :=
  status ← gets (fun c => check_pkt_type (tcb (self c)) t payload);
  when (negb (bool_decide (status = NewPacket))) continue_;;
  store_ack t;;
  stale ← gets (fun c => bool_decide (payload = [])
                         || negb (get_ack (tcb (self c)) =? seqno t));
  when stale continue_;;
  store_window t;;
  modify_tcb (add_unordered_packet (seqno t) payload);;
  continue_.

Definition on_established (t : TcpHeaderWrapper) (payload : list byte) : M Conn Exit unit :=
  when (flags t =? ACK) (on_ack t payload);;
  when (flags t =? Z.lor FIN ACK) on_fin_ack;;
  when (flags t =? Z.lor PSH ACK) (on_push t payload).

Definition on_fin_wait1 (t : TcpHeaderWrapper) : M Conn Exit unit :=
  if flags t =? ACK then
    store_ack t;;
    modify_tcb (add_ack 1);;
    modify_tcb (change_state (FinWait2 true));;
    continue_
  else when (flags t =? Z.lor FIN ACK)
    (modify_tcb (add_ack 1);;
     queue_packet exit_err ACK (TTL b);;
     store_window t;;
     modify_tcb (change_state (FinWait2 true));;
     continue_).

Definition on_fin_wait2 (t : TcpHeaderWrapper) : M Conn Exit unit :=
  if flags t =? ACK then modify_tcb (change_state (FinWait2 false))
  else when (flags t =? Z.lor FIN ACK)
    (queue_packet exit_err ACK (TTL b);;
     modify_tcb (change_state (FinWait2 false))).

Definition on_reset : M Conn Exit unit :=
  queue_packet exit_err NON DROP_TTL;;
  modify_tcb (change_state Closed);;
  shutdown_ready;;
  return_ (ready_err (IoKind ConnectionReset)).

Definition handle_packet (p : NetworkPacket) : M Conn Exit unit :=
  match transport_protocol p with
  | ProtoTcp t =>
      when (negb (Z.land (flags t) RST =? 0)) on_reset;;
      status ← gets (fun c => check_pkt_type (tcb (self c)) t (payload p));
      when (bool_decide (status = Invalid)) continue_;;
      st ← gets (fun c => get_state (tcb (self c)));
      match st with
      | SynReceived true => on_syn_received t
      | Established => on_established t (payload p)
      | FinWait1 false => on_fin_wait1 t
      | FinWait2 true => on_fin_wait2 t
      | _ => mret tt
      end
  | _ => panic_with PUnreachable
  end.

Definition read_packet (k : Waker) : M Conn Exit unit :=
  r ← recv_packet k;
  match r with
  | Ready (Some p) => handle_packet p
  | Ready None => return_ (Ready (Ok tt))
  | Pending => return_ Pending
  end.

(** *** The loop *)

Record ReadSt := mkReadSt {
  conn : Conn;
  rbuf : ReadBuf;
}.

Definition on_conn {A} (m : M Conn Exit A) : M ReadSt Exit A :=
  zoom conn (fun c s => mkReadSt c (rbuf s)) m.

(** [buf.put_slice(&bs)]. *)
Definition put_buf (bs : list byte) : M ReadSt Exit unit := fun s =>
  match put_slice bs (rbuf s) with
  | Some rb => (mkReadSt (conn s) rb, Ret tt)
  | None => (s, Panic PPutSlice)
  end.

(** The acknowledgment of delivered bytes, and the return. *)
Definition deliver_reply : M Conn Exit unit :=
  rev ← rev_packet exit_err ACK (TTL b) None [];
  send_or_eof exit_err rev;;
  return_ (Ready (Ok tt)).

Definition read_deliver : M ReadSt Exit unit :=
  p ← on_conn take_unordered;
  match p with
  | Some bs =>
      on_conn (modify_tcb (add_ack (cast U32 (len bs))));;
      put_buf bs;;
      on_conn deliver_reply
  | None => mret tt
  end.

Definition poll_read_body (k : Waker) : M ReadSt Exit unit :=
  on_conn (read_retransmit k;;
           read_send_queued;;
           read_closed;;
           read_timeout k;;
           read_handshake);;
  read_deliver;;
  on_conn (read_fin;; read_packet k).

(** [poll_read]: the loop, with fuel; [None] is running out of it. *)
Definition poll_read (fuel : nat) (k : Waker) (s : ReadSt)
    : option (ReadSt * exec Empty_set PollUnit) :=
  loop fuel (poll_read_body k) s.

(** ** [poll_write] *)

Definition poll_write_body (k : Waker) (buf : list byte) : M Conn PollSize PollSize :=
  st ← gets (fun c => get_state (tcb (self c)));
  if negb (bool_decide (st = Established)) then throw (ready_err (IoKind NotConnected))
  else
    tcb_reset_timeout;;
    blocked ← gets (fun c =>
      (get_send_window (tcb (self c)) <? get_avg_send_window (tcb (self c)) / 2)
      || is_send_buffer_full (tcb (self c)));
    (if (blocked : bool) then
       modify (upd_self (set_write_notify (Some k)));; throw Pending
     else
       r ← gets (fun c => retransmission (tcb (self c)));
       when (bool_decide (is_Some r))
         (modify (upd_self (set_write_notify (Some k)));;
          p ← poll_flush;
          when (is_pending p) (throw Pending));;
       packet ← rev_packet ready_err (Z.lor PSH ACK) (TTL b) None buf;
       s ← gets (fun c => get_seq (tcb (self c)));
       let payload_len := len (payload packet) in
       send_or_eof ready_err packet;;
       modify_tcb (add_inflight_packet s (payload packet));;
       mret (Ready (Ok payload_len))).

Definition poll_write {E} (k : Waker) (buf : list byte) : M Conn E PollSize :=
  call (poll_write_body k buf).

(** ** [poll_shutdown], with the one-byte buffer it reads into *)

Definition poll_shutdown (fuel : nat) (k : Waker) (c : Conn)
    : option (Conn * exec Empty_set PollUnit) :=
  if is_shut_ready (shutdown (self c)) then Some (c, Ret (Ready (Ok tt)))
  else
    let c := if is_shut_none (shutdown (self c))
             then shutdown_pending k c else c in
    match poll_read fuel k (mkReadSt c (read_buf_uninit 1)) with
    | Some (s, r) => Some (conn s, r)
    | None => None
    end.

(** ** Dropping the stream: [Drop::drop], then the receiver half is dropped *)

Definition drop_stream (s : IpStackTcpStream) (w : W) : W * exec Empty_set unit :=
  match create_rev_packet s NON DROP_TTL None [] with
  | Ret p =>
      let '(_, w) := chan_send (packet_sender s) p w in
      (chan_close (stream_receiver s) w, Ret tt)
  | Throw _ => (chan_close (stream_receiver s) w, Ret tt)
  | Panic p => (w, Panic p)
  end.

(** ** [IpStackTcpStream::new]: a stream for a SYN; any other packet is
    answered with RST unless it is itself a RST, and the half-built stream is
    dropped on the way out. *)

Definition tcp_stream_init (src_addr dst_addr : SocketAddr) (tcb : Tcb)
    (packet_sender stream_receiver : Chan) (mtu : Z) : IpStackTcpStream :=
  {| src_addr := src_addr;
     dst_addr := dst_addr;
     stream_receiver := stream_receiver;
     packet_sender := packet_sender;
     packet_to_send := None;
     tcb := tcb;
     mtu := mtu;
     shutdown := ShutNone;
     write_notify := None |}.

Definition drop_and_fail (s : IpStackTcpStream) (e : IpStackError) (w : W)
    : W * exec IpStackError IpStackTcpStream :=
  match drop_stream s w with
  | (w, Panic p) => (w, Panic p)
  | (w, _) => (w, Throw e)
  end.

Definition tcp_stream_new (rnd : Z) (src_addr dst_addr : SocketAddr) (tcp : TcpHeaderWrapper)
    (packet_sender stream_receiver : Chan) (mtu tcp_timeout : Z) (w : W)
    : W * exec IpStackError IpStackTcpStream :=
  match ack' ← plain_add b U32 (sequence_number (inner tcp)) 1;
        tcb_new b (instant_max W) rnd (instant_now w) ack' tcp_timeout with
  | Throw e => (w, Throw e)
  | Panic p => (w, Panic p)
  | Ret tcb =>
      let stream := tcp_stream_init src_addr dst_addr tcb packet_sender stream_receiver mtu in
      if tcp_syn (inner tcp) then (w, Ret stream)
      else if negb (tcp_rst (inner tcp)) then
        match create_rev_packet stream (Z.lor RST ACK) (TTL b) None [] with
        | Panic p => (w, Panic p)
        | Throw e => drop_and_fail stream (ipstack_error_from_io e) w
        | Ret pkt =>
            let '(_, w) := chan_send packet_sender pkt w in
            drop_and_fail stream InvalidTcpPacket w
        end
      else drop_and_fail stream InvalidTcpPacket w
  end.

End tcp.
