(* ===== verification/TcpPacket.v ===== *)
(** * The packets a TCP stream sends

    What [create_rev_packet] builds: addressing, flags, numbers, length; that
    it always succeeds on a well-formed stream; and the bounds on its size. *)

From S2P Require Import Prelude Errors Etherparse Packet Runtime Tcb Tcp.

Section tcp_packet.
Context `{EP : Etherparse, !EtherparseLaws} {W : Type} `{RT : !Runtime W NetworkPacket}.
Context (b : Build).
Implicit Types s : IpStackTcpStream (W := W).

Record stream_wf s : Prop := {
  sw_family : is_ipv4 (Tcp.dst_addr s) = is_ipv4 (Tcp.src_addr s);
  sw_src : plain_addr (Tcp.src_addr s);
  sw_dst : plain_addr (Tcp.dst_addr s);
  sw_mtu : mtu s ∈u U16;
  sw_tcb : tcb_wf (tcb s);
}.

Definition headers_len s : Z := if is_ipv4 (Tcp.dst_addr s) then 40 else 60.

(** The room a packet has for payload. *)
Definition max_payload s : Z := Z.min (send_window (tcb s)) (saturating_sub (mtu s) (headers_len s)).

Definition flag_set (flags bit : Z) : bool := negb (Z.land flags bit =? 0).

(** What it means for [p] to be the packet [create_rev_packet] promises. *)
Record rev_packet_of s (flags ttl seqn : Z) (bs : list byte) (p : NetworkPacket) : Prop := {
  rp_payload : payload p = truncate (max_payload s) bs;
  rp_header : exists c, 0 <= c < U16 /\
    transport p = TransTcp
      (mkTcpHeader (sock_port (Tcp.dst_addr s)) (sock_port (Tcp.src_addr s)) seqn (ack (tcb s))
         (flag_set flags FIN) (flag_set flags SYN) (flag_set flags RST) (flag_set flags PSH)
         (flag_set flags ACK) false false false (recv_window (tcb s)) c tcp_default_ext);
  rp_src : Packet.src_addr p = Tcp.dst_addr s;
  rp_dst : Packet.dst_addr p = Tcp.src_addr s;
  rp_ttl : Packet.ttl p = ttl;
  rp_ip_header : ip_header_len p = headers_len s - 20;
  rp_total : ip_total_len p = headers_len s + len (payload p);
}.

Lemma max_payload_range s : stream_wf s -> 0 <= max_payload s <= 65495.
Proof.
  intros [? ? ? Hm []]. unfold max_payload, headers_len, saturating_sub. case_match; lia.
Qed.

Lemma calculate_payload_len_ok {E} s i t :
  stream_wf s -> i + t = headers_len s ->
  @calculate_payload_len _ W _ b E s i t = Ret (max_payload s).
Proof.
  intros [] Hit. unfold calculate_payload_len, plain_add. rewrite Hit.
  rewrite arith_small by (unfold headers_len; case_match; lia). done.
Qed.

(** Building a reply never fails and never panics. *)
Lemma create_rev_packet_ok s flags ttl seqn bs :
  stream_wf s ->
  exists p, create_rev_packet b s flags ttl seqn bs = Ret p /\
    rev_packet_of s flags ttl (default (seq (tcb s)) seqn) bs p.
Proof.
  intros Hwf. pose proof (max_payload_range s Hwf) as Hmax.
  assert (0 <= len (truncate (max_payload s) bs) <= max_payload s) as Hlen.
  { rewrite len_truncate by lia. pose proof (len_nonneg bs). lia. }
  pose proof Hwf as [Hfam Hs Hd _ _]. unfold plain_addr in *.
  unfold create_rev_packet. rewrite tcp_header_new_spec. unfold set_flags; simpl.
  destruct (Tcp.dst_addr s) as [da dp|da dp df di] eqn:Hdst,
           (Tcp.src_addr s) as [sa sp|sa sp sf si] eqn:Hsrc; simpl in Hfam; try done; simpl in *.
  - rewrite ipv4_header_new_spec by lia. cbn [try_ether map_err of_result mbind exec_bind].
    rewrite ipv4_header_len_default, tcp_header_len_default by done.
    rewrite (calculate_payload_len_ok s _ _ Hwf)
      by (unfold headers_len; by rewrite Hdst). cbn [mbind exec_bind].
    erewrite try_ether_ok
      by (apply ipv4_set_payload_len_spec; [|rewrite ipv4_header_len_default by done]; lia).
    rewrite ipv4_header_len_default by done. cbn [mbind exec_bind mret exec_ret].
    edestruct calc_checksum_ipv4_spec as (c & -> & Hc);
      [rewrite tcp_header_len_default by done; lia|].
    eexists. split; [reflexivity|].
    split; unfold headers_len, ip_header_len, ip_total_len; simpl; rewrite ?Hdst, ?Hsrc; simpl;
      try done; [by exists c | by rewrite ipv4_header_len_default | lia].
  - rewrite ipv6_header_len_spec, tcp_header_len_default by done.
    rewrite (calculate_payload_len_ok s _ _ Hwf)
      by (unfold headers_len; by rewrite Hdst). cbn [mbind exec_bind].
    erewrite try_ether_ok by (apply ipv6_set_payload_length_spec; lia).
    cbn [mbind exec_bind mret exec_ret].
    edestruct calc_checksum_ipv6_spec as (c & -> & Hc);
      [rewrite tcp_header_len_default by done; lia|].
    eexists. split; [reflexivity|].
    split; unfold headers_len, ip_header_len, ip_total_len; simpl; rewrite ?Hdst, ?Hsrc; simpl;
      try done; [by exists c | by rewrite ipv6_header_len_spec | lia].
Qed.

Lemma create_rev_packet_inv s flags ttl seqn bs p :
  stream_wf s -> create_rev_packet b s flags ttl seqn bs = Ret p ->
  rev_packet_of s flags ttl (default (seq (tcb s)) seqn) bs p.
Proof.
  intros Hwf Hp. destruct (create_rev_packet_ok s flags ttl seqn bs Hwf) as (q & Hq & ?).
  congruence.
Qed.

(** The key under which the stack keeps the stream's session. *)
Definition session_key s : NetworkTuple := mkNetworkTuple (Tcp.src_addr s) (Tcp.dst_addr s) true.

Lemma rev_packet_key s flags ttl seqn bs p :
  rev_packet_of s flags ttl seqn bs p -> reverse_network_tuple p = session_key s.
Proof.
  intros [_ (c & _ & Ht) Hs Hd _ _ _].
  unfold reverse_network_tuple, session_key, is_tcp. by rewrite Hs, Hd, Ht.
Qed.

(** On the wire a packet takes exactly the length its IP header says. *)
Lemma rev_packet_bytes s flags ttl seqn bs p w :
  rev_packet_of s flags ttl seqn bs p -> to_bytes p = Ok w ->
  len w = ip_total_len p.
Proof.
  intros [Hp (c & _ & Ht) _ _ _ Hh Htot] Hw. apply to_bytes_len in Hw.
  unfold transport_header_len in Hw. rewrite Ht, tcp_header_len_default in Hw by done. lia.
Qed.

Lemma rev_packet_fits s flags ttl seqn bs p :
  stream_wf s -> rev_packet_of s flags ttl seqn bs p -> headers_len s <= mtu s ->
  ip_total_len p <= mtu s.
Proof.
  intros Hwf [Hp _ _ _ _ _ ->] Hle. pose proof (max_payload_range s Hwf). rewrite Hp.
  rewrite len_truncate by lia. unfold max_payload, saturating_sub in *. lia.
Qed.

(** ... which is the MTU or less, when the headers fit in it. *)
Lemma rev_packet_fits_mtu s flags ttl seqn bs p :
  stream_wf s -> rev_packet_of s flags ttl seqn bs p -> fits (mtu s) p.
Proof.
  intros Hwf Hp w Hw. rewrite (rev_packet_bytes _ _ _ _ _ _ _ Hp Hw), (rp_total _ _ _ _ _ _ Hp).
  pose proof (max_payload_range s Hwf). rewrite (rp_payload _ _ _ _ _ _ Hp), len_truncate by lia.
  unfold max_payload, saturating_sub, headers_len in *. case_match; lia.
Qed.

End tcp_packet.
