(* ===== verification/TcpLoop.v ===== *)
(** * The connection state machine and the termination of [poll_read]

    [tcp_step] is the state machine of the connection.  Every iteration of the
    read loop takes at most one of its steps, and one that does not return
    takes a step or consumes a received packet, so the loop returns within as
    many iterations as there are packets plus the height of the machine. *)

From S2P Require Import Prelude Errors Etherparse Packet Runtime Tcb Tcp.

(** The state machine.  Closing is possible from every state: a reset, a
    timeout, or the end of the closing handshake. *)
Inductive tcp_step : TcpState -> TcpState -> Prop :=
  | step_syn_ack : tcp_step (SynReceived false) (SynReceived true)
  | step_establish : tcp_step (SynReceived true) Established
  | step_peer_fin : tcp_step Established (FinWait1 true)
  | step_own_fin : tcp_step Established (FinWait1 false)
  | step_last_fin : tcp_step (FinWait1 true) (FinWait2 true)
  | step_fin_acked : tcp_step (FinWait1 false) (FinWait2 true)
  | step_finished : tcp_step (FinWait2 true) (FinWait2 false)
  | step_close s : s <> Closed -> tcp_step s Closed.

Definition rank (s : TcpState) : nat :=
  match s with
  | SynReceived false => 6
  | SynReceived true => 5
  | Established => 4
  | FinWait1 _ => 3
  | FinWait2 true => 2
  | FinWait2 false => 1
  | Closed => 0
  end.

Lemma tcp_step_rank s s' : tcp_step s s' -> (rank s' < rank s)%nat.
Proof. destruct 1; simpl; try lia. destruct s as [[]| |[]|[]|]; simpl; try lia; done. Qed.

(** A closed connection stays closed. *)
Lemma tcp_steps_closed s : rtc tcp_step Closed s -> s = Closed.
Proof.
  intros H. inversion H as [|x y z Hs _]; subst; [done|].
  apply tcp_step_rank in Hs. simpl in Hs. lia.
Qed.

Section loop.
Context `{EP : Etherparse} {W : Type} `{RT : !Runtime W NetworkPacket}.
Context `{RO : !RuntimeObs W NetworkPacket, RL : !RuntimeLaws W NetworkPacket}.
Context (b : Build).
Implicit Types c : Conn (W := W).

(** What never changes during the life of a stream. *)
Definition cfg (s : IpStackTcpStream (W := W)) :=
  (Tcp.src_addr s, Tcp.dst_addr s, stream_receiver s, packet_sender s, mtu s).

Definition conn_state c : TcpState := state (tcb (self c)).
Definition rxq c : list NetworkPacket := queue (stream_receiver (self c)) (world c).
Definition distinct c : Prop := packet_sender (self c) <> stream_receiver (self c).

(** The packets on the way to the device, and whether it still takes them. *)
Definition txq c : list NetworkPacket := queue (packet_sender (self c)) (world c).
Definition tx_open c : bool := rx_open (packet_sender (self c)) (world c).

(** Setting the timer again, when there is an instant for it. *)
Lemma reset_timeout_run {E} c :
  timely (tcp_timeout (tcb (self c))) ->
  @tcb_reset_timeout _ W _ E c = (upd_tcb (rearm (instant_now (world c))) c, Ret tt).
Proof.
  intros Ht. unfold tcb_reset_timeout, try_tcb, try_modify, reset_timeout.
  by rewrite (timely_add _ (world c) Ht).
Qed.

(** The channels stay open, and what was sent stays sent. *)
Definition sent c c' : Prop :=
  (forall d, rx_open d (world c') = rx_open d (world c)) /\
  (distinct c -> txq c `prefix_of` txq c').

(** The configuration is the same, a shutdown is not taken back, and neither is
    a sent packet. *)
Definition kept c c' : Prop :=
  cfg (self c') = cfg (self c) /\
  (is_shut_none (shutdown (self c)) = false -> is_shut_none (shutdown (self c')) = false) /\
  sent c c'.

Lemma cfg_distinct c c' : cfg (self c') = cfg (self c) -> distinct c -> distinct c'.
Proof. unfold distinct, cfg in *. congruence. Qed.

#[export] Instance kept_preorder : PreOrder kept.
Proof.
  split; [done|]. intros c1 c2 c3 (H1 & H2 & H3 & H4) (K1 & K2 & K3 & K4).
  split; [congruence|]. split; [auto|]. split; [congruence|]. intros Hd.
  trans (txq c2); [auto|]. by eapply K4, cfg_distinct.
Qed.

Lemma kept_distinct c c' : kept c c' -> distinct c -> distinct c'.
Proof. intros [Hc _]. by apply cfg_distinct. Qed.

Lemma kept_same_chans c w :
  same_chans (world c) w -> kept c (mkConn (self c) w).
Proof.
  intros [Hq Ho]. split; [done|]. split; [done|]. split; [done|]. intros _.
  unfold txq. simpl. by rewrite Hq.
Qed.

(** Code that leaves the state and the received packets alone, and whose early
    exits satisfy [Q]. *)
Definition frame c c' : Prop :=
  kept c c' /\ conn_state c' = conn_state c /\
  (distinct c -> rxq c' = rxq c).
Definition framed {E A} (Q : E -> Prop) (m : M (Conn (W := W)) E A) : Prop :=
  forall c, wp m (fun c' r => frame c c' /\ forall e, r = Throw e -> Q e) c.

#[export] Instance frame_preorder : PreOrder frame.
Proof.
  split; [done|]. intros c1 c2 c3 (H1 & H2 & H3) (K1 & K2 & K3).
  split; [by etrans|split; [congruence|]]. intros Hd. rewrite <-H3 by done.
  by eapply K3, kept_distinct.
Qed.

Section framed.
Context {E : Type} (Q : E -> Prop).

Lemma framed_bind {A B} (m : M Conn E A) (k : A -> M Conn E B) :
  framed Q m -> (forall a, framed Q (k a)) -> framed Q (m ≫= k).
Proof.
  intros Hm Hk c. apply wp_bind. eapply wp_mono; [apply Hm|].
  intros c' [a|e|p] [Hf HQ]; [|split; [done|]; intros ? [= <-]; auto|by split].
  eapply wp_mono; [apply Hk|]. intros c'' r [Hf' HQ']. split; [by etrans|done].
Qed.

Lemma framed_ret {A} (a : A) : framed Q (mret a : M Conn E A).
Proof. by intros c. Qed.
Lemma framed_gets {A} (f : Conn -> A) : framed Q (gets f : M Conn E A).
Proof. by intros c. Qed.
Lemma framed_throw {A} (e : E) : Q e -> framed Q (throw e : M Conn E A).
Proof. intros He c. split; [done|]. by intros ? [= <-]. Qed.
Lemma framed_panic {A} p : framed Q (panic_with p : M Conn E A).
Proof. by intros c. Qed.
Lemma framed_when t (m : M Conn E unit) : framed Q m -> framed Q (when t m).
Proof. destruct t; [auto|]. intros _. apply framed_ret. Qed.
Lemma framed_call {R} (m : M Conn R R) :
  framed (fun _ => True) m -> framed Q (call m : M Conn E R).
Proof.
  intros Hm c. apply wp_call. eapply wp_mono; [apply Hm|]. by intros c' [a|e|p] [? _].
Qed.

Lemma frame_world f c : same_chans (world c) (f (world c)) -> frame c (upd_world f c).
Proof.
  intros Hs. split; [by apply kept_same_chans|split; [done|]]. intros _. apply Hs.
Qed.

Lemma framed_modify_tcb f :
  (forall t, state (f t) = state t) -> framed Q (modify_tcb f : M Conn E unit).
Proof. intros Hf c. split; [|done]. split; [done|split; [apply Hf|done]]. Qed.

Lemma framed_try_tcb f :
  (forall t t', f t = Ret t' -> state t' = state t) -> framed Q (try_tcb f : M Conn E unit).
Proof.
  intros Hf c. apply wp_try_modify; unfold mbind, exec_bind.
  - intros c' Hc. destruct (f (tcb (self c))) as [t|[]|p] eqn:Ht; [|done].
    injection Hc as <-. split; [|done]. split; [done|split; [by apply Hf|done]].
  - done.
Qed.

Lemma framed_set_packet v : framed Q (modify (upd_self (set_packet_to_send v))).
Proof. by intros c. Qed.
Lemma framed_set_notify v : framed Q (modify (upd_self (set_write_notify v))).
Proof. by intros c. Qed.
Lemma framed_set_shutdown v :
  is_shut_none v = false -> framed Q (modify (upd_self (set_shutdown v))).
Proof. by intros Hv c. Qed.

Lemma framed_wake k : framed Q (wake k : M Conn E unit).
Proof. intros c. split; [|done]. apply frame_world, wake_chans. Qed.

Lemma framed_send p : framed Q (send_packet p : M Conn E bool).
Proof.
  intros c. unfold wp, send_packet.
  pose proof (chan_send_queue (packet_sender (self c)) p (world c) (stream_receiver (self c))) as Hq.
  pose proof (chan_send_queue (packet_sender (self c)) p (world c) (packet_sender (self c))) as Hs.
  pose proof (chan_send_open (packet_sender (self c)) p (world c)) as Ho.
  destruct (chan_send _ _ _) as [ok w]. split; [|done]. simpl in *.
  split; [|split; [done|intros Hd; unfold rxq; simpl; rewrite Hq; by rewrite decide_False]].
  split; [done|]. split; [done|]. split; [done|]. intros _. unfold txq; simpl.
  rewrite Hs, decide_True by done. destruct (rx_open _ _); [by apply prefix_app_r|done].
Qed.

Lemma framed_poll_timeout k : framed Q (poll_timeout k : M Conn E bool).
Proof.
  intros c. unfold wp, poll_timeout.
  pose proof (sleep_poll_chans (timeout (tcb (self c))) k (world c)) as Hs.
  destruct (sleep_poll _ _ _) as [r w]. split; [|done].
  split; [by apply kept_same_chans|split; [done|]]. intros _. apply Hs.
Qed.

Lemma framed_reset_timeout : framed Q (tcb_reset_timeout : M Conn E unit).
Proof. intros c. apply framed_try_tcb. by intros t t' ->%reset_timeout_inv. Qed.

Lemma framed_rev_packet (ret : IoError -> E) f t s bs :
  (forall e, Q (ret e)) -> framed Q (rev_packet b ret f t s bs).
Proof. intros HQ c. apply wp_try_with; [done| |done]. split; [done|]. by intros ? [= <-]. Qed.

End framed.

Create HintDb frame.
#[local] Hint Resolve framed_bind framed_ret framed_gets framed_throw framed_panic framed_when
  framed_call framed_modify_tcb framed_try_tcb framed_set_packet framed_set_notify
  framed_set_shutdown framed_wake framed_send framed_poll_timeout framed_reset_timeout
  framed_rev_packet : frame.

Ltac framed :=
  repeat first [progress (auto with frame) | apply framed_call | apply framed_when
                | apply framed_bind; [|intros ?] | case_match].

Section framed_ops.
Context {E : Type} (Q : E -> Prop) (ret : IoError -> E) (HQ : forall e, Q (ret e)).

Lemma framed_send_or_eof p : framed Q (send_or_eof ret p).
Proof using HQ RL. unfold send_or_eof. framed. Qed.
Lemma framed_queue_packet f t : framed Q (queue_packet b ret f t).
Proof using HQ RL. unfold queue_packet. framed. Qed.
Lemma framed_shutdown_ready : framed Q (shutdown_ready : M Conn E unit).
Proof using RL. unfold shutdown_ready. framed. Qed.
Lemma framed_notify_writer : framed Q (notify_writer : M Conn E unit).
Proof using RL. unfold notify_writer. framed. Qed.
End framed_ops.
#[local] Hint Resolve framed_send_or_eof framed_queue_packet framed_shutdown_ready
  framed_notify_writer : frame.

Lemma framed_poll_flush {E} (Q : E -> Prop) : framed Q (poll_flush b : M Conn E PollUnit).
Proof. unfold poll_flush, poll_flush_body. framed. Qed.

Lemma change_last_ack_state {E} a t t' :
  @change_last_ack E b a t = Ret t' -> state t' = state t.
Proof.
  unfold change_last_ack. case_decide.
  - unfold mbind, exec_bind. destruct position_contains; [|done..]. by intros [= <-].
  - by intros [= <-].
Qed.

Lemma change_send_window_state {E} a t t' :
  @change_send_window E b a t = Ret t' -> state t' = state t.
Proof.
  unfold change_send_window. destruct (avg_send_window t).
  unfold mbind, exec_bind. repeat (destruct arith; [|done..]).
  unfold plain_mul, plain_add.
  repeat (case_match; try done). by intros [= <-].
Qed.

Lemma framed_store_ack (Q : Exit -> Prop) t : framed Q (store_ack (W := W) b t).
Proof. apply framed_try_tcb. intros ? ? H. by apply change_last_ack_state in H. Qed.
Lemma framed_store_window (Q : Exit -> Prop) t : framed Q (store_window (W := W) b t).
Proof. apply framed_try_tcb. intros ? ? H. by apply change_send_window_state in H. Qed.
#[local] Hint Resolve framed_poll_flush framed_store_ack framed_store_window : frame.

Lemma framed_poll_write {E} (Q : E -> Prop) k buf : framed Q (poll_write b k buf : M Conn E PollSize).
Proof. unfold poll_write, poll_write_body. framed. Qed.

(** ** The blocks of the loop body *)

(** No step, or one step of the state machine; the received packets are left. *)
Definition stepped c c' : Prop :=
  kept c c' /\ (distinct c -> rxq c' = rxq c) /\
  tcp_step (conn_state c) (conn_state c').
Definition moved c c' : Prop := frame c c' \/ stepped c c'.

Lemma frame_stepped c1 c2 c3 : frame c1 c2 -> stepped c2 c3 -> stepped c1 c3.
Proof.
  intros (H1 & H2 & H3) (K1 & K2 & K3). split; [by etrans|split; [|by rewrite <-H2]].
  intros Hd. rewrite <-H3 by done. by eapply K2, kept_distinct.
Qed.
Lemma stepped_frame c1 c2 c3 : stepped c1 c2 -> frame c2 c3 -> stepped c1 c3.
Proof.
  intros (H1 & H2 & H3) (K1 & K2 & K3). split; [by etrans|split; [|by rewrite K2]].
  intros Hd. rewrite <-H2 by done. by eapply K3, kept_distinct.
Qed.
Lemma frame_moved c1 c2 c3 : frame c1 c2 -> moved c2 c3 -> moved c1 c3.
Proof. intros ? [?|?]; [left; by etrans|right; by eapply frame_stepped]. Qed.

(** How a block may end: it falls through without a step, continues after a
    step, or returns (or panics) after at most one. *)
Definition block_end {A} c c' (r : exec Exit A) : Prop :=
  match r with
  | Ret _ => frame c c'
  | Throw Continue => stepped c c'
  | Throw (Return _) | Panic _ => moved c c'
  end.
Definition block {A} (m : M (Conn (W := W)) Exit A) : Prop := forall c, wp m (block_end c) c.

Lemma block_bind {A B} (m : M Conn Exit A) (k : A -> M Conn Exit B) :
  block m -> (forall a, block (k a)) -> block (m ≫= k).
Proof.
  intros Hm Hk c. apply wp_bind. eapply wp_mono; [apply Hm|].
  intros c1 [a|[v|]|p] Hf; [|done..]. eapply wp_mono; [apply Hk|].
  intros c2 [?|[?|]|?]; simpl in *;
    eauto using frame_stepped, frame_moved. intros. by etrans.
Qed.

Definition not_continue (e : Exit) : Prop := e <> Continue.
Lemma exit_err_not_continue e : not_continue (exit_err e).
Proof. done. Qed.
Lemma return_not_continue r : not_continue (Return r).
Proof. done. Qed.
Lemma framed_return (Q : Exit -> Prop) {A} r : Q (Return r) -> framed Q (return_ r : M Conn Exit A).
Proof. apply framed_throw. Qed.
#[local] Hint Resolve exit_err_not_continue return_not_continue framed_return : frame.

Lemma block_framed {A} (m : M Conn Exit A) : framed not_continue m -> block m.
Proof.
  intros Hm c. eapply wp_mono; [apply Hm|].
  intros c' [a|[v|]|p] [Hf HQ]; simpl; [done|by left| |by left]. by destruct (HQ _ eq_refl).
Qed.

(** Code that leaves the iteration, without a step. *)
Definition exits {A} (Q : Exit -> Prop) (m : M (Conn (W := W)) Exit A) : Prop :=
  forall c, wp m (fun c' r => frame c c' /\
    match r with Ret _ => False | Throw e => Q e | Panic _ => True end) c.
(** Code that leaves the iteration, after a step if it continues. *)
Definition leaves {A} c (m : M (Conn (W := W)) Exit A) : Prop :=
  wp m (fun c' r => match r with Ret _ => False | Throw Continue => stepped c c'
                            | _ => moved c c' end) c.

Lemma exits_return (Q : Exit -> Prop) {A} r : Q (Return r) -> exits Q (return_ r : M Conn Exit A).
Proof. by intros H c. Qed.
Lemma exits_continue {A} : exits (fun _ => True) (continue_ : M Conn Exit A).
Proof. by intros c. Qed.
Lemma exits_bind {A B} Q (m : M Conn Exit A) (k : A -> M Conn Exit B) :
  framed Q m -> (forall a, exits Q (k a)) -> exits Q (m ≫= k).
Proof.
  intros Hm Hk c. apply wp_bind. eapply wp_mono; [apply Hm|].
  intros c1 [a|e|p] [Hf HQ]; [|by split; [|apply HQ]|done]. eapply wp_mono; [apply Hk|].
  intros c2 r [Hf' ?]. split; [by etrans|done].
Qed.

Lemma leaves_bind {A B} (m : M Conn Exit A) (k : A -> M Conn Exit B) c :
  framed not_continue m -> (forall c1 a, frame c c1 -> leaves c1 (k a)) -> leaves c (m ≫= k).
Proof.
  intros Hm Hk. apply wp_bind. eapply wp_mono; [apply Hm|].
  intros c1 [a|[v|]|p] [Hf HQ]; [|by left|by destruct (HQ _ eq_refl)|by left].
  eapply wp_mono; [by apply Hk|].
  intros c2 [?|[?|]|?]; eauto using frame_stepped, frame_moved.
Qed.

Lemma leaves_step {A} s' (m : M Conn Exit A) c :
  tcp_step (conn_state c) s' -> exits (fun _ => True) m ->
  leaves c (modify_tcb (change_state s');; m).
Proof.
  intros Hs Hm. unfold leaves. wp_step. unfold modify_tcb. wp_step.
  eapply wp_mono; [apply Hm|]. intros c' r [Hf Hr].
  assert (stepped c c') by (eapply stepped_frame; [|done]; by split).
  destruct r as [?|[?|]|?]; first [done | by right].
Qed.

(** Closing, from any state, and returning. *)
Lemma leaves_close {A} (m : M Conn Exit A) c :
  exits not_continue m -> leaves c (modify_tcb (change_state Closed);; m).
Proof.
  intros Hm. unfold leaves. wp_step. unfold modify_tcb. wp_step.
  eapply wp_mono; [apply Hm|]. intros c' r [Hf Hr].
  assert (moved c c').
  { destruct (decide (conn_state c = Closed)) as [Hc|Hc].
    - left. etrans; [|done]. by split.
    - right. eapply stepped_frame; [|done]. split; [done|split; [done|by apply step_close]]. }
  by destruct r as [?|[?|]|?].
Qed.

Lemma in_state_true s c : in_state s c = true -> conn_state c = s.
Proof. unfold in_state, conn_state, get_state. apply bool_decide_eq_true_1. Qed.

Lemma read_retransmit_block k : block (read_retransmit b k).
Proof. apply block_framed. unfold read_retransmit. framed. Qed.

Lemma read_send_queued_block : block read_send_queued.
Proof. apply block_framed. unfold read_send_queued. framed. Qed.

Lemma take_unordered_block : block take_unordered.
Proof. apply block_framed. unfold take_unordered. framed. Qed.

(** Guarded code that leaves the iteration. *)
Lemma leaves_block {A} (m : M Conn Exit A) c : leaves c m -> wp m (block_end c) c.
Proof. intros Hl. eapply wp_mono; [apply Hl|]. by intros c' [?|[?|]|?]. Qed.

Lemma block_when t (m : M Conn Exit unit) :
  (forall c, t = true -> leaves c m) -> block (when t m).
Proof. intros Hm c. apply wp_when; intros Ht; [by apply leaves_block, Hm|done]. Qed.

Lemma block_guarded (g : Conn -> bool) (m : M Conn Exit unit) :
  (forall c, g c = true -> leaves c m) -> block (t ← gets g; when t m).
Proof.
  intros Hm c. wp_step. wp_step. apply wp_when; intros Hg; [by apply leaves_block, Hm|done].
Qed.

Lemma frame_state c c' : frame c c' -> conn_state c' = conn_state c.
Proof. by intros (_ & ? & _). Qed.

#[local] Hint Constructors tcp_step : frame.

Ltac simplify_state :=
  repeat match goal with
  | H : frame _ _ |- _ => apply frame_state in H; rewrite H; clear H
  | H : in_state _ _ = true |- _ => apply in_state_true in H; rewrite H; clear H
  | H : conn_state _ = _ |- _ => rewrite H; clear H
  end.
Ltac leaves :=
  repeat first
    [ apply leaves_close
    | apply leaves_step; [simplify_state; eauto with frame|]
    | apply leaves_bind; [solve [framed]|intros ? ? ?]
    | apply exits_return; done
    | apply exits_continue
    | apply exits_bind; [solve [framed]|intros ?] ].

Lemma read_closed_block : block (read_closed b).
Proof.
  unfold read_closed. apply block_bind; [apply block_framed; framed|intros closed].
  apply block_bind; [apply block_framed; framed|intros _].
  apply block_guarded. intros c Hc. leaves.
Qed.

Lemma read_timeout_block k : block (read_timeout b k).
Proof.
  unfold read_timeout. apply block_bind; [apply block_framed; framed|intros min].
  apply block_bind; [apply block_framed; framed|intros _].
  apply block_bind; [apply block_framed; framed|intros elapsed].
  apply block_bind; [|intros _; apply block_framed; framed].
  apply block_when. intros c _. leaves.
Qed.

Lemma read_handshake_block : block (read_handshake b).
Proof. apply block_guarded. intros c Hc. leaves. Qed.

Lemma read_fin_block : block (read_fin b).
Proof.
  intros c. unfold read_fin. do 4 wp_step. destruct (in_state (FinWait1 true) c) eqn:Hl.
  - apply leaves_block. leaves.
  - apply wp_when; intros Hs; simpl; [|done]. propify. destruct Hs as [[_ Hs] _].
    apply leaves_block. leaves.
Qed.

(** ** One received packet *)

(** Code that makes at most one step, however it ends; if it falls through, no
    step. *)
Definition moved_or_frame {A} c c' (r : exec Exit A) : Prop :=
  match r with Ret _ => frame c c' | _ => moved c c' end.

Lemma wp_moved_bind {A B} (m : M Conn Exit A) (k : A -> M Conn Exit B) c :
  wp m (moved_or_frame c) c ->
  (forall c1 a, frame c c1 -> wp (k a) (fun c' _ => moved c1 c') c1) ->
  wp (m ≫= k) (fun c' _ => moved c c') c.
Proof.
  intros Hm Hk. apply wp_bind. eapply wp_mono; [apply Hm|].
  intros c1 [a|e|p] Hf; [|done..]. eapply wp_mono; [by apply Hk|].
  intros. by eapply frame_moved.
Qed.

Lemma moved_or_frame_framed {A} (m : M Conn Exit A) c :
  framed (fun _ => True) m -> wp m (moved_or_frame c) c.
Proof. intros Hm. eapply wp_mono; [apply Hm|]. intros c' [?|?|?] [? _]; [done|by left..]. Qed.

Lemma moved_or_frame_when t (m : M Conn Exit unit) c :
  leaves c m -> wp (when t m) (moved_or_frame c) c.
Proof.
  intros Hl. apply wp_when; intros _; [|done].
  eapply wp_mono; [apply Hl|]. intros c' [?|[?|]|?]; [done..| |done]. by right.
Qed.

Lemma wp_moved_step s' c :
  tcp_step (conn_state c) s' ->
  wp (modify_tcb (change_state s') : M Conn Exit unit) (fun c' _ => moved c c') c.
Proof. intros Hs. right. by split. Qed.

Lemma leaves_moved {A} (m : M Conn Exit A) c : leaves c m -> wp m (fun c' _ => moved c c') c.
Proof. intros Hl. eapply wp_mono; [apply Hl|]. intros c' [?|[?|]|?]; [done..| |done]. by right. Qed.

Lemma framed_moved {A} (m : M Conn Exit A) c :
  framed (fun _ => True) m -> wp m (fun c' _ => moved c c') c.
Proof. intros Hm. eapply wp_mono; [apply Hm|]. intros c' r [? _]. by left. Qed.

Lemma add_unordered_packet_state k pl t : state (add_unordered_packet k pl t) = state t.
Proof. unfold add_unordered_packet. by case_match. Qed.
#[local] Hint Resolve add_unordered_packet_state : frame.

Lemma framed_on_ack t pl : framed (fun _ => True) (on_ack (W := W) b t pl).
Proof. unfold on_ack, ack_arm, continue_. framed. Qed.
Lemma framed_on_push t pl : framed (fun _ => True) (on_push (W := W) b t pl).
Proof. unfold on_push, continue_. framed. Qed.
#[local] Hint Resolve framed_on_ack framed_on_push : frame.

Ltac moved := repeat first
  [ apply wp_moved_step; simplify_state; eauto with frame
  | apply wp_moved_bind; [solve [apply moved_or_frame_framed; framed]|intros ? ? ?] ].

Lemma on_syn_received_moved t c :
  conn_state c = SynReceived true -> wp (on_syn_received b t) (fun c' _ => moved c c') c.
Proof.
  intros Hc. apply wp_when; intros _; [|by left]. moved.
Qed.

Lemma on_established_moved t pl c :
  conn_state c = Established -> wp (on_established b t pl) (fun c' _ => moved c c') c.
Proof.
  intros Hc. unfold on_established. moved.
  apply wp_moved_bind; [|intros ? ? ?; apply framed_moved; framed].
  apply moved_or_frame_when. unfold on_fin_ack. leaves.
Qed.

Lemma on_fin_wait1_moved t c :
  conn_state c = FinWait1 false -> wp (on_fin_wait1 b t) (fun c' _ => moved c c') c.
Proof.
  intros Hc. unfold on_fin_wait1. case_match; [apply leaves_moved; leaves|].
  apply wp_when; intros _; [|by left]. apply leaves_moved. leaves.
Qed.

Lemma on_fin_wait2_moved t c :
  conn_state c = FinWait2 true -> wp (on_fin_wait2 b t) (fun c' _ => moved c c') c.
Proof.
  intros Hc. unfold on_fin_wait2. case_match; [moved|].
  apply wp_when; intros _; [|by left]. moved.
Qed.

Lemma handle_packet_moved p c : wp (handle_packet b p) (fun c' _ => moved c c') c.
Proof.
  unfold handle_packet. destruct (transport_protocol p) as [t| |]; [|by left..].
  apply wp_moved_bind; [apply moved_or_frame_when; unfold on_reset; leaves|].
  intros c1 _ _. wp_step. wp_step.
  apply wp_moved_bind; [apply moved_or_frame_framed; unfold continue_; framed|].
  intros c2 _ _. wp_step. wp_step. change (get_state (tcb (self c2))) with (conn_state c2).
  destruct (conn_state _) as [[]| |[]|[]|] eqn:Hs; try (by left);
    auto using on_syn_received_moved, on_established_moved, on_fin_wait1_moved, on_fin_wait2_moved.
Qed.

(** ** One iteration *)

(** A packet was taken off the queue, and at most one step made. *)
Definition advanced c c' : Prop :=
  kept c c' /\
  (conn_state c' = conn_state c \/ tcp_step (conn_state c) (conn_state c')) /\
  (distinct c -> exists p, rxq c = p :: rxq c').

Definition iter_end {A} c c' (r : exec Exit A) : Prop :=
  match r with
  | Ret _ | Throw Continue => stepped c c' \/ advanced c c'
  | _ => moved c c' \/ advanced c c'
  end.

Lemma frame_advanced c1 c2 c3 : frame c1 c2 -> advanced c2 c3 -> advanced c1 c3.
Proof.
  intros (H1 & H2 & H3) (K1 & K2 & K3). split; [by etrans|split; [by rewrite <-H2|]].
  intros Hd. rewrite <-H3 by done. by eapply K3, kept_distinct.
Qed.

Lemma frame_iter_end {A} c1 c2 c3 (r : exec Exit A) :
  frame c1 c2 -> iter_end c2 c3 r -> iter_end c1 c3 r.
Proof.
  intros Hf. destruct r as [?|[?|]|?];
    (intros [?|?]; [left|right]); eauto using frame_stepped, frame_advanced, frame_moved.
Qed.

Lemma block_iter_bind {A B} (m : M Conn Exit A) (k : A -> M Conn Exit B) c :
  block m -> (forall c1 a, frame c c1 -> wp (k a) (iter_end c1) c1) ->
  wp (m ≫= k) (iter_end c) c.
Proof.
  intros Hm Hk. apply wp_bind. eapply wp_mono; [apply Hm|].
  intros c1 [a|[v|]|p] Hf; [|by left..]. eapply wp_mono; [by apply Hk|].
  intros. by eapply frame_iter_end.
Qed.

Lemma chan_recv_kept k c :
  kept c (mkConn (self c) (chan_poll_recv (stream_receiver (self c)) k (world c)).2).
Proof.
  split; [done|]. split; [done|]. split; [intros d; apply chan_recv_open|].
  intros Hd. unfold txq; simpl. by rewrite chan_recv_other.
Qed.

Lemma read_packet_iter k c : wp (read_packet b k) (iter_end c) c.
Proof.
  unfold read_packet. apply wp_bind. unfold wp at 1, recv_packet.
  pose proof (chan_recv_spec (stream_receiver (self c)) k (world c)) as Hr.
  pose proof (chan_recv_kept k c) as Hk.
  destruct (chan_poll_recv _ _ _) as [[[p|]|] w]; simpl in *.
  - eapply wp_mono; [apply handle_packet_moved|]. intros c' r Hm.
    assert (advanced c c') as Hadv.
    { destruct Hm as [(H1 & H2 & H3)|(H1 & H3 & H2)];
        (split; [by etrans|split; [auto|]]); intros Hd; exists p; unfold rxq at 1; rewrite Hr; f_equal;
        symmetry; by apply H3. }
    destruct r as [?|[?|]|?]; by right.
  - left. left. split; [done|split; [done|]]. intros _. unfold rxq; simpl. destruct Hr as [-> ->]. done.
  - left. left. split; [done|split; [done|]]. intros _. apply Hr.
Qed.

(** The same on the state with the read buffer. *)
Definition rblock {A} (m : M (ReadSt (W := W)) Exit A) : Prop :=
  forall s, wp m (fun s' r => block_end (conn s) (conn s') r) s.

Lemma rblock_conn {A} (m : M Conn Exit A) : block m -> rblock (on_conn m).
Proof. intros Hm s. unfold on_conn. wp_step. apply Hm. Qed.

Lemma rblock_put bs : rblock (put_buf bs).
Proof. intros s. unfold wp, put_buf. destruct (put_slice _ _); simpl; [done|by left]. Qed.

Lemma rblock_ret {A} (a : A) : rblock (mret a).
Proof. by intros s. Qed.

Lemma rblock_bind {A B} (m : M ReadSt Exit A) (k : A -> M ReadSt Exit B) :
  rblock m -> (forall a, rblock (k a)) -> rblock (m ≫= k).
Proof.
  intros Hm Hk s. apply wp_bind. eapply wp_mono; [apply Hm|].
  intros s1 [a|[v|]|p] Hf; [|done..]. eapply wp_mono; [apply Hk|].
  intros s2 [?|[?|]|?]; simpl in *; eauto using frame_stepped, frame_moved. intros. by etrans.
Qed.

Lemma rblock_iter {A} (m : M ReadSt Exit A) (k : A -> M Conn Exit unit) s :
  rblock m -> (forall a c, wp (k a) (iter_end c) c) ->
  wp (a ← m; on_conn (k a)) (fun s' r => iter_end (conn s) (conn s') r) s.
Proof.
  intros Hm Hk. apply wp_bind. eapply wp_mono; [apply Hm|].
  intros s1 [a|[v|]|p] Hf; [|by left..]. unfold on_conn. wp_step.
  eapply wp_mono; [apply Hk|]. intros. by eapply frame_iter_end.
Qed.

Lemma framed_deliver_reply : framed not_continue (deliver_reply (W := W) b).
Proof. unfold deliver_reply. framed. Qed.

Lemma deliver_reply_exits : exits not_continue (deliver_reply (W := W) b).
Proof. unfold deliver_reply. leaves. Qed.

Lemma read_deliver_rblock : rblock (read_deliver b).
Proof.
  apply rblock_bind; [apply rblock_conn, take_unordered_block|].
  intros [bs|]; [|apply rblock_ret].
  apply rblock_bind; [apply rblock_conn, block_framed; framed|intros _].
  apply rblock_bind; [apply rblock_put|intros _]. apply rblock_conn, block_framed, framed_deliver_reply.
Qed.

Lemma read_start_rblock k :
  rblock (on_conn (read_retransmit b k;; read_send_queued;; read_closed b;;
                   read_timeout b k;; read_handshake b)).
Proof.
  apply rblock_conn. repeat (apply block_bind; [|intros _]);
    auto using read_retransmit_block, read_send_queued_block, read_closed_block,
      read_timeout_block, read_handshake_block.
Qed.

Lemma poll_read_body_iter k s :
  wp (poll_read_body b k) (fun s' r => iter_end (conn s) (conn s') r) s.
Proof.
  unfold poll_read_body.
  assert (rblock (on_conn (read_retransmit b k;; read_send_queued;; read_closed b;;
                           read_timeout b k;; read_handshake b);; read_deliver b)) as Hpre.
  { apply rblock_bind; [apply read_start_rblock|intros _; apply read_deliver_rblock]. }
  apply (rblock_iter _ (fun _ => read_fin b;; read_packet b k) s) in Hpre.
  - unfold wp, mbind, M_bind in *. repeat case_match; simplify_eq/=; done.
  - intros _ c. apply block_iter_bind; [apply read_fin_block|intros ? ? ?; apply read_packet_iter].
Qed.

(** ** The loop *)

Lemma moved_steps c c' :
  moved c c' \/ advanced c c' -> kept c c' /\
  rtc tcp_step (conn_state c) (conn_state c').
Proof.
  intros [[(H & Hs & _)|(H & _ & Hs)]|(H & [Hs|Hs] & _)]; split; auto;
    try (rewrite Hs; reflexivity); by apply rtc_once.
Qed.

Lemma iter_continue c c' :
  distinct c -> stepped c c' \/ advanced c c' ->
  distinct c' /\ (length (rxq c') + rank (conn_state c') < length (rxq c) + rank (conn_state c))%nat.
Proof.
  intros Hd H. assert (distinct c')
    by (destruct H as [(Hc & _)|(Hc & _)]; by eapply kept_distinct).
  split; [done|]. destruct H as [(_ & Hq & Hs%tcp_step_rank)|(_ & Hs & Hq)].
  - rewrite Hq by done. lia.
  - destruct (Hq Hd) as [p ->]. simpl. destruct Hs as [->|Hs%tcp_step_rank]; lia.
Qed.

(** Every call returns: as many iterations as there are packets waiting, plus
    the height of the state machine, are enough; the connection moves along the
    state machine, and keeps its addresses, channels and MTU. *)
Lemma poll_read_total k s n :
  distinct (conn s) -> (length (rxq (conn s)) + rank (conn_state (conn s)) < n)%nat ->
  exists s' r, poll_read b n k s = Some (s', r) /\ kept (conn s) (conn s') /\
    rtc tcp_step (conn_state (conn s)) (conn_state (conn s')).
Proof.
  intros Hd Hn. unfold poll_read.
  eapply (loop_wp _
    (fun s1 => distinct (conn s1) /\ kept (conn s) (conn s1) /\
               rtc tcp_step (conn_state (conn s)) (conn_state (conn s1)))
    (fun s1 => length (rxq (conn s1)) + rank (conn_state (conn s1)))%nat
    (fun s' _ => kept (conn s) (conn s') /\
               rtc tcp_step (conn_state (conn s)) (conn_state (conn s')))); [|done|done].
  intros s1 (Hd1 & Hc1 & Hr1). eapply wp_mono; [apply poll_read_body_iter|].
  intros s2 r Hit.
  assert (moved (conn s1) (conn s2) \/ advanced (conn s1) (conn s2)) as Hm.
  { destruct r as [?|[?|]|?]; destruct Hit; auto; left; by right. }
  apply moved_steps in Hm as [Hc2 Hr2].
  assert (kept (conn s) (conn s2) /\
    rtc tcp_step (conn_state (conn s)) (conn_state (conn s2))) as Hpost
    by (split; by etrans).
  destruct r as [[]|[v|]|p]; try done; apply iter_continue in Hit as [? ?]; auto.
Qed.

End loop.
