(* ===== verification/TcpFoot.v ===== *)
(** * The footprint of a connection

    What the calls of a connection may touch, whatever they are called with and
    however they end: every field keeps the range of its type, the addresses,
    channels and MTU never change, packets are taken from the front of the
    connection's own channel only, and what is sent goes to the device's channel
    only, addressed to the connection's peer and no longer than the MTU.  No
    assumption on the numbers of the connection or of its peer is made. *)

From S2P Require Import Prelude Errors Etherparse Packet Runtime Tcb Tcp TcpPacket TcpLoop.

(** The fields of a received segment have the width of their types. *)
Definition typed_packet `{ET : EtherparseTypes} (p : NetworkPacket) : Prop :=
  forall h, transport p = TransTcp h ->
    sequence_number h ∈u U32 /\ acknowledgment_number h ∈u U32 /\ window_size h ∈u U16.

Section foot.
Context `{EP : Etherparse, EL : !EtherparseLaws} {W : Type} `{RT : !Runtime W NetworkPacket}.
Context `{RO : !RuntimeObs W NetworkPacket, RL : !RuntimeLaws W NetworkPacket}.
Context (b : Build).
Implicit Types (c : Conn (W := W)) (s : IpStackTcpStream (W := W)).

(** A packet of the session of [s], short enough. *)
Definition mine s (p : NetworkPacket) : Prop :=
  reverse_network_tuple p = session_key s /\ fits (mtu s) p.

Lemma rev_packet_mine s flags ttl seqn bs p :
  stream_wf s -> create_rev_packet b s flags ttl seqn bs = Ret p -> mine s p.
Proof.
  intros Hwf Hp. apply (create_rev_packet_inv b) in Hp; [|done].
  split; [by eapply rev_packet_key|by eapply rev_packet_fits_mtu].
Qed.

(** The types of a stream's fields, with the packet that waits to be sent. *)
Record stream_typed s : Prop := {
  st_wf : stream_wf s;
  st_retransmission : forall n, retransmission (tcb s) = Some n -> n ∈u U32;
  st_pending : forall p, packet_to_send s = Some p -> mine s p;
}.

Lemma stream_typed_tcb s t :
  stream_typed s -> tcb_wf t -> (forall n, retransmission t = Some n -> n ∈u U32) ->
  stream_typed (set_tcb t s).
Proof. intros [[] Hr Hp] Ht Hn. by split; [split|..]. Qed.

(** Two worlds that differ in the channels [rx] and [tx] only. *)
Record others (rx tx : Chan) (w w' : W) : Prop := {
  ot_queue : forall d, d <> rx -> d <> tx -> queue d w' = queue d w;
  ot_open : forall d, rx_open d w' = rx_open d w;
  ot_used : forall d, used d w' = used d w;
}.

#[export] Instance others_preorder rx tx : PreOrder (others rx tx).
Proof.
  split; [by split|]. intros w1 w2 w3 [H1 H2 H3] [K1 K2 K3].
  split; intros d; [intros; rewrite K1, H1|rewrite K2, H2|rewrite K3, H3]; done.
Qed.

Section from.
Context (c0 : Conn (W := W)).
Hypothesis Hd0 : distinct c0.
Hypothesis Hrx0 : Forall typed_packet (rxq c0).

(** What a call that started from [c0] may have done. *)
Record own c : Prop := {
  own_cfg : cfg (self c) = cfg (self c0);
  own_typed : stream_typed (self c);
  own_rx : rxq c `suffix_of` rxq c0;
  own_tx : exists l, txq c = txq c0 ++ l /\ Forall (mine (self c0)) l;
  own_others : others (stream_receiver (self c0)) (packet_sender (self c0)) (world c0) (world c);
}.

Lemma own_start : stream_typed (self c0) -> own c0.
Proof using. intros Ht. split; [done|done|done| |reflexivity]. exists []. by rewrite app_nil_r. Qed.

Lemma own_typed_rx c : own c -> Forall typed_packet (rxq c).
Proof using Hrx0.
  intros H. destruct (own_rx c H) as [l Hl]. pose proof Hrx0 as Hf.
  rewrite Hl, Forall_app in Hf. apply Hf.
Qed.

Lemma cfg_mine s p : cfg s = cfg (self c0) -> mine s p <-> mine (self c0) p.
Proof using. unfold cfg, mine, session_key. intros Hc. injection Hc as Es Ed _ _ Em. by rewrite Es, Ed, Em. Qed.

(** Changing the stream's own fields. *)
Lemma own_upd_self f c :
  own c -> cfg (f (self c)) = cfg (self c) -> stream_typed (f (self c)) -> own (upd_self f c).
Proof using.
  intros [Hc _ Hrx Htx Hot] Hf Ht. split; [simpl; congruence|done| | |done].
  - unfold rxq in *. simpl. injection Hf as _ _ -> _ _. done.
  - unfold txq in *. simpl. injection Hf as _ _ _ -> _. done.
Qed.

(** Changing the world without a trace in the channels. *)
Lemma own_world w c :
  own c -> same_chans (world c) w -> (forall d, used d w = used d (world c)) ->
  own (mkConn (self c) w).
Proof using.
  intros [Hc Ht Hrx Htx [Hq Ho Hu]] [Hq' Ho'] Hu'.
  split; unfold rxq, txq in *; simpl; rewrite ?Hq'; try done.
  split; intros; rewrite ?Hq', ?Ho', ?Hu'; auto.
Qed.

Abbreviation keep := (keeps own (fun _ => True)).
Section leaves.
Context {E : Type}.

Lemma keep_modify_tcb f :
  (forall t, tcb_wf t -> tcb_wf (f t)) ->
  (forall t n, retransmission (f t) = Some n -> retransmission t = Some n \/ n ∈u U32) ->
  keep (modify_tcb f : M Conn E unit).
Proof using.
  intros Hwf Hre. apply keeps_modify. intros c Hc. apply own_upd_self; [done|done|].
  pose proof (own_typed c Hc) as Ht. apply stream_typed_tcb; [done|apply Hwf, Ht|].
  intros n Hn. destruct (Hre _ _ Hn); [by apply Ht|done].
Qed.

Lemma keep_try_tcb f :
  (forall t t', tcb_wf t -> f t = Ret t' -> tcb_wf t' /\ retransmission t' = retransmission t) ->
  keep (try_tcb f : M Conn E unit).
Proof using.
  intros Hf. apply keeps_try_modify. intros c c' Hc. unfold mbind, exec_bind.
  destruct (f (tcb (self c))) as [t|[]|] eqn:Ht; [|done]. intros [= <-].
  pose proof (own_typed c Hc) as Hty. apply Hf in Ht as [Hw Hre]; [|apply Hty].
  apply own_upd_self; [done|done|]. apply stream_typed_tcb; [done|done|]. rewrite Hre. apply Hty.
Qed.

Lemma keep_set_packet v :
  (forall p, v = Some p -> mine (self c0) p) ->
  keep (modify (upd_self (set_packet_to_send v)) : M Conn E unit).
Proof using.
  intros Hv. apply keeps_modify. intros c Hc. apply own_upd_self; [done|done|].
  destruct (own_typed c Hc) as [[] Hr Hp]. split; [by split|done|]. simpl.
  intros p ->. apply (cfg_mine (self c)); [apply Hc|auto].
Qed.

Lemma keep_set_notify v : keep (modify (upd_self (set_write_notify v)) : M Conn E unit).
Proof using.
  apply keeps_modify. intros c Hc. apply own_upd_self; [done|done|].
  destruct (own_typed c Hc) as [[] Hr Hp]. by split.
Qed.
Lemma keep_set_shutdown v : keep (modify (upd_self (set_shutdown v)) : M Conn E unit).
Proof using.
  apply keeps_modify. intros c Hc. apply own_upd_self; [done|done|].
  destruct (own_typed c Hc) as [[] Hr Hp]. by split.
Qed.

Lemma keep_wake k : keep (wake k : M Conn E unit).
Proof using RL.
  apply keeps_modify. intros c Hc. apply own_world; [done|apply wake_chans|].
  intros d. apply wake_used.
Qed.

Lemma keep_poll_timeout k : keep (poll_timeout k : M Conn E bool).
Proof using RL.
  intros c Hc. unfold wp, poll_timeout.
  pose proof (sleep_poll_chans (timeout (tcb (self c))) k (world c)) as Hs.
  pose proof (sleep_poll_used (timeout (tcb (self c))) k (world c)) as Hu.
  destruct (sleep_poll _ _ _) as [r w]. split; [by apply own_world|done].
Qed.

Lemma keep_reset_timeout : keep (tcb_reset_timeout : M Conn E unit).
Proof using.
  intros c. apply keep_try_tcb. intros t t' Hw ->%reset_timeout_inv.
  split; [by apply set_timeout_wf|done].
Qed.

(** Sending a packet of the session. *)
Lemma keep_send p : mine (self c0) p -> keep (send_packet p : M Conn E bool).
Proof using RL Hd0.
  intros Hp c Hc. unfold wp, send_packet. destruct Hc as [Hc Ht Hrx (l & Hl & Hml) [Hq Ho Hu]].
  pose proof (chan_send_queue (packet_sender (self c)) p (world c)) as Hq'.
  pose proof (chan_send_open (packet_sender (self c)) p (world c)) as Ho'.
  pose proof (chan_send_used (packet_sender (self c)) p (world c)) as Hu'.
  destruct (chan_send _ _ _) as [ok w]. simpl in *. split; [|done].
  unfold cfg, distinct, txq, rxq in *. injection Hc as Es Ed Er Ep Em.
  split; unfold cfg, txq, rxq; simpl; rewrite ?Ep, ?Er in *; try congruence.
  - rewrite Hq', decide_False; congruence.
  - rewrite Hq', decide_True by done. case_match; [|by eauto].
    exists (l ++ [p]). rewrite Hl, <-app_assoc. split; [done|]. by apply Forall_app_2; [|constructor].
  - split; intros d; [|by rewrite Ho', Ho|by rewrite Hu', Hu].
    intros H1 H2. rewrite Hq', decide_False by done. by apply Hq.
Qed.

(** Receiving takes a packet off the connection's own channel. *)
Lemma keep_recv k :
  keeps own (fun r => forall p, r = Ready (Some p) -> typed_packet p)
    (recv_packet k : M Conn E (Poll (option NetworkPacket))).
Proof using RL Hd0 Hrx0.
  intros c Hc. pose proof (own_typed_rx c Hc) as Hty. unfold wp, recv_packet.
  destruct Hc as [Hc Ht Hrx Htx [Hq Ho Hu]].
  pose proof (chan_recv_spec (stream_receiver (self c)) k (world c)) as Hs.
  pose proof (chan_recv_other (stream_receiver (self c)) k (world c)) as Hq'.
  pose proof (chan_recv_open (stream_receiver (self c)) k (world c)) as Ho'.
  pose proof (chan_recv_used (stream_receiver (self c)) k (world c)) as Hu'.
  destruct (chan_poll_recv _ _ _) as [r w]. simpl in *.
  unfold cfg, distinct, txq, rxq in *. injection Hc as Es Ed Er Ep Em. split; [|intros r' [= <-] p ->].
  - assert (queue (stream_receiver (self c)) w `suffix_of` queue (stream_receiver (self c)) (world c)) as Hsf.
    { destruct r as [[p|]|]; [rewrite Hs; by apply suffix_cons_r|by destruct Hs as [-> ->]|by rewrite Hs]. }
    split; unfold cfg, txq, rxq; simpl; try congruence; try done.
    + by etrans.
    + destruct Htx as (l & Hl & ?). exists l. split; [|done]. rewrite Hq' by congruence. done.
    + split; intros d; [|by rewrite Ho', Ho|by rewrite Hu', Hu].
      intros H1 H2. rewrite Hq' by congruence. by apply Hq.
  - simpl in Hs. rewrite Hs in Hty. by inversion Hty.
Qed.

Lemma keep_rev_packet (ret : IoError -> E) f t n bs :
  keeps own (mine (self c0)) (rev_packet b ret f t n bs).
Proof using EL.
  apply keeps_try_with. intros c p Hc Hp. apply (cfg_mine (self c)); [apply Hc|].
  eapply rev_packet_mine; [|done]. apply Hc.
Qed.

Lemma keep_gets {A} (f : Conn -> A) : keep (gets f : M Conn E A).
Proof using. by apply keeps_gets. Qed.
Lemma keep_ret {A} (a : A) : keep (mret a : M Conn E A).
Proof using. by apply keeps_ret. Qed.
Lemma keep_throw {A} (e : E) : keep (throw e : M Conn E A).
Proof using. apply keeps_throw. Qed.
Lemma keep_panic {A} p : keep (panic_with p : M Conn E A).
Proof using. apply keeps_panic. Qed.
End leaves.

(** ** Every function of the connection *)

#[local] Hint Resolve keep_set_notify keep_set_shutdown keep_wake keep_poll_timeout
  keep_reset_timeout keep_rev_packet keep_recv keep_gets keep_ret keep_throw keep_panic : keeps.
#[local] Hint Extern 1 (keeps own _ (send_packet _)) => (apply keep_send; assumption) : keeps.
#[local] Hint Extern 1 (keeps own _ (modify_tcb _)) =>
  (apply keep_modify_tcb; [solve [auto with ipstack]|solve [auto]]) : keeps.

Ltac keeps :=
  lazymatch goal with
  | |- keeps _ _ (mbind _ _) => eapply keeps_bind; [keeps|intros ? ?; keeps]
  | |- keeps _ _ (when _ _) => apply keeps_when; keeps
  | |- keeps _ _ (call _) => eapply keeps_call; keeps
  | |- keeps _ _ (match _ with _ => _ end) => case_match; keeps
  | |- _ => eauto with keeps
  end.

Section ops.
Context {E : Type} (ret : IoError -> E).

Lemma keep_send_or_eof p : mine (self c0) p -> keep (send_or_eof ret p).
Proof using RL Hd0. intros Hp. unfold send_or_eof. keeps. Qed.

Lemma keep_queue_packet f t : keep (queue_packet b ret f t).
Proof using EL.
  unfold queue_packet. eapply keeps_bind; [apply keep_rev_packet|]. intros p Hp.
  apply keep_set_packet. by intros ? [= <-].
Qed.
Lemma keep_shutdown_ready : keep (shutdown_ready : M Conn E unit).
Proof using RL. unfold shutdown_ready. keeps. Qed.
Lemma keep_notify_writer : keep (notify_writer : M Conn E unit).
Proof using RL. unfold notify_writer. keeps. Qed.
End ops.
#[local] Hint Resolve keep_queue_packet keep_shutdown_ready keep_notify_writer : keeps.
#[local] Hint Extern 1 (keeps own _ (send_or_eof _ _)) => (apply keep_send_or_eof; assumption) : keeps.

Lemma keep_set_retransmission {E} v :
  (forall n, v = Some n -> n ∈u U32) -> keep (modify_tcb (set_retransmission v) : M Conn E unit).
Proof using. intros Hv. apply keep_modify_tcb; [auto with ipstack|]. intros t n Hn. right. by apply Hv. Qed.

Lemma keep_poll_flush {E} : keep (poll_flush b : M Conn E PollUnit).
Proof using EL RL Hd0.
  unfold poll_flush, poll_flush_body. eapply keeps_call.
  eapply keeps_bind; [apply keep_gets|intros st _]. case_match; [keeps|].
  eapply keeps_bind; [apply keep_gets|intros r _].
  eapply keeps_bind; [by apply keep_set_retransmission|intros _ _]. keeps.
Qed.
#[local] Hint Resolve keep_poll_flush : keeps.

Lemma keep_store_ack t : ackno t ∈u U32 -> keep (store_ack (W := W) b t).
Proof using.
  intros Ht. apply keep_try_tcb. intros tc tc' Hw Hc. split; [by eapply change_last_ack_wf|].
  apply change_last_ack_frame in Hc as (l & -> & _); done.
Qed.

Lemma change_send_window_retransmission {E} w t t' :
  @change_send_window E b w t = Ret t' -> retransmission t' = retransmission t.
Proof using.
  unfold change_send_window, plain_mul, plain_add. destruct (avg_send_window t).
  unfold mbind, exec_bind. repeat (destruct arith; [|done..]). destruct plain_div; [|done..].
  by intros [= <-].
Qed.

Lemma keep_store_window t : window_size (inner t) ∈u U16 -> keep (store_window (W := W) b t).
Proof using.
  intros Ht. apply keep_try_tcb. intros tc tc' Hw Hc.
  split; [by eapply change_send_window_wf|by eapply change_send_window_retransmission].
Qed.

Lemma read_retransmit_keep k : keep (read_retransmit b k).
Proof using EL RL Hd0. unfold read_retransmit, return_. keeps. Qed.

Lemma read_send_queued_keep : keep read_send_queued.
Proof using EL RL Hd0.
  unfold read_send_queued.
  eapply keeps_bind; [apply (keeps_gets _ (fun v => forall p, v = Some p -> mine (self c0) p))|].
  { intros c Hc p Hp. apply (cfg_mine (self c)); [apply Hc|]. by apply Hc. }
  intros v Hv. eapply keeps_bind; [by apply keep_set_packet|intros _ _].
  destruct v as [p|]; [|keeps]. apply keep_send_or_eof. auto.
Qed.

Lemma read_closed_keep : keep (read_closed b).
Proof using EL RL. unfold read_closed, return_. keeps. Qed.

Lemma keep_recv_window {E} n : n ∈u U16 -> keep (modify_tcb (change_recv_window n) : M Conn E unit).
Proof using. intros Hn. apply keep_modify_tcb; auto with ipstack. Qed.

Lemma read_timeout_keep k : keep (read_timeout b k).
Proof using EL RL Hd0.
  unfold read_timeout, return_. eapply keeps_bind; [apply (keeps_gets _ (fun n => n ∈u U16))|].
  { intros c _. by apply cast_range. }
  intros n Hn. eapply keeps_bind; [by apply keep_recv_window|intros _ _]. keeps.
Qed.

Lemma read_handshake_keep : keep (read_handshake b).
Proof using EL RL. unfold read_handshake, continue_. keeps. Qed.
Lemma take_unordered_keep : keep take_unordered.
Proof using. unfold take_unordered. keeps. Qed.
Lemma read_fin_keep : keep (read_fin b).
Proof using EL RL. unfold read_fin, continue_. keeps. Qed.
Lemma deliver_reply_keep : keep (deliver_reply b).
Proof using EL RL Hd0. unfold deliver_reply, return_. keeps. Qed.

(** The fields of the header in hand are in range. *)
Section packet.
Context (t : TcpHeaderWrapper).
Hypothesis Ht : seqno t ∈u U32 /\ ackno t ∈u U32 /\ window_size (inner t) ∈u U16.

Lemma keep_add_unordered {E} bs : keep (modify_tcb (add_unordered_packet (seqno t) bs) : M Conn E unit).
Proof using Ht.
  apply keep_modify_tcb; [intros; apply add_unordered_packet_wf; [apply Ht|done]|].
  intros tc n. unfold add_unordered_packet. case_match; simpl; auto.
Qed.
Lemma keep_retransmit_from {E} : keep (modify_tcb (set_retransmission (Some (ackno t))) : M Conn E unit).
Proof using Ht. apply keep_set_retransmission. intros n [= <-]. apply Ht. Qed.
Lemma keep_ack_of : keep (store_ack (W := W) b t).
Proof using Ht. apply keep_store_ack, Ht. Qed.
Lemma keep_window_of : keep (store_window (W := W) b t).
Proof using Ht. apply keep_store_window, Ht. Qed.
#[local] Hint Resolve keep_add_unordered keep_retransmit_from keep_ack_of keep_window_of : keeps.

Lemma on_syn_received_keep : keep (on_syn_received b t).
Proof using Ht. unfold on_syn_received. keeps. Qed.
Lemma on_established_keep pl : keep (on_established b t pl).
Proof using Ht EL RL Hd0.
  unfold on_established, on_ack, on_push, on_fin_ack, ack_arm, continue_, return_.
  keeps.
Qed.
Lemma on_fin_wait1_keep : keep (on_fin_wait1 b t).
Proof using Ht EL. unfold on_fin_wait1, continue_. keeps. Qed.
Lemma on_fin_wait2_keep : keep (on_fin_wait2 b t).
Proof using EL. unfold on_fin_wait2. keeps. Qed.
End packet.

Lemma on_reset_keep : keep (on_reset b).
Proof using EL RL. unfold on_reset, return_. keeps. Qed.

Lemma handle_packet_keep p : typed_packet p -> keep (handle_packet b p).
Proof using EL RL Hd0.
  intros Hp. unfold handle_packet, transport_protocol. destruct (transport p) as [h|u|] eqn:Ht; [|keeps..].
  pose proof (Hp h Ht) as Hr. unfold continue_.
  eapply keeps_bind; [apply keeps_when, on_reset_keep|intros _ _].
  eapply keeps_bind; [apply keep_gets|intros status _].
  eapply keeps_bind; [apply keeps_when; keeps|intros _ _].
  eapply keeps_bind; [apply keep_gets|intros st _].
  repeat case_match; auto using on_syn_received_keep, on_established_keep, on_fin_wait1_keep,
    on_fin_wait2_keep with keeps.
Qed.

Lemma read_packet_keep k : keep (read_packet b k).
Proof using EL RL Hd0 Hrx0.
  unfold read_packet, return_. eapply keeps_bind; [apply keep_recv|intros r Hr].
  destruct r as [[p|]|]; [|keeps..]. by apply handle_packet_keep, Hr.
Qed.

(** ** The poll functions *)

Abbreviation rkeep := (keeps (fun s : ReadSt => own (conn s)) (fun _ => True)).

Lemma rkeep_conn {A} (m : M Conn Exit A) : keep m -> rkeep (on_conn m).
Proof using. intros Hm s Hs. unfold on_conn. wp_step. eapply wp_mono; [by apply Hm|]. by intros c r [? _]. Qed.
Lemma rkeep_put bs : rkeep (put_buf bs).
Proof using. intros s Hs. unfold wp, put_buf. by destruct (put_slice _ _). Qed.

Lemma poll_read_body_keep k : rkeep (poll_read_body b k).
Proof using EL RL Hd0 Hrx0.
  unfold poll_read_body, read_deliver.
  eapply keeps_bind; [apply rkeep_conn|intros _ _].
  { eauto 10 using keeps_bind, read_retransmit_keep, read_send_queued_keep, read_closed_keep,
      read_timeout_keep, read_handshake_keep. }
  apply (keeps_bind _ (fun _ => True)); [|intros _ _; apply rkeep_conn].
  - eapply keeps_bind; [apply rkeep_conn, take_unordered_keep|]. intros [bs|] _; [|by apply keeps_ret].
    eapply keeps_bind; [apply rkeep_conn, keep_modify_tcb; auto with ipstack|intros _ _].
    eapply keeps_bind; [apply rkeep_put|intros _ _]. apply rkeep_conn, deliver_reply_keep.
  - eapply keeps_bind; [apply read_fin_keep|intros _ _]. apply read_packet_keep.
Qed.

Lemma poll_read_own n k rb st r :
  stream_typed (self c0) -> poll_read b n k (mkReadSt c0 rb) = Some (st, r) -> own (conn st).
Proof using EL RL Hd0 Hrx0.
  intros Ht. apply (keeps_loop (fun st => own (conn st)) _ n); [apply poll_read_body_keep|].
  by apply own_start.
Qed.

Lemma keep_add_inflight {E} n bs :
  n ∈u U32 -> keep (modify_tcb (add_inflight_packet n bs) : M Conn E unit).
Proof using. intros Hn. apply keep_modify_tcb; auto with ipstack. Qed.

Lemma poll_write_keep {E} k buf : keep (poll_write b k buf : M Conn E PollSize).
Proof using EL RL Hd0.
  unfold poll_write, poll_write_body. eapply keeps_call.
  eapply keeps_bind; [apply keep_gets|intros st _]. case_match; [keeps|].
  eapply keeps_bind; [apply keep_reset_timeout|intros _ _].
  eapply keeps_bind; [apply keep_gets|intros blocked _]. case_match; [keeps|].
  eapply keeps_bind; [apply keep_gets|intros r _].
  eapply keeps_bind; [keeps|intros _ _].
  eapply keeps_bind; [apply keep_rev_packet|intros p Hp].
  eapply keeps_bind; [apply (keeps_gets _ (fun n => n ∈u U32))|intros n Hn].
  { intros c Hc. apply Hc. }
  eapply keeps_bind; [by apply keep_send_or_eof|intros _ _].
  eapply keeps_bind; [by apply keep_add_inflight|intros _ _]. keeps.
Qed.

End from.

(** A call after a call. *)
Lemma own_trans c0 c1 c2 : own c0 c1 -> own c1 c2 -> own c0 c2.
Proof.
  intros [C1 T1 R1 (l1 & L1 & M1) O1] [C2 T2 R2 (l2 & L2 & M2) O2].
  split; [congruence|done|by etrans| |].
  - exists (l1 ++ l2). rewrite L2, L1, <-app_assoc. split; [done|]. apply Forall_app_2; [done|].
    eapply Forall_impl; [done|]. intros p. by apply cfg_mine.
  - unfold cfg in C1. injection C1 as _ _ Er Ep _. rewrite Er, Ep in O2. by etrans.
Qed.

Lemma keep_own {E A} c0 (m : M Conn E A) :
  keeps (own c0) (fun _ => True) m -> stream_typed (self c0) -> own c0 (m c0).1.
Proof. intros Hm Ht. apply Hm. by apply own_start. Qed.

Lemma poll_shutdown_own n k c c' r :
  distinct c -> Forall typed_packet (rxq c) -> stream_typed (self c) ->
  poll_shutdown b n k c = Some (c', r) -> own c c'.
Proof.
  intros Hd Hrx Ht. unfold poll_shutdown. destruct (is_shut_ready _).
  { intros [= <- <-]. by apply own_start. }
  set (c1 := if is_shut_none _ then _ else _).
  assert (own c c1) as H1.
  { pose proof (own_start c Ht) as H0. unfold c1. case_match; [|done]. unfold shutdown_pending.
    apply own_upd_self; [done|done|]. destruct Ht as [[] ? ?]. by split. }
  destruct (poll_read b n k _) as [[st r']|] eqn:Hr; [|done]. intros [= <- <-].
  apply poll_read_own in Hr; [by eapply own_trans| | |apply H1].
  - unfold distinct, c1. by destruct (is_shut_none _).
  - unfold rxq, c1. by destruct (is_shut_none _).
Qed.

(** ** The types of a connection *)

Record conn_typed c : Prop := {
  ct_distinct : distinct c;
  ct_rx : Forall typed_packet (rxq c);
  ct_stream : stream_typed (self c);
}.

Lemma own_conn_typed c c' : conn_typed c -> own c c' -> conn_typed c'.
Proof.
  intros [Hd Hrx _] Ho. pose proof (own_cfg c c' Ho) as Hc. unfold cfg in Hc.
  split; [unfold distinct in *; congruence|by eapply own_typed_rx|apply Ho].
Qed.

Lemma poll_read_typed n k rb c :
  conn_typed c -> (length (rxq c) + rank (conn_state c) < n)%nat ->
  exists st' r, poll_read b n k (mkReadSt c rb) = Some (st', r) /\ own c (conn st').
Proof.
  intros [Hd Hrx Ht] Hn. destruct (poll_read_total b k (mkReadSt c rb) n Hd Hn) as (s' & r & Hr & _).
  exists s', r. split; [done|]. by eapply poll_read_own.
Qed.

Lemma poll_shutdown_typed n k c :
  conn_typed c -> (length (rxq c) + rank (conn_state c) < n)%nat ->
  exists c' r, poll_shutdown b n k c = Some (c', r) /\ own c c'.
Proof.
  intros [Hd Hrx Ht] Hn. assert (is_Some (poll_shutdown b n k c)) as [[c' r] Hr].
  { unfold poll_shutdown. destruct (is_shut_ready _); [done|].
    set (c1 := if is_shut_none _ then _ else _).
    destruct (poll_read_total b k (mkReadSt c1 (read_buf_uninit 1)) n) as (s' & r & -> & _);
      [..|done]; unfold distinct, rxq, conn_state, c1 in *; by destruct (is_shut_none _). }
  exists c', r. split; [done|]. by eapply poll_shutdown_own.
Qed.

End foot.
