(* ===== verification/TcpSafety.v ===== *)
(** * A connection survives its peer

    [conn_inv] is the invariant of a connection, from its SYN on: every field is
    in the range of its type, the in-flight packets tile the unacknowledged bytes
    once the handshake is over, and whatever waits in the channel is a TCP packet.
    [poll_read] keeps it and does not panic, whatever the peer sends, as long as
    the caller's buffer has room for one packet, the sequence numbers do not wrap
    and the peer does not acknowledge the number of the SYN|ACK itself. *)

From S2P Require Import Prelude Errors Etherparse Packet Runtime Tcb TcbSpec Tcp TcpPacket TcpLoop.

(** What is assumed of the peer: the longest payload it sends, which a caller's
    buffer must hold; and the number it never acknowledges, that of the stream's
    SYN|ACK (whose acknowledgment is the next number). *)
Record Peer := mkPeer {
  longest :> Z;
  unsaid : Z;
}.

Section safety.
Context `{EP : Etherparse, EL : !EtherparseLaws} {W : Type} `{RT : !Runtime W NetworkPacket}.
Context `{RO : !RuntimeObs W NetworkPacket, RL : !RuntimeLaws W NetworkPacket}.
Context (b : Build).
Context (R : Peer).
Implicit Types (c : Conn (W := W)) (t : Tcb).

(** A TCP packet of the peer, whose fields are in range. *)
Definition packet_ok (p : NetworkPacket) : Prop :=
  exists h, transport p = TransTcp h /\ sequence_number h ∈u U32 /\
    acknowledgment_number h ∈u U32 /\ window_size h ∈u U16 /\ len (payload p) <= R /\
    acknowledgment_number h <> unsaid R.

(** What holds of the control block in every state; [n] more window updates
    are within the range of the counter. *)
Record tcb_base (n : nat) t : Prop := {
  tb_wf : tcb_wf t;
  tb_count : count_ok (Z.of_nat n) t;
  tb_unordered : map_Forall (fun _ p => len (unordered_payload p) <= R) (unordered_packets t);
  tb_timely : timely (W := W) (tcp_timeout t);
}.

(** The bytes in flight: a write is accepted below [MAX_UNACK], and adds no more
    than the largest payload. *)
Definition MAX_INFLIGHT : Z := MAX_UNACK - 1 + 65495.

(** Before the handshake is over nothing is in flight but the SYN|ACK, if it was
    sent. *)
Definition greeting (sent : bool) t : Prop :=
  retransmission t = None /\ inflight_packets t = [] /\ last_ack t = unsaid R /\
  seq t = unsaid R + Z.b2z sent /\ unsaid R + 1 < U32.

(** What ties the state to the in-flight data. *)
Definition tcb_link t : Prop :=
  match state t with
  | SynReceived sent => greeting sent t
  | Established =>
      retransmission t = None /\ (exists s, send_rel t s) /\ seq t - last_ack t <= MAX_INFLIGHT
  | _ => True
  end.

Record conn_base (k : nat) c : Prop := {
  cb_family : is_ipv4 (Tcp.dst_addr (self c)) = is_ipv4 (Tcp.src_addr (self c));
  cb_src : plain_addr (Tcp.src_addr (self c));
  cb_dst : plain_addr (Tcp.dst_addr (self c));
  cb_mtu : mtu (self c) ∈u U16;
  cb_distinct : distinct c;
  cb_rx : Forall packet_ok (rxq c);
  cb_tcb : tcb_base (k + length (rxq c)) (tcb (self c));
}.

Definition conn_inv (k : nat) c : Prop := conn_base k c /\ tcb_link (tcb (self c)).

Lemma conn_base_wf k c : conn_base k c -> stream_wf (self c).
Proof. intros []. split; try done. apply cb_tcb0. Qed.

(** The invariant looks at the configuration, the block and the packets. *)
Lemma conn_base_ext k c c' :
  cfg (self c') = cfg (self c) -> rxq c' = rxq c ->
  tcb_base (k + length (rxq c)) (tcb (self c')) -> conn_base k c -> conn_base k c'.
Proof.
  unfold cfg. intros [= Hs Hd Hr Hp Hm] Hq Ht [].
  split; unfold distinct; congruence.
Qed.

(** ** Outcomes *)

Definition no_panic {E A} (r : exec E A) : Prop :=
  match r with Panic _ => False | _ => True end.

(** [safe k m]: from a state with the invariant, [m] does not panic and ends in
    one. *)
Definition safe {E A} (k : nat) (m : M (Conn (W := W)) E A) : Prop :=
  forall c, conn_inv k c -> wp m (fun c' r => conn_inv k c' /\ no_panic r) c.

Section safe.
Context {E : Type} (k : nat).

Lemma safe_bind {A B} (m : M Conn E A) (f : A -> M Conn E B) :
  safe k m -> (forall a, safe k (f a)) -> safe k (m ≫= f).
Proof.
  intros Hm Hf c Hc. apply wp_bind. eapply wp_mono; [by apply Hm|].
  intros c1 [a|e|p] [Hi Hp]; [by apply Hf|by split|done].
Qed.

Lemma safe_ret {A} (a : A) : safe k (mret a : M Conn E A).
Proof. by intros c. Qed.
Lemma safe_gets {A} (f : Conn -> A) : safe k (gets f : M Conn E A).
Proof. by intros c. Qed.
Lemma safe_throw {A} (e : E) : safe k (throw e : M Conn E A).
Proof. by intros c. Qed.
Lemma safe_when g (m : M Conn E unit) : safe k m -> safe k (when g m).
Proof. destruct g; [auto|]. intros _. apply safe_ret. Qed.

(** Assignments that the invariant does not see. *)
Lemma safe_upd_self f :
  (forall s, cfg (f s) = cfg s) -> (forall s, tcb (f s) = tcb s) ->
  safe k (modify (upd_self f) : M Conn E unit).
Proof.
  intros Hf Ht c [Hb Hl]. split; [split|done]; simpl; rewrite ?Ht; [|done].
  eapply (conn_base_ext k c); [apply Hf| |simpl; rewrite Ht; apply Hb|done].
  pose proof (Hf (self c)) as Hc. unfold cfg in Hc. unfold rxq. simpl. congruence.
Qed.

Lemma safe_world {A} (m : M Conn E A) :
  framed (fun _ => True) m ->
  (forall c, self (m c).1 = self c) -> (forall c, no_panic (m c).2) -> safe k m.
Proof.
  intros Hf Hs Hp c [Hb Hl]. unfold wp. specialize (Hf c) as [(_ & _ & Hq) _].
  specialize (Hs c). split; [split; [|by rewrite Hs]|apply Hp].
  eapply (conn_base_ext k c); [by rewrite Hs|apply Hq, Hb|rewrite Hs; apply Hb|done].
Qed.

Lemma safe_wake w : safe k (wake w : M Conn E unit).
Proof. apply safe_world; [apply framed_wake|done|done]. Qed.

Lemma safe_send p : safe k (send_packet p : M Conn E bool).
Proof.
  apply safe_world; [apply framed_send| |]; intros c; unfold send_packet;
    by destruct (chan_send _ _ _).
Qed.

Lemma safe_poll_timeout w : safe k (poll_timeout w : M Conn E bool).
Proof.
  apply safe_world; [apply framed_poll_timeout| |]; intros c; unfold poll_timeout;
    by destruct (sleep_poll _ _ _).
Qed.

(** Updates of the control block. *)
Lemma base_modify_tcb f c :
  (forall n t, tcb_base n t -> tcb_base n (f t)) -> conn_base k c -> conn_base k (upd_tcb f c).
Proof. intros Hf Hb. eapply (conn_base_ext k c); try done. apply Hf, Hb. Qed.

Lemma safe_modify_tcb f :
  (forall n t, tcb_base n t -> tcb_base n (f t)) -> (forall t, tcb_link t -> tcb_link (f t)) ->
  safe k (modify_tcb f : M Conn E unit).
Proof. intros Hf Hl c [Hb Hk]. split; [split; [by apply base_modify_tcb|by apply Hl]|done]. Qed.

Lemma safe_rev_packet (ret : IoError -> E) f ttl s bs : safe k (rev_packet b ret f ttl s bs).
Proof.
  intros c Hc. destruct (create_rev_packet_ok b (self c) f ttl s bs) as (p & Hp & _);
    [by eapply conn_base_wf, Hc|].
  apply wp_try_with; rewrite Hp; intros ? [= ]. by subst.
Qed.

End safe.

(** ** The operations of the control block *)

Lemma count_ok_le n m t : m <= n -> count_ok n t -> count_ok m t.
Proof. intros Hle (Ha & Hc & Hn). split; [done|]. split; [done|lia]. Qed.

Lemma tcb_base_weaken n m t : (m <= n)%nat -> tcb_base n t -> tcb_base m t.
Proof. intros ? []. split; auto. eapply count_ok_le; [|done]. lia. Qed.

Lemma tcb_base_recv_window n v t :
  v ∈u U16 -> tcb_base n t -> tcb_base n (change_recv_window v t).
Proof. intros ? []. split; auto with ipstack. Qed.
Lemma tcb_base_timeout n v t : tcb_base n t -> tcb_base n (set_timeout v t).
Proof. intros []. split; auto with ipstack. Qed.
Lemma tcb_base_retransmission n v t : tcb_base n t -> tcb_base n (set_retransmission v t).
Proof. intros []. split; auto with ipstack. Qed.
Lemma tcb_base_state n v t : tcb_base n t -> tcb_base n (change_state v t).
Proof. intros []. split; auto with ipstack. Qed.
Lemma tcb_base_add_ack n v t : tcb_base n t -> tcb_base n (add_ack v t).
Proof. intros []. split; auto with ipstack. Qed.
Lemma tcb_base_add_seq n t : tcb_base n t -> tcb_base n (add_seq_one t).
Proof. intros []. split; auto with ipstack. Qed.
Lemma tcb_base_take n t : tcb_base n t -> tcb_base n (get_unordered_packets t).2.
Proof. intros []. split; auto with ipstack. by apply map_Forall_delete. Qed.
Lemma tcb_base_add_unordered n k bs t :
  k ∈u U32 -> len bs <= R -> tcb_base n t -> tcb_base n (add_unordered_packet k bs t).
Proof.
  intros ? ? []. split; auto with ipstack; unfold add_unordered_packet; case_match; auto.
  by apply map_Forall_insert_2.
Qed.

Lemma tcb_link_ext t t' :
  state t' = state t -> retransmission t' = retransmission t -> seq t' = seq t ->
  last_ack t' = last_ack t -> inflight_packets t' = inflight_packets t ->
  tcb_link t -> tcb_link t'.
Proof.
  unfold tcb_link. intros -> Hr Hs Hl Hi. case_match; auto.
  { unfold greeting. by rewrite Hr, Hs, Hl, Hi. }
  rewrite Hr. intros (? & [s Hrel] & ?). split; [done|]. split; [exists s; by eapply send_rel_ext|congruence].
Qed.

Lemma tcb_link_add_unordered k bs t : tcb_link t -> tcb_link (add_unordered_packet k bs t).
Proof. apply tcb_link_ext; unfold add_unordered_packet; by case_match. Qed.

Lemma tcb_link_retransmission t : tcb_link t -> tcb_link (set_retransmission None t).
Proof.
  unfold tcb_link. simpl. case_match; auto; [by intros (? & ?)|].
  intros (? & [s Hrel] & ?). split; [done|]. split; [|done]. exists s. by eapply send_rel_ext.
Qed.

(** States after the data transfer. *)
Definition closing_state (s : TcpState) : Prop :=
  match s with SynReceived _ | Established => False | _ => True end.
Lemma tcb_link_closing s t : closing_state s -> tcb_link (change_state s t).
Proof. unfold tcb_link. by destruct s. Qed.

Create HintDb safe.
#[local] Hint Resolve tcb_base_recv_window tcb_base_timeout tcb_base_retransmission tcb_base_state
  tcb_base_add_ack tcb_base_add_seq tcb_base_take tcb_base_add_unordered tcb_link_add_unordered
  tcb_link_retransmission tcb_link_closing base_modify_tcb : safe.
#[local] Hint Extern 1 (tcb_link _ -> tcb_link _) => (by apply tcb_link_ext) : safe.
#[local] Hint Extern 1 (forall t, tcb_link t -> tcb_link _) =>
  (by intros ?; apply tcb_link_ext) : safe.
#[local] Hint Resolve safe_bind safe_ret safe_gets safe_throw safe_when safe_wake safe_send
  safe_poll_timeout safe_rev_packet safe_modify_tcb : safe.
#[local] Hint Extern 1 (safe _ (modify (upd_self _))) => (by apply safe_upd_self) : safe.

Ltac safe :=
  repeat first [progress (auto with safe) | apply safe_when | apply safe_bind; [|intros ?]
               | case_match].

Section ops.
Context {E : Type} (k : nat) (ret : IoError -> E).

Lemma rearm_inv c : conn_inv k c -> conn_inv k (upd_tcb (rearm (instant_now (world c))) c).
Proof.
  intros [Hb Hl]. split; [|by eapply (tcb_link_ext (tcb (self c)))].
  apply base_modify_tcb; [|done]. unfold rearm. eauto with safe.
Qed.
Lemma safe_reset_timeout : safe k (tcb_reset_timeout : M Conn E unit).
Proof.
  intros c Hc. unfold wp. rewrite (reset_timeout_run c) by apply Hc. split; [by apply rearm_inv|done].
Qed.
Lemma safe_send_or_eof p : safe k (send_or_eof ret p).
Proof. unfold send_or_eof. safe. Qed.
Lemma safe_queue_packet f ttl : safe k (queue_packet b ret f ttl).
Proof. unfold queue_packet. safe. Qed.
Lemma safe_shutdown_ready : safe k (shutdown_ready : M Conn E unit).
Proof. unfold shutdown_ready. safe. Qed.
Lemma safe_notify_writer : safe k (notify_writer : M Conn E unit).
Proof. unfold notify_writer. safe. Qed.
End ops.
#[local] Hint Resolve safe_reset_timeout safe_send_or_eof safe_queue_packet safe_shutdown_ready
  safe_notify_writer : safe.

(** With nothing to retransmit, [poll_flush] has nothing to do. *)
Lemma safe_poll_flush {E} k : safe k (poll_flush b : M Conn E PollUnit).
Proof.
  intros c Hc. unfold poll_flush. wp_step. unfold poll_flush_body. do 2 wp_step. case_match.
  - by wp_step.
  - propify. pose proof Hc as [_ Hl]. unfold tcb_link in Hl.
    change (get_state (tcb (self c))) with (state (tcb (self c))) in H. rewrite H in Hl.
    destruct Hl as [Hr _]. do 2 wp_step. wp_step. unfold modify_tcb. wp_step. rewrite Hr. wp_step.
    split; [|done]. destruct Hc as [Hb Hl]. split; [|by apply tcb_link_retransmission].
    apply base_modify_tcb; [|done]. eauto with safe.
Qed.
#[local] Hint Resolve safe_poll_flush : safe.

(** ** The blocks before a packet is received *)

Lemma safe_return {A} k r : safe k (return_ r : M Conn Exit A).
Proof. apply safe_throw. Qed.
Lemma safe_continue {A} k : safe k (continue_ : M Conn Exit A).
Proof. apply safe_throw. Qed.
#[local] Hint Resolve safe_return safe_continue : safe.
#[local] Hint Extern 1 (closing_state _) => exact I : safe.

Lemma safe_close k s : closing_state s -> safe k (modify_tcb (change_state s) : M Conn Exit unit).
Proof. intros Hs. apply safe_modify_tcb; auto with safe. Qed.
#[local] Hint Resolve safe_close : safe.

Lemma read_retransmit_safe k w : safe k (read_retransmit b w).
Proof. unfold read_retransmit. safe. Qed.
Lemma read_send_queued_safe k : safe k read_send_queued.
Proof. unfold read_send_queued. safe. Qed.
Lemma read_closed_safe k : safe k (read_closed b).
Proof. unfold read_closed. safe. Qed.

(** Reading a value, with what is known of it. *)
Lemma safe_gets_bind {E A B} k (g : Conn -> A) (f : A -> M Conn E B) :
  (forall c, safe k (f (g c))) -> safe k (gets g ≫= f).
Proof. intros Hf c Hc. wp_step. wp_step. by apply Hf. Qed.

Lemma read_timeout_safe k w : safe k (read_timeout b w).
Proof.
  unfold read_timeout. apply safe_gets_bind. intros c0.
  apply safe_bind; [apply safe_modify_tcb|intros _; safe].
  - intros. apply tcb_base_recv_window; [apply cast_range; lia|done].
  - auto with safe.
Qed.

Lemma read_handshake_safe k : safe k (read_handshake b).
Proof.
  intros c Hc. unfold read_handshake. do 2 wp_step. apply wp_when; [intros Hs%in_state_true|done].
  assert (wp (queue_packet b exit_err (Z.lor SYN ACK) (TTL b)) (fun c' r =>
    (conn_inv k c' /\ no_panic r) /\ tcb (self c') = tcb (self c)) c) as Hq.
  { apply wp_and; [by apply safe_queue_packet|]. unfold queue_packet, rev_packet, try_with, wp, mbind, M_bind.
    by destruct (create_rev_packet _ _ _ _ _ _). }
  apply wp_bind. eapply wp_mono; [exact Hq|]. intros c1 [[]|e|p] [[[Hb Hl] Hp] Ht]; [|by split|done].
  unfold modify_tcb. do 4 wp_step. split; [split|done].
  - do 2 (apply base_modify_tcb; [auto with safe|]). done.
  - rewrite Ht in Hl. unfold tcb_link, conn_state in *. simpl. rewrite Hs in Hl.
    destruct Hl as (H1 & H2 & H3 & H4 & H5). rewrite Ht. simpl in *. destruct (cb_tcb _ _ Hb) as [[] _ _].
    rewrite Ht in *. split; [done|]. split; [done|]. split; [done|]. split; [|done].
    simpl. rewrite wrapping_add_small by lia. lia.
Qed.

Lemma read_fin_safe k : safe k (read_fin b).
Proof.
  unfold read_fin. apply safe_bind; [apply safe_gets|intros last].
  apply safe_bind; [apply safe_gets|intros shut].
  destruct last; [|apply safe_when]; (apply safe_bind; [apply safe_queue_packet|intros _]).
  all: intros c [Hb Hl]; unfold modify_tcb; repeat wp_step; split; [split|done];
    [repeat (apply base_modify_tcb; [auto with safe|]); done|done].
Qed.

(** The delivered bytes fit the caller's buffer. *)
Lemma take_unordered_safe k c :
  conn_inv k c ->
  wp take_unordered (fun c' r => conn_inv k c' /\
    match r with
    | Ret (Some bs) => len bs <= R /\ is_shut_none (shutdown (self c)) = true
    | Ret None => True
    | _ => False
    end) c.
Proof.
  intros [Hb Hl]. unfold take_unordered, modify_tcb. repeat wp_step. split.
  - split; [apply base_modify_tcb; [auto with safe|done]|].
    by eapply (tcb_link_ext (tcb (self c))).
  - simpl. destruct (is_shut_none _); [|done].
    destruct (unordered_packets (tcb (self c)) !! ack (tcb (self c))) as [p|] eqn:Hp; [|done].
    apply (tb_unordered _ _ (cb_tcb _ _ Hb)) in Hp. by split.
Qed.

(** ** A received packet *)

(** A packet the classification does not reject. *)
Definition valid_packet (h : TcpHeaderWrapper) c : Prop :=
  exists pl, check_pkt_type (tcb (self c)) h pl <> Invalid.
Definition header_ok (h : TcpHeaderWrapper) : Prop :=
  seqno h ∈u U32 /\ ackno h ∈u U32 /\ window_size (inner h) ∈u U16.

Lemma send_rel_le t s : send_rel t s -> last_ack t <= seq t.
Proof. intros (l & _ & Ht & _ & -> & _). by apply tiles_le in Ht. Qed.

(** The handshake is over. *)
Definition synced c : Prop := match conn_state c with SynReceived _ => False | _ => True end.

Lemma store_ack_safe k h c :
  conn_inv k c -> synced c -> header_ok h -> (conn_state c = Established -> valid_packet h c) ->
  wp (store_ack b h) (fun c' r => conn_inv k c' /\ r = Ret tt /\
    conn_state c' = conn_state c) c.
Proof.
  intros [Hb Hl] Hsy (_ & Ha & _) Hv. unfold store_ack, try_tcb, synced, conn_state in *.
  pose proof (tb_wf _ _ (cb_tcb _ _ Hb)) as Hwf.
  assert (exists l, @change_last_ack Empty_set b (ackno h) (tcb (self c)) =
    Ret (set_inflight l (set_last_ack (ackno h) (tcb (self c)))) /\
    tcb_link (set_inflight l (set_last_ack (ackno h) (tcb (self c))))) as (l & Hch & Hlink).
  { unfold tcb_link in *. simpl. destruct (decide (state (tcb (self c)) = Established)) as [Hs|Hs].
    - rewrite Hs in *. destruct Hl as (Hr & [s Hrel] & Hfl).
      pose proof (send_rel_le _ _ Hrel) as Hle. destruct (Hv eq_refl) as [pl Hpl].
      apply check_pkt_type_valid in Hpl; [|done..].
      assert (una s = last_ack (tcb (self c))) as Hu by (by destruct Hrel as (? & _ & _ & _ & ? & _)).
      destruct (@change_last_ack_rel Empty_set b (ackno h) (tcb (self c)) s) as (l & Hch & Hrel');
        [done|done|by rewrite Hu|].
      exists l. split; [done|]. split; [done|]. split; [by eauto|]. simpl in *. unfold ackno in *. lia.
    - exists (inflight_packets (tcb (self c))). rewrite change_last_ack_other by done.
      split; [by destruct (tcb (self c))|]. by destruct (state (tcb (self c))). }
  assert (tcb_wf (set_inflight l (set_last_ack (ackno h) (tcb (self c))))) as Hwf'
    by (by eapply change_last_ack_wf).
  apply wp_try_modify; rewrite Hch; [|done].
  intros c' [= <-]. split; [split|by split].
  - eapply (conn_base_ext k c); try done. destruct (cb_tcb _ _ Hb). by split.
  - done.
Qed.

Lemma store_window_safe k h c :
  conn_inv (S k) c -> header_ok h ->
  wp (store_window b h) (fun c' r => conn_inv k c' /\ r = Ret tt /\
    conn_state c' = conn_state c /\ seq (tcb (self c')) = seq (tcb (self c)) /\
    last_ack (tcb (self c')) = last_ack (tcb (self c))) c.
Proof.
  intros [Hb Hl] (_ & _ & Hw). unfold store_window, try_tcb.
  pose proof (cb_tcb _ _ Hb) as [Hwf Hc Hu Htm].
  assert (count_ok 0 (tcb (self c))) as Hok by (eapply count_ok_le; [|exact Hc]; lia).
  apply wp_try_modify; pose proof (@change_send_window_ok Empty_set b _ _ Hw Hok) as Hcw;
    rewrite Hcw; [|done].
  intros c' [= <-]. split; [split|done].
  - destruct Hb. split; try done. split; [by eapply change_send_window_wf| |done|done].
    eapply (change_send_window_count (E := Empty_set) b); [done|lia| |done].
    eapply count_ok_le; [|exact Hc]. unfold rxq; simpl. lia.
  - by eapply (tcb_link_ext (tcb (self c))).
Qed.

Lemma conn_base_weaken n c : conn_base (S n) c -> conn_base n c.
Proof. intros []. split; try done. eapply tcb_base_weaken; [|done]. lia. Qed.

Lemma conn_inv_weaken k c : conn_inv (S k) c -> conn_inv k c.
Proof.
  intros [[] Hl]. split; [|done]. split; try done.
  eapply tcb_base_weaken; [|done]. lia.
Qed.

(** Packets come and go. *)
Lemma conn_inv_rx k k' (i : IpStackTcpStream (W := W)) w w' :
  conn_inv k (mkConn i w) -> Forall packet_ok (rxq (mkConn i w')) ->
  (k' + length (rxq (mkConn i w')) <= k + length (rxq (mkConn i w)))%nat -> conn_inv k' (mkConn i w').
Proof.
  intros [[] Hl] Hp Hle. split; [|done]. split; try done. by eapply tcb_base_weaken.
Qed.

(** The number of window updates to spare after the packets that wait. *)
Context (K : nat).

(** The postcondition of the handlers: one window update may have been used. *)
Definition handled {A} c' (r : exec Exit A) : Prop := conn_inv K c' /\ no_panic r.

Lemma wp_safe_handled {A} (m : M Conn Exit A) c :
  safe K m -> conn_inv (S K) c -> wp m handled c.
Proof. intros Hm Hc. by apply Hm, conn_inv_weaken. Qed.

Lemma wp_store_ack {A} h (m : M Conn Exit A) c Φ :
  conn_inv (S K) c -> synced c -> header_ok h -> (conn_state c = Established -> valid_packet h c) ->
  (forall c1, conn_inv (S K) c1 -> conn_state c1 = conn_state c -> wp m Φ c1) ->
  wp (store_ack b h;; m) Φ c.
Proof.
  intros Hc Hsy Hh Hv Hm. apply wp_bind. eapply wp_mono; [by apply (store_ack_safe (S K))|].
  intros c1 r (Hi & -> & Hs). by apply Hm.
Qed.

Lemma wp_store_window {A} h (m : M Conn Exit A) c :
  conn_inv (S K) c -> header_ok h ->
  (forall c1, conn_inv K c1 -> conn_state c1 = conn_state c ->
     seq (tcb (self c1)) = seq (tcb (self c)) ->
     last_ack (tcb (self c1)) = last_ack (tcb (self c)) -> wp m handled c1) ->
  wp (store_window b h;; m) handled c.
Proof.
  intros Hc Hh Hm. apply wp_bind. eapply wp_mono; [by apply (store_window_safe K)|].
  intros c1 r (Hi & -> & Hs & ? & ?). by apply Hm.
Qed.

(** A retransmission request while data is outstanding finds its packet. *)
Lemma retransmit_safe k a c :
  conn_inv k c -> conn_state c = Established -> a = last_ack (tcb (self c)) ->
  seq (tcb (self c)) <> last_ack (tcb (self c)) ->
  wp (modify_tcb (set_retransmission (Some a));; poll_flush b : M Conn Exit PollUnit)
     (fun c' r => conn_inv k c' /\ no_panic r) c.
Proof.
  intros Hc Hs -> Hne. unfold modify_tcb, poll_flush, conn_state in *. do 3 wp_step.
  unfold poll_flush_body. do 2 wp_step. simpl. unfold get_state. simpl.
  rewrite Hs, bool_decide_eq_true_2 by done. simpl. unfold modify_tcb. do 4 wp_step. simpl.
  set (c1 := upd_tcb _ (upd_tcb _ _)).
  assert (conn_inv k c1) as Hc1.
  { destruct Hc as [Hb Hl]. split.
    - do 2 (apply base_modify_tcb; [auto with safe|]). done.
    - unfold tcb_link in *. simpl. rewrite Hs in *. destruct Hl as (_ & [sb Hrel] & Hfl).
      split; [done|]. split; [|done]. exists sb. by eapply send_rel_ext. }
  pose proof Hc as [_ Hl]. unfold tcb_link in Hl. rewrite Hs in Hl. destruct Hl as (_ & [sb Hrel] & _).
  destruct (send_rel_oldest _ _ Hrel) as (p & Hf & _); [congruence|].
  do 2 wp_step. change (inflight_packets (tcb (self c1))) with (inflight_packets (tcb (self c))).
  rewrite Hf.
  eapply wp_mono with (Φ := fun c' r => conn_inv k c' /\ no_panic r);
    [|by intros c2 [?|?|?] [? ?]].
  match goal with |- wp ?m _ _ => enough (safe k m) as Hsafe by (by apply Hsafe) end. safe.
Qed.

Lemma check_retransmission t h pl :
  check_pkt_type t h pl = RetransmissionRequest -> ackno h = last_ack t /\ seq t <> last_ack t.
Proof.
  unfold check_pkt_type, ackno. repeat case_match; try done. intros _. propify. split; [done|tauto].
Qed.

Lemma on_ack_handled h pl c :
  conn_inv (S K) c -> conn_state c = Established -> header_ok h -> len pl <= R ->
  wp (on_ack b h pl) handled c.
Proof.
  intros Hc Hs Hh Hpl. unfold on_ack. do 2 wp_step.
  assert (synced c) as Hsy by (unfold synced; by rewrite Hs).
  assert (check_pkt_type (tcb (self c)) h pl <> Invalid -> valid_packet h c) as Hv
    by (intros; by exists pl).
  apply wp_bind. eapply wp_mono with (Φ := handled); [|by intros c1 [[]|e|p] [? ?]].
  unfold ack_arm.
  destruct (check_pkt_type (tcb (self c)) h pl) eqn:Hck.
  - apply wp_store_window; [done..|]. intros c1 ? _ _ _. by apply safe_notify_writer.
  - split; [by apply conn_inv_weaken|done].
  - apply check_retransmission in Hck as [Ha Hne].
    apply wp_store_window; [done..|]. intros c1 H1 H2 H3 H4.
    assert (wp (modify_tcb (set_retransmission (Some (ackno h)));; poll_flush b)
      (fun c' r => conn_inv K c' /\ no_panic r) c1) as Hr
      by (apply retransmit_safe; congruence).
    unfold wp, mbind, M_bind in *. revert Hr. repeat case_match; simplify_eq/=; try done;
      unfold when, return_, throw, mret, M_ret; case_match; simpl; done.
  - apply wp_store_ack; [done..|auto|]. intros c1 H1 H2.
    apply wp_bind. eapply wp_mono; [apply (safe_modify_tcb (S K));
      [intros; apply tcb_base_add_unordered; auto; apply Hh|auto with safe|done]|].
    intros c2 [[]|e|p] [H3 ?]; [|by split; [apply conn_inv_weaken|]|done].
    apply wp_store_window; [done..|]. intros c3 ? _ _ _. by apply safe_notify_writer.
  - apply wp_store_ack; [done..|auto|]. intros c1 H1 H2.
    apply wp_store_window; [done..|]. intros c2 ? _ _ _. by apply safe_notify_writer.
  - apply wp_store_ack; [done..|auto|]. intros c1 H1 H2.
    apply wp_store_window; [done..|]. intros c2 ? _ _ _. by apply safe_queue_packet.
Qed.

Lemma on_push_handled h pl c :
  conn_inv (S K) c -> synced c -> header_ok h -> len pl <= R -> wp (on_push b h pl) handled c.
Proof.
  intros Hc Hsy Hh Hpl. unfold on_push. do 2 wp_step. apply wp_bind, wp_when; intros Hn.
  { split; [by apply conn_inv_weaken|done]. }
  propify. apply wp_store_ack; [done..|exists pl; congruence|]. intros c1 H1 _.
  do 2 wp_step. apply wp_bind, wp_when; intros _; [split; [by apply conn_inv_weaken|done]|].
  apply wp_store_window; [done..|]. intros c2 H2 _ _ _.
  match goal with |- wp ?m _ _ => enough (safe K m) as Hsafe by (by apply Hsafe) end.
  apply safe_bind; [|auto with safe].
  apply safe_modify_tcb; [|auto with safe]. intros. apply tcb_base_add_unordered; auto. apply Hh.
Qed.

Lemma on_fin_ack_safe k : safe k (on_fin_ack b).
Proof. unfold on_fin_ack. safe. Qed.

Lemma on_reset_safe k : safe k (on_reset b).
Proof. unfold on_reset. safe. Qed.

Lemma on_established_handled h pl c :
  conn_inv (S K) c -> conn_state c = Established -> header_ok h -> len pl <= R ->
  wp (on_established b h pl) handled c.
Proof.
  intros Hc Hs Hh Hpl. unfold on_established.
  destruct (flags h =? ACK); simpl; [|destruct (flags h =? Z.lor FIN ACK); simpl].
  - apply wp_bind. eapply wp_mono with (Φ := fun c1 r => handled c1 r /\ r <> Ret tt).
    { apply wp_and; [by apply on_ack_handled|]. unfold on_ack. do 2 wp_step. apply wp_bind.
      unfold wp. by destruct (ack_arm _ _ _ _ _) as [? [[]|?|?]]. }
    by intros c1 [[]|e|p] [[? ?] ?].
  - do 2 wp_step. apply wp_bind. eapply wp_mono with (Φ := fun c1 r => handled c1 r /\ r <> Ret tt).
    { apply wp_and; [by apply wp_safe_handled; [apply on_fin_ack_safe|]|].
      unfold on_fin_ack, wp, mbind, M_bind. by repeat case_match. }
    by intros c1 [[]|e|p] [[? ?] ?].
  - do 4 wp_step. apply wp_when; intros _; [apply on_push_handled; try done; unfold synced; by rewrite Hs|].
    split; [by apply conn_inv_weaken|done].
Qed.

Lemma on_fin_wait1_handled h c :
  conn_inv (S K) c -> conn_state c = FinWait1 false -> header_ok h ->
  wp (on_fin_wait1 b h) handled c.
Proof.
  intros Hc Hs Hh. unfold on_fin_wait1. destruct (flags h =? ACK).
  - apply wp_store_ack; [done|unfold synced; by rewrite Hs|done|congruence|].
    intros c1 H1 _. apply wp_safe_handled; [|done]. safe.
  - apply wp_when; intros _; [|by split; [apply conn_inv_weaken|]].
    apply wp_bind. eapply wp_mono; [apply (safe_modify_tcb (S K)); [auto with safe..|done]|].
    intros c1 [[]|e|p] [H1 ?]; [|by split; [apply conn_inv_weaken|]|done].
    apply wp_bind. eapply wp_mono; [by apply (safe_queue_packet (S K))|].
    intros c2 [[]|e|p] [H2 ?]; [|by split; [apply conn_inv_weaken|]|done].
    apply wp_store_window; [done..|]. intros c3 H3 _ _ _.
    match goal with |- wp ?m _ _ => enough (safe K m) as Hsafe by (by apply Hsafe) end. safe.
Qed.

Lemma on_fin_wait2_safe k h : safe k (on_fin_wait2 b h).
Proof. unfold on_fin_wait2. safe. Qed.

Lemma try_tcb_run {E} f t c :
  f (tcb (self c)) = Ret t -> try_tcb f c = (upd_tcb (fun _ => t) c, Ret tt : exec E unit).
Proof. intros Hf. unfold try_tcb, try_modify. by rewrite Hf. Qed.

(** The acknowledgment of the SYN|ACK ends the handshake. *)
Lemma on_syn_received_run h c :
  conn_base (S K) c -> conn_state c = SynReceived true -> retransmission (tcb (self c)) = None ->
  inflight_packets (tcb (self c)) = [] -> header_ok h -> flags h = ACK -> ackno h = seq (tcb (self c)) ->
  exists c', on_syn_received b h c = (c', Ret tt) /\ conn_inv K c' /\ conn_state c' = Established.
Proof.
  intros Hb Hs Hr Hi (_ & Hak & Hwn) Hf Ha. unfold conn_state in Hs.
  pose proof Hb as [_ _ _ _ _ _ [Hwf Hcnt Hun]].
  unfold on_syn_received. rewrite (proj2 (Z.eqb_eq _ _) Hf). cbn [when].
  erewrite bind_run by (apply try_tcb_run, change_last_ack_other; [done|congruence]).
  set (t1 := set_last_ack (ackno h) (tcb (self c))).
  assert (tcb_wf t1) as Hwf1 by (destruct Hwf; split; try done; simpl; by rewrite Ha).
  assert (count_ok 0 t1) as Hc1 by (eapply (count_ok_le (Z.of_nat (S K + length (rxq c)))); [lia|done]).
  erewrite bind_run by (by apply try_tcb_run, change_send_window_ok).
  eexists. split; [reflexivity|]. split; [|done]. split.
  - pose proof (change_send_window_ok (E := Empty_set) b _ t1 Hwn Hc1) as Hcw.
    eapply (conn_base_ext K c); [done|done| |by apply conn_base_weaken]. split; [| |done|done].
    + by apply set_state_wf, (change_send_window_wf b _ _ _ Hwn Hwf1 Hcw).
    + apply (change_send_window_count b _ _ _ (Z.of_nat (K + length (rxq c))) Hwn) in Hcw;
        [done|lia|]. by eapply (count_ok_le (Z.of_nat (S K + length (rxq c)))); [lia|].
  - split; [done|]. destruct Hwf. simpl. rewrite Ha. split; [|unfold MAX_INFLIGHT, MAX_UNACK; lia].
    exists (mkSendBuf (seq (tcb (self c))) []), []. simpl. rewrite Hi. split; [done|]. split; [done|].
    split; [done|]. split; [done|]. lia.
Qed.

Lemma on_syn_received_handled h c :
  conn_inv (S K) c -> conn_state c = SynReceived true -> header_ok h -> valid_packet h c ->
  ackno h <> unsaid R -> wp (on_syn_received b h) handled c.
Proof.
  intros Hc Hs Hh [pl Hv] Ha. destruct (decide (flags h = ACK)) as [Hf|Hf].
  2:{ unfold on_syn_received. rewrite (proj2 (Z.eqb_neq _ _) Hf). split; [by apply conn_inv_weaken|done]. }
  pose proof Hc as [Hb Hl]. unfold tcb_link, conn_state in *. rewrite Hs in Hl.
  destruct Hl as (Hr & Hi & Hla & Hsq & Hlt). simpl in Hsq. destruct Hh as (? & Hak & ?).
  apply check_pkt_type_valid in Hv; [|apply Hb|done|lia]. unfold ackno in *.
  destruct (on_syn_received_run h c) as (c' & Hrun & Hi' & _); [done|done|done|done|done|done|unfold ackno; lia|].
  unfold wp. by rewrite Hrun.
Qed.

Lemma handle_packet_handled p c :
  conn_inv (S K) c -> packet_ok p -> wp (handle_packet b p) handled c.
Proof.
  intros Hc (h & Ht & Hq & Ha & Hw & Hpl & Hun). unfold handle_packet, transport_protocol. rewrite Ht.
  assert (header_ok (wrap_tcp_header h)) as Hh by done.
  apply wp_bind. eapply wp_mono; [apply safe_when; [apply (on_reset_safe (S K))|done]|].
  intros c1 [[]|e|q] [H1 ?]; [|by split; [apply conn_inv_weaken|]|done].
  do 2 wp_step. apply wp_bind, wp_when; intros Hv; [by split; [apply conn_inv_weaken|]|].
  do 2 wp_step. change (get_state (tcb (self c1))) with (conn_state c1).
  assert (handled c1 (Ret tt : exec Exit unit)) by (by split; [apply conn_inv_weaken|]).
  destruct (conn_state c1) as [[]| |[]|[]|] eqn:Hs; try done.
  - apply on_syn_received_handled; try done. exists (payload p). by propify.
  - by apply on_established_handled.
  - by apply on_fin_wait1_handled.
  - apply wp_safe_handled; [apply on_fin_wait2_safe|done].
Qed.

Lemma read_packet_handled w c : conn_inv K c -> wp (read_packet b w) handled c.
Proof.
  intros Hc. unfold read_packet. apply wp_bind. unfold wp at 1, recv_packet.
  pose proof (chan_recv_spec (stream_receiver (self c)) w (world c)) as Hr.
  destruct (chan_poll_recv _ _ _) as [[[p|]|] w']; simpl in *.
  - assert (rxq c = p :: rxq (mkConn (self c) w')) as Hq by done.
    destruct Hc as [[] Hl]. rewrite Hq in *. apply Forall_cons in cb_rx0 as [Hp Hrx].
    apply handle_packet_handled; [|done]. split; [|done]. split; try done.
    simpl in *. by rewrite Nat.add_succ_r in cb_tcb0.
  - destruct Hr as [Hq Hq']. split; [|done]. destruct Hc as [Hb Hl]. split; [|done].
    eapply (conn_base_ext K c); try done; [|apply Hb]. unfold rxq. simpl. congruence.
  - split; [|done]. destruct Hc as [Hb Hl]. split; [|done].
    eapply (conn_base_ext K c); try done. apply Hb.
Qed.

(** ** The loop *)

(** The buffer has room for a packet, or nothing will be put into it because
    the stream is shutting down. *)
Definition room (s : ReadSt (W := W)) : Prop :=
  is_shut_none (shutdown (self (conn s))) = true -> R <= remaining (rbuf s).
Definition read_inv (s : ReadSt (W := W)) : Prop := conn_inv K (conn s) /\ room s.

(** The same notion on the state with the read buffer: the invariant of the
    connection is kept on every outcome, there is no panic if there is room, and
    the buffer only changes on the way out. *)
Definition rsafe {A} (m : M (ReadSt (W := W)) Exit A) : Prop :=
  forall s, conn_inv K (conn s) ->
    wp m (fun s' r => conn_inv K (conn s') /\ (room s -> no_panic r) /\
      match r with Ret _ | Throw Continue => rbuf s' = rbuf s | _ => True end) s.

Lemma rsafe_conn {A} (m : M Conn Exit A) : safe K m -> rsafe (on_conn m).
Proof.
  intros Hm s Hc. unfold on_conn. wp_step. eapply wp_mono; [by apply Hm|].
  by intros c' [?|[?|]|?] [? ?].
Qed.

(** Going on leaves room in the buffer, if no shutdown was taken back. *)
Lemma room_kept s s' : kept (conn s) (conn s') -> rbuf s' = rbuf s -> room s -> room s'.
Proof.
  intros (_ & Hshut & _) Hb Hr. unfold room in *. rewrite Hb.
  intros Hs'. destruct (is_shut_none (shutdown (self (conn s)))) eqn:He; [by apply Hr|].
  by rewrite Hshut in Hs'.
Qed.

Lemma rsafe_bind {A B} (m : M ReadSt Exit A) (f : A -> M ReadSt Exit B) :
  rblock m -> rsafe m -> (forall a, rsafe (f a)) -> rsafe (m ≫= f).
Proof.
  intros Hk Hm Hf s Hs. apply wp_bind.
  eapply wp_mono; [apply wp_and; [by apply Hm|apply Hk]|].
  intros s1 [a|[v|]|p] [(Hc & Hp & Hb) Hend]; [|done..]. destruct Hend as [Hkept _].
  eapply wp_mono; [by apply Hf|]. intros s2 r (? & Hn & Hr). rewrite <-Hb. split; [done|].
  split; [|done]. intros Hrm. by eapply Hn, room_kept.
Qed.

Lemma deliver_reply_safe k : safe k (deliver_reply b).
Proof. unfold deliver_reply. safe. Qed.

Lemma read_deliver_safe : rsafe (read_deliver b).
Proof.
  intros s Hc. unfold read_deliver. apply wp_bind. unfold on_conn at 1. wp_step.
  eapply wp_mono; [by apply (take_unordered_safe K)|].
  intros c1 [[bs|]|e|p] [H1 Hbs]; simpl; [|by split|done..]. destruct Hbs as [Hbs Hsh].
  apply wp_bind. unfold on_conn at 1. wp_step.
  eapply wp_mono; [apply (safe_modify_tcb K); [auto with safe..|done]|].
  intros c2 [[]|e|p] [H2 ?]; simpl; [|by destruct e|done].
  apply wp_bind. unfold wp at 1, put_buf. simpl.
  destruct (put_slice bs (rbuf s)) as [rb|] eqn:Hput.
  2:{ split; [done|]. split; [|done]. intros Hrb. specialize (Hrb Hsh).
      destruct (put_slice_fits bs (rbuf s)) as (? & ? & _); [lia|congruence]. }
  simpl. unfold on_conn. wp_step.
  eapply wp_mono; [apply wp_and; [by apply (deliver_reply_safe K)|apply deliver_reply_exits]|].
  by intros c3 [?|[?|]|?] [[? ?] [_ ?]].
Qed.

Lemma poll_read_body_safe w : rsafe (poll_read_body b w).
Proof.
  unfold poll_read_body.
  apply rsafe_bind; [apply read_start_rblock| |intros _; apply rsafe_bind; [| |intros _]].
  - apply rsafe_conn. repeat (apply safe_bind; [|intros _]);
      auto using read_retransmit_safe, read_send_queued_safe, read_closed_safe,
        read_timeout_safe, read_handshake_safe.
  - apply read_deliver_rblock.
  - apply read_deliver_safe.
  - apply rsafe_conn, safe_bind; [apply read_fin_safe|intros _]. intros c Hc.
    by apply read_packet_handled.
Qed.

(** A read returns, keeps the invariant, and panics only for want of room. *)
Lemma poll_read_ends w s n :
  conn_inv K (conn s) -> (length (rxq (conn s)) + rank (conn_state (conn s)) < n)%nat ->
  exists s' r, poll_read b n w s = Some (s', r) /\ conn_inv K (conn s') /\ (room s -> no_panic r).
Proof.
  intros Hs Hn. unfold poll_read.
  edestruct (loop_wp (poll_read_body b w) (fun s1 => conn_inv K (conn s1) /\ (room s -> room s1))
    (fun s1 => length (rxq (conn s1)) + rank (conn_state (conn s1)))%nat
    (fun s' r => conn_inv K (conn s') /\ (room s -> no_panic r))) as (s' & r & Hl & Hc & Hp);
    [|by split|done|by eauto].
  intros s1 [Hi Hroom]. eapply wp_mono;
    [apply wp_and; [by apply poll_read_body_safe|apply poll_read_body_iter]|].
  intros s2 r [(Hc & Hp & Hb) Hit].
  assert (kept (conn s1) (conn s2)) as Hkept.
  { apply moved_steps. destruct r as [?|[?|]|?]; destruct Hit; auto; left; by right. }
  assert (rbuf s2 = rbuf s1 -> room s -> room s2) as Hr by (intros; by eapply room_kept; [..|apply Hroom]).
  destruct r as [[]|[v|]|p]; simpl in Hp |- *.
  all: try (split; [done|by auto]).
  all: apply iter_continue in Hit as [_ ?]; [|apply Hi]; by auto.
Qed.

Lemma poll_read_safe w s n :
  read_inv s -> (length (rxq (conn s)) + rank (conn_state (conn s)) < n)%nat ->
  exists s' r, poll_read b n w s = Some (s', Ret r) /\ conn_inv K (conn s').
Proof.
  intros [Hs Hr] Hn. destruct (poll_read_ends w s n Hs Hn) as (s' & [r|[]|p] & Hrun & Hc & Hp); [by eauto|].
  by destruct (Hp Hr).
Qed.

End safety.
