(* ===== verification/TcpOrder.v ===== *)
(** * In-order delivery

    The peer sends a byte stream [S] whose first byte has sequence number
    [irs].  As long as every packet that arrives carries a piece of that stream,
    in any order and any number of times, and the peer has not closed its side,
    what [poll_read] puts into the callers' buffers is the stream, from its
    first byte on, without gaps or repetitions. *)

From S2P Require Import Prelude Errors Etherparse Packet Runtime Tcb TcbSpec Tcp TcpLoop.

Section order.
Context `{EP : Etherparse} {W : Type} `{RT : !Runtime W NetworkPacket}.
Context `{RO : !RuntimeObs W NetworkPacket, RL : !RuntimeLaws W NetworkPacket}.
Context (b : Build) (irs : Z) (S : list byte).
Implicit Types (c : Conn (W := W)) (t : Tcb).

(** A packet that does not close the stream and, if it is one of those that carry
    data, carries a piece of it. *)
Definition stream_packet (p : NetworkPacket) : Prop :=
  forall h, transport p = TransTcp h ->
    flags (wrap_tcp_header h) <> Z.lor FIN ACK /\
    (flags (wrap_tcp_header h) = ACK \/ flags (wrap_tcp_header h) = Z.lor PSH ACK ->
     piece irs S (sequence_number h) (payload p)).

(** States before either side has closed, or after a reset or timeout. *)
Definition open_state (s : TcpState) : Prop :=
  match s with FinWait1 _ | FinWait2 _ => False | _ => True end.

Record order_inv c : Prop := {
  oi_distinct : distinct c;
  oi_shutdown : is_shut_pending (shutdown (self c)) = false;
  oi_state : open_state (conn_state c);
  oi_rel : recv_rel irs S (tcb (self c));
  oi_rx : Forall stream_packet (rxq c);
}.

Definition conn_ack c : Z := ack (tcb (self c)).
Definition conn_delivered c : list byte := delivered irs S (tcb (self c)).

(** Code that keeps the invariant and the acknowledgment number. *)
Definition quiet {E A} (m : M (Conn (W := W)) E A) : Prop :=
  forall c, order_inv c -> wp m (fun c' _ => order_inv c' /\ conn_ack c' = conn_ack c) c.

Section quiet.
Context {E : Type}.

Lemma quiet_bind {A B} (m : M Conn E A) (k : A -> M Conn E B) :
  quiet m -> (forall a, quiet (k a)) -> quiet (m ≫= k).
Proof.
  intros Hm Hk c Hc. apply wp_bind. eapply wp_mono; [by apply Hm|].
  intros c1 [a|e|p] [Hi Ha]; [|done..]. eapply wp_mono; [by apply Hk|].
  intros c2 r [? ?]. split; [done|congruence].
Qed.

Lemma quiet_ret {A} (a : A) : quiet (mret a : M Conn E A).
Proof. by intros c. Qed.
Lemma quiet_gets {A} (f : Conn -> A) : quiet (gets f : M Conn E A).
Proof. by intros c. Qed.
Lemma quiet_throw {A} (e : E) : quiet (throw e : M Conn E A).
Proof. by intros c. Qed.
Lemma quiet_panic {A} p : quiet (panic_with p : M Conn E A).
Proof. by intros c. Qed.
Lemma quiet_when g (m : M Conn E unit) : quiet m -> quiet (when g m).
Proof. destruct g; [auto|]. intros _. apply quiet_ret. Qed.
Lemma quiet_call {X} (m : M Conn X X) : quiet m -> quiet (call m : M Conn E X).
Proof. intros Hm c Hc. apply wp_call. eapply wp_mono; [by apply Hm|]. by intros c' [?|?|?]. Qed.

(** Framed code that leaves the stream's own fields alone. *)
Lemma quiet_framed {A} (m : M Conn E A) :
  framed (fun _ => True) m -> (forall c, self (m c).1 = self c) -> quiet m.
Proof.
  intros Hf Hs c []. unfold wp. specialize (Hf c) as [([Hcfg _] & Hst & Hq) _].
  specialize (Hs c). split; [split|]; unfold conn_ack, distinct in *; try congruence.
  rewrite Hq; done.
Qed.

Lemma quiet_upd_self f :
  (forall s, cfg (f s) = cfg s /\ tcb (f s) = tcb s /\
    (is_shut_pending (shutdown s) = false -> is_shut_pending (shutdown (f s)) = false)) ->
  quiet (modify (upd_self f) : M Conn E unit).
Proof.
  intros Hf c []. destruct (Hf (self c)) as (Hc & Ht & Hs). unfold cfg in Hc.
  split; [split|]; unfold conn_ack, conn_state, distinct, rxq in *; simpl; rewrite ?Ht; auto;
    congruence.
Qed.

Lemma quiet_tcb f :
  (forall t, open_state (state t) -> recv_rel irs S t ->
    open_state (state (f t)) /\ recv_rel irs S (f t) /\ ack (f t) = ack t) ->
  quiet (modify_tcb f : M Conn E unit).
Proof.
  intros Hf c []. destruct (Hf (tcb (self c))) as (Hs & Hr & Ha); [done..|].
  by split; [split|].
Qed.

Lemma quiet_try_tcb f :
  (forall t t', f t = Ret t' -> state t' = state t /\ ack t' = ack t /\
    unordered_packets t' = unordered_packets t) ->
  quiet (try_tcb f : M Conn E unit).
Proof.
  intros Hf c []. apply wp_try_modify; unfold mbind, exec_bind; [|done].
  intros c' Hc'. destruct (f (tcb (self c))) as [t|[]|p] eqn:Ht; [|done].
  injection Hc' as <-. apply Hf in Ht as (Hs & Ha & Hu).
  split; [split|]; unfold conn_state in *; simpl; try done; [by rewrite Hs|].
  by eapply recv_rel_ext.
Qed.

Lemma quiet_wake k : quiet (wake k : M Conn E unit).
Proof. apply quiet_framed; [apply framed_wake|done]. Qed.
Lemma quiet_send p : quiet (send_packet p : M Conn E bool).
Proof.
  apply quiet_framed; [apply framed_send|]. intros c. unfold send_packet.
  by destruct (chan_send _ _ _).
Qed.
Lemma quiet_poll_timeout k : quiet (poll_timeout k : M Conn E bool).
Proof.
  apply quiet_framed; [apply framed_poll_timeout|]. intros c. unfold poll_timeout.
  by destruct (sleep_poll _ _ _).
Qed.
Lemma quiet_rev_packet (ret : IoError -> E) f ttl s bs : quiet (rev_packet b ret f ttl s bs).
Proof. intros c Hc. by apply wp_try_with. Qed.

End quiet.

Create HintDb quiet.
#[local] Hint Resolve quiet_bind quiet_ret quiet_gets quiet_throw quiet_panic quiet_when
  quiet_call quiet_wake quiet_send quiet_poll_timeout quiet_rev_packet : quiet.
#[local] Hint Extern 1 (quiet (modify (upd_self _))) => (by apply quiet_upd_self) : quiet.
#[local] Hint Extern 1 (quiet (modify_tcb (change_state _))) =>
  (by apply quiet_tcb; intros t ? ?; split; [|split; [by apply (recv_rel_ext irs S t)|]]) : quiet.
#[local] Hint Extern 2 (quiet (modify_tcb _)) =>
  (by apply quiet_tcb; intros t ? ?; split; [|split; [by apply (recv_rel_ext irs S t)|]]) : quiet.

Ltac quiet :=
  repeat first [progress (auto with quiet) | apply quiet_call | apply quiet_when
               | apply quiet_bind; [|intros ?] | case_match].

Section ops.
Context {E : Type} (ret : IoError -> E).
Lemma quiet_reset_timeout : quiet (tcb_reset_timeout : M Conn E unit).
Proof.
  intros c Hc. apply quiet_try_tcb; [|done]. by intros t t' ->%reset_timeout_inv.
Qed.
Lemma quiet_send_or_eof p : quiet (send_or_eof ret p).
Proof. unfold send_or_eof. quiet. Qed.
Lemma quiet_queue_packet f ttl : quiet (queue_packet b ret f ttl).
Proof. unfold queue_packet. quiet. Qed.
Lemma quiet_shutdown_ready : quiet (shutdown_ready : M Conn E unit).
Proof. unfold shutdown_ready. quiet. Qed.
Lemma quiet_notify_writer : quiet (notify_writer : M Conn E unit).
Proof. unfold notify_writer. quiet. Qed.
End ops.
#[local] Hint Resolve quiet_reset_timeout quiet_send_or_eof quiet_queue_packet
  quiet_shutdown_ready quiet_notify_writer : quiet.

Lemma quiet_poll_flush {E} : quiet (poll_flush b : M Conn E PollUnit).
Proof. unfold poll_flush, poll_flush_body. quiet. Qed.

Lemma quiet_store_ack h : quiet (store_ack b h).
Proof.
  apply quiet_try_tcb. unfold change_last_ack. intros t t'. case_decide.
  - unfold mbind, exec_bind. destruct position_contains; [|done..]. by intros [= <-].
  - by intros [= <-].
Qed.
Lemma quiet_store_window h : quiet (store_window b h).
Proof.
  apply quiet_try_tcb. unfold change_send_window, plain_mul, plain_add, mbind, exec_bind.
  intros t t'. repeat (case_match; try done). by intros [= <-].
Qed.
#[local] Hint Resolve quiet_poll_flush quiet_store_ack quiet_store_window : quiet.

(** ** The blocks *)

Lemma quiet_return {A} r : quiet (return_ r : M Conn Exit A).
Proof. apply quiet_throw. Qed.
Lemma quiet_continue {A} : quiet (continue_ : M Conn Exit A).
Proof. apply quiet_throw. Qed.
#[local] Hint Resolve quiet_return quiet_continue : quiet.

Lemma read_start_quiet k :
  quiet (read_retransmit b k;; read_send_queued;; read_closed b;; read_timeout b k;;
         read_handshake b).
Proof.
  unfold read_retransmit, read_send_queued, read_closed, read_timeout, read_handshake. quiet.
Qed.
(** With the connection open on both sides there is no FIN to send. *)
Lemma read_fin_quiet : quiet (read_fin b).
Proof.
  intros c Hc. unfold read_fin. do 4 wp_step.
  destruct (in_state (FinWait1 true) c) eqn:Hl.
  - apply in_state_true in Hl. apply oi_state in Hc. by rewrite Hl in Hc.
  - by rewrite (oi_shutdown c Hc).
Qed.

Lemma quiet_add_unordered k bs :
  piece irs S k bs -> quiet (modify_tcb (add_unordered_packet k bs) : M Conn Exit unit).
Proof.
  intros Hp. apply quiet_tcb. intros t Ho Hr. split; [|split].
  - by rewrite add_unordered_packet_state.
  - by apply add_unordered_packet_rel.
  - unfold add_unordered_packet. by case_match.
Qed.
#[local] Hint Resolve quiet_add_unordered : quiet.

Lemma on_established_quiet h pl :
  flags h <> Z.lor FIN ACK -> (flags h = ACK \/ flags h = Z.lor PSH ACK -> piece irs S (seqno h) pl) ->
  quiet (on_established b h pl).
Proof.
  intros Hf Hp. unfold on_established, on_ack, ack_arm, on_push.
  rewrite (proj2 (Z.eqb_neq (flags h) (Z.lor FIN ACK))) by done.
  destruct (Z.eqb_spec (flags h) ACK); [assert (piece irs S (seqno h) pl) by auto; quiet|].
  destruct (Z.eqb_spec (flags h) (Z.lor PSH ACK)); [assert (piece irs S (seqno h) pl) by auto|];
    cbn [when]; quiet.
Qed.

Lemma handle_packet_quiet p : stream_packet p -> quiet (handle_packet b p).
Proof.
  intros Hp. unfold handle_packet, transport_protocol.
  destruct (transport p) as [h|h|] eqn:Ht; [|apply quiet_panic..].
  destruct (Hp h Ht) as [Hf Hpc].
  apply quiet_bind; [unfold on_reset; quiet|intros _].
  apply quiet_bind; [quiet|intros st]. apply quiet_bind; [quiet|intros _].
  intros c Hc. do 2 wp_step. change (get_state (tcb (self c))) with (conn_state c).
  pose proof (oi_state c Hc) as Ho.
  destruct (conn_state c) as [[]| |[]|[]|]; try done.
  - revert c Hc Ho. enough (quiet (on_syn_received b (wrap_tcp_header h))) as Hq by (intros; by apply Hq).
    unfold on_syn_received. quiet.
  - by apply on_established_quiet.
Qed.

Lemma read_packet_quiet k : quiet (read_packet b k).
Proof.
  intros c Hc. unfold read_packet. apply wp_bind. unfold wp at 1, recv_packet.
  pose proof (chan_recv_spec (stream_receiver (self c)) k (world c)) as Hr.
  destruct (chan_poll_recv _ _ _) as [[[p|]|] w]; simpl in *.
  - assert (rxq c = p :: rxq (mkConn (self c) w)) as Hq by done.
    destruct Hc. rewrite Hq in *. apply Forall_cons in oi_rx0 as [Hp Hrx].
    apply (handle_packet_quiet p Hp (mkConn (self c) w)). by split.
  - split; [|done]. destruct Hc. split; try done. unfold rxq; simpl. by destruct Hr as [_ ->].
  - split; [|done]. destruct Hc. split; try done. unfold rxq; simpl. by rewrite Hr.
Qed.

(** ** Delivery *)

(** What one iteration does to the caller's buffer: nothing if it goes on; if
    it returns, the next bytes of the stream, if any. *)
Definition delivers (s s' : ReadSt (W := W)) : Prop :=
  exists bs, filled (rbuf s') = filled (rbuf s) ++ bs /\
    conn_delivered (conn s') = conn_delivered (conn s) ++ bs.

Definition order_end {A} (s s' : ReadSt (W := W)) (r : exec Exit A) : Prop :=
  match r with
  | Ret _ | Throw Continue =>
      order_inv (conn s') /\ rbuf s' = rbuf s /\ conn_ack (conn s') = conn_ack (conn s)
  | Throw (Return _) => order_inv (conn s') /\ delivers s s'
  | Panic _ => True
  end.
Definition rquiet {A} (m : M (ReadSt (W := W)) Exit A) : Prop :=
  forall s, order_inv (conn s) -> wp m (order_end s) s.

Lemma delivers_nothing s s' :
  filled (rbuf s') = filled (rbuf s) -> conn_ack (conn s') = conn_ack (conn s) -> delivers s s'.
Proof.
  intros Hf Ha. exists []. rewrite !app_nil_r. split; [done|].
  unfold conn_delivered, delivered, conn_ack in *. by rewrite Ha.
Qed.

Lemma rquiet_conn {A} (m : M Conn Exit A) : quiet m -> rquiet (on_conn m).
Proof.
  intros Hm s Hs. unfold on_conn. wp_step. eapply wp_mono; [by apply Hm|].
  intros c' [?|[?|]|?] [Hi Ha]; simpl; auto. split; [done|]. by apply delivers_nothing.
Qed.

Lemma rquiet_bind {A B} (m : M ReadSt Exit A) (f : A -> M ReadSt Exit B) :
  rquiet m -> (forall a, rquiet (f a)) -> rquiet (m ≫= f).
Proof.
  intros Hm Hf s Hs. apply wp_bind. eapply wp_mono; [by apply Hm|].
  intros s1 [a|[v|]|p] H1; [|done..]. destruct H1 as (Hi & Hb & Ha).
  assert (conn_delivered (conn s1) = conn_delivered (conn s)) as Hd
    by (unfold conn_delivered, delivered, conn_ack in *; by rewrite Ha).
  eapply wp_mono; [by apply Hf|].
  intros s2 [?|[?|]|?]; unfold order_end, delivers; simpl; rewrite ?Hb, ?Ha, ?Hd; auto.
Qed.

Lemma read_deliver_quiet : rquiet (read_deliver b).
Proof.
  intros s Hs. unfold read_deliver. apply wp_bind. unfold on_conn at 1. wp_step.
  unfold take_unordered, modify_tcb. repeat wp_step.
  set (c1 := upd_tcb _ (conn s)).
  assert (order_inv c1) as H1
    by (destruct Hs; split; try done; by apply get_unordered_packets_rel).
  destruct (is_shut_none _); simpl; [|by split].
  destruct (unordered_packets (tcb (self (conn s))) !! ack (tcb (self (conn s)))) as [p|] eqn:Hp;
    simpl; [|by split].
  destruct (deliver_rel irs S (tcb (self (conn s))) (unordered_payload p)) as [Hr Hd];
    [apply Hs|simpl; by rewrite Hp|].
  apply wp_bind. unfold on_conn at 1. wp_step. unfold modify_tcb. wp_step.
  set (c2 := upd_tcb (add_ack (cast U32 (len (unordered_payload p)))) c1).
  assert (order_inv c2) as H2 by (destruct Hs; by split).
  apply wp_bind. unfold wp at 1, put_buf. simpl.
  destruct (decide (len (unordered_payload p) <= remaining (rbuf s))) as [Hle|Hgt].
  - destruct (put_slice_fits _ _ Hle) as (rb & -> & Hfill & _). simpl. unfold on_conn. wp_step.
    eapply wp_mono; [apply wp_and; [|apply (deliver_reply_exits b)]|].
    { assert (quiet (deliver_reply b)) as Hq by (unfold deliver_reply; quiet). by apply Hq. }
    intros c3 [?|[?|]|?] [[H3 Ha] [_ He]]; try done. split; [done|].
    exists (unordered_payload p). split; [done|].
    unfold conn_delivered, delivered, conn_ack in *. simpl. rewrite Ha. apply Hd.
  - rewrite put_slice_overflow by lia. done.
Qed.

Lemma poll_read_body_quiet k : rquiet (poll_read_body b k).
Proof.
  unfold poll_read_body. apply rquiet_bind; [apply rquiet_conn, read_start_quiet|intros _].
  apply rquiet_bind; [apply read_deliver_quiet|intros _].
  apply rquiet_conn, quiet_bind; [apply read_fin_quiet|intros _; apply read_packet_quiet].
Qed.

Lemma poll_read_delivers k s n :
  order_inv (conn s) -> (length (rxq (conn s)) + rank (conn_state (conn s)) < n)%nat ->
  exists s' r, poll_read b n k s = Some (s', r) /\
    match r with Ret _ => order_inv (conn s') /\ delivers s s' | _ => True end.
Proof.
  intros Hs Hn. unfold poll_read.
  apply (loop_wp (poll_read_body b k)
    (fun s1 => order_inv (conn s1) /\ rbuf s1 = rbuf s /\
               conn_delivered (conn s1) = conn_delivered (conn s))
    (fun s1 => length (rxq (conn s1)) + rank (conn_state (conn s1)))%nat); [|done|done].
  intros s1 (H1 & Hb & Hd). eapply wp_mono;
    [apply wp_and; [by apply poll_read_body_quiet|apply poll_read_body_iter]|].
  intros s2 r [Ho Hit].
  assert (conn_ack (conn s2) = conn_ack (conn s1) ->
    conn_delivered (conn s2) = conn_delivered (conn s)) as Hd2
    by (intros Ha; rewrite <-Hd; unfold conn_delivered, delivered, conn_ack in *; by rewrite Ha).
  destruct r as [[]|[v|]|p]; simpl in Ho; try done.
  - destruct Ho as (? & ? & ?). apply iter_continue in Hit as [_ ?]; [|apply H1].
    split; [split; [done|split; [congruence|auto]]|done].
  - unfold delivers in *. by rewrite Hb, Hd in Ho.
  - destruct Ho as (? & ? & ?). apply iter_continue in Hit as [_ ?]; [|apply H1].
    split; [split; [done|split; [congruence|auto]]|done].
Qed.

(** The fuel does not matter: a read that returns is one with enough of it. *)
Lemma poll_read_ordered n k s s' v :
  order_inv (conn s) -> poll_read b n k s = Some (s', Ret v) ->
  order_inv (conn s') /\ delivers s s'.
Proof.
  intros Hs Hr.
  set (m := (1 + n + (length (rxq (conn s)) + rank (conn_state (conn s))))%nat).
  destruct (poll_read_delivers k s m Hs) as (s2 & r2 & Hr2 & H2); [unfold m; lia|].
  assert (n <= m)%nat as Hle by (unfold m; lia).
  pose proof (loop_mono _ _ _ _ _ Hr Hle) as Hr'. unfold poll_read in Hr2. simplify_eq. done.
Qed.

Lemma poll_write_quiet {E} k buf : quiet (poll_write b k buf : M Conn E PollSize).
Proof. unfold poll_write, poll_write_body. quiet. Qed.

End order.

(** ** After a shutdown *)

(** Nothing is delivered any more, and the shutdown is not undone. *)
Section shut.
Context `{EP : Etherparse} {W : Type} `{RT : !Runtime W NetworkPacket}.
Context `{RO : !RuntimeObs W NetworkPacket, RL : !RuntimeLaws W NetworkPacket}.
Context (b : Build).
Implicit Types c : Conn (W := W).

Definition shut c : Prop := is_shut_none (shutdown (self c)) = false.

Lemma kept_shut c c' : kept c c' -> shut c -> shut c'.
Proof. intros (_ & Hs & _). exact Hs. Qed.

Lemma moved_kept c c' : moved c c' -> kept c c'.
Proof. by intros [[? _]|[? _]]. Qed.
Lemma iter_end_kept {A} c c' (r : exec Exit A) : iter_end c c' r -> kept c c'.
Proof. destruct r as [?|[?|]|?]; intros [H|[? _]]; try done; [by destruct H|by apply moved_kept|by destruct H|by apply moved_kept]. Qed.

Lemma on_conn_rbuf {A} (m : M Conn Exit A) s : wp (on_conn m) (fun s' _ => rbuf s' = rbuf s) s.
Proof. unfold on_conn, zoom, wp. by destruct (m (conn s)). Qed.

Lemma poll_read_body_shut k s :
  shut (conn s) -> wp (poll_read_body b k) (fun s' _ => rbuf s' = rbuf s) s.
Proof.
  intros Hs. unfold poll_read_body. apply wp_bind.
  eapply wp_mono; [apply wp_and; [apply (read_start_rblock b k)|apply on_conn_rbuf]|].
  intros s1 [u|e|p] [Hb Hrb]; [|done..]. assert (shut (conn s1)) as H1 by (eapply kept_shut; [apply Hb|done]).
  apply wp_bind. unfold read_deliver. apply wp_bind. unfold on_conn at 1. wp_step.
  unfold take_unordered, modify_tcb. repeat wp_step. unfold shut in H1. simpl. rewrite H1. simpl.
  wp_step. eapply wp_mono; [apply on_conn_rbuf|]. simpl. by intros s2 _ ->.
Qed.

Lemma poll_read_shut n k s s' r :
  shut (conn s) -> poll_read b n k s = Some (s', r) -> shut (conn s') /\ rbuf s' = rbuf s.
Proof.
  intros Hs. unfold poll_read. apply (keeps_loop (fun s' => shut (conn s') /\ rbuf s' = rbuf s)); [|done].
  intros s1 [H1 Hb]. eapply wp_mono; [apply wp_and; [by apply poll_read_body_shut|apply poll_read_body_iter]|].
  intros s2 r2 [Hb2 Hit]. assert (shut (conn s2)) by (eapply kept_shut; [by eapply iter_end_kept|done]).
  split; [split; [done|congruence]|]. done.
Qed.

Lemma poll_shutdown_shut n k c c' r : poll_shutdown b n k c = Some (c', r) -> shut c'.
Proof.
  unfold poll_shutdown. destruct (is_shut_ready _) eqn:Hr.
  { intros [= <- _]. unfold shut. by destruct (shutdown (self c)). }
  set (c1 := if is_shut_none _ then _ else _).
  destruct (poll_read _ _ _ _) as [[s r']|] eqn:Hp; [|done]. intros [= <- _].
  eapply poll_read_shut in Hp; [apply Hp|]. unfold shut, c1. simpl.
  destruct (is_shut_none _) eqn:Hn; [done|exact Hn].
Qed.

End shut.
