(* ===== verification/TcpSend.v ===== *)
(** * What a connection sends

    The bytes a user has written to a stream are numbered from [iss] on, modulo
    2{^32}.  Every data packet the stream sends, the first time or again,
    whoever polls it, carries a piece of those bytes at its sequence number. *)

From S2P Require Import Prelude Errors Etherparse Packet Runtime Tcb TcbSpec Tcp TcpPacket TcpLoop.

(** [bs] is a piece of [S] that starts at number [sq]. *)
Definition wpiece (iss : Z) (S : list byte) (sq : Z) (bs : list byte) : Prop :=
  exists k, 0 <= k /\ cast U32 (iss + k) = cast U32 sq /\ bs `prefix_of` drain_front k S.

Lemma wpiece_prefix iss S sq bs bs' : bs' `prefix_of` bs -> wpiece iss S sq bs -> wpiece iss S sq bs'.
Proof. intros Hp (k & Hk & Hc & Hb). exists k. split; [done|]. split; [done|by etrans]. Qed.

Lemma wpiece_app iss S x sq bs : wpiece iss S sq bs -> wpiece iss (S ++ x) sq bs.
Proof.
  intros (k & Hk & Hc & Hb). exists k. split; [done|]. split; [done|]. unfold drain_front in *.
  rewrite drop_app. by apply prefix_app_r.
Qed.

Lemma wpiece_drain iss S sq n bs a :
  0 <= n -> cast U32 (sq + n) = cast U32 a -> wpiece iss S sq bs -> wpiece iss S a (drain_front n bs).
Proof.
  intros Hn Ha (k & Hk & Hc & [l Hb]). exists (k + n). split; [lia|]. split.
  - rewrite <-Ha. unfold cast in *. rewrite (Z.add_assoc iss), <-(Zplus_mod_idemp_l (iss + k)), Hc.
    by rewrite Zplus_mod_idemp_l.
  - unfold drain_front in *. rewrite Z2Nat.inj_add, <-drop_drop, Hb, drop_app by lia.
    by apply prefix_app_r.
Qed.

(** The new bytes at the end. *)
Lemma wpiece_new iss S sq bs :
  cast U32 sq = cast U32 (iss + len S) -> wpiece iss (S ++ bs) sq bs.
Proof.
  intros Hs. exists (len S). split; [apply len_nonneg|]. split; [done|].
  unfold drain_front, len. by rewrite Nat2Z.id, drop_app_length.
Qed.

Section send.
Context `{EP : Etherparse, EL : !EtherparseLaws} {W : Type} `{RT : !Runtime W NetworkPacket}.
Context `{RO : !RuntimeObs W NetworkPacket, RL : !RuntimeLaws W NetworkPacket}.
Context (b : Build) (iss : Z).
Implicit Types (c : Conn (W := W)) (t : Tcb) (S : list byte).

(** A packet without data, or with a piece of [S]. *)
Definition data_of S (p : NetworkPacket) : Prop :=
  payload p = [] \/
  exists h, transport p = TransTcp h /\ wpiece iss S (sequence_number h) (payload p).

Lemma data_of_app S x p : data_of S p -> data_of (S ++ x) p.
Proof. intros [?|(h & ? & ?)]; [by left|right]. exists h. split; [done|by apply wpiece_app]. Qed.

(** ** The invariant *)

Definition numbered S t : Prop :=
  match state t with
  | SynReceived false => S = [] /\ seq t + 1 = iss
  | SynReceived true => S = [] /\ cast U32 (seq t) = cast U32 iss
  | Established => cast U32 (seq t) = cast U32 (iss + len S)
  | _ => True
  end.

Definition inflight_of S t : Prop :=
  Forall (fun q => wpiece iss S (inflight_seq q) (inflight_payload q)) (inflight_packets t).

Record send_inv S c : Prop := {
  sv_distinct : distinct c;
  sv_numbered : numbered S (tcb (self c));
  sv_inflight : inflight_of S (tcb (self c));
  sv_queued : forall p, packet_to_send (self c) = Some p -> payload p = [];
}.

Definition sends S c c' : Prop :=
  cfg (self c') = cfg (self c) /\ exists l, txq c' = txq c ++ l /\ Forall (data_of S) l.

#[export] Instance sends_preorder S : PreOrder (sends S).
Proof.
  split.
  - intros c. split; [done|]. exists []. by rewrite app_nil_r.
  - intros c1 c2 c3 [H1 (l1 & E1 & F1)] [H2 (l2 & E2 & F2)]. split; [congruence|].
    exists (l1 ++ l2). rewrite E2, E1, <-app_assoc. split; [done|by apply Forall_app_2].
Qed.

Context (S : list byte).

Definition talked {E A} (Q : E -> Prop) c c' (r : exec E A) : Prop :=
  send_inv S c' /\ sends S c c' /\ match r with Throw e => Q e | _ => True end.

Definition talks {E A} (Q : E -> Prop) (m : M (Conn (W := W)) E A) : Prop :=
  forall c, send_inv S c -> wp m (talked Q c) c.

Section rules.
Context {E : Type} (Q : E -> Prop).

Lemma talked_trans {A B} c1 c2 c3 (r : exec E A) (r' : exec E B) :
  talked Q c1 c2 r -> talked Q c2 c3 r' -> talked Q c1 c3 r'.
Proof. intros (_ & H1 & _) (? & H2 & ?). split; [done|]. split; [by etrans|done]. Qed.

Lemma talks_bind {A B} (m : M Conn E A) (k : A -> M Conn E B) :
  talks Q m -> (forall a, talks Q (k a)) -> talks Q (m ≫= k).
Proof.
  intros Hm Hk c Hc. apply wp_bind. eapply wp_mono; [by apply Hm|].
  intros c1 [a|e|p] H1; [|done..]. eapply wp_mono; [by apply Hk, H1|].
  intros c2 r H2. by eapply talked_trans.
Qed.

Lemma talked_refl {A} c (r : exec E A) :
  send_inv S c -> match r with Throw e => Q e | _ => True end -> talked Q c c r.
Proof. intros Hc Hr. split; [done|]. split; [reflexivity|done]. Qed.

Lemma talks_ret {A} (a : A) : talks Q (mret a : M Conn E A).
Proof. intros c Hc. by apply talked_refl. Qed.
Lemma talks_gets {A} (f : Conn -> A) : talks Q (gets f : M Conn E A).
Proof. intros c Hc. by apply talked_refl. Qed.
Lemma talks_throw {A} (e : E) : Q e -> talks Q (throw e : M Conn E A).
Proof. intros He c Hc. by apply talked_refl. Qed.
Lemma talks_panic {A} p : talks Q (panic_with p : M Conn E A).
Proof. intros c Hc. by apply talked_refl. Qed.
Lemma talks_when g (m : M Conn E unit) : talks Q m -> talks Q (when g m).
Proof. destruct g; [auto|]. intros _. apply talks_ret. Qed.
Lemma talks_call {X} (m : M Conn X X) : talks (fun _ => True) m -> talks Q (call m : M Conn E X).
Proof. intros Hm c Hc. apply wp_call. eapply wp_mono; [by apply Hm|]. by intros c' [?|?|?] (? & ? & _). Qed.

(** Steps that send nothing. *)
Lemma talked_same c c' {A} (r : exec E A) :
  send_inv S c -> cfg (self c') = cfg (self c) -> txq c' = txq c ->
  numbered S (tcb (self c')) -> inflight_of S (tcb (self c')) ->
  (forall p, packet_to_send (self c') = Some p -> payload p = []) ->
  match r with Throw e => Q e | _ => True end -> talked Q c c' r.
Proof.
  intros Hc Hcfg Hq H1 H2 H3 Hr. split; [|split; [|done]].
  - split; try done. eapply cfg_distinct; [done|apply Hc].
  - split; [done|]. exists []. by rewrite app_nil_r.
Qed.

Lemma talks_upd_self f :
  (forall s, cfg (f s) = cfg s /\ tcb (f s) = tcb s /\
    forall p, packet_to_send (f s) = Some p -> packet_to_send s = Some p \/ payload p = []) ->
  talks Q (modify (upd_self f) : M Conn E unit).
Proof.
  intros Hf c Hc. destruct (Hf (self c)) as (Hcf & Ht & Hp). pose proof Hc as [H1 H2 H3 H4].
  apply talked_same; try done; simpl; rewrite ?Ht; try done.
  - unfold txq; simpl. unfold cfg in Hcf. by injection Hcf as _ _ _ -> _.
  - intros p [?|?]%Hp; [by apply H4|done].
Qed.

Lemma talks_tcb f :
  (forall t, numbered S t -> inflight_of S t -> numbered S (f t) /\ inflight_of S (f t)) ->
  talks Q (modify_tcb f : M Conn E unit).
Proof.
  intros Hf c Hc. pose proof Hc as [H1 H2 H3 H4]. destruct (Hf (tcb (self c)) H2 H3).
  by apply talked_same.
Qed.

Lemma talks_try_tcb f :
  (forall t t', f t = Ret t' -> numbered S t -> inflight_of S t -> numbered S t' /\ inflight_of S t') ->
  talks Q (try_tcb f : M Conn E unit).
Proof.
  intros Hf c Hc. apply wp_try_modify; unfold mbind, exec_bind; [|intros; by apply talked_refl].
  intros c' Hc'. pose proof Hc as [H1 H2 H3 H4].
  destruct (f (tcb (self c))) as [t|[]|p] eqn:Ht; [|done]. injection Hc' as <-.
  destruct (Hf _ _ Ht H2 H3). by apply talked_same.
Qed.

Lemma talks_world f : (forall w, same_chans w (f w)) -> talks Q (modify (upd_world f) : M Conn E unit).
Proof.
  intros Hf c Hc. pose proof Hc as [H1 H2 H3 H4]. apply talked_same; try done.
  destruct (Hf (world c)) as [Hq _]. unfold txq. simpl. by rewrite Hq.
Qed.

Lemma talks_poll_timeout k : talks Q (poll_timeout k : M Conn E bool).
Proof.
  intros c Hc. pose proof Hc as [H1 H2 H3 H4]. unfold wp, poll_timeout.
  destruct (sleep_poll_chans (timeout (tcb (self c))) k (world c)) as [Hq _].
  destruct (sleep_poll _ _ _) as [r w]. apply talked_same; try done. unfold txq. simpl. by rewrite Hq.
Qed.

Lemma talks_recv k : talks Q (recv_packet k : M Conn E _).
Proof.
  intros c Hc. pose proof Hc as [H1 H2 H3 H4]. unfold wp, recv_packet.
  pose proof (chan_recv_other (stream_receiver (self c)) k (world c) _ H1) as Hq.
  destruct (chan_poll_recv _ _ _) as [r w]. by apply talked_same.
Qed.

Lemma talks_send p : data_of S p -> talks Q (send_packet p : M Conn E bool).
Proof.
  intros Hp c Hc. pose proof Hc as [H1 H2 H3 H4]. unfold wp, send_packet.
  pose proof (chan_send_queue (packet_sender (self c)) p (world c) (packet_sender (self c))) as Hq.
  rewrite decide_True in Hq by done. destruct (chan_send _ _ _) as [ok w]. simpl in *.
  split; [by split|]. split; [|done]. split; [done|]. unfold txq. simpl. rewrite Hq.
  destruct (rx_open _ _); [exists [p]; split; [done|by constructor]|exists []; by rewrite app_nil_r].
Qed.

(** Building a packet: it carries a part of what it was given, at the number
    asked for. *)
Lemma rev_packet_data (s : IpStackTcpStream (W := W)) f ttl sq pl p :
  create_rev_packet b s f ttl sq pl = Ret p ->
  payload p `prefix_of` pl /\
  exists h, transport p = TransTcp h /\ sequence_number h = default (seq (tcb s)) sq.
Proof.
  unfold create_rev_packet, mbind, exec_bind, mret, exec_ret. rewrite tcp_header_new_spec. intros Hp.
  repeat (case_match; try done); simplify_eq/=; (split; [apply prefix_take|by eexists; split]).
Qed.

Lemma talks_rev_empty {A} (ret : IoError -> E) f ttl sq (k : NetworkPacket -> M Conn E A) :
  (forall e, Q (ret e)) -> (forall p, payload p = [] -> talks Q (k p)) ->
  talks Q (rev_packet b ret f ttl sq [] ≫= k).
Proof.
  intros Hret Hk c Hc. apply wp_bind, wp_try_with.
  - intros p [Hp _]%rev_packet_data. apply (Hk p); [by apply prefix_nil_inv|done].
  - intros x _. by apply talked_refl.
  - intros p _. by apply talked_refl.
Qed.

End rules.

Create HintDb talks.
#[local] Hint Resolve talks_bind talks_ret talks_gets talks_throw talks_panic talks_when
  talks_call talks_poll_timeout talks_recv talks_send : talks.
#[local] Hint Extern 1 (talks _ (wake _)) => (apply talks_world; intros; apply wake_chans) : talks.
#[local] Hint Extern 1 (talks _ (modify (upd_self _))) =>
  (apply talks_upd_self; intros; split; [done|split; [done|simpl; auto; done]]) : talks.
#[local] Hint Extern 2 (talks _ (modify_tcb _)) => (by apply talks_tcb) : talks.
#[local] Hint Extern 1 (data_of _ _) => (by left) : talks.

Ltac talks :=
  repeat first [progress (auto with talks) | apply talks_call | apply talks_when
               | apply talks_rev_empty; [by intros|intros ? ?]
               | apply talks_bind; [|intros ?] | case_match].

Section ops.
Context {E : Type} (Q : E -> Prop) (ret : IoError -> E) (Hret : forall e, Q (ret e)).

Lemma talks_reset_timeout : talks Q (tcb_reset_timeout : M Conn E unit).
Proof. intros c Hc. apply talks_try_tcb; [|done]. by intros t t' ->%reset_timeout_inv. Qed.

Lemma talks_send_or_eof p : data_of S p -> talks Q (send_or_eof ret p).
Proof. intros Hp. unfold send_or_eof. talks. Qed.

Lemma talks_set_packet p : payload p = [] -> talks Q (modify (upd_self (set_packet_to_send (Some p)))).
Proof. intros Hp. apply talks_upd_self. intros s. split; [done|]. split; [done|]. simpl. intros ? [= <-]. auto. Qed.

Lemma talks_queue_packet f ttl : talks Q (queue_packet b ret f ttl).
Proof. unfold queue_packet. apply talks_rev_empty; [done|]. intros p Hp. by apply talks_set_packet. Qed.

Lemma talks_shutdown_ready : talks Q (shutdown_ready : M Conn E unit).
Proof. unfold shutdown_ready. talks. Qed.

Lemma talks_notify_writer : talks Q (notify_writer : M Conn E unit).
Proof. unfold notify_writer. talks. Qed.
End ops.
#[local] Hint Resolve talks_reset_timeout talks_send_or_eof talks_queue_packet
  talks_shutdown_ready talks_notify_writer : talks.

(** A retransmission is one of the packets in flight. *)
Lemma talks_poll_flush {E} (Q : E -> Prop) : talks Q (poll_flush b : M Conn E PollUnit).
Proof.
  apply talks_call. unfold poll_flush_body. apply talks_bind; [talks|intros st]. case_match; [talks|].
  apply talks_bind; [talks|intros s]. apply talks_bind; [talks|intros _]. destruct s as [s|]; [|talks].
  intros c Hc. do 2 wp_step. destruct (List.find _ _) as [q|] eqn:Hf; [|by apply talked_refl].
  apply List.find_some in Hf as [Hin%list_elem_of_In _].
  pose proof (sv_inflight _ _ Hc) as Hi. unfold inflight_of in Hi. rewrite Forall_forall in Hi.
  specialize (Hi q Hin). apply wp_bind, wp_try_with.
  - intros p (Hpre & h & Ht & Hsq)%rev_packet_data. simpl in Hsq. rewrite <-Hsq in Hi.
    assert (data_of S p) as Hp by (right; exists h; split; [done|by eapply wpiece_prefix]).
    revert c Hc Hin. enough (talks (fun _ => True) (send_or_eof ready_err p;; mret (Ready (Ok tt)))) as Hk
      by (intros c Hc _; by apply Hk). talks.
  - intros x _. by apply talked_refl.
  - intros p _. by apply talked_refl.
Qed.
#[local] Hint Resolve talks_poll_flush : talks.

(** ** Received packets *)

Lemma split_inflight_pieces a i l :
  Forall (fun q => wpiece iss S (inflight_seq q) (inflight_payload q)) l ->
  Forall (fun q => wpiece iss S (inflight_seq q) (inflight_payload q)) (split_inflight a i l).
Proof.
  intros Hl. unfold split_inflight. destruct (l !! i) as [q|] eqn:Hi; [|done].
  assert (wpiece iss S (inflight_seq q) (inflight_payload q)) as Hq
    by (rewrite Forall_lookup in Hl; by eapply Hl).
  case_match; [|by apply Forall_delete]. apply Forall_app_2; [by apply Forall_delete|].
  constructor; [|constructor]. simpl. apply (wpiece_drain _ _ (inflight_seq q)); [|..|done].
  - by apply cast_range.
  - unfold wrapping_sub, cast. rewrite Zplus_mod_idemp_r. f_equal. lia.
Qed.

Lemma talks_store_ack (Q : Exit -> Prop) h : talks Q (store_ack b h).
Proof.
  apply talks_try_tcb. unfold change_last_ack. intros t t'. case_decide.
  - unfold mbind, exec_bind. destruct position_contains as [i|[]|]; [|done].
    intros [= <-] Hn Hi. split; [done|]. unfold inflight_of; simpl.
    assert (Forall (fun q => wpiece iss S (inflight_seq q) (inflight_payload q))
      (match i with Some i => split_inflight (ackno h) i (inflight_packets t)
       | None => inflight_packets t end)) as Hl
      by (destruct i; [by apply split_inflight_pieces|done]).
    rewrite Forall_forall in Hl |- *. intros q [_ Hq]%list_elem_of_filter. by apply Hl.
  - by intros [= <-].
Qed.

Lemma talks_store_window (Q : Exit -> Prop) h : talks Q (store_window b h).
Proof.
  apply talks_try_tcb. unfold change_send_window, plain_mul, plain_add, mbind, exec_bind.
  intros t t'. repeat (case_match; try done). by intros [= <-].
Qed.

Lemma talks_add_unordered (Q : Exit -> Prop) k bs :
  talks Q (modify_tcb (add_unordered_packet k bs)).
Proof. apply talks_tcb. intros t. unfold add_unordered_packet. by case_match. Qed.

Lemma talks_closing (Q : Exit -> Prop) st :
  match st with SynReceived _ | Established => False | _ => True end ->
  talks Q (modify_tcb (change_state st)).
Proof. intros Hst. apply talks_tcb. intros t _ Hi. split; [|done]. unfold numbered. by destruct st. Qed.

Lemma talks_return (Q : Exit -> Prop) {A} r : Q (Return r) -> talks Q (return_ r : M Conn Exit A).
Proof. apply talks_throw. Qed.
Lemma talks_continue (Q : Exit -> Prop) {A} : Q Continue -> talks Q (continue_ : M Conn Exit A).
Proof. apply talks_throw. Qed.
#[local] Hint Resolve talks_store_ack talks_store_window talks_add_unordered talks_closing
  talks_return talks_continue : talks.

Definition any (e : Exit) : Prop := True.
#[local] Hint Extern 0 (any _) => exact I : talks.

Lemma on_established_talks h pl : talks any (on_established b h pl).
Proof. unfold on_established, on_ack, ack_arm, on_fin_ack, on_push. talks. Qed.

(** [S] is empty until the handshake is over, and then still. *)
Lemma on_syn_received_talks h c :
  conn_state c = SynReceived true -> send_inv S c ->
  wp (on_syn_received b h) (talked any c) c.
Proof.
  intros Hs Hc. unfold on_syn_received. apply wp_when; intros _; [|by apply talked_refl].
  apply wp_bind. eapply wp_mono; [apply wp_and; [by apply (talks_store_ack any)|
    apply (framed_store_ack b any h c)]|].
  intros c1 [[]|e|p] [H1 [(Hf1 & Hs1 & _) _]]; [|done..].
  apply wp_bind. eapply wp_mono; [apply wp_and; [apply (talks_store_window any), H1|
    apply (framed_store_window b any h c1)]|].
  intros c2 [[]|e|p] [H2 [(Hf2 & Hs2 & _) _]]; [|by eapply talked_trans..].
  eapply talked_trans; [exact H1|]. eapply talked_trans; [exact H2|]. destruct H2 as [Hc2 _].
  pose proof Hc2 as [_ Hn Hi Hq]. apply talked_same; try done. unfold numbered in *. simpl.
  unfold conn_state in *. rewrite Hs2, Hs1, Hs in Hn. destruct Hn as [-> Hn].
  by rewrite Z.add_0_r.
Qed.

Lemma handle_packet_talks p : talks any (handle_packet b p).
Proof.
  unfold handle_packet, transport_protocol. destruct (transport p) as [h|h|]; [|apply talks_panic..].
  apply talks_bind; [unfold on_reset; talks|intros _].
  apply talks_bind; [talks|intros st]. apply talks_bind; [talks|intros _].
  intros c Hc. do 2 wp_step. change (get_state (tcb (self c))) with (conn_state c).
  destruct (conn_state c) as [[]| |[]|[]|] eqn:Hs; try by apply talked_refl.
  - by apply on_syn_received_talks.
  - by apply on_established_talks.
  - revert c Hc Hs. enough (talks any (on_fin_wait1 b (wrap_tcp_header h))) as Hq by (intros; by apply Hq).
    unfold on_fin_wait1. talks.
  - revert c Hc Hs. enough (talks any (on_fin_wait2 b (wrap_tcp_header h))) as Hq by (intros; by apply Hq).
    unfold on_fin_wait2. talks.
Qed.

(** ** The loop of [poll_read] *)

Lemma read_handshake_talks : talks any (read_handshake b).
Proof.
  unfold read_handshake. intros c Hc. do 2 wp_step. apply wp_when; [intros Hs%in_state_true|by intros; apply talked_refl].
  apply wp_bind. eapply wp_mono; [apply wp_and; [by apply (talks_queue_packet any)|
    apply (framed_queue_packet b any); done]|].
  intros c1 [[]|e|p] [H1 [(_ & Hs1 & _) _]]; [|done..]. unfold modify_tcb, continue_. repeat wp_step.
  eapply talked_trans; [exact H1|]. destruct H1 as [Hc1 _]. pose proof Hc1 as [_ Hn Hi Hq].
  apply talked_same; try done. unfold numbered, conn_state in *. simpl. rewrite Hs1, Hs in Hn.
  destruct Hn as [-> Hn]. split; [done|]. unfold wrapping_add, cast in *. by rewrite Zmod_mod, Hn.
Qed.

Lemma read_fin_talks : talks any (read_fin b).
Proof.
  unfold read_fin. intros c Hc. do 4 wp_step.
  assert (forall f st, match st with SynReceived _ | Established => False | _ => True end ->
    (forall t, inflight_packets (f t) = inflight_packets t) ->
    wp (queue_packet b exit_err (Z.lor FIN ACK) (TTL b);; modify_tcb f;;
        modify_tcb (change_state st);; (continue_ : M Conn Exit unit)) (talked any c) c) as Hfin.
  { intros f st Hst Hf. apply wp_bind. eapply wp_mono; [by apply (talks_queue_packet any)|].
    intros c1 [[]|e|p] H1; [|done..]. unfold modify_tcb, continue_. repeat wp_step.
    eapply talked_trans; [exact H1|]. destruct H1 as [Hc1 _]. pose proof Hc1 as [_ Hn Hi Hq].
    apply talked_same; try done; simpl; [unfold numbered; by destruct st|].
    unfold inflight_of; simpl. by rewrite Hf. }
  destruct (in_state (FinWait1 true) c).
  - apply (Hfin (fun t => add_ack 1 (add_seq_one t)) (FinWait2 true)); done.
  - apply wp_when; intros _; [|by apply talked_refl]. by apply (Hfin add_seq_one (FinWait1 false)).
Qed.

Lemma read_packet_talks k : talks any (read_packet b k).
Proof.
  unfold read_packet. apply talks_bind; [talks|]. intros [[p|]|]; [apply handle_packet_talks|talks..].
Qed.

Lemma read_start_talks k :
  talks any (read_retransmit b k;; read_send_queued;; read_closed b;; read_timeout b k;; read_handshake b).
Proof.
  apply talks_bind; [unfold read_retransmit; talks|intros _]. apply talks_bind.
  { intros c Hc. unfold read_send_queued. do 4 wp_step. pose proof (sv_queued _ _ Hc) as Hp.
    set (c1 := upd_self _ c). assert (talked any c c1 (Ret tt : exec Exit unit)) as H1
      by (destruct Hc as [? ? ? ?]; by apply talked_same).
    destruct (packet_to_send (self c)) as [p|]; [|done].
    eapply wp_mono; [apply (talks_send_or_eof any exit_err); [done|left; by apply Hp|apply H1]|].
    intros c2 r H2. eapply talked_trans; [exact H1|exact H2]. }
  intros _. apply talks_bind; [unfold read_closed; talks|intros _].
  apply talks_bind; [unfold read_timeout; talks|intros _]. apply read_handshake_talks.
Qed.

(** The same on the state with the read buffer. *)
Definition rtalks {A} (m : M (ReadSt (W := W)) Exit A) : Prop :=
  forall s, send_inv S (conn s) -> wp m (fun s' _ => send_inv S (conn s') /\ sends S (conn s) (conn s')) s.

Lemma rtalks_conn {A} (m : M Conn Exit A) : talks any m -> rtalks (on_conn m).
Proof.
  intros Hm s Hs. unfold on_conn. wp_step. eapply wp_mono; [by apply Hm|]. by intros c r (? & ? & _).
Qed.

Lemma rtalks_bind {A B} (m : M ReadSt Exit A) (f : A -> M ReadSt Exit B) :
  rtalks m -> (forall a, rtalks (f a)) -> rtalks (m ≫= f).
Proof.
  intros Hm Hf s Hs. apply wp_bind. eapply wp_mono; [by apply Hm|].
  intros s1 [a|e|p] [H1 H2]; [|done..]. eapply wp_mono; [by apply Hf|].
  intros s2 r [? ?]. split; [done|by etrans].
Qed.

Lemma rtalks_put bs : rtalks (put_buf bs).
Proof. intros s Hs. unfold wp, put_buf. by destruct (put_slice bs (rbuf s)). Qed.

Lemma poll_read_body_talks k : rtalks (poll_read_body b k).
Proof.
  unfold poll_read_body. apply rtalks_bind; [apply rtalks_conn, read_start_talks|intros _].
  apply rtalks_bind.
  - unfold read_deliver. apply rtalks_bind; [apply rtalks_conn; unfold take_unordered; talks|].
    intros [bs|]; [|intros s Hs; split; [done|reflexivity]].
    apply rtalks_bind; [apply rtalks_conn; talks|intros _]. apply rtalks_bind; [apply rtalks_put|intros _].
    apply rtalks_conn. unfold deliver_reply. talks.
  - intros _. apply rtalks_conn, talks_bind; [apply read_fin_talks|intros _; apply read_packet_talks].
Qed.

Lemma poll_read_talks n k s s' r :
  send_inv S (conn s) -> poll_read b n k s = Some (s', r) ->
  send_inv S (conn s') /\ sends S (conn s) (conn s').
Proof.
  intros Hs. unfold poll_read.
  apply (keeps_loop (fun s' => send_inv S (conn s') /\ sends S (conn s) (conn s'))); [|by split].
  intros s1 [H1 H2]. eapply wp_mono; [by apply poll_read_body_talks|].
  intros s2 r2 [? ?]. split; [split; [done|by etrans]|done].
Qed.

Lemma poll_shutdown_talks n k c c' r :
  send_inv S c -> poll_shutdown b n k c = Some (c', r) -> send_inv S c' /\ sends S c c'.
Proof.
  intros Hc. unfold poll_shutdown. destruct (is_shut_ready _); [intros [= <- _]; by split|].
  set (c1 := if is_shut_none _ then _ else _).
  assert (send_inv S c1 /\ sends S c c1) as [H1 H2].
  { unfold c1. destruct (is_shut_none _); [|by split]. destruct Hc. split; [by split|].
    split; [done|]. exists []. by rewrite app_nil_r. }
  destruct (poll_read _ _ _ _) as [[s r']|] eqn:Hp; [|done]. intros [= <- _].
  apply poll_read_talks in Hp as [? ?]; [|done]. split; [done|]. by etrans.
Qed.

End send.

(** ** Writing *)

Section write.
Context `{EP : Etherparse, EL : !EtherparseLaws} {W : Type} `{RT : !Runtime W NetworkPacket}.
Context `{RO : !RuntimeObs W NetworkPacket, RL : !RuntimeLaws W NetworkPacket}.
Context (b : Build) (iss : Z).
Implicit Types (c : Conn (W := W)) (S : list byte).

Definition accepted_bytes (buf : list byte) (r : PollSize) : list byte :=
  match r with Ready (Ok n) => truncate n buf | _ => [] end.

(** ... and by a write that may not return. *)
Definition accepted_by (buf : list byte) {E} (r : exec E PollSize) : list byte :=
  match r with Ret v => accepted_bytes buf v | _ => [] end.

(** After a write the stream's bytes are those before and those it accepted. *)
Definition written_with (x : list byte) S c c' : Prop :=
  send_inv iss (S ++ x) c' /\ sends iss (S ++ x) c c'.
Definition written (buf : list byte) S c c' (r : exec PollSize PollSize) : Prop :=
  match r with
  | Ret v | Throw v => written_with (accepted_bytes buf v) S c c'
  | Panic _ => written_with [] S c c'
  end.

Definition no_size (v : PollSize) : Prop := forall n, v <> Ready (Ok n).

Lemma written_nothing buf S c c' {A} (r : exec PollSize A) v :
  talked iss S no_size c c' r -> r = Throw v -> written buf S c c' (Throw v).
Proof.
  intros (? & ? & Hr) ->. unfold written, written_with.
  assert (accepted_bytes buf v = []) as ->; [|by rewrite app_nil_r].
  unfold accepted_bytes. destruct v as [[n|]|]; try done. by destruct (Hr n).
Qed.

Lemma written_panic buf S c c' {A} (Q : PollSize -> Prop) (r : exec PollSize A) p :
  talked iss S Q c c' r -> written buf S c c' (Panic p).
Proof. intros (? & ? & _). unfold written, written_with. by rewrite app_nil_r. Qed.

(** The last part: the packet is sent and kept as in flight. *)
Lemma send_new_written buf S c p h :
  send_inv iss S c -> conn_state c = Established -> payload p `prefix_of` buf ->
  transport p = TransTcp h -> sequence_number h = seq (tcb (self c)) ->
  wp (send_or_eof ready_err p;;
      modify_tcb (add_inflight_packet (get_seq (tcb (self c))) (payload p));;
      mret (Ready (Ok (len (payload p))))) (written buf S c) c.
Proof.
  intros Hc Hs [l Hl] Ht Hsq. pose proof Hc as [Hd Hn Hi Hp].
  unfold conn_state, numbered in Hs, Hn. rewrite Hs in Hn.
  assert (truncate (len (payload p)) buf = payload p) as Htr
    by (unfold truncate, len; by rewrite Hl, Nat2Z.id, take_app_length).
  unfold send_or_eof. do 2 apply wp_bind. unfold wp at 1, send_packet.
  pose proof (chan_send_ok (packet_sender (self c)) p (world c)) as Hok.
  pose proof (chan_send_queue (packet_sender (self c)) p (world c) (packet_sender (self c))) as Hq.
  rewrite decide_True in Hq by done. destruct (chan_send _ _ _) as [ok w]. simpl in *. subst ok.
  destruct (rx_open _ _).
  - do 2 wp_step. unfold modify_tcb. do 2 wp_step. unfold written, written_with, accepted_bytes. rewrite Htr. split.
    + split; [done|..|done]; simpl.
      * unfold numbered. simpl. rewrite Hs. rewrite len_app. unfold wrapping_add, cast in *.
        rewrite Zmod_mod, Zplus_mod_idemp_r, <-(Zplus_mod_idemp_l (seq _)), Hn, Zplus_mod_idemp_l.
        f_equal. lia.
      * unfold inflight_of. simpl. apply Forall_app_2; [|constructor; [by apply wpiece_new|constructor]].
        eapply Forall_impl; [exact Hi|]. intros q. apply wpiece_app.
    + split; [done|]. exists [p]. unfold txq. simpl. split; [done|]. constructor; [|done].
      right. exists h. split; [done|]. rewrite Hsq. by apply wpiece_new.
  - wp_step. unfold written, written_with, accepted_bytes. simpl. rewrite app_nil_r. split; [by destruct Hc; split|].
    split; [done|]. exists []. unfold txq. simpl. by rewrite app_nil_r.
Qed.

(** The retransmission a write may have to do first. *)
Definition before_write (g : bool) (k : Waker) : M (Conn (W := W)) PollSize unit :=
  when g (modify (upd_self (set_write_notify (Some k)));;
          p ← poll_flush b; when (is_pending p) (throw Pending)).

Lemma before_write_talks g k S : talks iss S no_size (before_write g k).
Proof.
  apply talks_when, talks_bind; [apply talks_upd_self; by auto|intros _].
  apply talks_bind; [apply talks_poll_flush|intros p]. by apply talks_when, talks_throw.
Qed.

Lemma before_write_framed g k : framed no_size (before_write g k).
Proof.
  apply framed_when, framed_bind; [apply framed_set_notify|intros _].
  apply framed_bind; [apply framed_poll_flush|intros p]. by apply framed_when, framed_throw.
Qed.

Lemma poll_write_body_written k buf S c :
  send_inv iss S c -> wp (poll_write_body b k buf) (written buf S c) c.
Proof.
  intros Hc. unfold poll_write_body. do 2 wp_step. case_match eqn:Hst.
  { eapply (written_nothing _ _ _ _ (Throw _ : exec PollSize unit)); [|done]. by apply talked_refl. }
  propify. apply wp_bind. eapply wp_mono; [apply wp_and;
    [by apply (talks_reset_timeout iss S no_size)|apply (framed_reset_timeout no_size)]|].
  intros c1 [[]|v|p] [H1 [(_ & Hs1 & _) _]]; [|by eapply written_nothing|by eapply written_panic].
  do 2 wp_step. case_match.
  { do 3 wp_step. eapply (written_nothing _ _ _ _ (Throw Pending : exec PollSize unit)); [|done].
    eapply talked_trans; [exact H1|]. destruct H1 as [[? ? ? ?] _]. by apply talked_same. }
  do 2 wp_step. apply wp_bind. eapply wp_mono; [apply wp_and;
    [eapply (before_write_talks _ k S); apply H1|apply (before_write_framed _ k)]|].
  intros c2 [[]|v|p] [H2 [(_ & Hs2 & _) _]].
  2:{ eapply written_nothing; [|done]. eapply talked_trans; [exact H1|exact H2]. }
  2:{ eapply written_panic, talked_trans; [exact H1|exact H2]. }
  assert (talked iss S no_size c c2 (Ret tt : exec PollSize unit)) as H3
    by (eapply talked_trans; [exact H1|exact H2]).
  apply wp_bind, wp_try_with.
  - intros p (Hpre & h & Ht & Hsq)%rev_packet_data. do 2 wp_step. cbn zeta.
    eapply wp_mono; [eapply (send_new_written buf S c2 p h); [apply H3|by rewrite Hs2, Hs1|done..]|].
    intros c3 [v|v|q]; unfold written, written_with; intros [? ?]; (split; [done|]);
      (etrans; [|done]); destruct H3 as (_ & [? (l & ? & Hl)] & _); (split; [done|]); exists l;
      (split; [done|]); (eapply Forall_impl; [exact Hl|]); intros q0 Hq; by apply data_of_app.
  - intros e _. eapply (written_nothing _ _ _ _ (Throw (ready_err e) : exec PollSize unit)); [|done].
    destruct H3 as (? & ? & _). by split.
  - intros p _. by eapply written_panic.
Qed.

Lemma poll_write_written {E} k buf S c c' r :
  send_inv iss S c -> poll_write (E := E) b k buf c = (c', r) ->
  written_with (accepted_by buf r) S c c'.
Proof.
  intros Hc. pose proof (poll_write_body_written k buf S c Hc) as Hw. unfold wp in Hw.
  unfold poll_write, call. destruct (poll_write_body _ _ _ _) as [c1 [v|v|p]]; intros [= <- <-]; done.
Qed.

End write.
