(* ===== verification/TcpApi.v ===== *)
(** * Writing, flushing and shutting down

    [poll_write] on each of its branches, and as an append to the send buffer;
    [poll_flush] as the retransmission of the oldest unacknowledged bytes;
    [poll_shutdown] as a read that delivers nothing. *)

From S2P Require Import Prelude Errors Etherparse Packet Runtime Tcb TcbSpec Tcp TcpPacket.
From S2P Require Import TcpLoop TcpSafety.

Section api.
Context `{EP : Etherparse, EL : !EtherparseLaws} {W : Type} `{RT : !Runtime W NetworkPacket}.
Context `{RO : !RuntimeObs W NetworkPacket, RL : !RuntimeLaws W NetworkPacket}.
Context (b : Build) (R : Peer).
Implicit Types (c : Conn (W := W)) (t : Tcb).

(** The back-pressure conditions of [poll_write]. *)
Definition write_blocked t : bool :=
  (send_window t <? (avg_send_window t).1 / 2) || is_send_buffer_full t.

(** Sending on an open channel appends and leaves the stream alone. *)
Lemma send_or_eof_open {E} (ret : IoError -> E) p c :
  tx_open c = true ->
  exists w, send_or_eof ret p c = (mkConn (self c) w, Ret tt) /\
    queue (packet_sender (self c)) w = txq c ++ [p] /\
    (distinct c -> rxq (mkConn (self c) w) = rxq c).
Proof.
  unfold tx_open, txq. intros Ho. unfold send_or_eof, send_packet, mbind, M_bind.
  pose proof (chan_send_ok (packet_sender (self c)) p (world c)) as Hok.
  pose proof (chan_send_queue (packet_sender (self c)) p (world c)) as Hq.
  destruct (chan_send _ _ _) as [ok w]. simpl in *. rewrite Ho in *. subst ok.
  exists w. split; [done|]. rewrite Hq, decide_True by done. split; [done|].
  intros Hd. unfold rxq. simpl. by rewrite Hq, decide_False.
Qed.

(** On a closed one it fails, and the stream is left alone as well. *)
Lemma send_or_eof_closed {E} (ret : IoError -> E) p c :
  tx_open c = false ->
  exists w, send_or_eof ret p c = (mkConn (self c) w, Throw (ret (IoKind UnexpectedEof))) /\
    (distinct c -> rxq (mkConn (self c) w) = rxq c).
Proof.
  unfold tx_open. intros Ho. unfold send_or_eof, send_packet, mbind, M_bind.
  pose proof (chan_send_ok (packet_sender (self c)) p (world c)) as Hok.
  pose proof (chan_send_queue (packet_sender (self c)) p (world c)) as Hq.
  destruct (chan_send _ _ _) as [ok w]. simpl in *. rewrite Ho in *. subst ok.
  exists w. split; [done|]. intros Hd. unfold rxq. simpl. by rewrite Hq, decide_False.
Qed.

(** The stream a packet is built from matters through five of its fields. *)
Lemma rev_packet_of_ext (s s' : IpStackTcpStream (W := W)) f ttl n bs p :
  cfg s' = cfg s -> ack (tcb s') = ack (tcb s) -> recv_window (tcb s') = recv_window (tcb s) ->
  send_window (tcb s') = send_window (tcb s) ->
  rev_packet_of s f ttl n bs p -> rev_packet_of s' f ttl n bs p.
Proof.
  unfold cfg. intros [= Hs Hd _ _ Hm] Ha Hr Hw [].
  assert (headers_len s' = headers_len s) as Hh by (unfold headers_len; by rewrite Hd).
  assert (max_payload s' = max_payload s) as Hp by (unfold max_payload; by rewrite Hw, Hm, Hh).
  split; rewrite ?Hs, ?Hd, ?Ha, ?Hr, ?Hh, ?Hp; done.
Qed.

(** ** [poll_write] *)

Lemma poll_write_not_connected {E} k buf c :
  conn_state c <> Established ->
  poll_write (E := E) b k buf c = (c, Ret (Ready (Err (IoKind NotConnected)))).
Proof.
  intros Hs. unfold poll_write, call, poll_write_body, mbind, M_bind, gets. simpl.
  unfold get_state, conn_state in *. by rewrite bool_decide_eq_false_2.
Qed.

Lemma poll_write_blocked {E} k buf c :
  timely (tcp_timeout (tcb (self c))) ->
  conn_state c = Established -> write_blocked (tcb (self c)) = true ->
  poll_write (E := E) b k buf c =
    (upd_self (fun s => set_write_notify (Some k)
       (set_tcb (rearm (instant_now (world c)) (tcb s)) s)) c, Ret Pending).
Proof.
  intros Ht Hs Hb. unfold poll_write, call, poll_write_body. erewrite bind_run by reflexivity.
  unfold get_state, conn_state in *. rewrite Hs, bool_decide_eq_true_2 by done. cbn [negb].
  erewrite bind_run by (by apply reset_timeout_run). erewrite bind_run by reflexivity.
  unfold write_blocked, is_send_buffer_full in Hb.
  unfold get_send_window, get_avg_send_window, is_send_buffer_full; simpl in *. by rewrite Hb.
Qed.

(** The unblocked write up to the sending of its packet, which carries as much
    of the buffer as fits. *)
Lemma poll_write_reaches {E} n k buf c :
  conn_inv R n c -> conn_state c = Established -> write_blocked (tcb (self c)) = false ->
  let c1 := upd_tcb (rearm (instant_now (world c))) c in
  exists p, rev_packet_of (self c) (Z.lor PSH ACK) (TTL b) (seq (tcb (self c))) buf p /\
    poll_write (E := E) b k buf c =
      call (send_or_eof ready_err p;;
            modify_tcb (add_inflight_packet (seq (tcb (self c))) (payload p));;
            mret (Ready (Ok (len (payload p))))) c1.
Proof.
  intros [Hb Hl] Hs Hnb c1. unfold conn_state, tcb_link in *. rewrite Hs in Hl.
  destruct Hl as [Hr _].
  assert (stream_wf (self c1)) as Hwf.
  { eapply (conn_base_wf R n), (base_modify_tcb R n); [|done]. intros. by apply tcb_base_timeout. }
  destruct (create_rev_packet_ok b (self c1) (Z.lor PSH ACK) (TTL b) None buf Hwf) as (p & Hp & Hrp).
  exists p. split; [by eapply (rev_packet_of_ext (self c1))|].
  unfold poll_write, call, poll_write_body. erewrite bind_run by reflexivity.
  unfold get_state. rewrite Hs, bool_decide_eq_true_2 by done. cbn [negb].
  erewrite bind_run by (apply reset_timeout_run, Hb). erewrite bind_run by reflexivity. fold c1.
  change (get_send_window (tcb (self c1))) with (send_window (tcb (self c))).
  change (get_avg_send_window (tcb (self c1))) with (avg_send_window (tcb (self c))).1.
  change (is_send_buffer_full (tcb (self c1))) with (is_send_buffer_full (tcb (self c))).
  unfold write_blocked in Hnb. rewrite Hnb. erewrite bind_run by reflexivity.
  change (retransmission (tcb (self c1))) with (retransmission (tcb (self c))).
  rewrite Hr, bool_decide_eq_false_2 by (intros [? ?]; done). erewrite bind_run by reflexivity.
  erewrite bind_run by (unfold rev_packet, try_with; by rewrite Hp).
  by erewrite bind_run by reflexivity.
Qed.

(** On an open channel the packet goes out and is kept as in-flight... *)
Lemma poll_write_sends {E} n k buf c :
  conn_inv R n c -> conn_state c = Established -> write_blocked (tcb (self c)) = false ->
  tx_open c = true ->
  exists p c', poll_write (E := E) b k buf c = (c', Ret (Ready (Ok (len (payload p))))) /\
    rev_packet_of (self c) (Z.lor PSH ACK) (TTL b) (seq (tcb (self c))) buf p /\
    txq c' = txq c ++ [p] /\ cfg (self c') = cfg (self c) /\ (distinct c -> rxq c' = rxq c) /\
    tcb (self c') = add_inflight_packet (seq (tcb (self c))) (payload p)
                      (rearm (instant_now (world c)) (tcb (self c))).
Proof.
  intros Hc Hs Hnb Ho. destruct (poll_write_reaches (E := E) n k buf c) as (p & Hrp & ->); [done..|].
  set (c1 := upd_tcb _ c). destruct (send_or_eof_open (E := PollSize) ready_err p c1 Ho)
    as (w & Hsend & Hq & Hrx).
  exists p. unfold call. erewrite bind_run by exact Hsend. eexists. split; [reflexivity|].
  done.
Qed.

(** ... and on a closed one nothing is kept. *)
Lemma poll_write_eof {E} n k buf c :
  conn_inv R n c -> conn_state c = Established -> write_blocked (tcb (self c)) = false ->
  tx_open c = false ->
  exists c', poll_write (E := E) b k buf c = (c', Ret (Ready (Err (IoKind UnexpectedEof)))) /\
    self c' = self (upd_tcb (rearm (instant_now (world c))) c) /\
    (distinct c -> rxq c' = rxq c).
Proof.
  intros Hc Hs Hnb Ho. destruct (poll_write_reaches (E := E) n k buf c) as (p & Hrp & ->); [done..|].
  set (c1 := upd_tcb _ c). destruct (send_or_eof_closed (E := PollSize) ready_err p c1 Ho)
    as (w & Hsend & Hrx).
  unfold call. erewrite bind_throw by exact Hsend. eexists. split; [reflexivity|done].
Qed.

(** Seen from the send buffer, an unblocked write appends what it reports. *)
Lemma add_inflight_inv n bs t s :
  send_rel t s -> state t = Established -> retransmission t = None ->
  seq t + len bs < U32 -> seq t + len bs - last_ack t <= MAX_INFLIGHT -> tcb_base R n t ->
  tcb_base R n (add_inflight_packet (seq t) bs t) /\
  tcb_link R (add_inflight_packet (seq t) bs t) /\
  send_rel (add_inflight_packet (seq t) bs t) (sb_write bs s).
Proof.
  intros Hrel Hs Hr Hfit Hmax []. pose proof (add_inflight_packet_rel t s bs Hrel Hfit) as Hrel'.
  split; [|split; [|done]].
  - split; try done. apply add_inflight_packet_wf; [apply tb_wf|done].
  - unfold tcb_link. simpl. rewrite Hs. split; [done|]. split; [by eauto|].
    pose proof (len_nonneg bs). destruct tb_wf. rewrite cast_small, wrapping_add_small by lia. lia.
Qed.

(** ** [poll_flush] *)

(** A pending retransmission is answered with the packet that starts at the
    requested number. *)
Lemma poll_flush_resends {E} n c a q :
  conn_base R n c -> conn_state c = Established -> retransmission (tcb (self c)) = Some a ->
  List.find (fun p => inflight_seq p =? a) (inflight_packets (tcb (self c))) = Some q ->
  tx_open c = true ->
  exists p c', poll_flush (E := E) b c = (c', Ret (Ready (Ok tt))) /\
    rev_packet_of (self c) (Z.lor PSH ACK) (TTL b) (inflight_seq q) (inflight_payload q) p /\
    txq c' = txq c ++ [p] /\
    self c' = set_tcb (set_retransmission None (tcb (self c))) (self c).
Proof.
  intros Hb Hs Hr Hf Ho. unfold conn_state in Hs.
  set (c1 := upd_tcb (set_retransmission None) c).
  assert (stream_wf (self c1)) as Hwf.
  { eapply (conn_base_wf R n), (base_modify_tcb R n); [|done]. intros. by apply tcb_base_retransmission. }
  destruct (create_rev_packet_ok b (self c1) (Z.lor PSH ACK) (TTL b) (Some (inflight_seq q))
              (inflight_payload q) Hwf) as (p & Hp & Hrp).
  destruct (send_or_eof_open (E := PollUnit) ready_err p c1 Ho) as (w & Hsend & Hq & _).
  exists p. unfold poll_flush, call, poll_flush_body. erewrite bind_run by reflexivity.
  unfold get_state. rewrite Hs, bool_decide_eq_true_2 by done. cbn [negb].
  do 2 erewrite bind_run by reflexivity. rewrite Hr. erewrite bind_run by reflexivity. fold c1.
  change (inflight_packets (tcb (self c1))) with (inflight_packets (tcb (self c))). rewrite Hf.
  erewrite bind_run by (unfold rev_packet, try_with; by rewrite Hp).
  erewrite bind_run by exact Hsend. eexists. split; [reflexivity|].
  split; [by eapply (rev_packet_of_ext (self c1))|]. done.
Qed.

(** ... and there is no such packet only if the request is not for data in
    flight: then the process panics. *)
Lemma poll_flush_panics {E} c a :
  conn_state c = Established -> retransmission (tcb (self c)) = Some a ->
  List.find (fun p => inflight_seq p =? a) (inflight_packets (tcb (self c))) = None ->
  (poll_flush (E := E) b c).2 = Panic PExplicit.
Proof.
  intros Hs Hr Hf. unfold poll_flush, call, poll_flush_body, mbind, M_bind, gets, conn_state in *.
  simpl. unfold get_state. rewrite Hs, bool_decide_eq_true_2 by done. simpl. rewrite Hr.
  unfold modify_tcb, modify. simpl. by rewrite Hf.
Qed.

(** ** Resets and timeouts *)

Lemma shutdown_ready_run {E} c :
  exists w, shutdown_ready (E := E) c = (mkConn (set_shutdown ShutReady (self c)) w, Ret tt) /\
    same_chans (world c) w.
Proof.
  unfold shutdown_ready. erewrite bind_run by reflexivity.
  destruct (shutdown (self c)) as [|k|]; erewrite bind_run by reflexivity; eexists;
    (split; [reflexivity|]); [done|apply wake_chans|done].
Qed.

(** The closed connection, with [q] waiting to be sent. *)
Definition closed_with (q : option NetworkPacket) (s : IpStackTcpStream (W := W)) :=
  set_shutdown ShutReady (set_tcb (change_state Closed (tcb s)) (set_packet_to_send q s)).

(** A reset closes the connection in any state, whatever else the packet says. *)
Lemma reset_closes p h c :
  stream_wf (self c) -> transport p = TransTcp h -> tcp_rst h = true ->
  exists q w, handle_packet b p c =
      (mkConn (closed_with (Some q) (self c)) w,
       Throw (Return (Ready (Err (IoKind ConnectionReset))))) /\
    rev_packet_of (self c) NON DROP_TTL (seq (tcb (self c))) [] q /\ same_chans (world c) w.
Proof.
  intros Hwf Ht Hr. unfold handle_packet, transport_protocol. rewrite Ht.
  destruct (create_rev_packet_ok b (self c) NON DROP_TTL None [] Hwf) as (q & Hq & Hrp).
  rewrite flags_rst. simpl. rewrite Hr. cbn [negb when].
  set (c1 := upd_tcb (change_state Closed) (upd_self (set_packet_to_send (Some q)) c)).
  destruct (shutdown_ready_run (E := Exit) c1) as (w & Hsd & Hsc).
  exists q, w. split; [|done]. apply bind_throw. unfold on_reset.
  erewrite bind_run.
  2:{ unfold queue_packet. erewrite bind_run by (unfold rev_packet, try_with; by rewrite Hq).
      reflexivity. }
  erewrite bind_run by reflexivity. by erewrite bind_run by exact Hsd.
Qed.

(** A timer that has run out resets the peer and closes the connection. *)
Lemma timeout_closes k c w1 :
  stream_wf (self c) -> tx_open c = true ->
  sleep_poll (timeout (tcb (self c))) k (world c) = (true, w1) ->
  exists c' q, read_timeout b k c = (c', Throw (Return (Ready (Err (IoKind TimedOut))))) /\
    conn_state c' = Closed /\ shutdown (self c') = ShutReady /\ txq c' = txq c ++ [q] /\
    rev_packet_of (self c') (Z.lor RST ACK) (TTL b) (seq (tcb (self c))) [] q /\
    timeout (tcb (self c)) <= instant_now (world c).
Proof.
  intros Hwf Ho Hsl. pose proof (sleep_poll_deadline (timeout (tcb (self c))) k (world c)) as Hdl.
  pose proof (sleep_poll_chans (timeout (tcb (self c))) k (world c)) as [Hsq Hso].
  rewrite Hsl in *. simpl in *. specialize (Hdl eq_refl).
  set (win := cast U16 (get_available_read_buffer_size (tcb (self c)))).
  set (c1 := mkConn (self (upd_tcb (change_recv_window win) c)) w1).
  assert (stream_wf (self c1)) as Hwf1.
  { destruct Hwf. split; try done. apply change_recv_window_wf; [by apply cast_range|done]. }
  destruct (create_rev_packet_ok b (self c1) (Z.lor RST ACK) (TTL b) None [] Hwf1) as (q & Hq & Hrp).
  destruct (send_or_eof_open (E := Exit) exit_err q c1) as (w2 & Hsend & Htx & _);
    [unfold tx_open in *; simpl; by rewrite Hso|].
  set (c2 := upd_tcb (change_state Closed) (mkConn (self c1) w2)).
  destruct (shutdown_ready_run (E := Exit) c2) as (w3 & Hsd & [Hsq3 _]).
  exists (mkConn (set_shutdown ShutReady (self c2)) w3), q. split.
  { unfold read_timeout. erewrite bind_run by reflexivity. fold win. erewrite bind_run by reflexivity.
    rewrite (bind_run _ _ _ c1 true) by (unfold poll_timeout; simpl; by rewrite Hsl). cbn [when].
    apply bind_throw. erewrite bind_run by (unfold rev_packet, try_with; by rewrite Hq).
    erewrite bind_run by exact Hsend. erewrite bind_run by reflexivity.
    by erewrite bind_run by exact Hsd. }
  do 2 (split; [done|]). split; [|split; [|done]].
  - unfold txq in *. simpl in *. by rewrite Hsq3, Htx, Hsq.
  - by eapply (rev_packet_of_ext (self c1)).
Qed.

(** ** [poll_shutdown] *)

Lemma poll_shutdown_ready n k c :
  is_shut_ready (shutdown (self c)) = true -> poll_shutdown b n k c = Some (c, Ret (Ready (Ok tt))).
Proof. intros Hr. unfold poll_shutdown. by rewrite Hr. Qed.

(** It returns without panicking although its buffer has one byte, moves along
    the state machine and keeps what every read keeps. *)
Lemma poll_shutdown_safe K n k c :
  conn_inv R K c -> (length (rxq c) + rank (conn_state c) < n)%nat ->
  exists c' r, poll_shutdown b n k c = Some (c', Ret r) /\ conn_inv R K c' /\
    kept c c' /\ rtc tcp_step (conn_state c) (conn_state c').
Proof.
  intros Hc Hn. unfold poll_shutdown. destruct (is_shut_ready _) eqn:Hready.
  { exists c, (Ready (Ok tt)). done. }
  set (c1 := if is_shut_none _ then _ else _).
  assert (conn_inv R K c1 /\ is_shut_none (shutdown (self c1)) = false /\ kept c c1 /\
    rxq c1 = rxq c /\ conn_state c1 = conn_state c) as (H1 & H2 & H3 & H4 & H5).
  { unfold c1. destruct (is_shut_none (shutdown (self c))) eqn:Hnone; [|done].
    split; [|done]. by apply (safe_upd_self R (E := Empty_set) K (set_shutdown (ShutPending k))). }
  rewrite <-H4, <-H5 in Hn. set (s1 := mkReadSt c1 (read_buf_uninit 1)).
  destruct (poll_read_safe b R K k s1 n) as (s' & r & Hrun & Hs'); [|done|].
  { split; [done|]. unfold room. simpl. by rewrite H2. }
  destruct (poll_read_total b k s1 n) as (s2 & r2 & Hrun2 & Hk & Hst); [apply H1|done|].
  assert (s2 = s') as -> by congruence. rewrite Hrun. exists (conn s'), r.
  split; [done|]. split; [done|]. split; [by trans c1|]. by rewrite <-H5.
Qed.

End api.
