(* ===== verification/TcpDeliver.v ===== *)
(** * One iteration of the read loop

    What an iteration does when the timer is running and there is nothing to resend:
    it delivers the next segment, if it has arrived, or takes the next packet from the
    channel. *)

From S2P Require Import Prelude Errors Etherparse Packet Runtime Tcb TcbSpec Tcp TcpPacket.
From S2P Require Import TcpLoop TcpSafety TcpApi.

Section deliver.
Context `{EP : Etherparse, EL : !EtherparseLaws} {W : Type} `{RT : !Runtime W NetworkPacket}.
Context `{RO : !RuntimeObs W NetworkPacket, RL : !RuntimeLaws W NetworkPacket}.
Context (b : Build) (R : Peer).
Implicit Types (c : Conn (W := W)) (t : Tcb).

Lemma on_conn_run {A} (m : M Conn Exit A) (s : ReadSt (W := W)) c r :
  m (conn s) = (c, r) -> on_conn m s = (mkReadSt c (rbuf s), r).
Proof. unfold on_conn, zoom. by intros ->. Qed.

Lemma in_state_run s c : conn_state c = s -> forall s', in_state s' c = bool_decide (s = s').
Proof. intros <- s'. done. Qed.

(** The connection with a new window and a new deadline. *)
Definition refreshed (w : W) c : Conn (W := W) :=
  let t := change_recv_window (cast U16 (get_available_read_buffer_size (tcb (self c)))) (tcb (self c)) in
  mkConn (set_tcb (rearm (instant_now w) t) (self c)) w.

(** The connection with no packet left to send. *)
Definition unqueued c : Conn (W := W) := upd_self (set_packet_to_send None) c.

(** With nothing to resend, no closing and a running timer, the first blocks of
    the loop send what is queued and refresh the window and the timer. *)
Lemma read_front_run {A} st k c c1 w (m : M (Conn (W := W)) Exit A) :
  conn_state c1 = st -> st <> Closed -> st <> FinWait2 false -> timely (tcp_timeout (tcb (self c1))) ->
  retransmission (tcb (self c)) = None -> read_send_queued c = (c1, Ret tt) ->
  sleep_poll (timeout (tcb (self c1))) k (world c1) = (false, w) ->
  (read_retransmit b k;; read_send_queued;; read_closed b;; read_timeout b k;; m) c =
    m (refreshed w c1).
Proof.
  intros Hs H1 H2 Ht Hr Hp Hsl.
  erewrite bind_run by (unfold read_retransmit; erewrite bind_run by reflexivity; rewrite Hr;
    rewrite bool_decide_eq_false_2 by (intros [? ?]; done); reflexivity).
  erewrite bind_run by exact Hp.
  erewrite bind_run.
  2:{ unfold read_closed. erewrite bind_run by reflexivity.
      rewrite (in_state_run st c1), bool_decide_eq_false_2 by done.
      do 2 erewrite bind_run by reflexivity.
      rewrite (in_state_run st c1), bool_decide_eq_false_2 by done. reflexivity. }
  erewrite bind_run; [reflexivity|].
  unfold read_timeout. do 2 erewrite bind_run by reflexivity.
  erewrite bind_run by (unfold poll_timeout; simpl; by rewrite Hsl).
  erewrite bind_run by reflexivity. by rewrite reset_timeout_run.
Qed.

Lemma read_send_nothing c : packet_to_send (self c) = None -> read_send_queued c = (unqueued c, Ret tt).
Proof. intros Hp. unfold read_send_queued. do 2 erewrite bind_run by reflexivity. by rewrite Hp. Qed.

(** The connection when a queued packet is sent. *)
Definition flushed (q : NetworkPacket) c : Conn (W := W) :=
  mkConn (self (unqueued c)) (chan_send (packet_sender (self c)) q (world c)).2.

Lemma read_send_something q c :
  packet_to_send (self c) = Some q -> tx_open c = true -> read_send_queued c = (flushed q c, Ret tt).
Proof.
  intros Hp Ho. unfold read_send_queued. do 2 erewrite bind_run by reflexivity. rewrite Hp.
  unfold send_or_eof, send_packet, mbind, M_bind. simpl.
  pose proof (chan_send_ok (packet_sender (self c)) q (world c)) as Hok. unfold tx_open in Ho. unfold flushed.
  destruct (chan_send _ _ _) as [ok w]. simpl in *. by rewrite Hok, Ho.
Qed.

(** A connection that has answered its SYN passes the block of the handshake. *)
Lemma read_handshake_skip st c :
  conn_state c = st -> st <> SynReceived false -> read_handshake b c = (c, Ret tt).
Proof.
  intros Hs Hn. unfold read_handshake. erewrite bind_run by reflexivity.
  by rewrite (in_state_run st), bool_decide_eq_false_2 by done.
Qed.

(** The states in which an iteration reads: not closed, and nothing to answer first. *)
Definition reading (st : TcpState) : Prop :=
  st <> Closed /\ st <> FinWait2 false /\ st <> SynReceived false.

(** An iteration up to the delivery; [c1] is the connection after what was queued is
    sent. *)
Lemma round_start k c c1 rb w :
  reading (conn_state c1) -> timely (tcp_timeout (tcb (self c1))) ->
  retransmission (tcb (self c)) = None -> read_send_queued c = (c1, Ret tt) ->
  sleep_poll (timeout (tcb (self c1))) k (world c1) = (false, w) ->
  poll_read_body b k (mkReadSt c rb) =
    (read_deliver b;; on_conn (read_fin b;; read_packet b k)) (mkReadSt (refreshed w c1) rb).
Proof.
  intros (H1 & H2 & H3) Htm Hr Hp Hsl. unfold poll_read_body.
  erewrite bind_run; [reflexivity|]. apply on_conn_run. cbn [conn].
  rewrite (read_front_run (conn_state c1) k c c1 w) by done. by apply (read_handshake_skip (conn_state c1)).
Qed.

(** The segment at the acknowledgment number goes into the caller's buffer, is
    taken out of the map, and is acknowledged. *)
Lemma deliver_round k c c1 rb p w :
  reading (conn_state c1) -> stream_wf (self c1) -> timely (tcp_timeout (tcb (self c1))) ->
  retransmission (tcb (self c)) = None -> read_send_queued c = (c1, Ret tt) -> shutdown (self c1) = ShutNone ->
  sleep_poll (timeout (tcb (self c1))) k (world c1) = (false, w) -> tx_open c1 = true ->
  unordered_packets (tcb (self c1)) !! ack (tcb (self c1)) = Some p ->
  len (unordered_payload p) <= remaining rb ->
  exists s' q, poll_read_body b k (mkReadSt c rb) = (s', Throw (Return (Ready (Ok tt)))) /\
    filled (rbuf s') = filled rb ++ unordered_payload p /\
    ack (tcb (self (conn s'))) =
      wrapping_add U32 (ack (tcb (self c1))) (cast U32 (len (unordered_payload p))) /\
    unordered_packets (tcb (self (conn s'))) =
      delete (ack (tcb (self c1))) (unordered_packets (tcb (self c1))) /\
    txq (conn s') = txq c1 ++ [q] /\
    rev_packet_of (self (conn s')) ACK (TTL b) (seq (tcb (self c1))) [] q.
Proof.
  intros Hst Hwf Htm Hr Hp Hsh Hsl Ho Hseg Hroom.
  destruct (put_slice_fits (unordered_payload p) rb Hroom) as (rb' & Hput & Hfill & _).
  pose proof (sleep_poll_chans (timeout (tcb (self c1))) k (world c1)) as [Hsq Hso].
  rewrite Hsl in Hsq, Hso. simpl in Hsq, Hso.
  set (c2 := upd_tcb (add_ack (cast U32 (len (unordered_payload p))))
               (upd_tcb (fun t => (get_unordered_packets t).2) (refreshed w c1))).
  assert (stream_wf (self c2)) as Hwf2.
  { destruct Hwf. split; try done.
    apply (add_ack_wf _ (get_unordered_packets (tcb (self (refreshed w c1)))).2).
    apply get_unordered_packets_wf, (set_timeout_wf _ (change_recv_window _ (tcb (self c1)))).
    apply change_recv_window_wf; [by apply cast_range|done]. }
  destruct (create_rev_packet_ok b (self c2) ACK (TTL b) None [] Hwf2) as (q & Hq & Hrp).
  destruct (send_or_eof_open (E := Exit) exit_err q c2) as (w3 & Hsend & Htx & _);
    [unfold tx_open in *; simpl; by rewrite Hso|].
  exists (mkReadSt (mkConn (self c2) w3) rb'), q.
  split; [|by unfold txq in *; simpl in *; rewrite Htx, Hsq].
  rewrite (round_start k c c1 rb w) by done. apply bind_throw. unfold read_deliver.
  rewrite (bind_run _ _ _ (mkReadSt (upd_tcb (fun t => (get_unordered_packets t).2) (refreshed w c1)) rb)
             (Some (unordered_payload p))).
  2:{ apply on_conn_run. unfold take_unordered. do 3 erewrite bind_run by reflexivity. simpl.
      by rewrite Hsh, Hseg. }
  rewrite (bind_run _ _ _ (mkReadSt c2 rb) tt) by (by apply on_conn_run).
  rewrite (bind_run _ _ _ (mkReadSt c2 rb') tt) by (unfold put_buf; simpl; by rewrite Hput).
  apply on_conn_run. unfold deliver_reply. cbn [conn].
  erewrite bind_run by (unfold rev_packet, try_with; by rewrite Hq).
  by erewrite bind_run by exact Hsend.
Qed.

Lemma read_next_segment n k c rb p w :
  stream_wf (self c) -> timely (tcp_timeout (tcb (self c))) ->
  conn_state c = Established -> retransmission (tcb (self c)) = None ->
  packet_to_send (self c) = None -> shutdown (self c) = ShutNone ->
  sleep_poll (timeout (tcb (self c))) k (world c) = (false, w) -> tx_open c = true ->
  unordered_packets (tcb (self c)) !! ack (tcb (self c)) = Some p ->
  len (unordered_payload p) <= remaining rb ->
  exists s' q, poll_read b (S n) k (mkReadSt c rb) = Some (s', Ret (Ready (Ok tt))) /\
    filled (rbuf s') = filled rb ++ unordered_payload p /\
    ack (tcb (self (conn s'))) =
      wrapping_add U32 (ack (tcb (self c))) (cast U32 (len (unordered_payload p))) /\
    unordered_packets (tcb (self (conn s'))) =
      delete (ack (tcb (self c))) (unordered_packets (tcb (self c))) /\
    txq (conn s') = txq c ++ [q] /\
    rev_packet_of (self (conn s')) ACK (TTL b) (seq (tcb (self c))) [] q.
Proof.
  intros Hwf Htm Hs Hr Hp Hsh Hsl Ho Hseg Hroom.
  destruct (deliver_round k c (unqueued c) rb p w) as (s' & q & Hrun & Hrest); try done.
  - change (conn_state (unqueued c)) with (conn_state c). by rewrite Hs.
  - by destruct Hwf.
  - by apply read_send_nothing.
  - exists s', q. split; [|exact Hrest]. unfold poll_read. cbn [loop]. by rewrite Hrun.
Qed.

(** The segment at the acknowledgment number is taken out of the map, whether it is
    delivered or not. *)
Definition looked (w : W) c : Conn (W := W) :=
  upd_tcb (fun t => (get_unordered_packets t).2) (refreshed w c).

(** Nothing to resend, to deliver or to close: [c1] is the connection after what was
    queued is sent, and [w] the world after the timer is polled. *)
Record quiet k c c1 (w : W) : Prop := {
  qt_reading : reading (conn_state c1);
  qt_open : conn_state c1 <> FinWait1 true;
  qt_timely : timely (tcp_timeout (tcb (self c1)));
  qt_resend : retransmission (tcb (self c)) = None;
  qt_sent : read_send_queued c = (c1, Ret tt);
  qt_timer : sleep_poll (timeout (tcb (self c1))) k (world c1) = (false, w);
  qt_deliver : unordered_packets (tcb (self c1)) !! ack (tcb (self c1)) = None \/
    is_shut_none (shutdown (self c1)) = false;
  qt_fin : conn_state c1 = Established -> is_shut_pending (shutdown (self c1)) = true ->
    last_ack (tcb (self c1)) <> seq (tcb (self c1));
}.

(** Then an iteration takes a packet from the channel. *)
Lemma quiet_round k c c1 rb w :
  quiet k c c1 w ->
  poll_read_body b k (mkReadSt c rb) = on_conn (read_packet b k) (mkReadSt (looked w c1) rb).
Proof.
  intros [Hst Hf Htm Hr Hp Hsl Hu Hown]. rewrite (round_start k c c1 rb w) by done.
  rewrite (bind_run _ _ _ (mkReadSt (looked w c1) rb) tt).
  2:{ unfold read_deliver. rewrite (bind_run _ _ _ (mkReadSt (looked w c1) rb) None); [done|].
      apply on_conn_run. unfold take_unordered. do 3 erewrite bind_run by reflexivity. simpl.
      destruct Hu as [->| ->]; [by destruct (is_shut_none _)|done]. }
  unfold on_conn, zoom. cbn [conn rbuf]. rewrite (bind_run _ _ _ (looked w c1) tt); [done|].
  unfold read_fin. do 2 erewrite bind_run by reflexivity.
  rewrite !(in_state_run (conn_state c1)) by done. rewrite bool_decide_eq_false_2 by done.
  destruct (is_shut_pending (shutdown (self (looked w c1)))) eqn:Hpend; [|done].
  destruct (bool_decide_reflect (conn_state c1 = Established)) as [He|]; [|done].
  destruct (Z.eqb_spec (get_last_ack (tcb (self (looked w c1)))) (get_seq (tcb (self (looked w c1))))); [|done].
  by destruct (Hown He Hpend).
Qed.

(** ... which is then handled. *)
Lemma quiet_packet k c c1 rb w w' p :
  quiet k c c1 w ->
  chan_poll_recv (stream_receiver (self c1)) k w = (Ready (Some p), w') ->
  poll_read_body b k (mkReadSt c rb) =
    let '(c', r) := handle_packet b p (mkConn (self (looked w c1)) w') in (mkReadSt c' rb, r).
Proof.
  intros Hq Hrv. rewrite (quiet_round k c c1 rb w) by done.
  unfold on_conn, zoom, read_packet, recv_packet, mbind, M_bind. simpl. by rewrite Hrv.
Qed.

Lemma quiet_pending k c c1 rb w w' :
  quiet k c c1 w ->
  chan_poll_recv (stream_receiver (self c1)) k w = (Pending, w') ->
  poll_read_body b k (mkReadSt c rb) =
    (mkReadSt (mkConn (self (looked w c1)) w') rb, Throw (Return Pending)).
Proof.
  intros Hq Hrv. rewrite (quiet_round k c c1 rb w) by done.
  unfold on_conn, zoom, read_packet, recv_packet, mbind, M_bind. simpl. by rewrite Hrv.
Qed.

End deliver.
