(* ===== verification/TcpTrace.v ===== *)
(** * The life of a connection

    Delivering packets, reading, writing, flushing and shutting down keep the
    invariant of [TcpSafety.v], in any order: no call panics and every call
    returns.  The ACK that ends the handshake establishes the connection. *)

From S2P Require Import Prelude Errors Etherparse Packet Runtime Tcb TcbSpec Tcp TcpPacket.
From S2P Require Import TcpLoop TcpSafety TcpApi.

Section trace.
Context `{EP : Etherparse, EL : !EtherparseLaws} {W : Type} `{RT : !Runtime W NetworkPacket}.
Context `{RO : !RuntimeObs W NetworkPacket, RL : !RuntimeLaws W NetworkPacket}.
Context (b : Build) (R : Peer).
Implicit Types (c : Conn (W := W)) (t : Tcb).

(** ** The handshake *)

(** A connection that has sent its SYN|ACK and nothing else. *)
Record handshaking (n : nat) c : Prop := {
  hs_base : conn_base R n c;
  hs_state : conn_state c = SynReceived true;
  hs_quiet : retransmission (tcb (self c)) = None;
  hs_inflight : inflight_packets (tcb (self c)) = [];
  hs_seq : last_ack (tcb (self c)) < seq (tcb (self c));
}.

(** The ACK that completes the handshake acknowledges the SYN|ACK. *)
Lemma handshake_inv n p h c :
  handshaking (S n) c -> transport p = TransTcp h -> header_ok (wrap_tcp_header h) ->
  flags (wrap_tcp_header h) = ACK -> acknowledgment_number h = seq (tcb (self c)) ->
  exists c', handle_packet b p c = (c', Ret tt) /\ conn_inv R n c' /\
    conn_state c' = Established.
Proof.
  intros [Hb Hs Hr Hi Hq] Ht (Hsq & Hak & Hwn) Hf Ha.
  assert (tcb_wf (tcb (self c))) as Hwf by apply Hb.
  assert (check_pkt_type (tcb (self c)) (wrap_tcp_header h) (payload p) <> Invalid) as Hv.
  { apply check_pkt_type_valid; [done|done|lia|]. simpl. lia. }
  unfold handle_packet, transport_protocol. rewrite Ht.
  replace (Z.land (flags (wrap_tcp_header h)) RST) with 0 by (by rewrite Hf).
  erewrite bind_run by reflexivity. erewrite bind_run by reflexivity.
  rewrite bool_decide_eq_false_2 by done. do 2 (erewrite bind_run by reflexivity).
  unfold get_state. unfold conn_state in Hs. rewrite Hs.
  by apply on_syn_received_run.
Qed.

(** ** Packets arrive *)

(** The stack sends a packet to the stream. *)
Definition deliver (p : NetworkPacket) c : Conn (W := W) :=
  mkConn (self c) (chan_send (stream_receiver (self c)) p (world c)).2.

Lemma deliver_inv n p c : conn_inv R (S n) c -> packet_ok R p -> conn_inv R n (deliver p c).
Proof.
  intros Hc Hp. assert (rxq (deliver p c) = rxq c \/ rxq (deliver p c) = rxq c ++ [p]) as Hq.
  { unfold rxq, deliver. simpl. rewrite chan_send_queue, decide_True by done.
    destruct (rx_open _ _); auto. }
  destruct c as [i w]. apply (conn_inv_rx R (S n) n i w (world (deliver p (mkConn i w))) Hc);
    change (mkConn i (world _)) with (deliver p (mkConn i w)).
  - destruct Hc as [[] _]. destruct Hq as [-> | ->]; [done|]. apply Forall_app. auto.
  - destruct Hq as [-> | ->]; [|rewrite length_app; simpl]; lia.
Qed.

(** ** Writing *)

(** What a write must respect: the sequence number does not wrap. *)
Definition write_ok (buf : list byte) c : Prop :=
  conn_state c = Established -> write_blocked (tcb (self c)) = false ->
  seq (tcb (self c)) + Z.min (len buf) 65495 < U32.

(** What an accepted write leaves in flight. *)
Lemma payload_inflight t s n :
  send_rel t s -> write_blocked t = false -> n <= 65495 -> seq t + n - last_ack t <= MAX_INFLIGHT.
Proof.
  intros Hrel Hnb Hn. pose proof (send_rel_le _ _ Hrel) as Hle.
  destruct Hrel as (l & _ & _ & _ & Hl & Hpos & Hlt).
  unfold write_blocked, is_send_buffer_full in Hnb. propify. destruct Hnb as [_ Hnb].
  unfold wrapping_sub, cast in Hnb. rewrite Z.mod_small in Hnb by lia. unfold MAX_INFLIGHT. lia.
Qed.

(** An accepted write appends what it reports to the send buffer. *)
Lemma poll_write_appends {E} n k buf c s :
  conn_inv R n c -> conn_state c = Established -> write_blocked (tcb (self c)) = false ->
  tx_open c = true -> write_ok buf c -> send_rel (tcb (self c)) s ->
  exists p c', poll_write (E := E) b k buf c = (c', Ret (Ready (Ok (len (payload p))))) /\
    rev_packet_of (self c) (Z.lor PSH ACK) (TTL b) (seq (tcb (self c))) buf p /\
    txq c' = txq c ++ [p] /\ conn_inv R n c' /\
    send_rel (tcb (self c')) (sb_write (payload p) s).
Proof.
  intros Hc Hs Hnb Ho Hok Hrel. pose proof (Hok Hs Hnb) as Hfit.
  destruct (poll_write_sends (E := E) b R n k buf c) as (p & c' & Hrun & Hrp & Hq & Hcfg & Hrx & Ht);
    [done..|].
  exists p, c'. do 3 (split; [done|]). rewrite Ht.
  assert (payload p = truncate (max_payload (self c)) buf) as Hp by apply Hrp.
  pose proof (max_payload_range (self c) (conn_base_wf _ _ _ (proj1 Hc))) as Hmr.
  assert (len (payload p) <= Z.min (len buf) 65495) by (rewrite Hp, len_truncate by lia; lia).
  assert (seq (tcb (self c)) + len (payload p) - last_ack (tcb (self c)) <= MAX_INFLIGHT).
  { apply (payload_inflight _ s); [done|done|]. rewrite Hp, len_truncate by lia. lia. }
  destruct Hc as [Hb Hl]. unfold conn_state, tcb_link in *. rewrite Hs in Hl. destruct Hl as [Hr _].
  set (t1 := rearm (instant_now (world c)) (tcb (self c))).
  destruct (add_inflight_inv R (n + length (rxq c)) (payload p) t1 s) as (H1 & H2 & H3);
    [by eapply (send_rel_ext (tcb (self c)))|done|done|simpl; lia|simpl; lia|
     apply tcb_base_timeout, Hb|].
  split; [|done]. split; [|by rewrite Ht]. eapply (conn_base_ext R n c); [done|by apply Hrx, Hb| |done].
  by rewrite Ht.
Qed.

(** The call only restarts the timer and registers the caller. *)
Lemma registered_inv n k c :
  conn_inv R n c ->
  conn_inv R n (upd_self (set_write_notify (Some k)) (upd_tcb (rearm (instant_now (world c))) c)).
Proof.
  intros Hc. apply (safe_upd_self R (E := Empty_set) n (set_write_notify (Some k)) ltac:(done) ltac:(done)).
  by apply rearm_inv.
Qed.

(** A write on any branch. *)
Lemma poll_write_safe {E} n k buf c :
  conn_inv R n c -> write_ok buf c ->
  exists c' r, poll_write (E := E) b k buf c = (c', Ret r) /\ conn_inv R n c'.
Proof.
  intros Hc Hok. destruct (decide (conn_state c = Established)) as [Hs|Hs].
  2:{ exists c, (Ready (Err (IoKind NotConnected))). by rewrite poll_write_not_connected. }
  assert (conn_inv R n (upd_tcb (rearm (instant_now (world c))) c)) as Hc1
    by (by apply rearm_inv).
  destruct (write_blocked (tcb (self c))) eqn:Hnb.
  { rewrite poll_write_blocked by first [done|apply Hc]. do 2 eexists. split; [reflexivity|]. by apply registered_inv. }
  destruct (tx_open c) eqn:Ho.
  - pose proof Hc as [_ Hl]. unfold tcb_link, conn_state in *. rewrite Hs in Hl.
    destruct Hl as (_ & [s Hrel] & _).
    destruct (poll_write_appends (E := E) n k buf c s) as (p & c' & Hrun & _ & _ & Hc' & _); [done..|].
    eauto.
  - destruct (poll_write_eof (E := E) b R n k buf c) as (c' & Hrun & Hself & Hrx); [done..|].
    do 2 eexists. split; [done|]. destruct Hc1 as [Hb Hl]. split; [|by rewrite Hself].
    eapply (conn_base_ext R n (upd_tcb (rearm (instant_now (world c))) c));
      [by rewrite Hself|by apply Hrx, Hb|rewrite Hself; apply Hb|done].
Qed.

(** ** Any sequence of calls *)

Inductive action :=
  | ARead (k : Waker) (rb : ReadBuf)
  | AWrite (k : Waker) (buf : list byte)
  | AFlush
  | AShutdown (k : Waker)
  | ADeliver (p : NetworkPacket).

(** What each call must respect: a read buffer that holds the largest packet,
    the condition on writes, and packets as the stack delivers them. *)
Definition action_ok (a : action) c : Prop :=
  match a with
  | ARead _ rb => R <= remaining rb
  | AWrite _ buf => write_ok buf c
  | AFlush | AShutdown _ => True
  | ADeliver p => packet_ok R p
  end.

Definition read_fuel c : nat := S (length (rxq c) + rank (conn_state c)).

(** The connection after the call; [None] if the call panics or does not
    return. *)
Definition act (a : action) c : option (Conn (W := W)) :=
  match a with
  | ARead k rb =>
      match poll_read b (read_fuel c) k (mkReadSt c rb) with
      | Some (s, Ret _) => Some (conn s)
      | _ => None
      end
  | AWrite k buf =>
      match poll_write (E := Empty_set) b k buf c with
      | (c', Ret _) => Some c'
      | _ => None
      end
  | AFlush =>
      match poll_flush (E := Empty_set) b c with
      | (c', Ret _) => Some c'
      | _ => None
      end
  | AShutdown k =>
      match poll_shutdown b (read_fuel c) k c with
      | Some (c', Ret _) => Some c'
      | _ => None
      end
  | ADeliver p => Some (deliver p c)
  end.

Fixpoint run (l : list action) c : option (Conn (W := W)) :=
  match l with
  | [] => Some c
  | a :: l => c' ← act a c; run l c'
  end.

(** Every call meets its condition when its turn comes. *)
Fixpoint admissible (l : list action) c : Prop :=
  match l with
  | [] => True
  | a :: l => action_ok a c /\ forall c', act a c = Some c' -> admissible l c'
  end.

Definition is_deliver (a : action) : nat := match a with ADeliver _ => 1 | _ => 0 end.
Definition deliveries (l : list action) : nat := sum_list_with is_deliver l.

Lemma act_safe n a c :
  conn_inv R (is_deliver a + n) c -> action_ok a c ->
  exists c', act a c = Some c' /\ conn_inv R n c'.
Proof.
  intros Hc Ha. assert (length (rxq c) + rank (conn_state c) < read_fuel c)%nat as Hf
    by (unfold read_fuel; lia).
  destruct a as [k rb|k buf| |k|p]; simpl in *.
  - destruct (poll_read_safe b R n k (mkReadSt c rb) (read_fuel c)) as (s' & r & -> & Hs');
      [by split; [|intros _]|done|]. eauto.
  - destruct (poll_write_safe (E := Empty_set) n k buf c) as (c' & r & -> & Hc'); [done..|]. eauto.
  - pose proof (safe_poll_flush b R (E := Empty_set) n c Hc) as Hw. unfold wp in Hw.
    destruct (poll_flush b c) as [c' [r|[]|q]]; destruct Hw; [eauto|done].
  - destruct (poll_shutdown_safe b R n (read_fuel c) k c) as (c' & r & -> & Hc' & _); [done..|]. eauto.
  - eexists. split; [done|]. by apply deliver_inv.
Qed.

Lemma run_safe l c :
  conn_inv R (deliveries l) c -> admissible l c ->
  exists c', run l c = Some c' /\ conn_inv R 0 c'.
Proof.
  revert c. induction l as [|a l IH]; intros c Hc Hl; [by exists c|].
  destruct Hl as [Ha Hl]. simpl in Hc.
  destruct (act_safe (deliveries l) a c) as (c1 & H1 & Hc1); [done..|].
  destruct (IH c1) as (c2 & H2 & Hc2); [done|by apply Hl|]. simpl. rewrite H1. eauto.
Qed.

End trace.
