(* ===== verification/TcpWake.v ===== *)
(** * Wake-ups of a waiting writer

    A write that finds the send buffer full or the window small leaves its waker
    with the stream.  Which of the packets a read handles wake it again, and
    which leave it waiting. *)

From S2P Require Import Prelude Errors Etherparse Packet Runtime Tcb TcbSpec Tcp TcpPacket.
From S2P Require Import TcpLoop TcpSafety TcpApi TcpTrace.

Section wake.
Context `{EP : Etherparse, EL : !EtherparseLaws} {W : Type} `{RT : !Runtime W NetworkPacket}.
Context `{RO : !RuntimeObs W NetworkPacket, RL : !RuntimeLaws W NetworkPacket}.
Context (b : Build).
Implicit Types (c : Conn (W := W)) (t : TcpHeaderWrapper).

(** ** Code that wakes nobody *)

(** The waiter is the same and nothing was woken, sent or taken. *)
Definition still c c' : Prop := write_notify (self c') = write_notify (self c) /\ world c' = world c.

#[export] Instance still_preorder : PreOrder still.
Proof. split; [by split|]. intros c1 c2 c3 [H1 H2] [H3 H4]. split; congruence. Qed.

Definition stills {E A} (m : M (Conn (W := W)) E A) : Prop :=
  forall c, wp m (fun c' _ => still c c') c.

Lemma stills_bind {E A B} (m : M Conn E A) (k : A -> M Conn E B) :
  stills m -> (forall a, stills (k a)) -> stills (m ≫= k).
Proof.
  intros Hm Hk c. apply wp_bind. eapply wp_mono; [apply Hm|].
  intros c1 [a|e|p] H; [|done..]. eapply wp_mono; [apply Hk|]. intros c2 r ?. by etrans.
Qed.

Lemma stills_when {E} v (m : M Conn E unit) : stills m -> stills (when v m).
Proof. intros Hm c. apply wp_when; intros _; [apply Hm|reflexivity]. Qed.

Lemma stills_gets {E A} (f : Conn -> A) : stills (gets f : M Conn E A).
Proof. intros c. by apply wp_gets. Qed.

Lemma stills_throw {E A} (e : E) : stills (throw e : M Conn E A).
Proof. intros c. by apply wp_throw. Qed.

Lemma stills_modify_tcb {E} f : stills (modify_tcb f : M (Conn (W := W)) E unit).
Proof. intros c. by apply wp_modify. Qed.

Lemma stills_try_tcb {E} f : stills (try_tcb f : M (Conn (W := W)) E unit).
Proof.
  intros c. apply wp_try_modify; [|done]. intros c' He.
  destruct (f (tcb (self c))) as [t'|[]|]; [|done]. simpl in He. injection He as <-. done.
Qed.

Hint Resolve stills_bind stills_when stills_gets stills_throw stills_modify_tcb stills_try_tcb : core.

(** A PSH|ACK packet is one of those: whatever it acknowledges and whatever
    window it opens. *)
Lemma on_push_still t pl : stills (on_push (W := W) b t pl).
Proof.
  unfold on_push, store_ack, store_window, continue_.
  repeat first [apply stills_bind; [|intros ?] | apply stills_when]; auto.
Qed.

Lemma handle_push_still p h c :
  transport p = TransTcp h -> flags (wrap_tcp_header h) = Z.lor PSH ACK ->
  conn_state c = Established -> wp (handle_packet b p) (fun c' _ => still c c') c.
Proof.
  intros Ht Hf Hs. unfold handle_packet, transport_protocol. rewrite Ht. cbn beta iota. rewrite Hf.
  change (Z.land _ RST =? 0) with true. cbn [negb when]. do 4 wp_step.
  apply wp_bind. apply wp_when; intros _; [done|]. do 2 wp_step.
  unfold get_state. unfold conn_state in Hs. rewrite Hs. unfold on_established. rewrite Hf.
  change (Z.lor PSH ACK =? ACK) with false. change (Z.lor PSH ACK =? Z.lor FIN ACK) with false.
  change (Z.lor PSH ACK =? Z.lor PSH ACK) with true. cbn [when]. do 4 wp_step. apply on_push_still.
Qed.

(** ** Pure ACKs *)

(** The statuses of an ACK packet after which the writer may go on. *)
Definition wakes_writer (s : PacketStatus) : bool :=
  match s with WindowUpdate | NewPacket | Ack => true | _ => false end.

(** The waiter [k] was woken, once, and is no longer registered. *)
Definition woken (k : Waker) c c' : Prop :=
  write_notify (self c') = None /\ wakes k (world c') = S (wakes k (world c)).

Lemma notify_writer_wakes {E} k c :
  write_notify (self c) = Some k ->
  wp (notify_writer : M Conn E unit) (fun c' r => r = Ret tt /\ woken k c c') c.
Proof.
  intros Hn. unfold notify_writer. do 2 wp_step. rewrite Hn. unfold wake. do 3 wp_step.
  split; [done|]. split; [done|]. simpl. rewrite wake_counts. by rewrite decide_True.
Qed.

(** Steps that change the control block or panic, before the writer is woken. *)
Definition wakes_or_panics (k : Waker) c c' (r : exec Exit unit) : Prop :=
  match r with Ret _ => woken k c c' | Panic _ => True | Throw _ => False end.

Lemma wakes_after f (m : M Conn Exit unit) k c :
  write_notify (self c) = Some k ->
  (forall c1, write_notify (self c1) = Some k -> wp m (wakes_or_panics k c1) c1) ->
  wp (try_tcb f;; m) (wakes_or_panics k c) c.
Proof.
  intros Hn Hm. apply wp_bind, wp_try_modify; [|done]. intros c1 He.
  destruct (f (tcb (self c))) as [t'|[]|]; [|done]. simpl in He. injection He as <-.
  by apply (Hm (upd_tcb (fun _ => t') c)).
Qed.

Lemma ack_arm_wakes st t pl k c :
  write_notify (self c) = Some k -> wakes_writer st = true ->
  wp (ack_arm b st t pl) (wakes_or_panics k c) c.
Proof.
  assert (forall c, write_notify (self c) = Some k -> wp notify_writer (wakes_or_panics k c) c) as Hw.
  { intros c1 H1. eapply wp_mono; [by apply notify_writer_wakes|]. by intros c2 r [-> ?]. }
  intros Hn. unfold ack_arm, store_ack, store_window. destruct st; intros Hst; try done.
  - apply wakes_after; [done|]. auto.
  - apply wakes_after; [done|]. intros c1 H1. unfold modify_tcb. do 2 wp_step.
    by apply (wakes_after _ _ k (upd_tcb (add_unordered_packet (seqno t) pl) c1)).
  - apply wakes_after; [done|]. intros c1 H1. by apply wakes_after.
Qed.

(** A writer that waits is woken by the next such ACK. *)
Lemma ack_wakes R n p h k c :
  conn_inv R (1 + n) c -> conn_state c = Established -> packet_ok R p -> transport p = TransTcp h ->
  flags (wrap_tcp_header h) = ACK ->
  wakes_writer (check_pkt_type (tcb (self c)) (wrap_tcp_header h) (payload p)) = true ->
  write_notify (self c) = Some k ->
  exists c', handle_packet b p c = (c', Throw Continue) /\ woken k c c' /\ conn_inv R n c'.
Proof.
  intros Hc Hs Hp Ht Hf Hst Hn. pose proof (handle_packet_handled b R n p c Hc Hp) as Hh.
  assert (wp (handle_packet b p) (fun c' r => match r with
    | Throw Continue => woken k c c' | Panic _ => True | _ => False end) c) as Hwk.
  { unfold handle_packet, transport_protocol. rewrite Ht. cbn beta iota. rewrite Hf.
    change (Z.land ACK RST =? 0) with true. cbn [negb when]. do 4 wp_step.
    rewrite bool_decide_eq_false_2 by (intros H'; by rewrite H' in Hst). cbn [when]. do 4 wp_step.
    unfold get_state. unfold conn_state in Hs. rewrite Hs. unfold on_established. rewrite Hf.
    change (ACK =? ACK) with true. cbn [when]. unfold on_ack. do 3 wp_step. wp_step.
    eapply wp_mono; [by apply ack_arm_wakes|]. by intros c1 [[]|e|q] H1. }
  unfold wp in Hh, Hwk. destruct (handle_packet b p c) as [c' r]. destruct Hh as [Hi Hnp].
  destruct r as [[]|[]|q]; try done. by exists c'.
Qed.

End wake.
