(* ===== verification/TcpOpen.v ===== *)
(** * A connection opens

    The first read of a stream that was opened by a SYN: it answers with SYN|ACK,
    sends the answer, and waits for the acknowledgment that completes the
    handshake. *)

From S2P Require Import Prelude Errors Etherparse Packet Runtime Tcb TcbSpec Tcp TcpPacket.
From S2P Require Import TcpLoop TcpFoot TcpSafety TcpApi TcpDeliver TcpTrace.

Section open.
Context `{EP : Etherparse, EL : !EtherparseLaws} {W : Type} `{RT : !Runtime W NetworkPacket}.
Context `{RO : !RuntimeObs W NetworkPacket, RL : !RuntimeLaws W NetworkPacket}.
Context (b : Build) (R : Peer).
Implicit Types (c : Conn (W := W)) (t : Tcb).

(** A connection that has just been created. *)
Record fresh_conn c : Prop := {
  fr_wf : stream_wf (self c);
  fr_state : conn_state c = SynReceived false;
  fr_quiet : retransmission (tcb (self c)) = None;
  fr_queued : packet_to_send (self c) = None;
  fr_inflight : inflight_packets (tcb (self c)) = [];
  fr_unordered : unordered_packets (tcb (self c)) = ∅;
  fr_last : last_ack (tcb (self c)) = seq (tcb (self c));
  fr_seq : seq (tcb (self c)) + 1 < U32;
  fr_distinct : distinct c;
  fr_rx : rxq c = [];
  fr_tx : tx_open c = true;
  fr_timely : timely (tcp_timeout (tcb (self c)));
}.

(** The connection after the block of the handshake: the answer [q] is queued. *)
Definition greeted (q : NetworkPacket) c : Conn (W := W) :=
  upd_tcb (change_state (SynReceived true)) (upd_tcb add_seq_one (upd_self (set_packet_to_send (Some q)) c)).

Lemma refreshed_wf w c : stream_wf (self c) -> stream_wf (self (refreshed w c)).
Proof.
  intros []. split; try done. apply (set_timeout_wf _ (change_recv_window _ (tcb (self c)))).
  apply change_recv_window_wf; [by apply cast_range|done].
Qed.

(** The first iteration queues the answer. *)
Lemma greet_round k c rb w :
  fresh_conn c -> sleep_poll (timeout (tcb (self c))) k (world c) = (false, w) ->
  exists q, rev_packet_of (self (refreshed w (unqueued c))) (Z.lor SYN ACK) (TTL b) (seq (tcb (self c))) [] q /\
    poll_read_body b k (mkReadSt c rb) =
      (mkReadSt (greeted q (refreshed w (unqueued c))) rb, Throw Continue).
Proof.
  intros [Hwf Hs Hr Hp _ _ _ _ _ _ _ Htm] Hsl. set (c1 := refreshed w (unqueued c)).
  assert (stream_wf (self c1)) as Hwf1 by (apply refreshed_wf; destruct Hwf; by split).
  destruct (create_rev_packet_ok b (self c1) (Z.lor SYN ACK) (TTL b) None [] Hwf1) as (q & Hq & Hrp).
  exists q. split; [done|]. unfold poll_read_body. apply bind_throw.
  apply (on_conn_run _ (mkReadSt c rb)). cbn [conn].
  rewrite (read_front_run b (SynReceived false) k c (unqueued c) w)
    by (try done; by apply read_send_nothing).
  fold c1. unfold read_handshake. erewrite bind_run by reflexivity.
  rewrite (in_state_run (SynReceived false)), bool_decide_eq_true_2 by done. cbn [when].
  erewrite bind_run; [reflexivity|]. unfold queue_packet.
  by erewrite bind_run by (unfold rev_packet, try_with; by rewrite Hq).
Qed.

(** Nothing is waiting to be delivered, and nothing to be closed. *)
Lemma read_deliver_none c rb :
  unordered_packets (tcb (self c)) = ∅ ->
  exists c', read_deliver b (mkReadSt c rb) = (mkReadSt c' rb, Ret tt) /\ c' = c.
Proof.
  intros Hu. exists (upd_tcb (fun t => (get_unordered_packets t).2) c). split.
  - unfold read_deliver.
    rewrite (bind_run _ _ _ (mkReadSt (upd_tcb (fun t => (get_unordered_packets t).2) c) rb) None);
      [done|]. apply on_conn_run. unfold take_unordered. do 3 erewrite bind_run by reflexivity.
    simpl. rewrite Hu, lookup_empty. by destruct (is_shut_none _).
  - destruct c as [[? ? ? ? ? [] ? ? ?] ?]. simpl in *. subst. unfold upd_tcb, upd_self. simpl.
    unfold set_tcb, set_unordered. simpl. by rewrite delete_empty.
Qed.

Lemma read_fin_skip c : conn_state c = SynReceived true -> read_fin b c = (c, Ret tt).
Proof.
  intros Hs. unfold read_fin. do 2 erewrite bind_run by reflexivity.
  rewrite !(in_state_run (SynReceived true)) by done. rewrite !bool_decide_eq_false_2 by done.
  by rewrite andb_false_r.
Qed.

(** A read of an empty channel waits, or finds it closed. *)
Lemma read_packet_none k c :
  rxq c = [] -> exists w r, read_packet b k c = (mkConn (self c) w, Throw (Return r)) /\
    (r = Pending \/ r = Ready (Ok tt)) /\ rxq (mkConn (self c) w) = [] /\
    forall d, d <> stream_receiver (self c) -> queue d w = queue d (world c).
Proof.
  unfold rxq. intros Hq. unfold read_packet, recv_packet, mbind, M_bind.
  pose proof (chan_recv_spec (stream_receiver (self c)) k (world c)) as Hr.
  pose proof (chan_recv_other (stream_receiver (self c)) k (world c)) as Ho.
  destruct (chan_poll_recv _ _ _) as [[[p|]|] w]; simpl in *.
  - congruence.
  - exists w, (Ready (Ok tt)). split; [done|]. split; [by right|]. split; [apply Hr|done].
  - exists w, Pending. split; [done|]. split; [by left|]. split; [congruence|done].
Qed.

(** The second iteration sends the answer and waits. *)
Lemma wait_round k c rb q w :
  conn_state c = SynReceived true -> timely (tcp_timeout (tcb (self c))) ->
  retransmission (tcb (self c)) = None -> packet_to_send (self c) = Some q -> unordered_packets (tcb (self c)) = ∅ ->
  distinct c -> rxq c = [] -> tx_open c = true ->
  sleep_poll (timeout (tcb (self c))) k (world (flushed q c)) = (false, w) ->
  exists w' r, poll_read_body b k (mkReadSt c rb) =
      (mkReadSt (mkConn (self (refreshed w (flushed q c))) w') rb, Throw (Return r)) /\
    (r = Pending \/ r = Ready (Ok tt)) /\ queue (stream_receiver (self c)) w' = [] /\
    queue (packet_sender (self c)) w' = txq c ++ [q].
Proof.
  intros Hs Htm Hr Hp Hu Hd Hrx Ho Hsl.
  pose proof (sleep_poll_chans (timeout (tcb (self c))) k (world (flushed q c))) as [Hsq _].
  rewrite Hsl in Hsq. simpl in Hsq. unfold distinct, rxq, tx_open in *.
  destruct (read_packet_none k (refreshed w (flushed q c))) as (w' & r & Hrun & Hres & Hrx' & Hoth).
  { unfold rxq. simpl. by rewrite Hsq, chan_send_queue, decide_False by done. }
  exists w', r. split; [|split; [done|split; [done|]]].
  2:{ rewrite Hoth by (simpl; congruence). simpl. rewrite Hsq, chan_send_queue, decide_True by done.
      by rewrite Ho. }
  unfold poll_read_body.
  erewrite bind_run; [|apply (on_conn_run _ (mkReadSt c rb)); cbn [conn];
    rewrite (read_front_run b (SynReceived true) k c (flushed q c) w) by (try done; by apply read_send_something);
    by apply (read_handshake_skip b (SynReceived true))].
  cbn [rbuf]. destruct (read_deliver_none (refreshed w (flushed q c)) rb) as (c' & Hdel & ->); [done|].
  erewrite bind_run by exact Hdel. apply (on_conn_run _ (mkReadSt _ rb)). cbn [conn].
  by erewrite bind_run by (by apply read_fin_skip).
Qed.

(** The timer does not end during the first read: not in the world [w] it
    starts in, with the deadline [d], and not after the answer is sent, with a
    deadline [tmo] later. *)
Definition in_time (k : Waker) (ch : Chan) (d tmo : Z) (w : W) : Prop :=
  (sleep_poll d k w).1 = false /\
  forall q, let w1 := (sleep_poll d k w).2 in
    (sleep_poll (instant_now w1 + tmo) k (chan_send ch q w1).2).1 = false.

(** The first read of a fresh connection. *)
Lemma first_read n fuel k c rb :
  fresh_conn c -> in_time k (packet_sender (self c)) (timeout (tcb (self c))) (tcp_timeout (tcb (self c))) (world c) ->
  count_ok (Z.of_nat n) (tcb (self c)) ->
  exists c' q r, poll_read b (2 + fuel) k (mkReadSt c rb) = Some (mkReadSt c' rb, Ret r) /\
    (r = Pending \/ r = Ready (Ok tt)) /\ txq c' = txq c ++ [q] /\ rxq c' = [] /\
    cfg (self c') = cfg (self c) /\ ack (tcb (self c')) = ack (tcb (self c)) /\
    seq (tcb (self c')) = seq (tcb (self c)) + 1 /\
    rev_packet_of (self c') (Z.lor SYN ACK) (TTL b) (seq (tcb (self c))) [] q /\
    handshaking R n c'.
Proof.
  intros Hf [Ht1 Ht2] Hcnt. pose proof Hf as [Hwf Hs Hr Hp Hi Hu Hl Hq Hd Hrx Ho Htm].
  destruct (sleep_poll (timeout (tcb (self c))) k (world c)) as [[] w1] eqn:Hsl; [done|]. simpl in Ht2.
  pose proof (sleep_poll_chans (timeout (tcb (self c))) k (world c)) as [Hsq Hso].
  rewrite Hsl in Hsq, Hso. simpl in Hsq, Hso.
  destruct (greet_round k c rb w1 Hf Hsl) as (q & Hrp & Hrun1). set (c1 := refreshed w1 (unqueued c)) in *.
  destruct (sleep_poll (instant_now w1 + tcp_timeout (tcb (self c))) k
              (chan_send (packet_sender (self c)) q w1).2) as [e w2] eqn:Hsl2.
  specialize (Ht2 q). rewrite Hsl2 in Ht2. simpl in Ht2. subst e.
  unfold rxq, tx_open, txq, distinct in *.
  destruct (wait_round k (greeted q c1) rb q w2) as (w' & r & Hrun2 & Hres & Hrx' & Htx);
    [done|done|done|done|done|done|unfold rxq; simpl; by rewrite Hsq|unfold tx_open; simpl; by rewrite Hso|done|].
  set (c2 := mkConn (self (refreshed w2 (flushed q (greeted q c1)))) w') in *.
  exists c2, q, r. split.
  { unfold poll_read. cbn [Nat.add loop]. by rewrite Hrun1, Hrun2. }
  assert (tcb_wf (tcb (self c2))) as Hwf2.
  { apply (refreshed_wf w2 (flushed q (greeted q c1))). pose proof Hwf as [? ? ? ? Ht]. split; try done.
    apply (set_state_wf _ (add_seq_one (tcb (self c1)))), add_seq_one_wf, refreshed_wf. by split. }
  assert (seq (tcb (self c2)) = seq (tcb (self c)) + 1) as Hseq
    by (simpl; apply Z.mod_small; destruct Hwf as [_ _ _ _ []]; lia).
  split; [done|]. split; [unfold txq in *; simpl in *; by rewrite Htx, Hsq|]. split; [done|].
  split; [done|]. split; [done|]. split; [done|]. split; [by destruct Hrp; split|].
  destruct Hwf. split; [split|..]; try done.
  - by rewrite (Hrx' : rxq c2 = []).
  - rewrite (Hrx' : rxq c2 = []). split; [done|simpl; by rewrite Nat.add_0_r| |done].
    simpl. rewrite Hu. apply map_Forall_empty.
  - rewrite Hseq. simpl. lia.
Qed.

End open.
