(* ===== verification/TcpClose.v ===== *)
(** * The closing handshake

    The transitions that end a connection, case by case: the FINs the stream
    sends, its answers to the peer's, and the wait for a last segment. *)

From S2P Require Import Prelude Errors Etherparse Packet Runtime Tcb Tcp TcpPacket TcpLoop TcpSafety.
From S2P Require Import TcpApi TcpDeliver TcpTrace.

Section close.
Context `{EP : Etherparse, EL : !EtherparseLaws} {W : Type} `{RT : !Runtime W NetworkPacket}.
Context `{RO : !RuntimeObs W NetworkPacket, RL : !RuntimeLaws W NetworkPacket}.
Context (b : Build).
Implicit Types c : Conn (W := W).

(** What a segment with the flags [f] does to a connection in state [s] while it
    closes: the next state, by how much the acknowledgment number grows, and the
    flags of the reply. *)
Definition closing (s : TcpState) (f : Z) : option (TcpState * Z * option Z) :=
  if f =? ACK then
    match s with
    | FinWait1 false => Some (FinWait2 true, 1, None)
    | FinWait2 true => Some (FinWait2 false, 0, None)
    | _ => None
    end
  else if f =? Z.lor FIN ACK then
    match s with
    | Established => Some (FinWait1 true, 1, Some ACK)
    | FinWait1 false => Some (FinWait2 true, 1, Some ACK)
    | FinWait2 true => Some (FinWait2 false, 0, Some ACK)
    | _ => None
    end
  else None.

(** The move is made: the numbers are as said, the world is left alone, and the
    reply, if any, waits to be sent with the numbers of the connection. *)
Record closed_by c (st : TcpState) (dack : Z) (reply : option Z) c' : Prop := {
  cl_state : conn_state c' = st;
  cl_seq : seq (tcb (self c')) = seq (tcb (self c));
  cl_ack : ack (tcb (self c')) = wrapping_add U32 (ack (tcb (self c))) dack;
  cl_cfg : cfg (self c') = cfg (self c);
  cl_world : world c' = world c;
  cl_reply : match reply with
    | Some f => exists p s0, packet_to_send (self c') = Some p /\
        rev_packet_of s0 f (TTL b) (seq (tcb (self c))) [] p /\
        ack (tcb s0) = ack (tcb (self c')) /\ cfg s0 = cfg (self c)
    | None => packet_to_send (self c') = packet_to_send (self c)
    end;
}.

Lemma queue_packet_run {E} (ret : IoError -> E) f t c :
  stream_wf (self c) ->
  exists p, queue_packet b ret f t c = (upd_self (set_packet_to_send (Some p)) c, Ret tt) /\
    rev_packet_of (self c) f t (seq (tcb (self c))) [] p.
Proof.
  intros Hwf. destruct (create_rev_packet_ok b (self c) f t None [] Hwf) as (p & Hp & Hrp).
  exists p. split; [|done]. unfold queue_packet.
  erewrite bind_run by (unfold rev_packet, try_with; by rewrite Hp). done.
Qed.

Lemma wrapping_add_0 a : a ∈u U32 -> wrapping_add U32 a 0 = a.
Proof. intros. rewrite wrapping_add_small; lia. Qed.

Lemma add_ack_stream_wf n c : stream_wf (self c) -> stream_wf (self (upd_tcb (add_ack n) c)).
Proof. intros []. split; try done. by apply add_ack_wf. Qed.

(** The handler reached by a segment that is no reset and not invalid. *)
Lemma handle_packet_valid p h c :
  transport p = TransTcp h -> tcp_rst h = false ->
  check_pkt_type (tcb (self c)) (wrap_tcp_header h) (payload p) <> Invalid ->
  handle_packet b p c =
    match conn_state c with
    | SynReceived true => on_syn_received b (wrap_tcp_header h) c
    | Established => on_established b (wrap_tcp_header h) (payload p) c
    | FinWait1 false => on_fin_wait1 b (wrap_tcp_header h) c
    | FinWait2 true => on_fin_wait2 b (wrap_tcp_header h) c
    | _ => (c, Ret tt)
    end.
Proof.
  intros Ht Hr Hv. unfold handle_packet, transport_protocol. rewrite Ht, flags_rst. simpl. rewrite Hr.
  cbn [negb when]. erewrite bind_run by reflexivity. erewrite bind_run by reflexivity.
  rewrite bool_decide_eq_false_2 by done. do 2 (erewrite bind_run by reflexivity).
  unfold conn_state, get_state. by destruct (state (tcb (self c))) as [[]| |[]|[]|].
Qed.

Lemma closing_run p h c st dack reply :
  stream_wf (self c) -> count_ok 0 (tcb (self c)) -> transport p = TransTcp h ->
  acknowledgment_number h ∈u U32 -> window_size h ∈u U16 -> tcp_rst h = false ->
  check_pkt_type (tcb (self c)) (wrap_tcp_header h) (payload p) <> Invalid ->
  closing (conn_state c) (flags (wrap_tcp_header h)) = Some (st, dack, reply) ->
  exists c' r, handle_packet b p c = (c', r) /\ (r = Ret tt \/ r = Throw Continue) /\
    closed_by c st dack reply c'.
Proof.
  intros Hwf Hcnt Ht Ha Hw Hr Hv Hcl. rewrite (handle_packet_valid p h) by done.
  set (t := wrap_tcp_header h) in *. unfold closing in Hcl.
  destruct (Z.eqb_spec (flags t) ACK) as [Hf|Hf]; [|destruct (Z.eqb_spec (flags t) (Z.lor FIN ACK)) as [Hf'|]; [|done]].
  - destruct (conn_state c) as [[]| |[]|[]|] eqn:Hs; simplify_eq.
    + unfold on_fin_wait1. rewrite Hf, Z.eqb_refl.
      erewrite bind_run by (apply try_tcb_run, change_last_ack_other; [done|unfold conn_state in Hs; congruence]).
      do 2 (erewrite bind_run by reflexivity).
      do 2 eexists. split; [reflexivity|]. split; [by right|]. by split.
    + unfold on_fin_wait2. rewrite Hf, Z.eqb_refl. do 2 eexists. split; [reflexivity|]. split; [by left|].
      split; try done. simpl. rewrite wrapping_add_0; [done|apply Hwf].
  - assert ((flags t =? ACK) = false) as Hne by (by rewrite Hf').
    destruct (conn_state c) as [[]| |[]|[]|] eqn:Hs; simplify_eq.
    + unfold on_established. rewrite Hne, Hf', Z.eqb_refl. cbn [when].
      erewrite bind_run by reflexivity. unfold on_fin_ack.
      set (c1 := upd_tcb (add_ack 1) c).
      destruct (queue_packet_run exit_err ACK (TTL b) c1) as (q & Hq & Hrp); [by apply add_ack_stream_wf|].
      do 2 eexists. split.
      { apply bind_throw. erewrite bind_run by reflexivity. fold c1. erewrite bind_run by exact Hq.
        erewrite bind_run by reflexivity. reflexivity. }
      split; [by right|]. split; try done. exists q, (self c1). done.
    + unfold on_fin_wait1. rewrite Hne, Hf', Z.eqb_refl. cbn [when]. set (c1 := upd_tcb (add_ack 1) c).
      destruct (queue_packet_run exit_err ACK (TTL b) c1) as (q & Hq & Hrp); [by apply add_ack_stream_wf|].
      erewrite bind_run by reflexivity. fold c1. erewrite bind_run by exact Hq.
      erewrite bind_run by (apply try_tcb_run, change_send_window_ok; [done|exact Hcnt]).
      erewrite bind_run by reflexivity.
      do 2 eexists. split; [reflexivity|]. split; [by right|]. split; try done. exists q, (self c1). done.
    + unfold on_fin_wait2. rewrite Hne, Hf', Z.eqb_refl. cbn [when].
      destruct (queue_packet_run exit_err ACK (TTL b) c) as (q & Hq & Hrp); [done|].
      erewrite bind_run by exact Hq. do 2 eexists. split; [reflexivity|]. split; [by left|].
      assert (wrapping_add U32 (ack (tcb (self c))) 0 = ack (tcb (self c))) as H0
        by (apply wrapping_add_0, Hwf).
      split; try done. exists q, (self c). done.
Qed.

(** The stream's own FIN: after a shutdown, once everything is acknowledged; and
    the answer to the peer's. *)
Lemma own_fin_run c :
  stream_wf (self c) ->
  conn_state c = FinWait1 true \/
  (conn_state c = Established /\ is_shut_pending (shutdown (self c)) = true /\
   last_ack (tcb (self c)) = seq (tcb (self c))) ->
  exists c' p, read_fin b c = (c', Throw Continue) /\ packet_to_send (self c') = Some p /\
    rev_packet_of (self c) (Z.lor FIN ACK) (TTL b) (seq (tcb (self c))) [] p /\
    conn_state c' = (if decide (conn_state c = Established) then FinWait1 false else FinWait2 true) /\
    seq (tcb (self c')) = wrapping_add U32 (seq (tcb (self c))) 1 /\
    ack (tcb (self c')) =
      (if decide (conn_state c = Established) then ack (tcb (self c))
       else wrapping_add U32 (ack (tcb (self c))) 1) /\ world c' = world c.
Proof.
  intros Hwf Hst.
  destruct (queue_packet_run exit_err (Z.lor FIN ACK) (TTL b) c Hwf) as (p & Hp & Hrp).
  unfold read_fin. do 2 (erewrite bind_run by reflexivity). unfold in_state, get_state.
  change (state (tcb (self c))) with (conn_state c).
  destruct Hst as [Hs|(Hs & Hsh & Hla)]; rewrite Hs.
  - rewrite bool_decide_eq_true_2 by done. erewrite bind_run by exact Hp.
    do 3 (erewrite bind_run by reflexivity). do 2 eexists. split; [reflexivity|]. by rewrite decide_False.
  - rewrite bool_decide_eq_false_2 by done. rewrite bool_decide_eq_true_2 by done.
    unfold get_last_ack, get_seq. rewrite Hsh, Hla, Z.eqb_refl. cbn [andb when].
    erewrite bind_run by exact Hp. do 2 (erewrite bind_run by reflexivity).
    do 2 eexists. split; [reflexivity|]. by rewrite decide_True.
Qed.

(** The end: the connection is closed, whoever waits for its shutdown is woken,
    and the request to forget the session is queued. *)
Lemma finished_run c :
  stream_wf (self c) -> conn_state c = FinWait2 false ->
  exists w q, read_closed b c =
      (mkConn (closed_with (Some q) (self c)) w,
       Throw (Return (Ready (Err (IoKind ConnectionAborted))))) /\
    rev_packet_of (self c) NON DROP_TTL (seq (tcb (self c))) [] q /\ same_chans (world c) w.
Proof.
  intros Hwf Hs. destruct (queue_packet_run exit_err NON DROP_TTL c Hwf) as (q & Hq & Hrp).
  set (c1 := upd_tcb (change_state Closed) (upd_self (set_packet_to_send (Some q)) c)).
  destruct (shutdown_ready_run (E := Exit) c1) as (w & Hsd & Hsc). exists w, q. split; [|done].
  unfold read_closed. erewrite bind_run by reflexivity. unfold in_state, get_state.
  change (state (tcb (self c))) with (conn_state c). rewrite Hs.
  rewrite bool_decide_eq_false_2 by done. cbn [when]. erewrite bind_run by reflexivity.
  erewrite bind_run by reflexivity. change (state (tcb (self c))) with (conn_state c). rewrite Hs.
  rewrite bool_decide_eq_true_2 by done. cbn [when]. erewrite bind_run by exact Hq.
  erewrite bind_run by reflexivity. by erewrite bind_run by exact Hsd.
Qed.

(** A connection that was shut down and waits for the last segment. *)
Record waiting c : Prop := {
  wt_state : conn_state c = FinWait2 true;
  wt_retransmission : retransmission (tcb (self c)) = None;
  wt_packet : packet_to_send (self c) = None;
  wt_shutdown : is_shut_pending (shutdown (self c)) = true;
  wt_timely : timely (tcp_timeout (tcb (self c)));
}.

(** Polled before its timer elapses, with no packet there, it goes on waiting. *)
Lemma waiting_round k c c1 rb w w' :
  waiting c1 -> retransmission (tcb (self c)) = None -> read_send_queued c = (c1, Ret tt) ->
  sleep_poll (timeout (tcb (self c1))) k (world c1) = (false, w) ->
  chan_poll_recv (stream_receiver (self c1)) k w = (Pending, w') ->
  poll_read_body b k (mkReadSt c rb) =
    (mkReadSt (mkConn (self (looked w c1)) w') rb, Throw (Return Pending)) /\
  waiting (mkConn (self (looked w c1)) w').
Proof.
  intros [Hs Hr Hp Hsh Htm] Hr0 Hq Hsl Hrv. split; [|by split].
  apply (quiet_pending b k c c1); [|done].
  split; [unfold reading; rewrite Hs; done|by rewrite Hs|done|done|done|done| |by rewrite Hs].
  right. by destruct (shutdown (self c1)).
Qed.

Lemma pending_shutdown n k c :
  is_shut_pending (shutdown (self c)) = true ->
  poll_shutdown b n k c =
    match poll_read b n k (mkReadSt c (read_buf_uninit 1)) with Some (s, r) => Some (conn s, r) | None => None end.
Proof. intros Hsh. unfold poll_shutdown. by destruct (shutdown (self c)). Qed.

Lemma poll_shutdown_waits n k c w w' :
  waiting c -> sleep_poll (timeout (tcb (self c))) k (world c) = (false, w) ->
  chan_poll_recv (stream_receiver (self c)) k w = (Pending, w') ->
  exists c', poll_shutdown b (S n) k c = Some (c', Ret Pending) /\ waiting c' /\ cfg (self c') = cfg (self c) /\
    world c' = w'.
Proof.
  intros Hw Hsl Hrv.
  destruct (waiting_round k c (unqueued c) (read_buf_uninit 1) w w')
    as [Hrun Hw']; [by destruct Hw|apply Hw|apply read_send_nothing, Hw|done|done|].
  eexists. split; [|split; [exact Hw'|split; done]].
  rewrite pending_shutdown by apply Hw. unfold poll_read. cbn [loop]. by rewrite Hrun.
Qed.

(** ** A FIN|ACK that arrives *)

(** A segment the stream accepts as the peer's FIN: the connection looks at the
    acknowledgment it carries, and not at its sequence number. *)
Record fin_segment c (p : NetworkPacket) : Prop := {
  fs_tcp : exists h, transport p = TransTcp h /\ window_size h ∈u U16 /\ tcp_rst h = false /\
    flags (wrap_tcp_header h) = Z.lor FIN ACK /\
    check_pkt_type (tcb (self c)) (wrap_tcp_header h) (payload p) <> Invalid;
}.

(** The timer has not elapsed, and then [p] is the next packet in the channel. *)
Definition next_packet (k : Waker) c (p : NetworkPacket) (w w' : W) : Prop :=
  sleep_poll (timeout (tcb (self c))) k (world c) = (false, w) /\
  chan_poll_recv (stream_receiver (self c)) k w = (Ready (Some p), w').

(** Polling the timer and receiving leave what was sent alone. *)
Lemma next_packet_tx k c p w w' :
  next_packet k c p w w' -> distinct c ->
  rx_open (packet_sender (self c)) w' = tx_open c /\ queue (packet_sender (self c)) w' = txq c.
Proof.
  intros [Hsl Hrv] Hd. unfold distinct, tx_open, txq in *.
  pose proof (sleep_poll_chans (timeout (tcb (self c))) k (world c)) as [Hsq Hso].
  pose proof (chan_recv_open (stream_receiver (self c)) k w (packet_sender (self c))) as Hro.
  pose proof (chan_recv_other (stream_receiver (self c)) k w (packet_sender (self c))) as Hrq.
  rewrite Hsl in Hsq, Hso. rewrite Hrv in Hro, Hrq. simpl in *. by rewrite Hro, Hso, Hrq, Hsq by congruence.
Qed.

Lemma unqueued_wf c : stream_wf (self c) -> stream_wf (self (unqueued c)).
Proof. intros []. by split. Qed.

Lemma looked_wf w c : stream_wf (self c) -> stream_wf (self (looked w c)).
Proof.
  intros []. split; try done. apply get_unordered_packets_wf,
    (set_timeout_wf _ (change_recv_window _ (tcb (self c)))).
  apply change_recv_window_wf; [by apply cast_range|done].
Qed.

Definition fin_acked (q : NetworkPacket) (st : TcpState) c : Conn (W := W) :=
  upd_tcb (change_state st) (upd_self (set_packet_to_send (Some q)) (upd_tcb (add_ack 1) c)).

Lemma fin_acked_wf q st c : stream_wf (self c) -> stream_wf (self (fin_acked q st c)).
Proof. intros []. split; try done. by apply (set_state_wf st (add_ack 1 (tcb (self c)))), add_ack_wf. Qed.

Lemma fin_ack_established p c :
  stream_wf (self c) -> conn_state c = Established -> fin_segment c p ->
  exists q, handle_packet b p c = (fin_acked q (FinWait1 true) c, Throw Continue).
Proof.
  intros Hwf Hs [(h & Ht & _ & Hr & Hf & Hv)]. rewrite (handle_packet_valid p h), Hs by done.
  destruct (queue_packet_run exit_err ACK (TTL b) (upd_tcb (add_ack 1) c)) as (q & Hq & _);
    [by apply add_ack_stream_wf|].
  exists q. unfold on_established. rewrite Hf. cbn [when]. erewrite bind_run by reflexivity.
  apply bind_throw. rewrite Z.eqb_refl. cbn [when]. unfold on_fin_ack. erewrite bind_run by reflexivity.
  by erewrite bind_run by exact Hq.
Qed.

(** The same in answer to the stream's own FIN. *)
Lemma fin_ack_answers p c :
  stream_wf (self c) -> count_ok 0 (tcb (self c)) -> conn_state c = FinWait1 false -> fin_segment c p ->
  exists q win avg, handle_packet b p c =
      (upd_tcb (change_state (FinWait2 true)) (upd_tcb (set_send_window win avg)
         (upd_self (set_packet_to_send (Some q)) (upd_tcb (add_ack 1) c))), Throw Continue) /\
    rev_packet_of (self (upd_tcb (add_ack 1) c)) ACK (TTL b) (seq (tcb (self c))) [] q.
Proof.
  intros Hwf Hcnt Hs [(h & Ht & Hwn & Hr & Hf & Hv)]. rewrite (handle_packet_valid p h), Hs by done.
  destruct (queue_packet_run exit_err ACK (TTL b) (upd_tcb (add_ack 1) c)) as (q & Hq & Hrp);
    [by apply add_ack_stream_wf|].
  exists q. do 2 eexists. split; [|exact Hrp]. unfold on_fin_wait1. rewrite Hf, Z.eqb_refl. cbn [when].
  change (Z.lor FIN ACK =? ACK) with false. cbn iota. erewrite bind_run by reflexivity.
  erewrite bind_run by exact Hq.
  erewrite bind_run by (apply try_tcb_run, change_send_window_ok; [done|exact Hcnt]). reflexivity.
Qed.

(** A stream that was shut down and has sent its FIN. *)
Record fin_sent c : Prop := {
  fn_wf : stream_wf (self c);
  fn_count : count_ok 0 (tcb (self c));
  fn_timely : timely (tcp_timeout (tcb (self c)));
  fn_state : conn_state c = FinWait1 false;
  fn_shutdown : is_shut_pending (shutdown (self c)) = true;
  fn_retransmission : retransmission (tcb (self c)) = None;
  fn_packet : packet_to_send (self c) = None;
  fn_open : tx_open c = true;
  fn_distinct : distinct c;
}.

(** After one more packet is sent in the world [w], the timer, which was reset in the
    world [w0], has not elapsed and the channel is empty. *)
Definition nothing_more (k : Waker) c (w0 w : W) : Prop :=
  forall q, let p := sleep_poll (instant_now w0 + tcp_timeout (tcb (self c))) k
                       (chan_send (packet_sender (self c)) q w).2 in
    p.1 = false /\ (chan_poll_recv (stream_receiver (self c)) k p.2).1 = Pending.

(** The shutdown is answered with FIN|ACK, and nothing else. *)
Lemma answered_shutdown n k p c w1 w2 :
  fin_sent c -> fin_segment c p -> next_packet k c p w1 w2 -> nothing_more k c w1 w2 ->
  exists c' q s0, poll_shutdown b (2 + n) k c = Some (c', Ret Pending) /\ waiting c' /\
    txq c' = txq c ++ [q] /\ rev_packet_of s0 ACK (TTL b) (seq (tcb (self c))) [] q /\
    ack (tcb s0) = wrapping_add U32 (ack (tcb (self c))) 1 /\ cfg (self c') = cfg (self c).
Proof.
  intros [Hwf Hcnt Htm Hs Hsh Hr Hp Ho Hd] Hseg Hnext Hno.
  destruct (next_packet_tx k c p w1 w2 Hnext Hd) as [Ho2 Hq2]. destruct Hnext as [Hsl Hrv].
  set (c1 := mkConn (self (looked w1 (unqueued c))) w2).
  assert (conn_state (unqueued c) = FinWait1 false) as Hs1 by done.
  destruct (fin_ack_answers p c1) as (q & win & avg & Hrun & Hrp);
    [by apply (looked_wf w1 (unqueued c)), unqueued_wf|done|done|by destruct Hseg as [?]|].
  set (c2 := upd_tcb _ _) in Hrun. destruct (Hno q) as [Hsl2 Hrv2]. cbn zeta in Hsl2, Hrv2.
  set (w3 := (chan_send _ q w2).2) in *.
  destruct (sleep_poll _ k w3) as [e w4] eqn:Hsl3. simpl in Hsl2, Hrv2. subst e.
  pose proof (sleep_poll_chans (instant_now w1 + tcp_timeout (tcb (self c))) k w3) as [Hsq _].
  pose proof (chan_recv_other (stream_receiver (self c)) k w4 (packet_sender (self c))) as Hrq.
  destruct (chan_poll_recv _ k w4) as [r w5] eqn:Hrv3. simpl in Hrv2, Hrq. subst r.
  destruct (waiting_round k c2 (flushed q c2) (read_buf_uninit 1) w4 w5) as [Hrun2 Hw];
    [by split|done|apply read_send_something; [done|by rewrite <-Ho]|done|done|].
  eexists. exists q, (self (upd_tcb (add_ack 1) c1)).
  split; [|split; [exact Hw|split; [|split; [exact Hrp|split; done]]]].
  - rewrite pending_shutdown by done. unfold poll_read. cbn [Nat.add loop].
    rewrite (quiet_packet b k c (unqueued c) _ w1 w2 p);
      [|split; [by unfold reading; rewrite Hs1|by rewrite Hs1|done|done|by apply read_send_nothing|done| |by rewrite Hs1]|done].
    + fold c1. by rewrite Hrun, Hrun2.
    + right. simpl. by destruct (shutdown (self c)).
  - unfold txq in *. simpl. unfold distinct in Hd. rewrite Hrq by congruence.
    rewrite Hsl3 in Hsq. simpl in Hsq. rewrite Hsq. unfold w3. rewrite chan_send_queue, decide_True by done.
    by rewrite Ho2, Ho, Hq2.
Qed.

End close.
