(* ===== verification/TcpWrapper.v ===== *)
(** * The user's TCP stream: stream/tcp_wrapper.rs

    The stream handed to the user owns the connection in an [Option], so that
    dropping it can move the connection to a background task that shuts it
    down.  Polling forwards to the connection. *)

From S2P Require Import Prelude Errors Etherparse Packet Runtime Tcb Tcp TcpPacket TcpLoop.
From S2P Require Import TcpSafety TcpApi.

Section wrapper.
Context `{EP : Etherparse} {W : Type} `{RT : !Runtime W NetworkPacket}.
Context (b : Build).

Record TcpStreamWrapper := mkWrapper {
  inner : option (Tcp.IpStackTcpStream (W := W));
  wrapper_peer_addr : SocketAddr;
  wrapper_local_addr : SocketAddr;
  wrapper_sender : Chan;
}.

(** [IpStackTcpStream::new]. *)
Definition wrapper_new (rnd : Z) (local_addr peer_addr : SocketAddr) (tcp : TcpHeaderWrapper)
    (pkt_sender : Chan) (mtu tcp_timeout : Z) (w : W)
    : W * exec IpStackError TcpStreamWrapper :=
  let '(ch, w) := chan_new w in
  let '(w, r) := tcp_stream_new b rnd local_addr peer_addr tcp pkt_sender ch mtu tcp_timeout w in
  (w, inner ← r;
      mret (mkWrapper (Some inner) peer_addr local_addr ch)).

Definition set_inner v (s : TcpStreamWrapper) : TcpStreamWrapper :=
  mkWrapper v (wrapper_peer_addr s) (wrapper_local_addr s) (wrapper_sender s).

Definition local_addr (s : TcpStreamWrapper) : SocketAddr := wrapper_local_addr s.
Definition peer_addr (s : TcpStreamWrapper) : SocketAddr := wrapper_peer_addr s.
Definition stream_sender (s : TcpStreamWrapper) : Chan := wrapper_sender s.

(** The four poll functions: [None] of the outer option is running out of the
    fuel of the loop in [poll_read]. *)
Definition wrapper_poll_read (fuel : nat) (k : Waker) (s : TcpStreamWrapper) (w : W) (rb : ReadBuf)
    : option (TcpStreamWrapper * W * ReadBuf * exec Empty_set PollUnit) :=
  match inner s with
  | Some i =>
      match poll_read b fuel k (mkReadSt (mkConn i w) rb) with
      | Some (st, r) =>
          Some (set_inner (Some (self (conn st))) s, world (conn st), rbuf st, r)
      | None => None
      end
  | None => Some (s, w, rb, Ret (ready_err (IoKind NotConnected)))
  end.

Definition wrapper_poll_write (k : Waker) (buf : list byte) (s : TcpStreamWrapper) (w : W)
    : TcpStreamWrapper * W * exec Empty_set PollSize :=
  match inner s with
  | Some i =>
      let '(c, r) := poll_write b k buf (mkConn i w) in
      (set_inner (Some (self c)) s, world c, r)
  | None => (s, w, Ret (ready_err (IoKind NotConnected)))
  end.

Definition wrapper_poll_flush (s : TcpStreamWrapper) (w : W)
    : TcpStreamWrapper * W * exec Empty_set PollUnit :=
  match inner s with
  | Some i =>
      let '(c, r) := poll_flush b (mkConn i w) in
      (set_inner (Some (self c)) s, world c, r)
  | None => (s, w, Ret (ready_err (IoKind NotConnected)))
  end.

Definition wrapper_poll_shutdown (fuel : nat) (k : Waker) (s : TcpStreamWrapper) (w : W)
    : option (TcpStreamWrapper * W * exec Empty_set PollUnit) :=
  match inner s with
  | Some i =>
      match poll_shutdown b fuel k (mkConn i w) with
      | Some (c, r) => Some (set_inner (Some (self c)) s, world c, r)
      | None => None
      end
  | None => Some (s, w, Ret (ready_err (IoKind NotConnected)))
  end.

(** [Drop::drop]: the connection moves to a spawned task. *)
Inductive DropTask :=
  | Spawned (i : Tcp.IpStackTcpStream (W := W))
  | Running (i : Tcp.IpStackTcpStream (W := W)) (deadline : Z).

Definition wrapper_drop (s : TcpStreamWrapper) : TcpStreamWrapper * option DropTask :=
  (set_inner None s, Spawned <$> inner s).

(** Two seconds, in nanoseconds. *)
Definition SHUTDOWN_TIMEOUT : Z := 2000000000.

(** Polling the task: [timeout(2s, inner.shutdown()).await], which polls the
    shutdown first and then its timer; when it is over the connection is
    dropped, also when a panic unwinds the task.  The answer is the task that is
    left, if any. *)
Definition drop_task_poll (fuel : nat) (k : Waker) (t : DropTask) (w : W)
    : option (W * exec Empty_set (option DropTask)) :=
  let '(i, deadline) :=
    match t with
    | Spawned i => (i, instant_now w + SHUTDOWN_TIMEOUT)
    | Running i deadline => (i, deadline)
    end in
  let finish i w :=
    match drop_stream b i w with
    | (w, Panic p) => Some (w, Panic p)
    | (w, _) => Some (w, Ret None)
    end in
  match poll_shutdown b fuel k (mkConn i w) with
  | None => None
  | Some (c, Panic p) => let '(w, _) := drop_stream b (self c) (world c) in Some (w, Panic p)
  | Some (c, Throw e) => match e with end
  | Some (c, Ret (Ready _)) => finish (self c) (world c)
  | Some (c, Ret Pending) =>
      let '(elapsed, w) := sleep_poll deadline k (world c) in
      if (elapsed : bool) then finish (self c) w
      else Some (w, Ret (Some (Running (self c) deadline)))
  end.

(** ** Properties *)

(** A wrapper whose connection is gone, as after its drop, refuses every call. *)
Lemma wrapper_dropped fuel k buf rb s w :
  let s' := (wrapper_drop s).1 in
  wrapper_poll_read fuel k s' w rb = Some (s', w, rb, Ret (ready_err (IoKind NotConnected))) /\
  wrapper_poll_write k buf s' w = (s', w, Ret (ready_err (IoKind NotConnected))) /\
  wrapper_poll_flush s' w = (s', w, Ret (ready_err (IoKind NotConnected))) /\
  wrapper_poll_shutdown fuel k s' w = Some (s', w, Ret (ready_err (IoKind NotConnected))).
Proof. done. Qed.

Context `{EL : !EtherparseLaws}.
Context `{RO : !RuntimeObs W NetworkPacket, RL : !RuntimeLaws W NetworkPacket}.

(** Dropping a connection asks the stack to forget its session and closes the
    channel from the stack. *)
Lemma drop_stream_ok (s : Tcp.IpStackTcpStream (W := W)) w :
  stream_wf s -> rx_open (Tcp.packet_sender s) w = true ->
  Tcp.stream_receiver s <> Tcp.packet_sender s ->
  exists w' p, drop_stream b s w = (w', Ret tt) /\
    queue (Tcp.packet_sender s) w' = queue (Tcp.packet_sender s) w ++ [p] /\
    ttl p = DROP_TTL /\ reverse_network_tuple p = session_key s /\
    rx_open (Tcp.stream_receiver s) w' = false.
Proof.
  intros Hwf Ho Hne. unfold drop_stream.
  destruct (create_rev_packet_ok b s NON DROP_TTL None [] Hwf) as (p & -> & Hp).
  pose proof (chan_send_queue (Tcp.packet_sender s) p w (Tcp.packet_sender s)) as Hq.
  destruct (chan_send _ _ _) as [ok w1]; simpl in *.
  rewrite decide_True, Ho in Hq by done.
  exists (chan_close (Tcp.stream_receiver s) w1), p. split; [done|].
  rewrite chan_close_queue, decide_False by done. split; [done|]. split; [by destruct Hp|].
  split; [by eapply rev_packet_key|]. by rewrite chan_close_open, decide_True.
Qed.

(** The connection of a task. *)
Definition task_stream (t : DropTask) : Tcp.IpStackTcpStream (W := W) :=
  match t with Spawned i => i | Running i _ => i end.

(** ... and its deadline, which starts with its first poll. *)
Definition task_deadline (w : W) (t : DropTask) : Z :=
  match t with
  | Spawned _ => instant_now w + SHUTDOWN_TIMEOUT
  | Running _ deadline => deadline
  end.

Definition task_done (w w' : W) (s : Tcp.IpStackTcpStream (W := W)) : Prop :=
  exists p, last (queue (Tcp.packet_sender s) w') = Some p /\
    queue (Tcp.packet_sender s) w `prefix_of` queue (Tcp.packet_sender s) w' /\
    ttl p = DROP_TTL /\ reverse_network_tuple p = session_key s /\
    rx_open (Tcp.stream_receiver s) w' = false.

(** The end of the task, from a state its polls reach. *)
Lemma task_finish R K c c' w :
  conn_inv R K c' -> kept c c' -> tx_open c = true -> distinct c ->
  same_chans (world c') w ->
  exists w', drop_stream b (self c') w = (w', Ret tt) /\ task_done (world c) w' (self c).
Proof.
  intros Hinv (Hcfg & _ & Ho & Hp) Htx Hd [Hq Hop].
  unfold cfg in Hcfg. injection Hcfg as Hs Hds Hr Hps Hm.
  destruct (drop_stream_ok (self c') w) as (w' & p & Hrun & Hq' & Ht & Hk & Hcl).
  - destruct Hinv as [Hb _]. by eapply conn_base_wf.
  - unfold tx_open in Htx. by rewrite Hop, Ho, Hps.
  - unfold distinct in Hd. congruence.
  - exists w'. split; [done|]. exists p. unfold session_key in *.
    rewrite Hs, Hds, Hr, Hps in *. split; [by rewrite Hq', last_snoc|].
    split; [|done]. rewrite Hq', Hq. etrans; [by apply Hp|]. unfold txq. rewrite Hps.
    by apply prefix_app_r.
Qed.

(** Polling the task never panics; it ends once the shutdown is over, or at
    the latest when its timer fires, and then the stack has been asked to
    forget the session. *)
Lemma drop_task_poll_ok R K n k t w :
  let c := mkConn (task_stream t) w in
  conn_inv R K c -> tx_open c = true ->
  (length (rxq c) + rank (conn_state c) < n)%nat ->
  exists w' r, drop_task_poll n k t w = Some (w', Ret r) /\
    match r with
    | None => task_done w w' (task_stream t)
    | Some t' => exists c',
        poll_shutdown b n k c = Some (c', Ret Pending) /\
        (sleep_poll (task_deadline w t) k (world c')).1 = false /\
        t' = Running (self c') (task_deadline w t) /\
        conn_inv R K (mkConn (self c') w') /\ kept c (mkConn (self c') w')
    end.
Proof.
  intros c Hinv Htx Hn. assert (distinct c) as Hd by apply Hinv.
  destruct (poll_shutdown_safe b R K n k c) as (c' & r & Hrun & Hinv' & Hk & _); [done..|].
  unfold drop_task_poll.
  replace (match t with Spawned i => _ | Running i d => _ end) with (task_stream t, task_deadline w t)
    by (by destruct t). cbn beta iota. fold c. rewrite Hrun.
  destruct r as [v|].
  - destruct (task_finish R K c c' (world c')) as (w' & -> & Hdone); [done..|]. eauto.
  - pose proof (sleep_poll_chans (task_deadline w t) k (world c')) as Hsc.
    destruct (sleep_poll (task_deadline w t) k (world c')) as [[] w1] eqn:Hsl; simpl in Hsc.
    + destruct (task_finish R K c c' w1) as (w' & -> & Hdone); [done..|]. eauto.
    + exists w1, (Some (Running (self c') (task_deadline w t))). split; [done|]. exists c'.
      split; [done|]. rewrite Hsl. split; [done|]. split; [done|].
      assert (kept c' (mkConn (self c') w1)) as Hk1 by (by apply kept_same_chans).
      split; [|by trans c'].
      destruct Hinv' as [Hb Hl]. split; [|done]. eapply (conn_base_ext R K c'); [done| |apply Hb|done].
      unfold rxq; simpl. by destruct Hsc as [-> _].
Qed.

End wrapper.
