(* ===== verification/Udp.v ===== *)
(** * The UDP stream: stream/udp.rs

    A datagram socket over the stack: its state, the datagrams it builds, its
    poll functions, and what a reader and a writer observe of them. *)

From S2P Require Import Prelude Errors Etherparse Packet Runtime.

Section udp.
Context `{EP : Etherparse} {W : Type} `{RT : !Runtime W NetworkPacket}.
Context (b : Build).

(** The two halves of the channel from the stack are named by the channel; the
    sleep by its deadline. *)
Record IpStackUdpStream := mkUdpStream {
  src_addr : SocketAddr;
  dst_addr : SocketAddr;
  udp_sender : Chan;
  stream_receiver : Chan;
  pkt_sender : Chan;
  first_payload : option (list byte);
  timeout : Z;
  udp_timeout : Z;
  mtu : Z;
}.

Definition set_first_payload v s :=
  mkUdpStream (src_addr s) (dst_addr s) (udp_sender s) (stream_receiver s) (pkt_sender s)
    v (timeout s) (udp_timeout s) (mtu s).
Definition set_timeout v s :=
  mkUdpStream (src_addr s) (dst_addr s) (udp_sender s) (stream_receiver s) (pkt_sender s)
    (first_payload s) v (udp_timeout s) (mtu s).

(** [IpStackUdpStream::new]. *)
Definition udp_stream_new (src_addr dst_addr : SocketAddr) (payload : list byte)
    (pkt_sender : Chan) (mtu udp_timeout : Z) (w : W) : W * exec Empty_set IpStackUdpStream :=
  let '(ch, w) := chan_new w in
  (w,
   deadline ← instant_add (instant_max W) (instant_now w) udp_timeout;
   mret
   {| src_addr := src_addr;
      dst_addr := dst_addr;
      udp_sender := ch;
      stream_receiver := ch;
      pkt_sender := pkt_sender;
      first_payload := Some payload;
      timeout := deadline;
      udp_timeout := udp_timeout;
      mtu := mtu |}).

Definition stream_sender (s : IpStackUdpStream) : Chan := udp_sender s.

(** Udp header size. *)
Definition UHS : Z := 8.

Definition create_rev_packet (s : IpStackUdpStream) (ttl : Z) (payload : list byte)
    : exec IoError NetworkPacket :=
  match sock_ip (dst_addr s), sock_ip (src_addr s) with
  | IpV4 dst, IpV4 src =>
      ip_h ← try_ether (ipv4_header_new 0 ttl IpNumber_UDP dst src);
      let line_buffer := saturating_sub (mtu s) (cast U16 (ipv4_header_len ip_h + UHS)) in
      let payload := truncate line_buffer payload in
      ip_h ← try_ether (ipv4_set_payload_len ip_h (len payload + UHS));
      udp_header ← try_ether (with_ipv4_checksum (sock_port (dst_addr s))
                                (sock_port (src_addr s)) ip_h payload);
      mret (mkNetworkPacket (Ipv4 ip_h) (TransUdp udp_header) payload)
  | IpV6 dst, IpV6 src =>
      let ip_h payload_length :=
        {| ip6_traffic_class := 0;
           ip6_flow_label := FlowLabel_ZERO;
           ip6_payload_length := payload_length;
           ip6_next_header := IpNumber_UDP;
           ip6_hop_limit := ttl;
           ip6_source := dst;
           ip6_destination := src |} in
      let line_buffer := saturating_sub (mtu s) (cast U16 (ipv6_header_len (ip_h 0) + UHS)) in
      let payload := truncate line_buffer payload in
      let ip_h := ip_h (cast U16 (len payload + UHS)) in
      udp_header ← try_ether (with_ipv6_checksum (sock_port (dst_addr s))
                                (sock_port (src_addr s)) ip_h payload);
      mret (mkNetworkPacket (Ipv6 ip_h) (TransUdp udp_header) payload)
  | _, _ => Panic PUnreachable
  end.

Definition local_addr (s : IpStackUdpStream) : SocketAddr := src_addr s.
Definition peer_addr (s : IpStackUdpStream) : SocketAddr := dst_addr s.

Definition reset_timeout {E} (now : Z) (s : IpStackUdpStream) : exec E IpStackUdpStream :=
  deadline ← instant_add (instant_max W) now (udp_timeout s);
  mret (set_timeout deadline s).
(** What it leaves when it does not panic. *)
Definition rearm (now : Z) (s : IpStackUdpStream) : IpStackUdpStream :=
  set_timeout (now + udp_timeout s) s.

(** The state of the poll functions; the reader's buffer is part of it. *)
Record UdpSt := mkUdpSt {
  ustream : IpStackUdpStream;
  uworld : W;
  ubuf : ReadBuf;
}.

(** [buf.put_slice(bs); Poll::Ready(Ok(()))]. *)
Definition put_ready (bs : list byte) (st : UdpSt) : UdpSt * exec Empty_set PollUnit :=
  match put_slice bs (ubuf st) with
  | Some rb => (mkUdpSt (ustream st) (uworld st) rb, Ret (Ready (Ok tt)))
  | None => (st, Panic PPutSlice)
  end.

Definition udp_poll_read (k : Waker) (st : UdpSt) : UdpSt * exec Empty_set PollUnit :=
  let '(mkUdpSt s w rb) := st in
  match first_payload s with
  | Some p => put_ready p (mkUdpSt (set_first_payload None s) w rb)
  | None =>
      let '(elapsed, w) := sleep_poll (timeout s) k w in
      if (elapsed : bool) then (mkUdpSt s w rb, Ret (Ready (Err (IoKind TimedOut))))
      else
        match reset_timeout (instant_now w) s with
        | Throw e => (mkUdpSt s w rb, Throw e)
        | Panic p => (mkUdpSt s w rb, Panic p)
        | Ret s =>
            let '(r, w) := chan_poll_recv (stream_receiver s) k w in
            match r with
            | Ready (Some p) => put_ready (payload p) (mkUdpSt s w rb)
            | Ready None => (mkUdpSt s w rb, Ret (Ready (Ok tt)))
            | Pending => (mkUdpSt s w rb, Ret Pending)
            end
        end
  end.

Definition udp_poll_write (buf : list byte) (s : IpStackUdpStream) (w : W)
    : IpStackUdpStream * W * exec Empty_set PollSize :=
  match reset_timeout (instant_now w) s with
  | Throw e => (s, w, Throw e)
  | Panic p => (s, w, Panic p)
  | Ret s =>
      match create_rev_packet s (TTL b) buf with
      | Panic p => (s, w, Panic p)
      | Throw e => (s, w, Ret (ready_err e))
      | Ret packet =>
          let payload_len := len (payload packet) in
          let '(ok, w) := chan_send (pkt_sender s) packet w in
          if (ok : bool) then (s, w, Ret (Ready (Ok payload_len)))
          else (s, w, Ret (ready_err (IoKind UnexpectedEof)))
      end
  end.

Definition udp_poll_flush (s : IpStackUdpStream) : PollUnit := Ready (Ok tt).
Definition udp_poll_shutdown (s : IpStackUdpStream) : PollUnit := Ready (Ok tt).

(** ** The datagrams it sends *)

Record udp_wf (s : IpStackUdpStream) : Prop := {
  uw_family : is_ipv4 (dst_addr s) = is_ipv4 (src_addr s);
  uw_src : plain_addr (src_addr s);
  uw_dst : plain_addr (dst_addr s);
  uw_mtu : mtu s ∈u U16;
}.

Definition udp_headers_len (s : IpStackUdpStream) : Z := if is_ipv4 (dst_addr s) then 28 else 48.
Definition udp_max_payload (s : IpStackUdpStream) : Z :=
  saturating_sub (mtu s) (udp_headers_len s).

(** The datagram promised for the bytes [bs]: from the peer to the local
    address, with as much of [bs] as the MTU has room for. *)
Record datagram_of (s : IpStackUdpStream) (ttl : Z) (bs : list byte) (p : NetworkPacket)
    : Prop := {
  dg_payload : payload p = truncate (udp_max_payload s) bs;
  dg_udp : exists e, transport p = TransUdp
             (mkUdpHeader (sock_port (dst_addr s)) (sock_port (src_addr s)) e);
  dg_src : Packet.src_addr p = dst_addr s;
  dg_dst : Packet.dst_addr p = src_addr s;
  dg_ttl : Packet.ttl p = ttl;
  dg_ip_header : ip_header_len p = udp_headers_len s - 8;
  dg_total : ip_total_len p = udp_headers_len s + len (payload p);
}.

Lemma udp_max_payload_range s : udp_wf s -> 0 <= udp_max_payload s <= 65507.
Proof.
  intros [? ? ? Hm]. unfold udp_max_payload, udp_headers_len, saturating_sub. case_match; lia.
Qed.

Context `{EL : !EtherparseLaws}.

Lemma udp_create_ok s ttl bs :
  udp_wf s -> exists p, create_rev_packet s ttl bs = Ret p /\ datagram_of s ttl bs p.
Proof.
  intros Hwf. pose proof (udp_max_payload_range s Hwf) as Hmax.
  assert (0 <= len (truncate (udp_max_payload s) bs) <= udp_max_payload s) as Hlen.
  { rewrite len_truncate by lia. pose proof (len_nonneg bs). lia. }
  pose proof Hwf as [Hfam Hs Hd Hm]. unfold plain_addr in *. unfold create_rev_packet.
  unfold udp_max_payload, udp_headers_len in *.
  destruct (dst_addr s) as [da dp|da dp df di] eqn:Hdst,
           (src_addr s) as [sa sp|sa sp sf si] eqn:Hsrc; simpl in Hfam; try done; simpl in *.
  - rewrite ipv4_header_new_spec by lia. cbn [try_ether map_err of_result mbind exec_bind].
    rewrite ipv4_header_len_default by done. rewrite (cast_small U16 (20 + UHS)) by (unfold UHS; lia).
    change (20 + UHS) with 28. unfold UHS.
    erewrite try_ether_ok
      by (apply ipv4_set_payload_len_spec; [|rewrite ipv4_header_len_default by done]; lia).
    rewrite ipv4_header_len_default by done. cbn [mbind exec_bind mret exec_ret].
    edestruct with_ipv4_checksum_spec as (e & ->); [lia|].
    eexists. split; [reflexivity|].
    split; unfold udp_max_payload, udp_headers_len, ip_header_len, ip_total_len; simpl;
      rewrite ?Hdst, ?Hsrc; simpl; try done; [by exists e|by rewrite ipv4_header_len_default|].
    lia.
  - rewrite ipv6_header_len_spec. rewrite (cast_small U16 (40 + UHS)) by (unfold UHS; lia).
    change (40 + UHS) with 48. unfold UHS.
    edestruct with_ipv6_checksum_spec as (e & ->); [lia|].
    eexists. split; [reflexivity|].
    split; unfold udp_max_payload, udp_headers_len, ip_header_len, ip_total_len; simpl;
      rewrite ?Hdst, ?Hsrc; simpl; try done; [by exists e|by rewrite ipv6_header_len_spec|].
    rewrite cast_small by lia. lia.
Qed.

(** Every well-formed datagram fits the MTU once its headers do. *)
Lemma datagram_fits s ttl bs p :
  udp_wf s -> datagram_of s ttl bs p -> udp_headers_len s <= mtu s -> ip_total_len p <= mtu s.
Proof.
  intros Hwf [Hp _ _ _ _ _ ->] Hle. pose proof (udp_max_payload_range s Hwf). rewrite Hp.
  rewrite len_truncate by lia. unfold udp_max_payload, saturating_sub in *. lia.
Qed.

Lemma datagram_printed s ttl bs p : udp_wf s -> datagram_of s ttl bs p -> fits (mtu s) p.
Proof.
  intros Hwf [Hp (e & Ht) _ _ _ Hh _] w Hw. apply to_bytes_len in Hw.
  unfold transport_header_len in Hw. rewrite Ht in Hw. pose proof (udp_max_payload_range s Hwf).
  rewrite Hp, len_truncate in Hw by lia.
  unfold udp_max_payload, udp_headers_len, saturating_sub in *. case_match; lia.
Qed.

(** ** What a reader and a writer observe *)

Context `{RO : !RuntimeObs W NetworkPacket, RL : !RuntimeLaws W NetworkPacket}.

(** The datagrams waiting to be read: the one that opened the session, then
    the channel. *)
Definition unread (s : IpStackUdpStream) (w : W) : list (list byte) :=
  option_list (first_payload s) ++ (payload <$> queue (stream_receiver s) w).

Lemma udp_new_unread sa da bs ch m t w w' s :
  udp_stream_new sa da bs ch m t w = (w', Ret s) ->
  unread s w' = [bs] /\ rx_open (stream_sender s) w' = true.
Proof.
  unfold udp_stream_new, unread, instant_add. pose proof (chan_new_queue w) as Hq.
  pose proof (chan_new_open w) as Ho. destruct (chan_new w) as [c w1]; simpl in *.
  case_match; [|done]. intros [= <- <-]. simpl. rewrite Hq, Ho, !decide_True by done. done.
Qed.

(** Handing the oldest datagram to the reader. *)
Lemma put_ready_spec d l s w rb :
  l = d :: unread s w ->
  let '(st, r) := put_ready d (mkUdpSt s w rb) in
  (r = Ret (Ready (Ok tt)) /\ exists d, l = d :: unread (ustream st) (uworld st) /\
     filled (ubuf st) = filled rb ++ d /\ remaining (ubuf st) = remaining rb - len d) \/
  (r = Panic PPutSlice /\ exists d, head l = Some d /\ remaining rb < len d).
Proof.
  intros ->. unfold put_ready. simpl.
  destruct (Z.le_gt_cases (len d) (remaining rb)) as [Hle|Hgt].
  - destruct (put_slice_fits d rb Hle) as (rb' & -> & Hf & Hr). left. eauto 10.
  - rewrite put_slice_overflow by lia. right. eauto with lia.
Qed.

(** A read takes the oldest datagram whole, or none; it panics only when that
    datagram is longer than the buffer, or when there is no instant at the end of
    the timeout. *)
Lemma udp_poll_read_spec k s w rb :
  let '(st, r) := udp_poll_read k (mkUdpSt s w rb) in
  match r with
  | Ret (Ready (Ok _)) =>
      (exists d, unread s w = d :: unread (ustream st) (uworld st) /\
         filled (ubuf st) = filled rb ++ d /\ remaining (ubuf st) = remaining rb - len d) \/
      (unread s w = [] /\ unread (ustream st) (uworld st) = [] /\ ubuf st = rb)
  | Ret (Ready (Err e)) =>
      e = IoKind TimedOut /\ timeout s <= instant_now w /\ ustream st = s /\ ubuf st = rb /\
      unread (ustream st) (uworld st) = unread s w
  | Ret Pending => unread (ustream st) (uworld st) = unread s w /\ ubuf st = rb
  | Throw e => False
  | Panic p =>
      (p = PPutSlice /\ exists d, head (unread s w) = Some d /\ remaining rb < len d) \/
      (p = PInstant /\ instant_max W < instant_now (uworld st) + udp_timeout s /\ ustream st = s /\ ubuf st = rb)
  end.
Proof.
  unfold udp_poll_read. destruct (first_payload s) as [p|] eqn:Hfp.
  { pose proof (put_ready_spec p (unread s w) (set_first_payload None s) w rb) as Hput.
    unfold unread at 1 2 in Hput. simpl in Hput. rewrite Hfp in Hput. specialize (Hput eq_refl).
    destruct (put_ready _ _) as [st r]. destruct Hput as [[-> ?]|[-> ?]]; eauto. }
  pose proof (sleep_poll_deadline (timeout s) k w) as Hdl.
  pose proof (sleep_poll_chans (timeout s) k w) as [Hsq _].
  destruct (sleep_poll (timeout s) k w) as [[] w1]; simpl in *.
  { unfold unread. rewrite Hfp, Hsq. auto 10. }
  unfold reset_timeout, instant_add.
  destruct (Z.leb_spec (instant_now w1 + udp_timeout s) (instant_max W)); simpl;
    [|right; split; [done|]; split; [lia|done]]. fold (rearm (instant_now w1) s).
  pose proof (chan_recv_spec (stream_receiver s) k w1) as Hrecv.
  destruct (chan_poll_recv _ k w1) as [[[p|]|] w2]; simpl in *.
  - pose proof (put_ready_spec (payload p) (unread s w) (rearm (instant_now w1) s) w2 rb)
      as Hput.
    unfold unread at 1 2 in Hput. simpl in Hput. rewrite Hfp, <-Hsq, Hrecv in Hput.
    specialize (Hput eq_refl).
    destruct (put_ready _ _) as [st r]. destruct Hput as [[-> ?]|[-> ?]]; eauto.
  - right. destruct Hrecv as [H1 H2]. unfold unread; simpl. rewrite Hfp, <-Hsq, H1, H2. done.
  - unfold unread; simpl. rewrite Hfp, <-Hsq, Hrecv. done.
Qed.

(** A write sends one datagram towards the device and reports what it carries. *)
Lemma udp_poll_write_spec bs s w :
  udp_wf s -> timely (udp_timeout s) -> rx_open (pkt_sender s) w = true ->
  exists p w', udp_poll_write bs s w =
      (rearm (instant_now w) s, w', Ret (Ready (Ok (len (payload p))))) /\
    datagram_of s (TTL b) bs p /\
    queue (pkt_sender s) w' = queue (pkt_sender s) w ++ [p].
Proof.
  intros Hwf Ht Ho. unfold udp_poll_write, reset_timeout. rewrite (timely_add _ w Ht). simpl.
  fold (rearm (instant_now w) s). set (s1 := rearm _ s).
  assert (udp_wf s1) as Hwf1 by (by destruct Hwf; split).
  destruct (udp_create_ok s1 (TTL b) bs Hwf1) as (p & -> & []).
  pose proof (chan_send_ok (pkt_sender s) p w) as Hok.
  pose proof (chan_send_queue (pkt_sender s) p w (pkt_sender s)) as Hq.
  change (pkt_sender s1) with (pkt_sender s).
  destruct (chan_send _ _ _) as [ok w']; simpl in *. rewrite decide_True in Hq by done.
  rewrite Ho in *. subst ok. exists p, w'. split; [done|]. split; [by split|done].
Qed.

End udp.
