(* ===== verification/Unknown.v ===== *)
(** * Packets of other transports: stream/unknown.rs

    A packet whose transport is neither TCP nor UDP is handed to the user with
    a way to answer it; [send] cuts the answer into packets. *)

From S2P Require Import Prelude Errors Etherparse Packet Runtime.

Section unknown.
Context `{EP : Etherparse} {W : Type} `{RT : !Runtime W NetworkPacket}.
Context (b : Build).

Record IpStackUnknownTransport := mkUnknown {
  unk_src_addr : IpAddr;
  unk_dst_addr : IpAddr;
  unk_payload : list byte;
  protocol : IpNumber;
  mtu : Z;
  packet_sender : Chan;
}.

Definition unknown_new (src_addr dst_addr : IpAddr) (payload : list byte) (ip : IpHeader)
    (mtu : Z) (packet_sender : Chan) : IpStackUnknownTransport :=
  let protocol :=
    match ip with
    | Ipv4 ip => ip4_protocol ip
    | Ipv6 ip => ip6_next_header ip
    end in
  mkUnknown src_addr dst_addr payload protocol mtu packet_sender.

Definition src_addr (s : IpStackUnknownTransport) : IpAddr := unk_src_addr s.
Definition dst_addr (s : IpStackUnknownTransport) : IpAddr := unk_dst_addr s.
Definition payload (s : IpStackUnknownTransport) : list byte := unk_payload s.
Definition ip_protocol (s : IpStackUnknownTransport) : IpNumber := protocol s.

(** [if payload.len() > n { payload.drain(0..n).collect() } else { mem::take(payload) }]. *)
Definition take_front {E} (n : Z) : M (list byte) E (list byte) := fun payload =>
  if n <? len payload then (drain_front n payload, Ret (truncate n payload))
  else ([], Ret payload).

(** The state is the caller's [payload], which the packet's bytes are taken from. *)
Definition create_rev_packet (s : IpStackUnknownTransport)
    : M (list byte) IoError NetworkPacket :=
  match unk_dst_addr s, unk_src_addr s with
  | IpV4 dst, IpV4 src =>
      ip_h ← lift (fun _ => try_ether (ipv4_header_new 0 (TTL b) (protocol s) dst src));
      let line_buffer := saturating_sub (mtu s) (cast U16 (ipv4_header_len ip_h)) in
      p ← take_front line_buffer;
      ip_h ← lift (fun _ => try_ether (ipv4_set_payload_len ip_h (len p)));
      mret (mkNetworkPacket (Ipv4 ip_h) TransUnknown p)
  | IpV6 dst, IpV6 src =>
      let ip_h payload_length :=
        {| ip6_traffic_class := 0;
           ip6_flow_label := FlowLabel_ZERO;
           ip6_payload_length := payload_length;
           ip6_next_header := IpNumber_UDP;
           ip6_hop_limit := TTL b;
           ip6_source := dst;
           ip6_destination := src |} in
      let line_buffer := saturating_sub (mtu s) (cast U16 (ipv6_header_len (ip_h 0))) in
      modify (truncate line_buffer);;
      payload_length ← gets (fun payload => cast U16 (len payload));
      p ← take_front line_buffer;
      mret (mkNetworkPacket (Ipv6 (ip_h payload_length)) TransUnknown p)
  | _, _ => panic_with PUnreachable
  end.

(** One round of the loop of [send], on the rest of the payload. *)
Definition send_body (s : IpStackUnknownTransport)
    : M (list byte * W) (loop_exit (Result unit IoError)) unit := fun st =>
  let '(payload, w) := st in
  match create_rev_packet s payload with
  | (payload, Panic p) => ((payload, w), Panic p)
  | (payload, Throw e) => ((payload, w), Throw (Return (Err e)))
  | (payload, Ret packet) =>
      let '(ok, w) := chan_send (packet_sender s) packet w in
      if negb ok then ((payload, w), Throw (Return (Err (IoCustom Other FromMessage))))
      else if bool_decide (payload = []) then ((payload, w), Throw (Return (Ok tt)))
      else ((payload, w), Ret tt)
  end.

(** [send]; [None] is running out of fuel. *)
Definition send (fuel : nat) (s : IpStackUnknownTransport) (payload : list byte) (w : W)
    : option (W * exec Empty_set (Result unit IoError)) :=
  match loop fuel (send_body s) (payload, w) with
  | Some (st, r) => Some (st.2, r)
  | None => None
  end.

(** ** What [send] does *)

Context `{EL : !EtherparseLaws}.
Context `{RO : !RuntimeObs W NetworkPacket, RL : !RuntimeLaws W NetworkPacket}.

(** The room for payload in an IPv4 packet. *)
Definition room4 (s : IpStackUnknownTransport) : Z := saturating_sub (mtu s) 20.
Definition room6 (s : IpStackUnknownTransport) : Z := saturating_sub (mtu s) 40.

(** An IPv4 packet with the payload [bs] back to the sender. *)
Definition reply4 (s : IpStackUnknownTransport) (src dst : Z) (bs : list byte)
    : NetworkPacket :=
  mkNetworkPacket
    (Ipv4 (mkIpv4Header (20 + len bs) ipv4_default_df (TTL b) (protocol s) dst src
             ipv4_default_ext)) TransUnknown bs.
Definition reply6 (src dst : Z) (bs : list byte) : NetworkPacket :=
  mkNetworkPacket
    (Ipv6 (mkIpv6Header 0 FlowLabel_ZERO (len bs) IpNumber_UDP (TTL b) dst src))
    TransUnknown bs.

Lemma take_front_run {E} n bs :
  0 <= n -> take_front (E := E) n bs = (drain_front n bs, Ret (truncate n bs)).
Proof.
  intros. unfold take_front. destruct (Z.ltb_spec n (len bs)); [done|].
  by rewrite drain_front_ge, truncate_all by lia.
Qed.

Lemma create_v4 s src dst bs :
  unk_src_addr s = IpV4 src -> unk_dst_addr s = IpV4 dst -> mtu s ∈u U16 ->
  create_rev_packet s bs =
    (drain_front (room4 s) bs, Ret (reply4 s src dst (truncate (room4 s) bs))).
Proof.
  intros Hs Hd Hm. unfold create_rev_packet. rewrite Hs, Hd, ipv4_header_new_spec by lia.
  unfold mbind, M_bind, lift. cbn [try_ether map_err of_result].
  rewrite ipv4_header_len_default by done. rewrite (cast_small U16 20) by lia. fold (room4 s).
  assert (0 <= room4 s < 65516) as Hr by (unfold room4, saturating_sub; lia).
  rewrite take_front_run by lia.
  assert (0 <= len (truncate (room4 s) bs) < 65516).
  { rewrite len_truncate by lia. pose proof (len_nonneg bs). lia. }
  rewrite ipv4_set_payload_len_spec by (rewrite ?ipv4_header_len_default by done; lia).
  by rewrite ipv4_header_len_default.
Qed.

Lemma create_v6 s src dst bs :
  unk_src_addr s = IpV6 src -> unk_dst_addr s = IpV6 dst -> mtu s ∈u U16 ->
  create_rev_packet s bs = ([], Ret (reply6 src dst (truncate (room6 s) bs))).
Proof.
  intros Hs Hd Hm. unfold create_rev_packet. rewrite Hs, Hd.
  unfold mbind, M_bind, modify, gets. rewrite ipv6_header_len_spec.
  rewrite (cast_small U16 40) by lia. fold (room6 s).
  assert (0 <= room6 s < 65536) as Hr by (unfold room6, saturating_sub; lia).
  assert (0 <= len (truncate (room6 s) bs) <= room6 s) as Hl.
  { rewrite len_truncate by lia. pose proof (len_nonneg bs). lia. }
  rewrite take_front_run by lia. rewrite drain_front_ge by lia.
  rewrite (truncate_all _ (truncate _ _)) by lia. by rewrite cast_small by lia.
Qed.

(** Both fit. *)
Lemma reply4_fits s src dst bs : mtu s ∈u U16 -> fits (mtu s) (reply4 s src dst (truncate (room4 s) bs)).
Proof.
  intros Hm w Hw. apply to_bytes_len in Hw. unfold transport_header_len, ip_header_len in Hw.
  simpl in Hw. rewrite ipv4_header_len_default in Hw by done.
  rewrite len_truncate in Hw by (unfold room4, saturating_sub; lia).
  unfold room4, saturating_sub in *. lia.
Qed.
Lemma reply6_fits s src dst bs : mtu s ∈u U16 -> fits (mtu s) (reply6 src dst (truncate (room6 s) bs)).
Proof.
  intros Hm w Hw. apply to_bytes_len in Hw. unfold transport_header_len, ip_header_len in Hw.
  simpl in Hw. rewrite ipv6_header_len_spec in Hw.
  rewrite len_truncate in Hw by (unfold room6, saturating_sub; lia).
  unfold room6, saturating_sub in *. lia.
Qed.

(** One round on an open channel. *)
Lemma send_body_v4 s src dst bs w :
  unk_src_addr s = IpV4 src -> unk_dst_addr s = IpV4 dst -> mtu s ∈u U16 ->
  rx_open (packet_sender s) w = true ->
  exists w', send_body s (bs, w) =
      ((drain_front (room4 s) bs, w'),
       if bool_decide (drain_front (room4 s) bs = []) then Throw (Return (Ok tt)) else Ret tt) /\
    queue (packet_sender s) w' =
      queue (packet_sender s) w ++ [reply4 s src dst (truncate (room4 s) bs)] /\
    rx_open (packet_sender s) w' = true.
Proof.
  intros Hs Hd Hm Ho. unfold send_body. rewrite (create_v4 s src dst bs) by done.
  set (p := reply4 _ _ _ _). pose proof (chan_send_ok (packet_sender s) p w) as Hok.
  pose proof (chan_send_queue (packet_sender s) p w (packet_sender s)) as Hq.
  pose proof (chan_send_open (packet_sender s) p w (packet_sender s)) as Hop.
  destruct (chan_send _ _ _) as [ok w']; simpl in *. rewrite decide_True in Hq by done.
  rewrite Ho in *. subst ok. simpl. exists w'. split; [by case_bool_decide|done].
Qed.

(** With room in a packet, an IPv4 answer is cut into the fewest packets that
    carry it, in order; the loop ends after at most one round per byte. *)
Lemma send_v4_ok s src dst :
  unk_src_addr s = IpV4 src -> unk_dst_addr s = IpV4 dst -> mtu s ∈u U16 -> 20 < mtu s ->
  forall fuel bs w, rx_open (packet_sender s) w = true -> (length bs < fuel)%nat ->
  exists w' pkts, send fuel s bs w = Some (w', Ret (Ok tt)) /\
    queue (packet_sender s) w' = queue (packet_sender s) w ++ pkts /\
    Forall (fun p => exists d, p = reply4 s src dst d /\ ip_total_len p <= mtu s) pkts /\
    concat (Packet.payload <$> pkts) = bs /\
    len pkts = Z.max 1 ((len bs + room4 s - 1) / room4 s).
Proof.
  intros Hs Hd Hm Hlt fuel. assert (room4 s = mtu s - 20) as Hroom.
  { unfold room4, saturating_sub. lia. }
  induction fuel as [|fuel IH]; intros bs w Ho Hf; [lia|].
  unfold send. cbn [loop]. destruct (send_body_v4 s src dst bs w) as (w' & -> & Hq & Ho'); try done.
  set (d := truncate (room4 s) bs) in *. pose proof (len_nonneg bs).
  assert (ip_total_len (reply4 s src dst d) <= mtu s) as Hfit.
  { unfold ip_total_len; simpl. subst d. rewrite len_truncate by lia. lia. }
  case_bool_decide as Hnil.
  - exists w', [reply4 s src dst d]. split; [done|]. split; [done|]. split; [eauto|].
    assert (len bs <= room4 s).
    { apply (f_equal len) in Hnil. rewrite len_drain_front in Hnil by lia.
      change (len []) with 0 in Hnil. lia. }
    simpl. subst d. rewrite app_nil_r, truncate_all by done. split; [done|]. unfold len at 1. simpl.
    destruct (Z.eq_dec (len bs) 0); [rewrite Z.div_small by lia; lia|].
    replace ((len bs + room4 s - 1) / room4 s) with 1; [done|].
    apply Z.div_unique with (len bs - 1); lia.
  - assert (room4 s < len bs).
    { destruct (Z.lt_ge_cases (room4 s) (len bs)); [done|]. by rewrite drain_front_ge in Hnil. }
    destruct (IH (drain_front (room4 s) bs) w') as (w2 & pkts & Hrun & Hq2 & Hall & Hcat & Hn);
      [done| |].
    { unfold drain_front. rewrite length_drop. unfold len in *. lia. }
    exists w2, (reply4 s src dst d :: pkts). split; [done|].
    rewrite Hq2, Hq, <-app_assoc. split; [done|]. split; [constructor; eauto|].
    split; [rewrite fmap_cons, concat_cons, Hcat; apply truncate_drain|].
    change (len (_ :: pkts)) with (len ([reply4 s src dst d] ++ pkts)).
    rewrite len_app, Hn, len_drain_front by lia. change (len [_]) with 1.
    replace (len bs + room4 s - 1) with ((len bs - 1) + 1 * room4 s) by lia.
    rewrite Z.div_add by lia. rewrite (Z.max_r 0) by lia.
    replace (len bs - room4 s + room4 s - 1) with (len bs - 1) by lia.
    assert (1 <= (len bs - 1) / room4 s) by (apply Z.div_le_lower_bound; lia). lia.
Qed.

(** Without room, the loop sends empty packets for ever. *)
Lemma send_v4_stuck s src dst :
  unk_src_addr s = IpV4 src -> unk_dst_addr s = IpV4 dst -> 0 <= mtu s <= 20 ->
  forall fuel bs w, rx_open (packet_sender s) w = true -> bs <> [] -> send fuel s bs w = None.
Proof.
  intros Hs Hd Hm fuel. assert (room4 s = 0) as Hr by (unfold room4, saturating_sub; lia).
  induction fuel as [|fuel IH]; intros bs w Ho Hne; [done|].
  unfold send. cbn [loop].
  destruct (send_body_v4 s src dst bs w) as (w' & -> & Hq & Ho'); try done; [lia|].
  rewrite Hr, drain_front_0, bool_decide_eq_false_2 by done. by apply IH.
Qed.

(** An IPv6 answer is one packet with as much of it as there is room for. *)
Lemma send_v6_ok s src dst fuel bs w :
  unk_src_addr s = IpV6 src -> unk_dst_addr s = IpV6 dst -> mtu s ∈u U16 ->
  rx_open (packet_sender s) w = true ->
  exists w', send (S fuel) s bs w = Some (w', Ret (Ok tt)) /\
    queue (packet_sender s) w' =
      queue (packet_sender s) w ++ [reply6 src dst (truncate (room6 s) bs)].
Proof.
  intros Hs Hd Hm Ho. unfold send. simpl. rewrite (create_v6 s src dst bs) by done.
  set (p := reply6 _ _ _). pose proof (chan_send_ok (packet_sender s) p w) as Hok.
  pose proof (chan_send_queue (packet_sender s) p w (packet_sender s)) as Hq.
  destruct (chan_send _ _ _) as [ok w']; simpl in *. rewrite decide_True in Hq by done.
  rewrite Ho in *. subst ok. simpl. eauto.
Qed.

End unknown.
