(* ===== verification/Stream.v ===== *)
(** * The streams handed to the user: stream/mod.rs *)

From S2P Require Import Prelude Errors Etherparse Packet Runtime Tcp TcpWrapper Udp Unknown.

Section stream.
Context `{EP : Etherparse} {W : Type} `{RT : !Runtime W NetworkPacket}.

Inductive IpStackStream :=
  | StreamTcp (s : TcpStreamWrapper (W := W))
  | StreamUdp (s : IpStackUdpStream (W := W))
  | StreamUnknownTransport (s : IpStackUnknownTransport (W := W))
  | StreamUnknownNetwork (data : list byte).

(** [SocketAddr::V4(SocketAddrV4::new(Ipv4Addr::new(0, 0, 0, 0), 0))]. *)
Definition no_addr : SocketAddr := SockV4 0 0.

(** The address of a packet without ports. *)
Definition addr_of_ip (a : IpAddr) : SocketAddr :=
  match a with
  | IpV4 addr => SockV4 addr 0
  | IpV6 addr => SockV6 addr 0 0 0
  end.

Definition local_addr (s : IpStackStream) : SocketAddr :=
  match s with
  | StreamTcp tcp => TcpWrapper.local_addr tcp
  | StreamUdp udp => Udp.local_addr udp
  | StreamUnknownNetwork _ => no_addr
  | StreamUnknownTransport unknown => addr_of_ip (Unknown.src_addr unknown)
  end.

Definition peer_addr (s : IpStackStream) : SocketAddr :=
  match s with
  | StreamTcp tcp => TcpWrapper.peer_addr tcp
  | StreamUdp udp => Udp.peer_addr udp
  | StreamUnknownNetwork _ => no_addr
  | StreamUnknownTransport unknown => addr_of_ip (Unknown.dst_addr unknown)
  end.

End stream.
