(* ===== verification/Stack.v ===== *)
(** * The stack: lib.rs

    The task that owns the device and the session table: it hands the packets
    the device reads to the streams they belong to, opening a stream for a new
    session, and writes the packets of the streams to the device.  Device and
    accept channel are part of the stack's state. *)

From S2P Require Import Prelude Errors Etherparse Packet Runtime Tcb Tcp TcpPacket TcpLoop.
From S2P Require Import TcpWrapper Udp Unknown Stream.

(** ** Configuration; durations are in nanoseconds *)

Record IpStackConfig := mkConfig {
  cfg_mtu : Z;
  cfg_packet_information : bool;
  cfg_tcp_timeout : Z;
  cfg_udp_timeout : Z;
}.

Definition from_secs (s : Z) : Z := s * 1000000000.

Definition config_default : IpStackConfig :=
  {| cfg_mtu := U16 - 1;
     cfg_packet_information := false;
     cfg_tcp_timeout := from_secs 60;
     cfg_udp_timeout := from_secs 30 |}.

Definition config_tcp_timeout (timeout : Z) (c : IpStackConfig) : IpStackConfig :=
  mkConfig (cfg_mtu c) (cfg_packet_information c) timeout (cfg_udp_timeout c).
Definition config_udp_timeout (timeout : Z) (c : IpStackConfig) : IpStackConfig :=
  mkConfig (cfg_mtu c) (cfg_packet_information c) (cfg_tcp_timeout c) timeout.
Definition config_mtu (mtu : Z) (c : IpStackConfig) : IpStackConfig :=
  mkConfig mtu (cfg_packet_information c) (cfg_tcp_timeout c) (cfg_udp_timeout c).
Definition config_packet_information (v : bool) (c : IpStackConfig) : IpStackConfig :=
  mkConfig (cfg_mtu c) v (cfg_tcp_timeout c) (cfg_udp_timeout c).

(** ** The headers of a TUN device with packet information *)

Definition TUN_FLAGS : list byte := [Byte.x00; Byte.x00].
Definition TUN_PROTO_IP6 (b : Build) : list byte :=
  if decide (target b = Apple) then [Byte.x00; Byte.x0a] else [Byte.x86; Byte.xdd].
Definition TUN_PROTO_IP4 (b : Build) : list byte :=
  if decide (target b = Apple) then [Byte.x00; Byte.x02] else [Byte.x08; Byte.x00].

(** [cfg(unix)]. *)
Definition unix (b : Build) : bool := bool_decide (target b <> Windows).

Section stack.
Context `{EP : Etherparse} {W : Type} `{RT : !Runtime W NetworkPacket}.
Context (b : Build).
(** The user's device, by its [write_all]. *)
Context {D : Type} (write_all : list byte -> D -> D * Result unit IoError).

Definition SessionCollection : Type := gmap NetworkTuple Chan.

(** [create_stream]; [rnd] is the random number a TCP stream starts from. *)
Definition create_stream (rnd : Z) (packet : NetworkPacket) (config : IpStackConfig)
    (pkt_sender : Chan) (w : W)
    : W * exec Empty_set (option (Chan * IpStackStream (W := W))) :=
  match transport_protocol packet with
  | ProtoTcp h =>
      match wrapper_new b rnd (Packet.src_addr packet) (Packet.dst_addr packet) h pkt_sender
              (cfg_mtu config) (cfg_tcp_timeout config) w with
      | (w, Ret stream) => (w, Ret (Some (TcpWrapper.stream_sender stream, StreamTcp stream)))
      | (w, Throw _) => (w, Ret None)
      | (w, Panic p) => (w, Panic p)
      end
  | ProtoUdp =>
      let '(w, r) :=
        udp_stream_new (Packet.src_addr packet) (Packet.dst_addr packet) (Packet.payload packet)
          pkt_sender (cfg_mtu config) (cfg_udp_timeout config) w in
      (w, stream ← r; mret (Some (Udp.stream_sender stream, StreamUdp stream)))
  | ProtoUnknown => (w, Panic PUnreachable)
  end.

(** [create_stream(...).map(|s| { entry.insert(s.0); s.1 })]. *)
Definition open_session (rnd : Z) (packet : NetworkPacket) (config : IpStackConfig)
    (pkt_sender : Chan) (sessions : SessionCollection) (w : W)
    : SessionCollection * W * exec Empty_set (option (IpStackStream (W := W))) :=
  match create_stream rnd packet config pkt_sender w with
  | (w, Ret (Some (ch, stream))) =>
      (<[network_tuple packet := ch]> sessions, w, Ret (Some stream))
  | (w, Ret None) => (sessions, w, Ret None)
  | (w, Throw e) => match e with end
  | (w, Panic p) => (sessions, w, Panic p)
  end.

Definition process_device_read (rnd : Z) (data : list byte) (config : IpStackConfig)
    (pkt_sender : Chan) (sessions : SessionCollection) (w : W)
    : SessionCollection * W * exec Empty_set (option (IpStackStream (W := W))) :=
  match parse data with
  | Err _ => (sessions, w, Ret (Some (StreamUnknownNetwork data)))
  | Ok packet =>
      match transport_protocol packet with
      | ProtoUnknown =>
          (sessions, w, Ret (Some (StreamUnknownTransport
            (unknown_new (sock_ip (Packet.src_addr packet)) (sock_ip (Packet.dst_addr packet))
               (Packet.payload packet) (ip packet) (cfg_mtu config) pkt_sender))))
      | _ =>
          match sessions !! network_tuple packet with
          | Some ch =>
              let '(ok, w) := chan_send ch packet w in
              if (ok : bool) then (sessions, w, Ret None)
              else open_session rnd packet config pkt_sender sessions w
          | None => open_session rnd packet config pkt_sender sessions w
          end
      end
  end.

(** The bytes put in front of a packet. *)
Definition packet_information_header (packet : NetworkPacket) : list byte :=
  TUN_FLAGS ++ (if is_ipv4 (Packet.src_addr packet) then TUN_PROTO_IP4 b else TUN_PROTO_IP6 b).

Definition process_upstream_recv (packet : NetworkPacket) (packet_information : bool)
    (sessions : SessionCollection) (device : D)
    : SessionCollection * D * Result unit IpStackError :=
  if ttl packet =? 0 then (delete (reverse_network_tuple packet) sessions, device, Ok tt)
  else
    match to_bytes packet with
    | Err _ => (sessions, device, Ok tt)
    | Ok packet_bytes =>
        let packet_bytes :=
          if unix b && packet_information
          then packet_information_header packet ++ packet_bytes else packet_bytes in
        let '(device, r) := write_all packet_bytes device in
        (sessions, device, map_err ipstack_error_from_io r)
    end.

(** ** The task of [run], and [IpStack] *)

(** The task's state; [accepted] are the streams in the accept channel, and
    [accepting] whether its receiver, the [IpStack], is still there. *)
Record Stack := mkStack {
  config : IpStackConfig;
  sessions : SessionCollection;
  pkt_chan : Chan;
  device : D;
  accepted : list (IpStackStream (W := W));
  accepting : bool;
  sworld : W;
}.

Definition offset (s : Stack) : Z :=
  if cfg_packet_information (config s) && unix b then 4 else 0.

(** [IpStack::new]: the task starts with no sessions and a new packet channel. *)
Definition stack_new (config : IpStackConfig) (device : D) (w : W) : Stack :=
  let '(ch, w) := chan_new w in mkStack config ∅ ch device [] true w.

(** The arm of [select!] for [n] bytes read from the device: [buf] is
    [&buffer[..n]]. *)
Definition on_device_read (rnd : Z) (buf : list byte) (s : Stack)
    : Stack * exec IpStackError unit :=
  if len buf <? offset s then (s, Panic PSliceIndex)
  else
    match process_device_read rnd (drain_front (offset s) buf) (config s) (pkt_chan s)
            (sessions s) (sworld s) with
    | (sessions, w, Ret (Some stream)) =>
        if accepting s then
          (mkStack (config s) sessions (pkt_chan s) (device s) (accepted s ++ [stream]) true w,
           Ret tt)
        else
          (mkStack (config s) sessions (pkt_chan s) (device s) (accepted s) false w,
           Throw SendError)
    | (sessions, w, Ret None) =>
        (mkStack (config s) sessions (pkt_chan s) (device s) (accepted s) (accepting s) w, Ret tt)
    | (sessions, w, Throw e) => match e with end
    | (sessions, w, Panic p) =>
        (mkStack (config s) sessions (pkt_chan s) (device s) (accepted s) (accepting s) w, Panic p)
    end.

(** The arm for a packet from a stream. *)
Definition on_packet (packet : NetworkPacket) (w : W) (s : Stack) : Stack * exec IpStackError unit :=
  let '(sessions, device, r) :=
    process_upstream_recv packet (cfg_packet_information (config s)) (sessions s) (device s) in
  (mkStack (config s) sessions (pkt_chan s) device (accepted s) (accepting s) w, of_result r).

(** [IpStack::accept], when it completes: the oldest stream, or the error once
    the task is gone and the channel is empty. *)
Definition accept (task_alive : bool) (s : Stack)
    : Stack * Poll (Result (IpStackStream (W := W)) IpStackError) :=
  match accepted s with
  | x :: l =>
      (mkStack (config s) (sessions s) (pkt_chan s) (device s) l (accepting s) (sworld s),
       Ready (Ok x))
  | [] => (s, if task_alive then Pending else Ready (Err AcceptError))
  end.

End stack.
