(* ===== verification/StackSpec.v ===== *)
(** * What the stack does with a packet

    The opening of sessions, the answers to stray packets, the dispatch of
    packets to streams and its invariant, and the way out to the device. *)

From S2P Require Import Prelude Errors Etherparse Packet Runtime Tcb Tcp TcpPacket TcpLoop.
From S2P Require Import TcpWrapper Udp Unknown Stream Stack.

Section stack_spec.
Context `{EP : Etherparse, EL : !EtherparseLaws} {W : Type} `{RT : !Runtime W NetworkPacket}.
Context `{RO : !RuntimeObs W NetworkPacket, RL : !RuntimeLaws W NetworkPacket}.
Context (b : Build).
Implicit Types (p : NetworkPacket) (w : W) (m : SessionCollection (W := W)).

(** ** Packets from the device *)

Lemma packet_family p : is_ipv4 (Packet.dst_addr p) = is_ipv4 (Packet.src_addr p).
Proof. unfold Packet.dst_addr, Packet.src_addr. by destruct (ip p). Qed.
Lemma packet_plain_src p : plain_addr (Packet.src_addr p).
Proof. unfold plain_addr, Packet.src_addr. by destruct (ip p). Qed.
Lemma packet_plain_dst p : plain_addr (Packet.dst_addr p).
Proof. unfold plain_addr, Packet.dst_addr. by destruct (ip p). Qed.

Lemma parse_tcp_range data p h :
  parse data = Ok p -> transport p = TransTcp h ->
  sequence_number h ∈u U32 /\ acknowledgment_number h ∈u U32 /\ window_size h ∈u U16.
Proof.
  unfold parse. destruct (sliced_from_ip data) as [sp|] eqn:Hs; [|done].
  pose proof (sliced_tcp_range data sp) as Hr.
  destruct (sliced_net sp) as [[]|]; try done;
    destruct (sliced_transport sp) as [[]|] eqn:Ht; intros [= <-]; simpl; intros [= <-];
    by eapply Hr.
Qed.

(** The addition of [IpStackTcpStream::new] overflows at the last number only. *)
Definition seq_ok (n : Z) : Prop := overflow_checks b = false \/ n + 1 < U32.

Lemma next_seq {E} n :
  n ∈u U32 -> seq_ok n -> @plain_add E b U32 n 1 = Ret (wrapping_add U32 n 1).
Proof.
  intros Hn [Hb|Hlt]; unfold plain_add, wrapping_add.
  - unfold arith. rewrite Hb. destruct (Z.ltb_spec (n + 1) U32); [|done].
    by rewrite Z.mod_small by lia.
  - by rewrite arith_small, Z.mod_small by lia.
Qed.

(** The stream of a session that starts with packet [p]. *)
Definition first_stream (rnd now : Z) p (h : TcpHeader) (pkt ch : Chan) (mtu tmo : Z) :=
  tcp_stream_init (W := W) (Packet.src_addr p) (Packet.dst_addr p)
    (tcb_start b rnd (now + tmo) (wrapping_add U32 (sequence_number h) 1) tmo) pkt ch mtu.

(** There is no instant at the end of a timeout that starts now. *)
Definition late (tmo : Z) w : Prop := instant_max W < instant_now w + tmo.

Lemma late_add {E} tmo w : late tmo w -> @instant_add E (instant_max W) (instant_now w) tmo = Panic PInstant.
Proof. unfold late, instant_add. intros H. by rewrite (proj2 (Z.leb_gt _ _) H). Qed.
Lemma not_late_add {E} tmo w :
  ~ late tmo w -> @instant_add E (instant_max W) (instant_now w) tmo = Ret (instant_now w + tmo).
Proof. unfold late. intros H. apply instant_add_ok. lia. Qed.
Lemma timely_not_late tmo w : timely tmo -> ~ late tmo w.
Proof. unfold late, timely. pose proof (instant_now_horizon w). lia. Qed.
#[export] Instance late_dec tmo w : Decision (late tmo w).
Proof. unfold late. apply _. Defined.

Lemma first_stream_wf rnd now p h pkt ch mtu tmo :
  rnd ∈u U32 -> mtu ∈u U16 -> stream_wf (first_stream rnd now p h pkt ch mtu tmo).
Proof.
  intros. split; simpl; auto using packet_family, packet_plain_src, packet_plain_dst.
  apply tcb_start_wf; [done|]. by apply wrapping_add_range.
Qed.

(** ** Which channels a piece of code touches *)

Definition touches (l : list Chan) w w' : Prop :=
  (forall d, d ∉ l -> queue d w' = queue d w /\ rx_open d w' = rx_open d w) /\
  (forall d, used d w = true -> used d w' = true).

(** A channel whose receiver is gone, with whatever was in flight to it. *)
Definition gone (c : Chan) w : Prop := rx_open c w = false /\ queue c w = [].

Lemma close_gone c w : gone c (chan_close c w).
Proof. split; [by rewrite chan_close_open, decide_True|by rewrite chan_close_queue, decide_True]. Qed.

Lemma touches_trans l w1 w2 w3 : touches l w1 w2 -> touches l w2 w3 -> touches l w1 w3.
Proof.
  intros [H1 U1] [H2 U2]. split; [|auto]. intros d Hd.
  destruct (H1 d Hd), (H2 d Hd). split; congruence.
Qed.

Lemma touches_mono l l' w w' : l ⊆ l' -> touches l w w' -> touches l' w w'.
Proof. intros Hl [H U]. split; [|done]. intros d Hd. apply H. auto. Qed.

Lemma touches_send c p w : touches [c] w (chan_send c p w).2.
Proof.
  split.
  - intros d Hd. rewrite list_elem_of_singleton in Hd.
    by rewrite chan_send_queue, chan_send_open, decide_False.
  - intros d. by rewrite chan_send_used.
Qed.

Lemma touches_close c w : touches [c] w (chan_close c w).
Proof.
  split; [|apply chan_close_used]. intros d Hd. rewrite list_elem_of_singleton in Hd.
  by rewrite chan_close_queue, chan_close_open, !decide_False.
Qed.

Lemma touches_new w : touches [(chan_new w).1] w (chan_new w).2.
Proof.
  split.
  - intros d Hd. rewrite list_elem_of_singleton in Hd.
    by rewrite chan_new_queue, chan_new_open, !decide_False.
  - intros d Hd. by rewrite chan_new_used, Hd, orb_true_r.
Qed.

(** A channel in use is not the next new one. *)
Lemma used_not_new c w : used c w = true -> c <> (chan_new w).1.
Proof. intros Hu ->. by rewrite chan_new_fresh in Hu. Qed.

Lemma send_open c p w :
  rx_open c w = true ->
  exists w', chan_send c p w = (true, w') /\ queue c w' = queue c w ++ [p] /\
    rx_open c w' = true /\ touches [c] w w'.
Proof.
  intros Ho. pose proof (chan_send_queue c p w c) as Hq. pose proof (chan_send_ok c p w) as Hok.
  pose proof (chan_send_open c p w c) as Hop. pose proof (touches_send c p w) as Ht.
  destruct (chan_send c p w) as [ok w']; simpl in *. rewrite decide_True in Hq by done.
  rewrite Ho in *. subst ok. eauto.
Qed.

Lemma send_closed c p w :
  rx_open c w = false -> chan_send c p w = (false, (chan_send c p w).2) /\
    touches [] w (chan_send c p w).2.
Proof.
  intros Ho. split.
  - pose proof (chan_send_ok c p w) as Hok. destruct (chan_send c p w); simpl in *. congruence.
  - split; intros d; [|by rewrite chan_send_used]. intros _.
    rewrite chan_send_queue, chan_send_open, Ho. case_decide; by subst.
Qed.

(** ** Opening a TCP stream *)

(** A SYN opens a connection and sends nothing yet. *)
Lemma tcp_new_syn rnd p h pkt ch mtu tmo w :
  sequence_number h ∈u U32 -> seq_ok (sequence_number h) -> ~ late tmo w -> tcp_syn h = true ->
  tcp_stream_new b rnd (Packet.src_addr p) (Packet.dst_addr p) (wrap_tcp_header h) pkt ch mtu tmo w
    = (w, Ret (first_stream rnd (instant_now w) p h pkt ch mtu tmo)).
Proof.
  intros Hr Hok Hnl Hsyn. unfold tcp_stream_new, tcb_new. simpl. rewrite next_seq by done. simpl.
  by rewrite not_late_add, Hsyn.
Qed.

(** The answer to a stray packet: a reset, unless it is one, and the request to
    forget the session. *)
Definition stray_reply (s : Tcp.IpStackTcpStream (W := W)) (rst : bool)
    (l : list NetworkPacket) : Prop :=
  exists d, rev_packet_of s NON DROP_TTL (seq (tcb s)) [] d /\
    if rst then l = [d]
    else exists r, rev_packet_of s (Z.lor RST ACK) (TTL b) (seq (tcb s)) [] r /\ l = [r; d].

Lemma drop_stream_run (s : Tcp.IpStackTcpStream (W := W)) w :
  stream_wf s -> rx_open (Tcp.packet_sender s) w = true ->
  Tcp.stream_receiver s <> Tcp.packet_sender s ->
  exists w' d, drop_stream b s w = (w', Ret tt) /\
    rev_packet_of s NON DROP_TTL (seq (tcb s)) [] d /\
    queue (Tcp.packet_sender s) w' = queue (Tcp.packet_sender s) w ++ [d] /\
    rx_open (Tcp.packet_sender s) w' = true /\ gone (Tcp.stream_receiver s) w' /\
    touches [Tcp.packet_sender s; Tcp.stream_receiver s] w w'.
Proof.
  intros Hwf Ho Hne. unfold drop_stream.
  destruct (create_rev_packet_ok b s NON DROP_TTL None [] Hwf) as (d & -> & Hd).
  destruct (send_open _ d _ Ho) as (w1 & -> & Hq & Ho1 & Ht1).
  exists (chan_close (Tcp.stream_receiver s) w1), d.
  rewrite chan_close_queue, !chan_close_open, !decide_False by done.
  do 4 (split; [done|]). split; [apply close_gone|].
  eapply touches_trans; eapply touches_mono; [|done| |apply touches_close]; set_solver +.
Qed.

Lemma tcp_new_stray rnd p h pkt ch mtu tmo w :
  sequence_number h ∈u U32 -> seq_ok (sequence_number h) -> ~ late tmo w -> tcp_syn h = false ->
  rnd ∈u U32 -> mtu ∈u U16 -> rx_open pkt w = true -> ch <> pkt ->
  let s := first_stream rnd (instant_now w) p h pkt ch mtu tmo in
  exists w' l,
    tcp_stream_new b rnd (Packet.src_addr p) (Packet.dst_addr p) (wrap_tcp_header h) pkt ch mtu tmo w
      = (w', Throw InvalidTcpPacket) /\
    stray_reply s (tcp_rst h) l /\ queue pkt w' = queue pkt w ++ l /\
    rx_open pkt w' = true /\ gone ch w' /\ touches [pkt; ch] w w'.
Proof.
  intros Hr Hok Hnl Hsyn Hrnd Hm Ho Hne s.
  assert (stream_wf s) as Hwf by (by apply first_stream_wf).
  unfold tcp_stream_new, tcb_new. simpl. rewrite next_seq by done. simpl. rewrite not_late_add by done. simpl.
  rewrite Hsyn. fold (first_stream rnd (instant_now w) p h pkt ch mtu tmo). fold s. unfold drop_and_fail.
  destruct (tcp_rst h) eqn:Hrst; cbn [negb].
  - destruct (drop_stream_run s w) as (w' & d & -> & Hd & Hq & H1 & H2 & H3); [done..|].
    exists w', [d]. split; [done|]. split; [by exists d|]. done.
  - destruct (create_rev_packet_ok b s (Z.lor RST ACK) (TTL b) None [] Hwf) as (r & -> & Hrp).
    destruct (send_open _ r _ Ho) as (w1 & -> & Hq1 & Ho1 & Ht1).
    destruct (drop_stream_run s w1) as (w' & d & -> & Hd & Hq & H1 & H2 & H3);
      [done..|].
    exists w', [r; d]. split; [done|]. split; [exists d; eauto|].
    split; [simpl in Hq; by rewrite Hq, Hq1, <-app_assoc|]. split; [done|]. split; [done|].
    eapply touches_trans; [|apply H3]. eapply touches_mono; [|done]. set_solver +.
Qed.

(** ** Opening a session *)

Lemma first_stream_key rnd now p h pkt ch mtu tmo :
  transport p = TransTcp h -> session_key (first_stream rnd now p h pkt ch mtu tmo) = network_tuple p.
Proof. intros Ht. unfold session_key, network_tuple, is_tcp. simpl. by rewrite Ht. Qed.

Definition tcp_session (rnd : Z) p h (cf : IpStackConfig) (pkt : Chan) w : IpStackStream (W := W) :=
  let '(ch, w') := chan_new w in
  StreamTcp (mkWrapper (Some (first_stream rnd (instant_now w') p h pkt ch (cfg_mtu cf)
                                (cfg_tcp_timeout cf)))
               (Packet.dst_addr p) (Packet.src_addr p) ch).

Definition udp_session p (cf : IpStackConfig) (pkt : Chan) w : IpStackStream (W := W) :=
  let '(ch, w') := chan_new w in
  StreamUdp (mkUdpStream (Packet.src_addr p) (Packet.dst_addr p) ch ch pkt (Some (Packet.payload p))
               (instant_now w' + cfg_udp_timeout cf) (cfg_udp_timeout cf) (cfg_mtu cf)).

(** The timeout of the session a packet opens. *)
Definition session_timeout (cf : IpStackConfig) p : Z :=
  if is_tcp p then cfg_tcp_timeout cf else cfg_udp_timeout cf.

Lemma session_timeout_tcp cf p h : transport p = TransTcp h -> session_timeout cf p = cfg_tcp_timeout cf.
Proof. intros Ht. unfold session_timeout, is_tcp. by rewrite Ht. Qed.
Lemma session_timeout_udp cf p u : transport p = TransUdp u -> session_timeout cf p = cfg_udp_timeout cf.
Proof. intros Ht. unfold session_timeout, is_tcp. by rewrite Ht. Qed.

(** The addition of [IpStackTcpStream::new] does not overflow on the packet. *)
Definition opens_ok p : Prop :=
  match transport p with
  | TransTcp h => sequence_number h ∈u U32 /\ seq_ok (sequence_number h)
  | TransUdp _ => True
  | TransUnknown => False
  end.

Lemma create_stream_late rnd p cf pkt w :
  opens_ok p -> late (session_timeout cf p) (chan_new w).2 ->
  create_stream b rnd p cf pkt w = ((chan_new w).2, Panic PInstant).
Proof.
  unfold opens_ok, session_timeout, is_tcp, create_stream, transport_protocol, wrapper_new, udp_stream_new.
  destruct (chan_new w) as [ch w']; simpl. destruct (transport p) as [h|u|]; [intros [Hr Hok] Hl|intros _ Hl|done].
  - unfold tcp_stream_new, tcb_new. simpl. rewrite next_seq by done. simpl. by rewrite late_add.
  - by rewrite late_add.
Qed.

Lemma create_stream_syn rnd p h cf pkt w :
  transport p = TransTcp h -> sequence_number h ∈u U32 -> seq_ok (sequence_number h) ->
  ~ late (cfg_tcp_timeout cf) (chan_new w).2 -> tcp_syn h = true ->
  create_stream b rnd p cf pkt w =
    ((chan_new w).2, Ret (Some ((chan_new w).1, tcp_session rnd p h cf pkt w))).
Proof.
  intros Ht Hr Hok Hnl Hsyn. unfold create_stream, transport_protocol, wrapper_new, tcp_session.
  rewrite Ht. destruct (chan_new w) as [ch w']. simpl in *. by rewrite tcp_new_syn.
Qed.

Lemma create_stream_udp rnd p u cf pkt w :
  transport p = TransUdp u -> ~ late (cfg_udp_timeout cf) (chan_new w).2 ->
  create_stream b rnd p cf pkt w =
    ((chan_new w).2, Ret (Some ((chan_new w).1, udp_session p cf pkt w))).
Proof.
  intros Ht Hnl. unfold create_stream, transport_protocol, udp_session, udp_stream_new. rewrite Ht.
  destruct (chan_new w) as [ch w']. simpl in *. by rewrite not_late_add.
Qed.

Lemma create_stream_stray rnd p h cf pkt w :
  transport p = TransTcp h -> sequence_number h ∈u U32 -> seq_ok (sequence_number h) ->
  ~ late (cfg_tcp_timeout cf) (chan_new w).2 ->
  tcp_syn h = false -> rnd ∈u U32 -> cfg_mtu cf ∈u U16 -> rx_open pkt w = true ->
  exists w' s l, create_stream b rnd p cf pkt w = (w', Ret None) /\
    (exists now, s = first_stream rnd now p h pkt (chan_new w).1 (cfg_mtu cf) (cfg_tcp_timeout cf)) /\
    stray_reply s (tcp_rst h) l /\ queue pkt w' = queue pkt w ++ l /\ rx_open pkt w' = true /\
    gone (chan_new w).1 w' /\ touches [pkt; (chan_new w).1] w w'.
Proof.
  intros Ht Hr Hok Hnl Hsyn Hrnd Hm Ho.
  unfold create_stream, transport_protocol, wrapper_new. rewrite Ht.
  pose proof (used_not_new pkt w (chan_open_used _ _ Ho)) as Hne. pose proof (touches_new w) as Hnew.
  destruct (chan_new w) as [ch w1]; simpl in *.
  destruct (proj1 Hnew pkt) as [Hq1 Ho1]; [by rewrite list_elem_of_singleton|].
  destruct (tcp_new_stray rnd p h pkt ch (cfg_mtu cf) (cfg_tcp_timeout cf) w1)
    as (w' & l & Hrun & Hl & Hq & Hpo & Hcl & Htch); [congruence..|].
  setoid_rewrite Hrun. simpl. eexists w', _, l. split; [done|].
  split; [|split; [exact Hl|]].
  - by eexists.
  - rewrite <-Hq1. do 3 (split; [done|]). eapply touches_trans; [|done].
    eapply touches_mono; [|done]. set_solver +.
Qed.

(** ** Dispatch *)

Definition is_known p : Prop := transport p <> TransUnknown.

(** The channel of the session, if its stream is still there. *)
Definition live m w (K : NetworkTuple) : option Chan :=
  ch ← m !! K; if rx_open ch w then Some ch else None.

Lemma known_dispatch rnd data p cf pkt m w :
  parse data = Ok p -> is_known p ->
  process_device_read b rnd data cf pkt m w =
    match m !! network_tuple p with
    | Some ch =>
        let '(ok, w) := chan_send ch p w in
        if (ok : bool) then (m, w, Ret None) else open_session b rnd p cf pkt m w
    | None => open_session b rnd p cf pkt m w
    end.
Proof.
  intros Hp Hk. unfold process_device_read, transport_protocol, is_known in *. rewrite Hp.
  by destruct (transport p).
Qed.

(** A packet of a live session goes to its stream, and nowhere else. *)
Lemma read_live rnd data p cf pkt m w ch :
  parse data = Ok p -> is_known p -> live m w (network_tuple p) = Some ch ->
  exists w', process_device_read b rnd data cf pkt m w = (m, w', Ret None) /\
    queue ch w' = queue ch w ++ [p] /\ rx_open ch w' = true /\ touches [ch] w w'.
Proof.
  intros Hp Hk Hl. rewrite (known_dispatch rnd data p) by done. unfold live in Hl.
  destruct (m !! _) as [ch'|]; simpl in Hl; [|done].
  destruct (rx_open ch' w) eqn:Ho; simplify_eq.
  destruct (send_open ch p w Ho) as (w' & -> & Hrest). eauto.
Qed.

(** Any other opens a session. *)
Lemma read_not_live rnd data p cf pkt m w :
  parse data = Ok p -> is_known p -> live m w (network_tuple p) = None ->
  exists w1, touches [] w w1 /\
    process_device_read b rnd data cf pkt m w = open_session b rnd p cf pkt m w1.
Proof.
  intros Hp Hk Hl. rewrite (known_dispatch rnd data p) by done. unfold live in Hl.
  destruct (m !! _) as [ch'|]; simpl in Hl; [|by exists w].
  destruct (rx_open ch' w) eqn:Ho; [done|].
  destruct (send_closed ch' p w Ho) as [Hs Ht]. rewrite Hs. eauto.
Qed.

Lemma touches_nil w w' d : touches [] w w' -> queue d w' = queue d w /\ rx_open d w' = rx_open d w.
Proof. intros [H _]. apply H. apply not_elem_of_nil. Qed.

(** What a new session looks like from outside: the table maps the key to a
    new, open and empty channel, and only that channel has changed. *)
Definition opened p m w m' w' (ch : Chan) : Prop :=
  m' = <[network_tuple p := ch]> m /\ used ch w = false /\ used ch w' = true /\
  rx_open ch w' = true /\ queue ch w' = [] /\ touches [ch] w w'.

Lemma new_opened p m w w1 :
  touches [] w w1 ->
  opened p m w (<[network_tuple p := (chan_new w1).1]> m) (chan_new w1).2 (chan_new w1).1.
Proof.
  intros Ht. split; [done|]. split.
  { destruct (used _ w) eqn:Hu; [|done]. apply Ht in Hu. by rewrite chan_new_fresh in Hu. }
  rewrite chan_new_used, chan_new_open, chan_new_queue, !decide_True, bool_decide_eq_true_2 by done.
  do 3 (split; [done|]). eapply touches_trans; [|apply touches_new].
  eapply touches_mono; [|done]. set_solver +.
Qed.

(** A packet that would open a session cannot, for want of a deadline. *)
Definition late_read rnd data p cf pkt m w : Prop :=
  exists w', process_device_read b rnd data cf pkt m w = (m, w', Panic PInstant) /\
    late (session_timeout cf p) w'.

Lemma timely_read rnd data p cf pkt m w :
  timely (session_timeout cf p) -> ~ late_read rnd data p cf pkt m w.
Proof. intros Ht (w' & _ & Hl). by apply (timely_not_late _ w') in Ht. Qed.

(** Opening a session, or failing to for want of a deadline. *)
Lemma read_opens rnd data p cf pkt m w :
  parse data = Ok p -> opens_ok p -> live m w (network_tuple p) = None ->
  late_read rnd data p cf pkt m w \/
  exists w1, touches [] w w1 /\ ~ late (session_timeout cf p) (chan_new w1).2 /\
    process_device_read b rnd data cf pkt m w = open_session b rnd p cf pkt m w1.
Proof.
  intros Hp Ho Hl. destruct (read_not_live rnd data p cf pkt m w) as (w1 & Ht1 & Hrun);
    [done|unfold is_known, opens_ok in *; by destruct (transport p)|done|].
  destruct (decide (late (session_timeout cf p) (chan_new w1).2)) as [Hlt|Hnl]; [left|right; eauto].
  exists (chan_new w1).2. split; [|done]. rewrite Hrun. unfold open_session. by rewrite create_stream_late.
Qed.

Lemma opens_tcp data p h :
  parse data = Ok p -> transport p = TransTcp h -> seq_ok (sequence_number h) -> opens_ok p.
Proof.
  intros Hp Ht Hok. unfold opens_ok. rewrite Ht. split; [|done].
  by destruct (parse_tcp_range data p h) as (Hr & _).
Qed.

Lemma read_syn rnd data p h cf pkt m w :
  parse data = Ok p -> transport p = TransTcp h -> tcp_syn h = true ->
  seq_ok (sequence_number h) -> live m w (network_tuple p) = None ->
  late_read rnd data p cf pkt m w \/
  exists m' w' ch s, process_device_read b rnd data cf pkt m w =
      (m', w', Ret (Some (StreamTcp (mkWrapper (Some s) (Packet.dst_addr p) (Packet.src_addr p) ch)))) /\
    (exists now, s = first_stream rnd now p h pkt ch (cfg_mtu cf) (cfg_tcp_timeout cf)) /\
    opened p m w m' w' ch.
Proof.
  intros Hp Ht Hsyn Hok Hl. pose proof (opens_tcp data p h Hp Ht Hok) as Hop.
  destruct (read_opens rnd data p cf pkt m w) as [Hlate|(w1 & Ht1 & Hnl & ->)]; [done..|by left|right].
  unfold opens_ok in Hop. rewrite Ht in Hop. destruct Hop as [Hr _]. rewrite (session_timeout_tcp cf p h) in Hnl by done.
  unfold open_session. rewrite (create_stream_syn rnd p h) by done. unfold tcp_session.
  pose proof (new_opened p m w w1 Ht1) as Hop. destruct (chan_new w1) as [ch w']; simpl in *.
  do 4 eexists. split; [reflexivity|]. split; [by eexists|done].
Qed.

Lemma read_udp rnd data p u cf pkt m w :
  parse data = Ok p -> transport p = TransUdp u -> live m w (network_tuple p) = None ->
  late_read rnd data p cf pkt m w \/
  exists m' w' ch s, process_device_read b rnd data cf pkt m w = (m', w', Ret (Some (StreamUdp s))) /\
    (exists dl, s = mkUdpStream (Packet.src_addr p) (Packet.dst_addr p) ch ch pkt
                      (Some (Packet.payload p)) dl (cfg_udp_timeout cf) (cfg_mtu cf)) /\
    opened p m w m' w' ch.
Proof.
  intros Hp Ht Hl.
  destruct (read_opens rnd data p cf pkt m w) as [Hlate|(w1 & Ht1 & Hnl & ->)];
    [done|unfold opens_ok; by rewrite Ht|done|by left|right].
  rewrite (session_timeout_udp cf p u) in Hnl by done.
  unfold open_session. rewrite (create_stream_udp rnd p u) by done. unfold udp_session.
  pose proof (new_opened p m w w1 Ht1) as Hop. destruct (chan_new w1) as [ch w']; simpl in *.
  do 4 eexists. split; [reflexivity|]. split; [by eexists|done].
Qed.

Lemma read_stray rnd data p h cf pkt m w :
  parse data = Ok p -> transport p = TransTcp h -> tcp_syn h = false ->
  seq_ok (sequence_number h) -> rnd ∈u U32 -> cfg_mtu cf ∈u U16 -> rx_open pkt w = true ->
  live m w (network_tuple p) = None ->
  late_read rnd data p cf pkt m w \/
  exists w' s l ch, process_device_read b rnd data cf pkt m w = (m, w', Ret None) /\
    (exists now, s = first_stream rnd now p h pkt ch (cfg_mtu cf) (cfg_tcp_timeout cf)) /\
    stray_reply s (tcp_rst h) l /\
    queue pkt w' = queue pkt w ++ l /\ rx_open pkt w' = true /\
    used ch w = false /\ gone ch w' /\ touches [pkt; ch] w w'.
Proof.
  intros Hp Ht Hsyn Hok Hrnd Hm Ho Hl. pose proof (opens_tcp data p h Hp Ht Hok) as Hop.
  destruct (read_opens rnd data p cf pkt m w) as [Hlate|(w1 & Ht1 & Hnl & ->)]; [done..|by left|right].
  unfold opens_ok in Hop. rewrite Ht in Hop. destruct Hop as [Hr _]. rewrite (session_timeout_tcp cf p h) in Hnl by done.
  destruct (touches_nil w w1 pkt Ht1) as [Hq1 Ho1].
  unfold open_session.
  destruct (create_stream_stray rnd p h cf pkt w1) as (w' & s & l & -> & Hs & Hl' & Hq & Hpo & Hcl & Htch);
    [congruence..|].
  exists w', s, l, (chan_new w1).1. rewrite <-Hq1. do 5 (split; [done|]). split; [|split; [done|]].
  - destruct (used _ w) eqn:Hu; [|done]. apply Ht1 in Hu. by rewrite chan_new_fresh in Hu.
  - eapply touches_trans; [|done]. eapply touches_mono; [|done]. set_solver +.
Qed.

End stack_spec.
