(* ===== verification/StackInv.v ===== *)
(** * The dispatch invariant

    Runs of the stack as a step relation: [select!] takes either arm that is
    ready, the user accepts streams, and the streams' own tasks run in between.
    In every run, a packet that waits in the channel of a stream belongs to that
    stream's session. *)

From S2P Require Import Prelude Errors Etherparse Packet Runtime Tcb Tcp TcpPacket TcpLoop.
From S2P Require Import TcpFoot TcpWrapper Udp Unknown Stream Stack StackSpec.

Section stack_inv.
Context `{EP : Etherparse, EL : !EtherparseLaws} {W : Type} `{RT : !Runtime W NetworkPacket}.
Context `{RO : !RuntimeObs W NetworkPacket, RL : !RuntimeLaws W NetworkPacket}.
Context (b : Build).
Context {D : Type} (write_all : list byte -> D -> D * Result unit IoError).
Implicit Types (p : NetworkPacket) (w : W) (m : SessionCollection (W := W)).
Implicit Types (s : Stack (W := W) (D := D)).

(** What the streams' tasks may do to the world: receive from their channels,
    drop them, create channels, send packets towards the device. *)
Definition streams_ran (pkt : Chan) w w' : Prop :=
  (forall d, used d w = true -> used d w' = true) /\ rx_open pkt w' = true /\
  (forall d, d <> pkt -> queue d w' `suffix_of` queue d w).

Definition with_world w s : Stack (W := W) (D := D) :=
  mkStack (config s) (sessions s) (pkt_chan s) (device s) (accepted s) (accepting s) w.

Inductive stack_step : Stack (W := W) (D := D) -> Stack (W := W) (D := D) -> Prop :=
  | step_device rnd buf s s' :
      rnd ∈u U32 -> on_device_read b rnd buf s = (s', Ret tt) -> stack_step s s'
  | step_packet k p w s s' :
      chan_poll_recv (pkt_chan s) k (sworld s) = (Ready (Some p), w) ->
      on_packet b write_all p w s = (s', Ret tt) -> stack_step s s'
  | step_accept x s s' :
      accept true s = (s', Ready (Ok x)) -> stack_step s s'
  | step_streams w s :
      streams_ran (pkt_chan s) (sworld s) w -> stack_step s (with_world w s).

(** The channel a stream reads from, and the key of its session. *)
Definition stream_channel (st : IpStackStream (W := W)) : option (Chan * NetworkTuple) :=
  match st with
  | StreamTcp t =>
      i ← TcpWrapper.inner t;
      Some (Tcp.stream_receiver i, session_key i)
  | StreamUdp u =>
      Some (Udp.stream_receiver u, mkNetworkTuple (Udp.src_addr u) (Udp.dst_addr u) false)
  | _ => None
  end.

(** A stream as the stack makes it, and as its calls keep it: its fields are in
    range, it sends to the stack's channel [pkt] and knows its MTU [m]. *)
Definition conn_good (pkt : Chan) (m : Z) (i : Tcp.IpStackTcpStream (W := W)) : Prop :=
  stream_typed i /\ Tcp.packet_sender i = pkt /\ Tcp.stream_receiver i <> pkt /\ Tcp.mtu i = m.

Definition same_family (a a' : IpAddr) : Prop :=
  match a, a' with IpV4 _, IpV4 _ | IpV6 _, IpV6 _ => True | _, _ => False end.

Definition stream_good (pkt : Chan) (m : Z) (st : IpStackStream (W := W)) : Prop :=
  match st with
  | StreamTcp t => forall i, TcpWrapper.inner t = Some i -> conn_good pkt m i
  | StreamUdp u =>
      udp_wf u /\ Udp.pkt_sender u = pkt /\ Udp.stream_receiver u <> pkt /\ Udp.mtu u = m
  | StreamUnknownTransport u =>
      Unknown.packet_sender u = pkt /\ Unknown.mtu u = m /\
      same_family (unk_src_addr u) (unk_dst_addr u)
  | StreamUnknownNetwork _ => True
  end.

(** [owner] names the session every channel was opened for. *)
Record stack_inv (owner : Chan -> NetworkTuple) s : Prop := {
  si_mtu : cfg_mtu (config s) ∈u U16;
  si_pkt : rx_open (pkt_chan s) (sworld s) = true;
  si_sessions : forall K ch, sessions s !! K = Some ch ->
    used ch (sworld s) = true /\ ch <> pkt_chan s /\ owner ch = K;
  si_accepted : forall st ch K, st ∈ accepted s -> stream_channel st = Some (ch, K) ->
    used ch (sworld s) = true /\ ch <> pkt_chan s /\ owner ch = K;
  si_queues : forall ch p, ch <> pkt_chan s ->
    p ∈ queue ch (sworld s) -> used ch (sworld s) = true /\ network_tuple p = owner ch;
}.

(** Channels stay in use and keep their owners. *)
Definition owners_kept (owner owner' : Chan -> NetworkTuple) w w' : Prop :=
  forall ch, used ch w = true -> used ch w' = true /\ owner' ch = owner ch.

Lemma owners_same owner w w' :
  (forall d, used d w = true -> used d w' = true) -> owners_kept owner owner w w'.
Proof. intros H ch Hu. auto. Qed.

(** *** What a packet from the device can do *)

(** A TCP stream is opened by a SYN. *)
Definition opened_by (cf : IpStackConfig) p (st : IpStackStream (W := W)) : Prop :=
  match st with
  | StreamTcp t => exists rnd now h pkt ch mt,
      transport p = TransTcp h /\ tcp_syn h = true /\
      TcpWrapper.inner t = Some (first_stream b rnd now p h pkt ch mt (cfg_tcp_timeout cf))
  | _ => True
  end.

Inductive outcome (data : list byte) (pkt : Chan) (cf : IpStackConfig) m w m' w'
    (r : option (IpStackStream (W := W))) : Prop :=
  | out_no_session :
      m' = m -> touches [] w w' ->
      (forall st, r = Some st -> stream_channel st = None /\ stream_good pkt (cfg_mtu cf) st) ->
      outcome data pkt cf m w m' w' r
  | out_delivered p ch :
      m' = m -> r = None -> parse data = Ok p ->
      live m w (network_tuple p) = Some ch -> typed_packet p ->
      queue ch w' = queue ch w ++ [p] -> touches [ch] w w' -> outcome data pkt cf m w m' w' r
  | out_opened p ch st :
      r = Some st -> parse data = Ok p -> opened_by cf p st ->
      stream_channel st = Some (ch, network_tuple p) -> stream_good pkt (cfg_mtu cf) st ->
      opened p m w m' w' ch -> outcome data pkt cf m w m' w' r
  | out_stray ch l :
      m' = m -> r = None -> used ch w = false -> rx_open pkt w' = true -> gone ch w' ->
      queue pkt w' = queue pkt w ++ l -> Forall (fits (cfg_mtu cf)) l ->
      Forall (fun p => Packet.payload p = []) l ->
      touches [pkt; ch] w w' -> outcome data pkt cf m w m' w' r.

(** The overflow of [IpStackTcpStream::new] is a panic, not a result. *)
Lemma seq_overflow rnd data p h cf pkt m w :
  parse data = Ok p -> transport p = TransTcp h -> ~ seq_ok b (sequence_number h) ->
  live m w (network_tuple p) = None ->
  (process_device_read b rnd data cf pkt m w).2 = Panic POverflow.
Proof.
  intros Hp Ht Hn Hl.
  destruct (read_not_live b rnd data p cf pkt m w) as (w1 & _ & ->);
    [done|unfold is_known; by rewrite Ht|done|].
  unfold open_session, create_stream, wrapper_new, transport_protocol, tcp_stream_new. rewrite Ht.
  destruct (chan_new w1) as [ch w2]. simpl. unfold plain_add.
  unfold seq_ok in Hn. rewrite arith_panic; [done|lia|].
  destruct (overflow_checks b); [done|]. exfalso. auto.
Qed.

Lemma unknown_good p pkt mt :
  stream_good pkt mt (StreamUnknownTransport
    (unknown_new (W := W) (sock_ip (Packet.src_addr p)) (sock_ip (Packet.dst_addr p))
       (Packet.payload p) (ip p) mt pkt)).
Proof. split; [done|]. split; [done|]. unfold Packet.src_addr, Packet.dst_addr. simpl. by destruct (ip p). Qed.

Lemma first_stream_good rnd now p h pkt ch mt tmo :
  rnd ∈u U32 -> mt ∈u U16 -> ch <> pkt ->
  conn_good pkt mt (first_stream b rnd now p h pkt ch mt tmo).
Proof. intros Hr Hm Hne. split; [|done]. split; [by apply first_stream_wf|done|done]. Qed.

Lemma stray_fits rnd now p h pkt ch mt tmo rst l :
  rnd ∈u U32 -> mt ∈u U16 -> stray_reply b (first_stream b rnd now p h pkt ch mt tmo) rst l ->
  Forall (fits mt) l.
Proof.
  intros Hr Hm. set (s := first_stream _ _ _ _ _ _ _ _ _). assert (stream_wf s) as Hwf by (by apply first_stream_wf).
  assert (forall f t n bs q, rev_packet_of s f t n bs q -> fits mt q) as Hf.
  { intros f t n bs q Hq. by apply (rev_packet_fits_mtu s) in Hq. }
  intros (d & Hd & Hl). destruct rst; [subst l|destruct Hl as (q & Hq & ->)]; eauto 6.
Qed.

Lemma stray_empty (s : Tcp.IpStackTcpStream (W := W)) rst l :
  stray_reply b s rst l -> Forall (fun p => Packet.payload p = []) l.
Proof.
  assert (forall f t n q, rev_packet_of s f t n [] q -> Packet.payload q = []) as He.
  { intros f t n q [-> _ _ _ _ _ _]. unfold truncate. by rewrite take_nil. }
  intros (d & Hd & Hl). destruct rst; [subst l|destruct Hl as (q & Hq & ->)]; eauto 6.
Qed.

Lemma process_outcome rnd data cf pkt m w m' w' r :
  rnd ∈u U32 -> cfg_mtu cf ∈u U16 -> rx_open pkt w = true ->
  process_device_read b rnd data cf pkt m w = (m', w', Ret r) ->
  outcome data pkt cf m w m' w' r.
Proof.
  intros Hrnd Hm Ho Hrun. destruct (parse data) as [p|e] eqn:Hp.
  2:{ unfold process_device_read in Hrun. rewrite Hp in Hrun. simplify_eq.
      apply out_no_session; [done|done|]. by intros ? [= <-]. }
  destruct (transport p) as [h|u|] eqn:Ht.
  3:{ unfold process_device_read, transport_protocol in Hrun. rewrite Hp, Ht in Hrun. simplify_eq.
      apply out_no_session; [done|done|]. intros ? [= <-]. split; [done|apply unknown_good]. }
  all: assert (is_known p) as Hk by (unfold is_known; by rewrite Ht).
  all: assert (typed_packet p) as Hty by (intros h' Ht'; by eapply parse_tcp_range).
  all: destruct (live m w (network_tuple p)) as [ch|] eqn:Hl;
    [destruct (read_live b rnd data p cf pkt m w ch) as (w1 & Hrun' & Hq & _ & Htc); [done..|];
     rewrite Hrun' in Hrun; simplify_eq; by eapply out_delivered|].
  all: assert (forall m1 w1 ch, opened p m w m1 w1 ch -> ch <> pkt) as Hne
    by (intros m1 w1 ch (_ & Hu & _) ->; apply chan_open_used in Ho; congruence).
  - destruct (decide (overflow_checks b = false \/ sequence_number h + 1 < U32)) as [Hok|Hno].
    2:{ pose proof (seq_overflow rnd data p h cf pkt m w Hp Ht Hno Hl) as Hpan.
        by rewrite Hrun in Hpan. }
    destruct (tcp_syn h) eqn:Hsyn.
    + destruct (read_syn b rnd data p h cf pkt m w)
        as [(w1 & Hrun' & _)|(m1 & w1 & ch & s & Hrun' & (now & ->) & Hop)]; [done..|congruence|].
      rewrite Hrun' in Hrun. simplify_eq. eapply (out_opened _ _ _ _ _ _ _ _ p); [done|done| | | |done].
      * by do 6 eexists.
      * simpl. by rewrite first_stream_key.
      * intros i [= <-]. apply first_stream_good; eauto.
    + destruct (read_stray b rnd data p h cf pkt m w)
        as [(w1 & Hrun' & _)|(w1 & s & l & ch & Hrun' & (now & ->) & Hrep & Hq & H)]; [done..|congruence|].
      rewrite Hrun' in Hrun. simplify_eq. eapply (out_stray _ _ _ _ _ _ _ _ ch l); try done; [apply H..| | |apply H].
      * by eapply stray_fits.
      * by eapply stray_empty.
  - destruct (read_udp b rnd data p u cf pkt m w)
      as [(w1 & Hrun' & _)|(m1 & w1 & ch & s & Hrun' & (dl & ->) & Hop)]; [done..|congruence|].
    rewrite Hrun' in Hrun. simplify_eq. eapply (out_opened _ _ _ _ _ _ _ _ p); [done|done|done| | |done].
    + simpl. unfold network_tuple, is_tcp. by rewrite Ht.
    + split; [|by eauto]. split; simpl; auto using packet_family, packet_plain_src, packet_plain_dst.
Qed.

Lemma process_panic rnd data cf pkt m w m' w' q :
  rnd ∈u U32 -> cfg_mtu cf ∈u U16 -> rx_open pkt w = true ->
  process_device_read b rnd data cf pkt m w = (m', w', Panic q) ->
  (q = POverflow /\ overflow_checks b = true /\
   exists p h, parse data = Ok p /\ transport p = TransTcp h /\
     sequence_number h = U32 - 1 /\ live m w (network_tuple p) = None) \/
  (q = PInstant /\
   exists p, parse data = Ok p /\ is_known p /\ live m w (network_tuple p) = None /\
     late (session_timeout cf p) w').
Proof.
  intros Hrnd Hm Ho Hrun. destruct (parse data) as [p|e] eqn:Hp.
  2:{ unfold process_device_read in Hrun. by rewrite Hp in Hrun. }
  destruct (transport p) as [h|u|] eqn:Ht.
  3:{ unfold process_device_read, transport_protocol in Hrun. by rewrite Hp, Ht in Hrun. }
  all: assert (is_known p) as Hk by (unfold is_known; by rewrite Ht).
  all: destruct (live m w (network_tuple p)) as [ch|] eqn:Hl;
    [destruct (read_live b rnd data p cf pkt m w ch) as (w1 & Hrun' & _); [done..|congruence]|].
  all: assert (late_read b rnd data p cf pkt m w -> q = PInstant /\
    exists p0, @Ok _ IpStackError p = Ok p0 /\ is_known p0 /\ live m w (network_tuple p0) = None /\
      late (session_timeout cf p0) w') as Hlate
    by (intros (w1 & Hrun' & Hlt); rewrite Hrun' in Hrun; simplify_eq; split; [done|]; by exists p).
  - destruct (decide (overflow_checks b = false \/ sequence_number h + 1 < U32)) as [Hok|Hno].
    + destruct (tcp_syn h) eqn:Hsyn.
      * destruct (read_syn b rnd data p h cf pkt m w) as [|(? & ? & ? & ? & Hrun' & _)]; [done..|auto|congruence].
      * destruct (read_stray b rnd data p h cf pkt m w) as [|(? & ? & ? & ? & Hrun' & _)];
          [done..|auto|congruence].
    + left. pose proof (seq_overflow rnd data p h cf pkt m w Hp Ht Hno Hl) as Hpan.
      rewrite Hrun in Hpan. simplify_eq/=. split; [done|].
      destruct (parse_tcp_range data p h) as [Hr _]; [done..|].
      split; [by destruct (overflow_checks b); [|exfalso; auto]|].
      exists p, h. do 3 (split; [done || lia|]). done.
  - destruct (read_udp b rnd data p u cf pkt m w) as [|(? & ? & ? & ? & Hrun' & _)]; [done..|auto|congruence].
Qed.

(** *** Preservation *)

Lemma live_session m w K ch : live m w K = Some ch -> m !! K = Some ch /\ rx_open ch w = true.
Proof.
  unfold live. destruct (m !! K) as [ch'|]; simpl; [|done].
  destruct (rx_open ch' w) eqn:Ho; naive_solver.
Qed.

Lemma stack_inv_world owner s m' dev acc l w' :
  stack_inv owner s ->
  (forall d, used d (sworld s) = true -> used d w' = true) -> rx_open (pkt_chan s) w' = true ->
  (forall K ch, m' !! K = Some ch -> sessions s !! K = Some ch) ->
  (forall st, st ∈ l -> st ∈ accepted s) ->
  (forall ch p, ch <> pkt_chan s -> p ∈ queue ch w' ->
     used ch w' = true /\ network_tuple p = owner ch) ->
  stack_inv owner (mkStack (config s) m' (pkt_chan s) dev l acc w').
Proof.
  intros [] Hu Ho Hm Hl Hq. split; simpl; auto.
  - intros K ch HK. destruct (si_sessions0 K ch) as (? & ? & ?); [|by auto].
    by apply Hm.
  - intros st ch K Hst HK. destruct (si_accepted0 st ch K) as (? & ? & ?); auto.
Qed.

Lemma opened_inv owner s m' w' acc p ch st :
  stack_inv owner s -> opened p (sessions s) (sworld s) m' w' ch ->
  stream_channel st = Some (ch, network_tuple p) ->
  let owner' := fun d => if decide (d = ch) then network_tuple p else owner d in
  owners_kept owner owner' (sworld s) w' /\
  stack_inv owner' (mkStack (config s) m' (pkt_chan s) (device s) (accepted s ++ [st]) acc w').
Proof.
  intros [] (-> & Hnew & Hused & Hopen & Hempty & Ht & Hu) Hst owner'.
  assert (forall d, used d (sworld s) = true -> owner' d = owner d) as Hk.
  { intros d Hd. unfold owner'. case_decide; [|done]. congruence. }
  assert (ch <> pkt_chan s) as Hne by (intros ->; apply chan_open_used in si_pkt0; congruence).
  assert (owner' ch = network_tuple p) as Hch by (unfold owner'; by rewrite decide_True).
  assert (forall d, d <> ch -> queue d w' = queue d (sworld s) /\ rx_open d w' = rx_open d (sworld s))
    as Hoth by (intros d Hd; apply Ht; by rewrite list_elem_of_singleton).
  split; [intros d Hd; auto|]. split; simpl; auto.
  - by rewrite (proj2 (Hoth (pkt_chan s) (not_eq_sym Hne))).
  - intros K d HK. unfold SessionCollection in *.
    apply lookup_insert_Some in HK as [[<- <-]|[_ HK]]; [done|].
    destruct (si_sessions0 K d HK) as (? & ? & ?). rewrite Hk; auto.
  - intros st' d K [Hin| ->%list_elem_of_singleton]%elem_of_app HK; [|by simplify_eq].
    destruct (si_accepted0 st' d K Hin HK) as (? & ? & ?). rewrite Hk; auto.
  - intros d q Hd Hin. destruct (decide (d = ch)) as [->|Hdc].
    + rewrite Hempty in Hin. by apply not_elem_of_nil in Hin.
    + destruct (Hoth d Hdc) as [Hq _]. rewrite Hq in Hin.
      destruct (si_queues0 d q Hd Hin) as [Hud Hq']. rewrite Hk by done. auto.
Qed.

Lemma outcome_inv owner data s m' w' r acc :
  stack_inv owner s ->
  outcome data (pkt_chan s) (config s) (sessions s) (sworld s) m' w' r ->
  exists owner', owners_kept owner owner' (sworld s) w' /\
    stack_inv owner'
      (mkStack (config s) m' (pkt_chan s) (device s) (accepted s ++ option_list r) acc w').
Proof.
  intros Hinv [-> Ht Hr|p ch -> -> _ [Hm Ho]%live_session _ Hq [Ht Hu]|p ch st -> _ _ Hst _ Hop
              |ch l -> -> Hnew Hpo [_ Hco] _ _ _ [Ht Hu]].
  - exists owner. split; [apply owners_same, Ht|]. split; simpl; try apply Hinv.
    + rewrite (proj2 (touches_nil _ _ _ Ht)). apply Hinv.
    + intros K d HK. destruct (si_sessions _ _ Hinv K d HK) as (? & ? & ?). split; [by apply Ht|done].
    + intros st d K [Hin|Hin]%elem_of_app HK.
      * destruct (si_accepted _ _ Hinv st d K Hin HK) as (? & ? & ?). split; [by apply Ht|done].
      * destruct r; simpl in Hin; [|by apply not_elem_of_nil in Hin].
        apply list_elem_of_singleton in Hin as ->. by rewrite (proj1 (Hr _ eq_refl)) in HK.
    + intros d q Hd. destruct (touches_nil _ _ d Ht) as [-> _]. intros Hin.
      destruct (si_queues _ _ Hinv d q Hd Hin). split; [by apply Ht|done].
  - exists owner. split; [apply owners_same; try done|]. destruct (si_sessions _ _ Hinv _ _ Hm) as (_ & Hne & Hown).
    rewrite app_nil_r. apply stack_inv_world; try done.
    + destruct (Ht (pkt_chan s)) as [_ ->]; [rewrite list_elem_of_singleton; congruence|apply Hinv].
    + intros d q Hd Hin. destruct (decide (d = ch)) as [->|Hdc].
      * split; [by apply Hu, chan_open_used|].
        rewrite Hq in Hin. apply elem_of_app in Hin as [Hin| ->%list_elem_of_singleton]; [|done].
        by apply (si_queues _ _ Hinv).
      * destruct (Ht d) as [E1 _]; [by rewrite list_elem_of_singleton|]. rewrite E1 in Hin.
        destruct (si_queues _ _ Hinv d q Hd Hin). auto.
  - eexists. by eapply opened_inv.
  - exists owner. split; [apply owners_same; try done|]. rewrite app_nil_r. apply stack_inv_world; try done.
    intros d q Hd Hin. destruct (decide (d = ch)) as [->|Hdc].
    { rewrite Hco in Hin. by apply not_elem_of_nil in Hin. }
    destruct (Ht d) as [E1 _]; [by rewrite elem_of_cons, list_elem_of_singleton; intros [?|?]|].
    rewrite E1 in Hin. destruct (si_queues _ _ Hinv d q Hd Hin). auto.
Qed.

Lemma on_device_read_outcome rnd buf s s' :
  rnd ∈u U32 -> cfg_mtu (config s) ∈u U16 -> rx_open (pkt_chan s) (sworld s) = true ->
  on_device_read b rnd buf s = (s', Ret tt) ->
  exists r, outcome (drain_front (offset b s) buf) (pkt_chan s) (config s) (sessions s)
      (sworld s) (sessions s') (sworld s') r /\
    s' = mkStack (config s) (sessions s') (pkt_chan s) (device s) (accepted s ++ option_list r)
           (accepting s) (sworld s').
Proof.
  intros Hrnd Hm Ho Hrun. unfold on_device_read in Hrun. case_match; [done|].
  destruct (process_device_read _ _ _ _ _ _ _) as [[m' w'] [r|[]|q]] eqn:Hp; [|done].
  apply process_outcome in Hp; [|done..]. exists r.
  destruct r as [st|]; [destruct (accepting s); [|done]|]; simplify_eq/=; by rewrite ?app_nil_r.
Qed.

Lemma on_device_read_inv owner rnd buf s s' :
  stack_inv owner s -> rnd ∈u U32 -> on_device_read b rnd buf s = (s', Ret tt) ->
  exists owner', owners_kept owner owner' (sworld s) (sworld s') /\ stack_inv owner' s'.
Proof.
  intros Hinv Hrnd Hrun.
  destruct (on_device_read_outcome rnd buf s s') as (r & Hout & ->); [done|apply Hinv..|done|].
  by eapply outcome_inv.
Qed.

Lemma on_packet_inv owner k p w s s' :
  stack_inv owner s -> chan_poll_recv (pkt_chan s) k (sworld s) = (Ready (Some p), w) ->
  on_packet b write_all p w s = (s', Ret tt) ->
  owners_kept owner owner (sworld s) (sworld s') /\ stack_inv owner s'.
Proof.
  intros Hinv Hrecv Hrun. unfold on_packet in Hrun.
  destruct (process_upstream_recv _ _ _ _ _ _) as [[m' d'] r] eqn:Hp. simplify_eq/=.
  assert (forall K ch, m' !! K = Some ch -> sessions s !! K = Some ch) as Hm.
  { unfold process_upstream_recv in Hp. repeat case_match; simplify_eq/=; try done.
    intros K ch HK. unfold SessionCollection in *. by apply lookup_delete_Some in HK as [_ ?]. }
  pose proof (chan_recv_used (pkt_chan s) k (sworld s)) as Hu.
  pose proof (chan_recv_open (pkt_chan s) k (sworld s)) as Ho.
  pose proof (chan_recv_other (pkt_chan s) k (sworld s)) as Hq.
  rewrite Hrecv in *. simpl in *. split; [apply owners_same; intros d; by rewrite Hu|].
  apply stack_inv_world; try done.
  - intros d. by rewrite Hu.
  - rewrite Ho. apply Hinv.
  - intros d q Hd. rewrite Hu, Hq by done. by apply Hinv.
Qed.

Lemma stack_step_inv owner s s' :
  stack_step s s' -> stack_inv owner s ->
  exists owner', owners_kept owner owner' (sworld s) (sworld s') /\ stack_inv owner' s'.
Proof.
  intros [rnd buf s1 s2 Hrnd Hrun|k p w s1 s2 Hrecv Hrun|x s1 s2 Hrun|w s1 (Hu & Ho & Hq)] Hinv.
  - by eapply on_device_read_inv.
  - exists owner. by eapply on_packet_inv.
  - unfold accept in Hrun. destruct (accepted s1) as [|y l] eqn:Ha; [done|]. simplify_eq/=.
    exists owner. split; [by apply owners_same|].
    apply stack_inv_world; [done|done|apply Hinv|done| |apply Hinv].
    intros st Hst. rewrite Ha. by constructor.
  - exists owner. split; [apply owners_same; try done|]. apply stack_inv_world; try done.
    intros ch p Hne Hin. destruct (si_queues _ _ Hinv ch p Hne) as [Hu' Hp]; [|by auto].
    destruct (Hq ch Hne) as [l ->]. apply elem_of_app. auto.
Qed.

Lemma stack_steps_inv owner s s' :
  rtc stack_step s s' -> stack_inv owner s ->
  exists owner', owners_kept owner owner' (sworld s) (sworld s') /\ stack_inv owner' s'.
Proof.
  intros Hr. revert owner. induction Hr as [s|s1 s2 s3 Hstep Hr IH]; intros owner Hinv.
  { exists owner. split; [by apply owners_same|done]. }
  destruct (stack_step_inv owner s1 s2 Hstep Hinv) as (o2 & Hk2 & Hinv2).
  destruct (IH o2 Hinv2) as (o3 & Hk3 & Hinv3). exists o3. split; [|done].
  intros d Hd. destruct (Hk2 d Hd) as [Hd2 <-]. by apply Hk3.
Qed.

(** The packet channel is the same throughout. *)
Lemma stack_steps_chan s s' : rtc stack_step s s' -> pkt_chan s' = pkt_chan s.
Proof.
  induction 1 as [|s1 s2 s3 Hstep _ IH]; [done|]. rewrite IH. clear IH.
  destruct Hstep as [rnd buf s1 s2 _ Hrun|k p w s1 s2 _ Hrun|x s1 s2 Hrun|w s1 _]; [..|done].
  - unfold on_device_read in Hrun. repeat case_match; by simplify_eq/=.
  - unfold on_packet in Hrun. repeat case_match; by simplify_eq/=.
  - unfold accept in Hrun. repeat case_match; by simplify_eq/=.
Qed.

(** ... and so is the configuration. *)
Lemma stack_steps_config s s' : rtc stack_step s s' -> config s' = config s.
Proof.
  induction 1 as [|s1 s2 s3 Hstep _ IH]; [done|]. rewrite IH. clear IH.
  destruct Hstep as [rnd buf s1 s2 _ Hrun|k p w s1 s2 _ Hrun|x s1 s2 Hrun|w s1 _]; [..|done].
  - unfold on_device_read in Hrun. repeat case_match; by simplify_eq/=.
  - unfold on_packet in Hrun. repeat case_match; by simplify_eq/=.
  - unfold accept in Hrun. repeat case_match; by simplify_eq/=.
Qed.

(** A new stack, in a world without other channels. *)
Lemma stack_new_inv cf dev w owner :
  cfg_mtu cf ∈u U16 -> (forall d, queue d w = []) ->
  stack_inv owner (stack_new cf dev w).
Proof.
  intros Hm Hw. unfold stack_new. pose proof (chan_new_open w) as Ho. pose proof (chan_new_queue w) as Hq.
  destruct (chan_new w) as [ch w'] eqn:Hc. simpl in *. split; simpl; try done.
  - by rewrite Ho, decide_True.
  - intros st d K Hin. by apply not_elem_of_nil in Hin.
  - intros d q Hd Hin. rewrite Hq, decide_False, Hw in Hin by done. by apply not_elem_of_nil in Hin.
Qed.

End stack_inv.
