(* ===== verification/Run.v ===== *)
(** * The task of the stack: the loop of [run]

    Each round of the loop is a [select!] over two branches, a read from the
    device and a packet from the streams.  A branch that completes with a value
    its pattern does not match (an error of the read, the end of the channel) is
    disabled for the rest of the round; a [select!] with no branch left panics.
    An error of a handler ends the task, which drops what it holds. *)

From S2P Require Import Prelude Errors Etherparse Packet Runtime Tcb Tcp TcpPacket TcpLoop.
From S2P Require Import TcpFoot TcpSafety TcpApi TcpWrapper Udp Unknown Stream Stack StackSpec StackInv.

Section run.
Context `{EP : Etherparse, EL : !EtherparseLaws} {W : Type} `{RT : !Runtime W NetworkPacket}.
Context `{RO : !RuntimeObs W NetworkPacket, RL : !RuntimeLaws W NetworkPacket}.
Context (b : Build).
Context {D : Type} (write_all : list byte -> D -> D * Result unit IoError).
Implicit Types (s : Stack (W := W) (D := D)) (w : W).

(** The task in a round: which branches are still enabled. *)
Record Task := mkTask {
  t_stack : Stack (W := W) (D := D);
  read_on : bool;
  recv_on : bool;
}.
Implicit Types t : Task.

Definition new_round s : Task := mkTask s true true.

(** What a branch completed with: the read, with what [rand] would return next;
    or the channel, with the world after the receive. *)
Inductive branch :=
  | ReadDone (rnd : Z) (r : Result (list byte) IoError)
  | RecvDone (p : option NetworkPacket) (w : W).

Definition enabled (br : branch) t : bool :=
  match br with ReadDone _ _ => read_on t | RecvDone _ _ => recv_on t end.

(** The rest of the round without the branch. *)
Definition without_branch t : Task * exec IpStackError unit :=
  (t, if read_on t || recv_on t then Ret tt else Panic PSelect).

Definition select_round (br : branch) t : Task * exec IpStackError unit :=
  match br with
  | ReadDone rnd (Ok buf) =>
      let '(s, r) := on_device_read b rnd buf (t_stack t) in (new_round s, r)
  | ReadDone _ (Err _) => without_branch (mkTask (t_stack t) false (recv_on t))
  | RecvDone (Some packet) w =>
      let '(s, r) := on_packet b write_all packet w (t_stack t) in (new_round s, r)
  | RecvDone None w => without_branch (mkTask (with_world w (t_stack t)) (read_on t) false)
  end.

(** The channel's branch completes with what is received from it. *)
Definition received (br : branch) t : Prop :=
  match br with
  | ReadDone rnd _ => rnd ∈u U32
  | RecvDone p w => exists k, chan_poll_recv (pkt_chan (t_stack t)) k (sworld (t_stack t)) = (Ready p, w)
  end.

(** The task goes on. *)
Inductive run_step : Task -> Task -> Prop :=
  | run_branch br t t' :
      enabled br t = true -> received br t -> select_round br t = (t', Ret tt) -> run_step t t'.

(** The task is over, with an error of a handler or, in a build that unwinds, with a
    panic: its receiver is dropped with the device, the sessions and
    the sender of the accept channel. *)
Definition run_end t : Stack (W := W) (D := D) :=
  with_world (chan_close (pkt_chan (t_stack t)) (sworld (t_stack t))) (t_stack t).

Inductive run_stop : Task -> Stack (W := W) (D := D) -> Prop :=
  | run_stopped br t t' r :
      enabled br t = true -> received br t -> select_round br t = (t', r) -> r <> Ret tt ->
      (forall p, r = Panic p -> unwinds b = true) -> run_stop t (run_end t').

(** ** What the loop does *)

(** A step handles one packet as the stack does, or finds a branch disabled. *)
Lemma run_step_stack t t' :
  run_step t t' -> rx_open (pkt_chan (t_stack t)) (sworld (t_stack t)) = true ->
  rtc (stack_step b write_all) (t_stack t) (t_stack t').
Proof.
  intros [br t1 t2 Hen Hrecv Hrun] Ho. destruct br as [rnd [buf|e]|[p|] w]; simpl in *.
  - destruct (on_device_read _ _ _ _) as [s r] eqn:Hd. simplify_eq. apply rtc_once. by eapply step_device.
  - unfold without_branch in Hrun. case_match; [|done]. by simplify_eq.
  - destruct Hrecv as [k Hk]. destruct (on_packet _ _ _ _ _) as [s r] eqn:Hp. simplify_eq.
    apply rtc_once. by eapply step_packet.
  - destruct Hrecv as [k Hk]. unfold without_branch in Hrun. case_match; [|done]. simplify_eq. simpl.
    pose proof (chan_recv_spec (pkt_chan (t_stack t1)) k (sworld (t_stack t1))) as Hs.
    pose proof (chan_recv_other (pkt_chan (t_stack t1)) k (sworld (t_stack t1))) as Hq.
    pose proof (chan_recv_used (pkt_chan (t_stack t1)) k (sworld (t_stack t1))) as Hu.
    pose proof (chan_recv_open (pkt_chan (t_stack t1)) k (sworld (t_stack t1))) as Hop.
    rewrite Hk in *. simpl in *. apply rtc_once, step_streams. split; [intros d; by rewrite Hu|].
    split; [by rewrite Hop|]. intros d Hd. by rewrite Hq.
Qed.

(** After a read error the branch of the channel is the only one left. *)
Lemma deaf_round br t :
  read_on t = false -> queue (pkt_chan (t_stack t)) (sworld (t_stack t)) = [] ->
  enabled br t = true -> received br t -> (select_round br t).2 = Panic PSelect.
Proof.
  intros Hr Hq Hen Hrecv. destruct br as [rnd r|[p|] w]; simpl in *; [congruence|..].
  - destruct Hrecv as [k Hk].
    pose proof (chan_recv_spec (pkt_chan (t_stack t)) k (sworld (t_stack t))) as Hs.
    rewrite Hk in Hs. simpl in Hs. congruence.
  - by rewrite Hr.
Qed.

(** Which errors end the task. *)
Lemma round_fails br t t' e :
  select_round br t = (t', Throw e) ->
  (exists rnd buf m w st, br = ReadDone rnd (Ok buf) /\ e = SendError /\ accepting (t_stack t) = false /\
     process_device_read b rnd (drain_front (offset b (t_stack t)) buf) (config (t_stack t))
       (pkt_chan (t_stack t)) (sessions (t_stack t)) (sworld (t_stack t)) = (m, w, Ret (Some st))) \/
  (exists p w bs dev io, br = RecvDone (Some p) w /\ e = IpStackIoError io /\ ttl p <> 0 /\
     write_all bs (device (t_stack t)) = (dev, Err io)).
Proof.
  destruct br as [rnd [buf|e']|[p|] w]; simpl; unfold without_branch.
  - unfold on_device_read. destruct (len buf <? _); [done|].
    destruct (process_device_read _ _ _ _ _ _ _) as [[m w] [[st|]|[]|q]] eqn:Hp; [|done..].
    destruct (accepting (t_stack t)) eqn:Ha; [done|]. intros [= <- <-]. left. by exists rnd, buf, m, w, st.
  - by case_match.
  - unfold on_packet, process_upstream_recv. destruct (Z.eqb_spec (ttl p) 0) as [|Ht]; [done|].
    destruct (to_bytes p) as [x|]; [|done].
    destruct (write_all _ (device (t_stack t))) as [dev [u|io]] eqn:Hw; [done|]. intros [= <- <-]. right.
    by eexists p, w, _, dev, io.
  - by case_match.
Qed.

(** ** After the end *)

Lemma run_end_closed t : rx_open (pkt_chan (t_stack t)) (sworld (run_end t)) = false.
Proof. unfold run_end. simpl. by rewrite chan_close_open, decide_True. Qed.

(** The user gets the streams that wait to be accepted, and then the error. *)
Fixpoint accept_all (n : nat) s : Stack (W := W) (D := D) * list (Result (IpStackStream (W := W)) IpStackError) :=
  match n with
  | O => (s, [])
  | S n =>
      match accept false s with
      | (s, Ready r) => let '(s, l) := accept_all n s in (s, r :: l)
      | (s, Pending) => (s, [])
      end
  end.

Lemma accept_all_spec n s :
  (accept_all n s).2 = (Ok <$> take n (accepted s)) ++ replicate (n - length (accepted s)) (Err AcceptError).
Proof.
  revert s. induction n as [|n IH]; intros s; [done|]. simpl. unfold accept at 1.
  destruct (accepted s) as [|x l] eqn:Ha; simpl.
  - specialize (IH s). destruct (accept_all n s) as [s' l']. simpl in *. rewrite IH, Ha. simpl.
    by rewrite take_nil, Nat.sub_0_r.
  - set (s1 := mkStack _ _ _ _ _ _ _). specialize (IH s1). destruct (accept_all n s1) as [s' l']. simpl in *.
    by rewrite IH.
Qed.

Lemma udp_write_gone buf (u : IpStackUdpStream (W := W)) w :
  udp_wf u -> timely (Udp.udp_timeout u) -> rx_open (Udp.pkt_sender u) w = false ->
  (udp_poll_write b buf u w).2 = Ret (Ready (Err (IoKind UnexpectedEof))).
Proof.
  intros Hwf Htm Ho. unfold udp_poll_write, Udp.reset_timeout. rewrite (timely_add _ w Htm). simpl.
  fold (Udp.rearm (instant_now w) u). set (u1 := Udp.rearm _ u).
  assert (udp_wf u1) as Hwf1 by (by destruct Hwf; split).
  destruct (udp_create_ok u1 (TTL b) buf Hwf1) as (p & -> & _).
  pose proof (chan_send_ok (Udp.pkt_sender u) p w) as Hok. change (Udp.pkt_sender u1) with (Udp.pkt_sender u).
  destruct (chan_send _ _ _) as [ok w']. simpl in Hok. by rewrite Hok, Ho.
Qed.

End run.
