(* ===== verification/System.v ===== *)
(** * The whole system

    The stack, the streams its user holds, and the tasks that shut dropped
    streams down, as one transition system: each step is one atomic action of
    one of them, by the definitions that model it.  A call of a stream that panics
    unwinds the task it is in, and the stream is dropped as the call left it; in a
    build that aborts on panics there is no such step.  The steps of the streams are
    steps the stack's invariant allows ([system_refines]), so what [StackInv.v]
    shows of the stack holds of the system, with no assumption on the streams
    left. *)

From S2P Require Import Prelude Errors Etherparse Packet Runtime Tcb Tcp TcpPacket TcpLoop.
From S2P Require Import TcpFoot TcpWrapper Udp Unknown Stream Stack StackSpec StackInv.

Section system.
Context `{EP : Etherparse, EL : !EtherparseLaws} {W : Type} `{RT : !Runtime W NetworkPacket}.
Context `{RO : !RuntimeObs W NetworkPacket, RL : !RuntimeLaws W NetworkPacket}.
Context (b : Build).
Context {D : Type} (write_all : list byte -> D -> D * Result unit IoError).
Implicit Types (st : IpStackStream (W := W)) (w : W) (s : Stack (W := W) (D := D)).

(** ** Steps *)

(** What a call shows its caller: the bytes a read of a TCP stream puts into the
    buffer, and those a write of one accepts. *)
Inductive call_event :=
  | Got (bs : list byte)
  | Wrote (bs : list byte)
  | OtherCall.

Definition returns {E A} (r : exec E A) : bool := match r with Ret _ => true | _ => false end.
Definition got {E A} (rb rb' : ReadBuf) (r : exec E A) : call_event :=
  if returns r then Got (drain_front (len (filled rb)) (filled rb')) else OtherCall.
Definition wrote {E} (buf : list byte) (r : exec E PollSize) : call_event :=
  match r with Ret (Ready (Ok n)) => Wrote (truncate n buf) | _ => OtherCall end.

(** A call of a stream, which returns or panics. *)
Inductive stream_call :
    bool -> call_event -> IpStackStream (W := W) -> W -> IpStackStream (W := W) -> W -> Prop :=
  | call_tcp_read n k rb t w t' w' rb' r :
      wrapper_poll_read b n k t w rb = Some (t', w', rb', r) ->
      stream_call (returns r) (got rb rb' r) (StreamTcp t) w (StreamTcp t') w'
  | call_tcp_write k buf t w t' w' r :
      wrapper_poll_write b k buf t w = (t', w', r) ->
      stream_call (returns r) (wrote buf r) (StreamTcp t) w (StreamTcp t') w'
  | call_tcp_flush t w t' w' r :
      wrapper_poll_flush b t w = (t', w', r) ->
      stream_call (returns r) OtherCall (StreamTcp t) w (StreamTcp t') w'
  | call_tcp_shutdown n k t w t' w' r :
      wrapper_poll_shutdown b n k t w = Some (t', w', r) ->
      stream_call (returns r) OtherCall (StreamTcp t) w (StreamTcp t') w'
  | call_udp_read k u w rb us r :
      udp_poll_read k (mkUdpSt u w rb) = (us, r) ->
      stream_call (returns r) OtherCall (StreamUdp u) w (StreamUdp (ustream us)) (uworld us)
  | call_udp_write buf u w u' w' r :
      udp_poll_write b buf u w = (u', w', r) ->
      stream_call (returns r) OtherCall (StreamUdp u) w (StreamUdp u') w'
  | call_unknown_send n bs u w w' r :
      send b n u bs w = Some (w', r) ->
      stream_call (returns r) OtherCall (StreamUnknownTransport u) w (StreamUnknownTransport u) w'.

(** The user lets go of a stream: a TCP stream leaves a task behind, the
    receiving half of a UDP stream is dropped with it. *)
Definition drop_user st w : W * list DropTask :=
  match st with
  | StreamTcp t => (w, option_list (wrapper_drop t).2)
  | StreamUdp u => (chan_close (Udp.stream_receiver u) w, [])
  | _ => (w, [])
  end.

Record System := mkSystem {
  stack : Stack (W := W) (D := D);
  held : list (IpStackStream (W := W));
  tasks : list (DropTask (W := W));
}.

(** What a step shows from outside: bytes read from the device, a packet taken
    for it, a call on a stream, which is known by its channel and session. *)
Inductive event :=
  | Input (buf : list byte)
  | Output (p : NetworkPacket)
  | Called (who : option (Chan * NetworkTuple)) (e : call_event)
  | Silent.

Inductive sys_event : event -> System -> System -> Prop :=
  | sys_device rnd buf s s' h ts :
      rnd ∈u U32 -> on_device_read b rnd buf s = (s', Ret tt) ->
      sys_event (Input buf) (mkSystem s h ts) (mkSystem s' h ts)
  | sys_packet k p w s s' h ts :
      chan_poll_recv (pkt_chan s) k (sworld s) = (Ready (Some p), w) ->
      on_packet b write_all p w s = (s', Ret tt) ->
      sys_event (Output p) (mkSystem s h ts) (mkSystem s' h ts)
  | sys_accept x s s' h ts :
      accept true s = (s', Ready (Ok x)) ->
      sys_event Silent (mkSystem s h ts) (mkSystem s' (h ++ [x]) ts)
  | sys_call i e st st' w' s h ts :
      h !! i = Some st -> stream_call true e st (sworld s) st' w' ->
      sys_event (Called (stream_channel st) e)
        (mkSystem s h ts) (mkSystem (with_world w' s) (<[i := st']> h) ts)
  | sys_crash i e st st' w1 w' new s h ts :
      unwinds b = true -> h !! i = Some st -> stream_call false e st (sworld s) st' w1 ->
      drop_user st' w1 = (w', new) ->
      sys_event Silent (mkSystem s h ts) (mkSystem (with_world w' s) (delete i h) (ts ++ new))
  | sys_drop i st w' new s h ts :
      h !! i = Some st -> drop_user st (sworld s) = (w', new) ->
      sys_event Silent (mkSystem s h ts) (mkSystem (with_world w' s) (delete i h) (ts ++ new))
  | sys_task i n k t t' w' s h ts :
      ts !! i = Some t -> drop_task_poll b n k t (sworld s) = Some (w', Ret (Some t')) ->
      sys_event Silent (mkSystem s h ts) (mkSystem (with_world w' s) h (<[i := t']> ts))
  | sys_task_ends i n k t w' s h ts :
      ts !! i = Some t -> drop_task_poll b n k t (sworld s) = Some (w', Ret None) ->
      sys_event Silent (mkSystem s h ts) (mkSystem (with_world w' s) h (delete i ts))
  | sys_task_crash i n k t q w' s h ts :
      unwinds b = true -> ts !! i = Some t -> drop_task_poll b n k t (sworld s) = Some (w', Panic q) ->
      sys_event Silent (mkSystem s h ts) (mkSystem (with_world w' s) h (delete i ts))
  | sys_time w' s h ts :
      same_chans (sworld s) w' -> (forall d, used d w' = used d (sworld s)) ->
      sys_event Silent (mkSystem s h ts) (mkSystem (with_world w' s) h ts).

Definition sys_step (S S' : System) : Prop := exists e, sys_event e S S'.

Lemma event_step e S S' : sys_event e S S' -> sys_step S S'.
Proof. by exists e. Qed.

(** A run with what it shows, latest last. *)
Inductive sys_trace : list event -> System -> System -> Prop :=
  | trace_nil S : sys_trace [] S S
  | trace_snoc tr e S1 S2 S3 :
      sys_trace tr S1 S2 -> sys_event e S2 S3 -> sys_trace (tr ++ [e]) S1 S3.

Lemma trace_steps tr S S' : sys_trace tr S S' -> rtc sys_step S S'.
Proof. induction 1; [done|]. eapply rtc_r; [done|]. by eapply event_step. Qed.

Definition boot (cf : IpStackConfig) (dev : D) w : System := mkSystem (stack_new cf dev w) [] [].

(** ** What a step of a stream does to the world *)

(** Nothing but taking packets from channels other than [pkt], dropping such
    channels, and sending packets of the kind [Q] towards the device. *)
Record outside (pkt : Chan) (Q : NetworkPacket -> Prop) w w' : Prop := {
  out_used : forall d, used d w = true -> used d w' = true;
  out_open : rx_open pkt w' = rx_open pkt w;
  out_queues : forall d, d <> pkt -> queue d w' `suffix_of` queue d w;
  out_sent : exists l, queue pkt w' = queue pkt w ++ l /\ Forall Q l;
}.

#[export] Instance outside_preorder pkt Q : PreOrder (outside pkt Q).
Proof.
  split.
  - split; try done. exists []. by rewrite app_nil_r.
  - intros w1 w2 w3 [U1 O1 Q1 (l1 & L1 & F1)] [U2 O2 Q2 (l2 & L2 & F2)].
    split; [auto|congruence| |].
    + intros d Hd. etrans; [by apply Q2|by apply Q1].
    + exists (l1 ++ l2). rewrite L2, L1, <-app_assoc. split; [done|by apply Forall_app_2].
Qed.

Lemma outside_same pkt Q w w' :
  same_chans w w' -> (forall d, used d w' = used d w) -> outside pkt Q w w'.
Proof.
  intros [Hq Ho] Hu. split; [intros d; by rewrite Hu|done|intros d _; by rewrite Hq|].
  exists []. by rewrite Hq, app_nil_r.
Qed.

Lemma outside_send pkt (Q : NetworkPacket -> Prop) p w : Q p -> outside pkt Q w (chan_send pkt p w).2.
Proof.
  intros Hp. split.
  - intros d. by rewrite chan_send_used.
  - apply chan_send_open.
  - intros d Hd. by rewrite chan_send_queue, decide_False.
  - rewrite chan_send_queue, decide_True by done.
    destruct (rx_open pkt w); [exists [p]; split; [done|by constructor]|exists []; by rewrite app_nil_r].
Qed.

Lemma outside_recv pkt Q d k w : d <> pkt -> outside pkt Q w (chan_poll_recv d k w).2.
Proof.
  intros Hd. split.
  - intros e. by rewrite chan_recv_used.
  - apply chan_recv_open.
  - intros e _. destruct (decide (e = d)) as [->|He]; [|by rewrite chan_recv_other].
    pose proof (chan_recv_spec d k w) as Hs.
    destruct (chan_poll_recv d k w) as [[[p|]|] w']; simpl in *;
      [rewrite Hs; by apply suffix_cons_r|by destruct Hs as [-> ->]|by rewrite Hs].
  - exists []. rewrite chan_recv_other, app_nil_r by done. done.
Qed.

Lemma outside_close pkt Q d w : d <> pkt -> outside pkt Q w (chan_close d w).
Proof.
  intros Hd. split.
  - intros e. apply chan_close_used.
  - by rewrite chan_close_open, decide_False.
  - intros e _. rewrite chan_close_queue. case_decide; [apply suffix_nil|done].
  - exists []. by rewrite chan_close_queue, decide_False, app_nil_r.
Qed.

Lemma outside_weaken pkt (Q Q' : NetworkPacket -> Prop) w w' :
  (forall p, Q p -> Q' p) -> outside pkt Q w w' -> outside pkt Q' w w'.
Proof.
  intros Hq [? ? ? (l & ? & Hl)]. split; try done. exists l. split; [done|].
  by eapply Forall_impl.
Qed.

(** What UDP streams and streams of other protocols send. *)
Definition not_tcp (m : Z) (p : NetworkPacket) : Prop :=
  fits m p /\ forall h, transport p <> TransTcp h.

(** The calls of a connection. *)
Lemma own_outside pkt m (i : Tcp.IpStackTcpStream (W := W)) w c :
  conn_good pkt m i -> own (mkConn i w) c ->
  conn_good pkt m (self c) /\ cfg (self c) = cfg i /\ outside pkt (fits m) w (world c).
Proof.
  intros (Ht & Hp & Hr & Hm) [Hc Hty Hrx (l & Hl & Hmine) [Hq Ho Hu]].
  unfold cfg, rxq, txq in *; simpl in *. injection Hc as Es Ed Er Ep Em.
  split; [split; [done|]; by rewrite Ep, Er, Em|]. split; [congruence|]. split.
  - intros d. by rewrite Hu.
  - apply Ho.
  - intros d Hd. destruct (decide (d = Tcp.stream_receiver i)) as [->|Hne].
    + by rewrite Er in Hrx.
    + rewrite Hq; [done|done|congruence].
  - exists l. rewrite Ep, Hp in Hl. split; [done|].
    eapply Forall_impl; [done|]. intros p [_ Hf]. by rewrite <-Hm.
Qed.

Lemma udp_call_outside pkt m ok e u w st' w' :
  stream_good pkt m (StreamUdp u) -> stream_call ok e (StreamUdp u) w st' w' ->
  stream_good pkt m st' /\ stream_channel st' = stream_channel (StreamUdp u) /\ outside pkt (not_tcp m) w w'.
Proof.
  intros (Hwf & Hp & Hr & Hm) Hc. inversion Hc as [| | | |k ? ? rb us r Hrun|buf ? ? u' ? r Hrun|]; subst.
  - revert Hrun. unfold udp_poll_read, put_ready. destruct (first_payload u).
    { case_match; intros [= <- _]; (split; [|split; [done|reflexivity]]);
        (split; [by destruct Hwf|done]). }
    pose proof (sleep_poll_chans (Udp.timeout u) k w) as Hsc.
    pose proof (sleep_poll_used (Udp.timeout u) k w) as Hsu.
    destruct (sleep_poll _ _ _) as [elapsed w1]; simpl in *.
    apply (outside_same (Udp.pkt_sender u) (not_tcp (Udp.mtu u))) in Hsc; [|done].
    destruct elapsed; [intros [= <- _]; by split|]. unfold Udp.reset_timeout, instant_add.
    destruct (_ <=? _); simpl; [|intros [= <- _]; by split]. fold (Udp.rearm (instant_now w1) u).
    pose proof (outside_recv (Udp.pkt_sender u) (not_tcp (Udp.mtu u)) (Udp.stream_receiver u) k w1 Hr) as Ho.
    destruct (chan_poll_recv _ _ _) as [r1 w2]; simpl in *.
    assert (outside (Udp.pkt_sender u) (not_tcp (Udp.mtu u)) w w2) by (by etrans).
    assert (stream_good (Udp.pkt_sender u) (Udp.mtu u) (StreamUdp (Udp.rearm (instant_now w1) u)))
      by (split; [by destruct Hwf|done]).
    destruct r1 as [[p|]|]; [destruct (put_slice _ _)|..]; intros [= <- _]; by split.
  - revert Hrun. unfold udp_poll_write, Udp.reset_timeout, instant_add.
    destruct (_ <=? _); simpl; [|intros [= <- <- _]; split; [done|split; [done|reflexivity]]].
    fold (Udp.rearm (instant_now w) u). set (u1 := Udp.rearm _ u).
    assert (udp_wf u1) as Hwf1 by (by destruct Hwf).
    destruct (udp_create_ok u1 (TTL b) buf Hwf1) as (p & -> & Hd).
    assert (not_tcp (Udp.mtu u) p) as Hnt
      by (split; [by eapply (datagram_printed u1)|destruct Hd as [_ [e ->] _ _ _ _ _]; done]).
    pose proof (outside_send (Udp.pkt_sender u) (not_tcp (Udp.mtu u)) p w Hnt) as Ho.
    change (Udp.pkt_sender u1) with (Udp.pkt_sender u). destruct (chan_send _ _ _) as [ok w1]; simpl in *.
    assert (stream_good (Udp.pkt_sender u) (Udp.mtu u) (StreamUdp u1)) by done.
    destruct ok; intros [= <- <- _]; by split.
Qed.

Lemma unknown_send_outside pkt m (u : IpStackUnknownTransport (W := W)) n bs w w' r :
  m ∈u U16 -> stream_good pkt m (StreamUnknownTransport u) ->
  send b n u bs w = Some (w', r) -> outside pkt (not_tcp m) w w'.
Proof.
  intros Hmt (Hp & Hm & Hf) Hs. unfold send in Hs.
  destruct (loop n (send_body b u) (bs, w)) as [[st r']|] eqn:Hl; [|done]. injection Hs as <- <-.
  apply (keeps_loop (fun x => outside pkt (not_tcp m) w x.2)) in Hl; [done| |done].
  intros [pl w1] Ho. unfold wp, send_body.
  assert (exists pl' p, create_rev_packet b u pl = (pl', Ret p) /\ not_tcp m p) as (pl' & p & -> & Hp').
  { subst m. destruct (unk_src_addr u) as [sa|sa] eqn:Hsa, (unk_dst_addr u) as [da|da] eqn:Hda; try done.
    - rewrite (create_v4 b u sa da) by done. do 2 eexists. split; [done|split; [by apply reply4_fits|done]].
    - rewrite (create_v6 b u sa da) by done. do 2 eexists. split; [done|split; [by apply reply6_fits|done]]. }
  pose proof (outside_send (Unknown.packet_sender u) (not_tcp m) p w1 Hp') as Ho'.
  destruct (chan_send _ _ _) as [ok w2]. simpl in Ho'. rewrite Hp in Ho'.
  assert (outside pkt (not_tcp m) w w2) by (by etrans). destruct ok; simpl; [case_bool_decide|]; done.
Qed.

(** Every packet that waits for a stream is typed. *)
Definition typed_queues (pkt : Chan) w : Prop :=
  forall d p, d <> pkt -> p ∈ queue d w -> typed_packet p.

Lemma conn_start pkt m (i : Tcp.IpStackTcpStream (W := W)) w :
  conn_good pkt m i -> typed_queues pkt w ->
  distinct (mkConn i w) /\ Forall typed_packet (rxq (mkConn i w)) /\ stream_typed i.
Proof.
  intros (Ht & Hp & Hr & _) Hq. split; [by unfold distinct; simpl; congruence|]. split; [|done].
  apply Forall_forall. intros p. by apply Hq.
Qed.

(** A call on a TCP stream works on its connection. *)
Lemma tcp_call_own ok e t i w st' w' :
  TcpWrapper.inner t = Some i -> distinct (mkConn i w) -> Forall typed_packet (rxq (mkConn i w)) ->
  stream_typed i -> stream_call ok e (StreamTcp t) w st' w' ->
  exists c, own (mkConn i w) c /\ st' = StreamTcp (set_inner (Some (self c)) t) /\ w' = world c.
Proof.
  intros Hi Hd Hrx Hty Hc.
  inversion Hc as [n k rb ? ? t' ? rb' r Hrun|k buf ? ? t' ? r Hrun|? ? t' ? r Hrun|n k ? ? t' ? r Hrun| | |];
    subst; unfold wrapper_poll_read, wrapper_poll_write, wrapper_poll_flush,
      wrapper_poll_shutdown in Hrun; rewrite Hi in Hrun.
  - destruct (poll_read _ _ _ _) as [[st r']|] eqn:Hp; [|done]. simplify_eq.
    exists (conn st). split; [by eapply (poll_read_own b)|done].
  - pose proof (keep_own _ _ (poll_write_keep (E := Empty_set) b _ Hd k buf) Hty) as Ho.
    destruct (poll_write _ _ _ _) as [c r']. simplify_eq. by exists c.
  - pose proof (keep_own _ _ (keep_poll_flush (E := Empty_set) b _ Hd) Hty) as Ho.
    destruct (poll_flush _ _) as [c r']. simplify_eq. by exists c.
  - destruct (poll_shutdown _ _ _ _) as [[c r']|] eqn:Hp; [|done]. simplify_eq.
    exists c. split; [by eapply (poll_shutdown_own b)|done].
Qed.

(** ... and on one that was dropped does nothing. *)
Lemma tcp_call_gone ok e t w st' w' :
  TcpWrapper.inner t = None -> stream_call ok e (StreamTcp t) w st' w' -> st' = StreamTcp t /\ w' = w.
Proof.
  intros Hi Hc.
  inversion Hc as [n k rb ? ? t' ? rb' r Hrun|k buf ? ? t' ? r Hrun|? ? t' ? r Hrun|n k ? ? t' ? r Hrun| | |];
    subst; unfold wrapper_poll_read, wrapper_poll_write, wrapper_poll_flush,
      wrapper_poll_shutdown in Hrun; rewrite Hi in Hrun; by simplify_eq.
Qed.

Lemma tcp_call_outside pkt m ok e t w st' w' :
  typed_queues pkt w -> stream_good pkt m (StreamTcp t) -> stream_call ok e (StreamTcp t) w st' w' ->
  stream_good pkt m st' /\ stream_channel st' = stream_channel (StreamTcp t) /\ outside pkt (fits m) w w'.
Proof.
  intros Hq Hg Hc. destruct (TcpWrapper.inner t) as [i|] eqn:Hi.
  2:{ destruct (tcp_call_gone ok e t w st' w' Hi Hc) as [-> ->]. done. }
  destruct (conn_start pkt m i w (Hg i Hi) Hq) as (Hd & Hrx & Hty).
  destruct (tcp_call_own ok e t i w st' w' Hi Hd Hrx Hty Hc) as (c & Hown & -> & ->).
  destruct (own_outside pkt m i w c (Hg i Hi) Hown) as (Hg' & Hcfg & Ho).
  split; [by intros i' [= <-]|]. split; [|done]. simpl. rewrite Hi. simpl.
  unfold cfg in Hcfg. injection Hcfg as Es Ed Er _ _. unfold session_key. by rewrite Es, Ed, Er.
Qed.

Lemma call_outside pkt m ok e st w st' w' :
  m ∈u U16 -> typed_queues pkt w -> stream_good pkt m st -> stream_call ok e st w st' w' ->
  stream_good pkt m st' /\ stream_channel st' = stream_channel st /\ outside pkt (fits m) w w'.
Proof.
  intros Hm Hq Hg Hc. destruct st as [t|u|u|bs].
  - by eapply tcp_call_outside.
  - eapply udp_call_outside in Hc as (? & ? & ?); [|done]. split; [done|]. split; [done|].
    eapply outside_weaken; [|done]. by intros p [? _].
  - inversion Hc; subst. split; [done|]. split; [done|].
    eapply outside_weaken; [|by eapply unknown_send_outside]. by intros p [? _].
  - inversion Hc.
Qed.

(** Dropping a connection asks to forget its session and closes its channel. *)
Lemma drop_stream_outside pkt m (i : Tcp.IpStackTcpStream (W := W)) w w' r :
  conn_good pkt m i -> drop_stream b i w = (w', r) -> outside pkt (fits m) w w'.
Proof.
  intros (Ht & Hp & Hr & Hm). unfold drop_stream.
  destruct (create_rev_packet_ok b i NON DROP_TTL None []) as (p & -> & Hrp); [apply Ht|].
  apply (rev_packet_fits_mtu i) in Hrp; [|apply Ht]. rewrite Hm in Hrp.
  pose proof (outside_send pkt (fits m) p w Hrp) as Ho. rewrite Hp.
  destruct (chan_send _ _ _) as [ok w1]. intros [= <- _]. simpl in Ho. etrans; [done|].
  by apply outside_close.
Qed.

Lemma task_outside pkt m n k t w w' r :
  typed_queues pkt w -> conn_good pkt m (task_stream t) ->
  drop_task_poll b n k t w = Some (w', r) ->
  outside pkt (fits m) w w' /\ forall t', r = Ret (Some t') -> conn_good pkt m (task_stream t').
Proof.
  intros Hq Hg. destruct (conn_start pkt m (task_stream t) w Hg Hq) as (Hd & Hrx & Hty).
  unfold drop_task_poll.
  replace (match t with Spawned i => _ | Running i d => _ end) with (task_stream t, task_deadline w t)
    by (by destruct t). cbn beta iota.
  destruct (poll_shutdown _ _ _ _) as [[c r1]|] eqn:Hp; [|done].
  apply (poll_shutdown_own b) in Hp; [|done..].
  destruct (own_outside pkt m _ w c Hg Hp) as (Hg' & _ & Ho).
  destruct r1 as [[v|]|[]|q].
  3:{ destruct (drop_stream _ _ _) as [w1 r2] eqn:Hdr. apply (drop_stream_outside pkt m) in Hdr; [|done].
      intros [= <- <-]. split; [by etrans|done]. }
  - destruct (drop_stream _ _ _) as [w1 r2] eqn:Hdr.
    apply (drop_stream_outside pkt m) in Hdr; [|done].
    destruct r2; intros [= <- <-]; (split; [by etrans|done]).
  - pose proof (sleep_poll_chans (task_deadline w t) k (world c)) as Hsc.
    pose proof (sleep_poll_used (task_deadline w t) k (world c)) as Hsu.
    destruct (sleep_poll _ _ _) as [e w1]; simpl in *. apply (outside_same pkt (fits m)) in Hsc; [|done].
    destruct e.
    + destruct (drop_stream _ _ _) as [w2 r2] eqn:Hdr.
      apply (drop_stream_outside pkt m) in Hdr; [|done].
      destruct r2; intros [= <- <-]; (split; [etrans; [|done]; by etrans|done]).
    + intros [= <- <-]. split; [by etrans|]. by intros t' [= <-].
Qed.

Lemma drop_user_outside pkt m st w w' new :
  stream_good pkt m st -> drop_user st w = (w', new) ->
  outside pkt (fits m) w w' /\ Forall (fun t => conn_good pkt m (task_stream t)) new.
Proof.
  destruct st as [t|u|u|bs]; simpl; intros Hg [= <- <-]; try (split; [reflexivity|done]).
  - split; [reflexivity|]. destruct (TcpWrapper.inner t) as [i|]; simpl; [|done].
    constructor; [by apply Hg|done].
  - destruct Hg as (_ & _ & Hr & _). split; [by apply outside_close|done].
Qed.

(** ** The invariant *)

Record sys_inv (owner : Chan -> NetworkTuple) (S : System) : Prop := {
  sy_stack : stack_inv owner (stack S);
  sy_typed : typed_queues (pkt_chan (stack S)) (sworld (stack S));
  sy_sent : Forall (fits (cfg_mtu (config (stack S))))
              (queue (pkt_chan (stack S)) (sworld (stack S)));
  sy_accepted : Forall (stream_good (pkt_chan (stack S)) (cfg_mtu (config (stack S))))
                  (accepted (stack S));
  sy_held : Forall (stream_good (pkt_chan (stack S)) (cfg_mtu (config (stack S)))) (held S);
  sy_tasks : Forall (fun t => conn_good (pkt_chan (stack S)) (cfg_mtu (config (stack S)))
                                (task_stream t)) (tasks S);
  sy_owned : forall st ch K, st ∈ held S -> stream_channel st = Some (ch, K) ->
    used ch (sworld (stack S)) = true /\ ch <> pkt_chan (stack S) /\ owner ch = K;
}.

(** A step of a stream or a task is one the stack's invariant allows. *)
Lemma outside_step m w' s :
  outside (pkt_chan s) m (sworld s) w' -> rx_open (pkt_chan s) (sworld s) = true ->
  stack_step b write_all s (with_world w' s).
Proof.
  intros [Hu Ho Hq _] Hop. apply step_streams. split; [done|]. split; [congruence|done].
Qed.

(** ... and keeps the system's, when what it leaves of its own is good. *)
Lemma outside_inv owner w' s h ts h' ts' :
  sys_inv owner (mkSystem s h ts) ->
  outside (pkt_chan s) (fits (cfg_mtu (config s))) (sworld s) w' ->
  Forall (stream_good (pkt_chan s) (cfg_mtu (config s))) h' ->
  Forall (fun t => conn_good (pkt_chan s) (cfg_mtu (config s)) (task_stream t)) ts' ->
  (forall st ch K, st ∈ h' -> stream_channel st = Some (ch, K) ->
     exists st0, st0 ∈ h /\ stream_channel st0 = Some (ch, K)) ->
  stack_step b write_all s (with_world w' s) /\
  sys_inv owner (mkSystem (with_world w' s) h' ts').
Proof.
  intros [Hst Hty Hse Hac Hhe Hta Hown] Hout Hh' Hts' Hsame; simpl in *.
  assert (stack_step b write_all s (with_world w' s)) as Hstep
    by (eapply outside_step; [done|apply Hst]).
  split; [done|]. destruct Hout as [Hu Ho Hq (l & Hl & Hf)].
  split; simpl; [|..|done|done|done|].
  - apply stack_inv_world; try done; [by rewrite Ho; apply Hst|].
    intros ch p Hne Hin. destruct (si_queues _ _ Hst ch p Hne) as [? ?]; [|by auto].
    destruct (Hq ch Hne) as [l' ->]. apply elem_of_app. auto.
  - intros d p Hd Hin. apply (Hty d); [done|]. destruct (Hq d Hd) as [l' ->]. apply elem_of_app. auto.
  - rewrite Hl. by apply Forall_app_2.
  - intros st ch K Hin HK. destruct (Hsame st ch K Hin HK) as (st0 & Hin0 & HK0).
    destruct (Hown st0 ch K Hin0 HK0) as (? & ? & ?). auto.
Qed.

(** What a packet from the device leaves in the queues. *)
Lemma outcome_good owner data s m' w' r :
  stack_inv owner s -> typed_queues (pkt_chan s) (sworld s) ->
  Forall (fits (cfg_mtu (config s))) (queue (pkt_chan s) (sworld s)) ->
  outcome b data (pkt_chan s) (config s) (sessions s) (sworld s) m' w' r ->
  typed_queues (pkt_chan s) w' /\ Forall (fits (cfg_mtu (config s))) (queue (pkt_chan s) w') /\
  Forall (stream_good (pkt_chan s) (cfg_mtu (config s))) (option_list r).
Proof.
  intros Hinv Hty Hse.
  assert (forall ch, (forall p, p ∈ queue ch w' -> typed_packet p) ->
    (forall d, d <> ch -> d <> pkt_chan s -> queue d w' = queue d (sworld s)) ->
    typed_queues (pkt_chan s) w') as Hone.
  { intros ch Hch Ho d p Hd Hin. destruct (decide (d = ch)) as [->|Hne]; [by apply Hch|].
    rewrite Ho in Hin by done. by eapply Hty. }
  intros [-> Ht Hr|p ch -> -> _ [Hm Ho]%live_session Htp Hq [Ht _]|p ch st -> _ _ Hst Hg Hop
         |ch l -> -> Hnew Hpo [_ Hco] Hl Hf _ [Ht _]].
  - split; [intros d p Hd; destruct (touches_nil _ _ d Ht) as [-> _]; by apply Hty|].
    destruct (touches_nil _ _ (pkt_chan s) Ht) as [-> _]. split; [done|].
    destruct r; simpl; [|done]. constructor; [by apply Hr|done].
  - destruct (si_sessions _ _ Hinv _ _ Hm) as (_ & Hne & _). split; [|split; [|done]].
    + apply (Hone ch); [|intros d Hd _; apply Ht; by rewrite list_elem_of_singleton].
      rewrite Hq. intros q [Hin| ->%list_elem_of_singleton]%elem_of_app; [by eapply Hty|done].
    + destruct (Ht (pkt_chan s)) as [-> _]; [rewrite list_elem_of_singleton; congruence|done].
  - destruct Hop as (_ & Hu & _ & _ & Hemp & Ht & _).
    assert (ch <> pkt_chan s) as Hne
      by (intros ->; pose proof (chan_open_used _ _ (si_pkt _ _ Hinv)); congruence).
    split; [|split; [|by constructor]].
    + apply (Hone ch); [|intros d Hd _; apply Ht; by rewrite list_elem_of_singleton].
      intros q. rewrite Hemp. by intros ?%not_elem_of_nil.
    + destruct (Ht (pkt_chan s)) as [-> _]; [rewrite list_elem_of_singleton; congruence|done].
  - split; [|split; [by rewrite Hl; apply Forall_app_2|done]].
    apply (Hone ch); [intros q; rewrite Hco; by intros ?%not_elem_of_nil|].
    intros d H1 H2. apply Ht. by rewrite elem_of_cons, list_elem_of_singleton; intros [?|?].
Qed.

Lemma owned_kept owner owner' s w' (h : list (IpStackStream (W := W))) :
  owners_kept owner owner' (sworld s) w' ->
  (forall st ch K, st ∈ h -> stream_channel st = Some (ch, K) ->
     used ch (sworld s) = true /\ ch <> pkt_chan s /\ owner ch = K) ->
  forall st ch K, st ∈ h -> stream_channel st = Some (ch, K) ->
    used ch w' = true /\ ch <> pkt_chan s /\ owner' ch = K.
Proof.
  intros Hk Ho st ch K Hin HK. destruct (Ho st ch K Hin HK) as (Hu & Hne & <-).
  destruct (Hk ch Hu). auto.
Qed.

Lemma device_step_inv owner rnd buf s s' h ts :
  sys_inv owner (mkSystem s h ts) -> rnd ∈u U32 -> on_device_read b rnd buf s = (s', Ret tt) ->
  exists owner', owners_kept owner owner' (sworld s) (sworld s') /\ sys_inv owner' (mkSystem s' h ts).
Proof.
  intros [Hst Hty Hse Hac Hhe Hta Hown] Hrnd Hrun; simpl in *.
  destruct (on_device_read_outcome b rnd buf s s') as (r & Hout & Hs'); [done|apply Hst..|done|].
  destruct (outcome_good owner _ s _ _ _ Hst Hty Hse Hout) as (Hty' & Hse' & Hr).
  destruct (outcome_inv b owner _ s _ _ _ (accepting s) Hst Hout) as (o & Hk & Hst').
  exists o. split; [done|]. rewrite Hs'. split; simpl; try done.
  - by apply Forall_app_2.
  - by eapply owned_kept.
Qed.

Lemma packet_step_inv owner k p w s s' h ts :
  sys_inv owner (mkSystem s h ts) ->
  chan_poll_recv (pkt_chan s) k (sworld s) = (Ready (Some p), w) ->
  on_packet b write_all p w s = (s', Ret tt) ->
  sys_inv owner (mkSystem s' h ts) /\ owners_kept owner owner (sworld s) (sworld s').
Proof.
  intros [Hst Hty Hse Hac Hhe Hta Hown] Hrecv Hrun; simpl in *.
  destruct (on_packet_inv b write_all owner k p w s s' Hst Hrecv Hrun) as [Hk Hst'].
  unfold on_packet in Hrun. destruct (process_upstream_recv _ _ _ _ _ _) as [[m' d'] r].
  injection Hrun as <- Hr.
  pose proof (chan_recv_other (pkt_chan s) k (sworld s)) as Hq.
  pose proof (chan_recv_spec (pkt_chan s) k (sworld s)) as Hs. rewrite Hrecv in Hq, Hs. simpl in *.
  split; [|done]. split; simpl; try done.
  - intros d q Hd. rewrite Hq by done. by apply Hty.
  - rewrite Hs in Hse. by inversion Hse.
  - by eapply owned_kept.
Qed.

Lemma accept_step_inv owner x s s' h ts :
  sys_inv owner (mkSystem s h ts) -> accept true s = (s', Ready (Ok x)) ->
  sys_inv owner (mkSystem s' (h ++ [x]) ts) /\ sworld s' = sworld s.
Proof.
  intros [Hst Hty Hse Hac Hhe Hta Hown] Hrun; simpl in *. unfold accept in Hrun.
  destruct (accepted s) as [|y l] eqn:Ha; [done|]. simplify_eq/=. inversion Hac; subst.
  split; [|done]. split; simpl; try done.
  - apply stack_inv_world; [done|done|apply Hst|done| |apply Hst].
    intros st Hin. rewrite Ha. by constructor.
  - by apply Forall_app_2; [|constructor].
  - intros st ch K [Hin| ->%list_elem_of_singleton]%elem_of_app HK; [by eapply Hown|].
    eapply (si_accepted _ _ Hst); [|done]. rewrite Ha. by constructor.
Qed.

Lemma elem_of_delete {A} (i : nat) (x : A) (l : list A) : x ∈ delete i l -> x ∈ l.
Proof. rewrite !list_elem_of_lookup. intros [j Hj]. rewrite list_lookup_delete in Hj. eauto. Qed.

(** A step of the stack in an environment that keeps to the rules, which keeps the
    invariant. *)
Definition refined owner (S S' : System) : Prop :=
  stack_step b write_all (stack S) (stack S') /\
  exists owner', owners_kept owner owner' (sworld (stack S)) (sworld (stack S')) /\ sys_inv owner' S'.

Lemma outside_refined owner w' s h ts h' ts' :
  sys_inv owner (mkSystem s h ts) ->
  outside (pkt_chan s) (fits (cfg_mtu (config s))) (sworld s) w' ->
  Forall (stream_good (pkt_chan s) (cfg_mtu (config s))) h' ->
  Forall (fun t => conn_good (pkt_chan s) (cfg_mtu (config s)) (task_stream t)) ts' ->
  (forall st ch K, st ∈ h' -> stream_channel st = Some (ch, K) ->
     exists st0, st0 ∈ h /\ stream_channel st0 = Some (ch, K)) ->
  refined owner (mkSystem s h ts) (mkSystem (with_world w' s) h' ts').
Proof.
  intros Hinv Ho H1 H2 H3. destruct (outside_inv owner w' s h ts h' ts') as [Hs Hi]; [done..|].
  split; [done|]. exists owner. split; [|done]. apply owners_same, Ho.
Qed.

Lemma call_refined owner i e st st' w' s h ts :
  sys_inv owner (mkSystem s h ts) -> h !! i = Some st -> stream_call true e st (sworld s) st' w' ->
  refined owner (mkSystem s h ts) (mkSystem (with_world w' s) (<[i := st']> h) ts).
Proof.
  intros Hinv Hi Hrun. pose proof Hinv as [Hst Hty _ _ Hhe Hta _]; simpl in *.
  rewrite Forall_lookup in Hhe. destruct (call_outside (pkt_chan s) (cfg_mtu (config s)) true e st (sworld s) st' w')
    as (Hg & Hch & Ho); [apply Hst|done|by eapply Hhe|done|].
  apply outside_refined; [done|done|apply Forall_insert; [by apply Forall_lookup|done]|done|].
  intros st1 ch K Hin HK. apply list_elem_of_lookup in Hin as [j Hj].
  apply list_lookup_insert_Some in Hj as [(-> & -> & _)|(_ & Hj)].
  - exists st. split; [by eapply list_elem_of_lookup_2|congruence].
  - exists st1. split; [by eapply list_elem_of_lookup_2|done].
Qed.

(** A stream is dropped, after the world has moved on to [w1]. *)
Lemma drop_refined owner (i : nat) st w1 w' new s h ts :
  sys_inv owner (mkSystem s h ts) -> stream_good (pkt_chan s) (cfg_mtu (config s)) st ->
  outside (pkt_chan s) (fits (cfg_mtu (config s))) (sworld s) w1 -> drop_user st w1 = (w', new) ->
  refined owner (mkSystem s h ts) (mkSystem (with_world w' s) (delete i h) (ts ++ new)).
Proof.
  intros Hinv Hg Ho Hd. pose proof Hinv as [_ _ _ _ Hhe Hta _]; simpl in *.
  destruct (drop_user_outside (pkt_chan s) (cfg_mtu (config s)) st w1 w' new) as [Ho' Hnew]; [done..|].
  apply outside_refined; [done|by etrans|by apply Forall_delete|by apply Forall_app_2|].
  intros st1 ch K Hin%elem_of_delete HK. eauto.
Qed.

(** A task is polled: it goes on, ends or panics. *)
Lemma task_refined owner i n k t w' r s h ts :
  sys_inv owner (mkSystem s h ts) -> ts !! i = Some t ->
  drop_task_poll b n k t (sworld s) = Some (w', r) ->
  refined owner (mkSystem s h ts)
    (mkSystem (with_world w' s) h (match r with Ret (Some t') => <[i := t']> ts | _ => delete i ts end)).
Proof.
  intros Hinv Hi Hrun. pose proof Hinv as [_ Hty _ _ Hhe Hta _]; simpl in *.
  assert (conn_good (pkt_chan s) (cfg_mtu (config s)) (task_stream t)) as Hg
    by (rewrite Forall_lookup in Hta; by eapply Hta).
  destruct (task_outside (pkt_chan s) (cfg_mtu (config s)) n k t (sworld s) w' r) as [Ho Ht']; [done..|].
  apply outside_refined; [done|done|done| |eauto].
  destruct r as [[t'|]|[]|q]; [apply Forall_insert; auto|by apply Forall_delete..].
Qed.

(** Every step of the system is one of the stack, and keeps the invariant. *)
Lemma system_refines owner S S' :
  sys_step S S' -> sys_inv owner S ->
  stack_step b write_all (stack S) (stack S') /\
  exists owner', owners_kept owner owner' (sworld (stack S)) (sworld (stack S')) /\ sys_inv owner' S'.
Proof.
  intros [ev Hstep] Hinv. pose proof Hinv as [Hst Hty _ _ Hhe Hta _]. change (refined owner S S').
  rewrite Forall_lookup in Hhe.
  destruct Hstep as [rnd buf s s' h ts Hrnd Hrun|k p w s s' h ts Hrecv Hrun|x s s' h ts Hrun
    |i e st st' w' s h ts Hi Hrun|i e st st' w1 w' new s h ts _ Hi Hrun Hdrop|i st w' new s h ts Hi Hrun
    |i n k t t' w' s h ts Hi Hrun|i n k t w' s h ts Hi Hrun|i n k t q w' s h ts _ Hi Hrun
    |w' s h ts Hsc Hu]; simpl in *.
  - split; [by eapply step_device|by eapply device_step_inv].
  - split; [by eapply step_packet|]. destruct (packet_step_inv owner k p w s s' h ts); eauto.
  - split; [by eapply step_accept|].
    destruct (accept_step_inv owner x s s' h ts Hinv Hrun) as [Hi E].
    exists owner. split; [simpl; rewrite E; by apply owners_same|done].
  - by eapply call_refined.
  - destruct (call_outside (pkt_chan s) (cfg_mtu (config s)) false e st (sworld s) st' w1)
      as (Hg & _ & Ho); [apply Hst|done|by eapply Hhe|done|]. by eapply drop_refined.
  - eapply (drop_refined owner i st (sworld s)); [done|by eapply Hhe|reflexivity|done].
  - by apply (task_refined owner i n k t w' (Ret (Some t')) s h ts).
  - by apply (task_refined owner i n k t w' (Ret None) s h ts).
  - by apply (task_refined owner i n k t w' (Panic q) s h ts).
  - apply outside_refined; [done|by apply outside_same|by apply Forall_lookup|done|eauto].
Qed.

Lemma boot_inv cf dev w owner :
  cfg_mtu cf ∈u U16 -> (forall d, queue d w = []) -> sys_inv owner (boot cf dev w).
Proof.
  intros Hm Hw. pose proof (stack_new_inv cf dev w owner Hm Hw) as Hst. unfold boot, stack_new in *.
  pose proof (chan_new_queue w) as Hq. destruct (chan_new w) as [ch w']. simpl in *.
  split; simpl; try done.
  - intros d p Hd Hin. rewrite Hq, decide_False, Hw in Hin by done. by apply not_elem_of_nil in Hin.
  - by rewrite Hq, decide_True.
  - intros st c K Hin. by apply not_elem_of_nil in Hin.
Qed.

Lemma system_inv owner S S' :
  rtc sys_step S S' -> sys_inv owner S ->
  rtc (stack_step b write_all) (stack S) (stack S') /\ exists owner', sys_inv owner' S'.
Proof.
  intros Hr. revert owner. induction Hr as [S|S1 S2 S3 Hstep Hr IH]; intros owner Hinv.
  { split; [done|by exists owner]. }
  destruct (system_refines owner S1 S2 Hstep Hinv) as (Hs & o2 & _ & Hinv2).
  destruct (IH o2 Hinv2) as (Hs' & o3 & Hinv3). split; [|by eauto]. by eapply rtc_l.
Qed.

(** What is on its way to the device, in every run. *)
Lemma system_sent cf dev w S p :
  cfg_mtu cf ∈u U16 -> (forall d, queue d w = []) -> rtc sys_step (boot cf dev w) S ->
  p ∈ queue (pkt_chan (stack S)) (sworld (stack S)) -> fits (cfg_mtu cf) p.
Proof.
  intros Hm Hw Hr Hin. set (owner0 := fun _ : Chan => network_tuple p).
  destruct (system_inv owner0 _ _ Hr) as (Hs & o & Hinv); [by apply boot_inv|].
  pose proof (sy_sent _ _ Hinv) as Hf. rewrite Forall_forall in Hf. specialize (Hf p Hin).
  rewrite (stack_steps_config b write_all _ _ Hs) in Hf. unfold boot, stack_new in Hf.
  by destruct (chan_new w).
Qed.

End system.
