(* ===== verification/SystemOrder.v ===== *)
(** * In-order delivery through the whole system

    A peer sends a byte stream in the packets of one session.  Whatever else the
    device returns, and however the stack, the users of the streams and the
    background tasks interleave, what is read from a stream of that session is
    the beginning of what the peer sent. *)

From S2P Require Import Prelude Errors Etherparse Packet Runtime Tcb TcbSpec Tcp TcpPacket TcpLoop.
From S2P Require Import TcpFoot TcpOrder TcpWrapper Udp Unknown Stream Stack StackSpec StackInv System.

Section system_order.
Context `{EP : Etherparse, EL : !EtherparseLaws} {W : Type} `{RT : !Runtime W NetworkPacket}.
Context `{RO : !RuntimeObs W NetworkPacket, RL : !RuntimeLaws W NetworkPacket}.
Context (b : Build).
Context {D : Type} (write_all : list byte -> D -> D * Result unit IoError).
Implicit Types (st : IpStackStream (W := W)) (w : W) (s : Stack (W := W) (D := D)).

(** What was read from a stream in a run. *)
Definition event_bytes (who : Chan * NetworkTuple) (e : event (W := W)) : list byte :=
  match e with
  | Called (Some who') (Got bs) => if decide (who' = who) then bs else []
  | _ => []
  end.
Definition bytes_read (who : Chan * NetworkTuple) (tr : list event) : list byte :=
  tr ≫= event_bytes who.

Lemma bytes_read_snoc who tr e : bytes_read who (tr ++ [e]) = bytes_read who tr ++ event_bytes who e.
Proof. unfold bytes_read. rewrite bind_app. simpl. by rewrite app_nil_r. Qed.

(** The session [K] and the peer's stream; its first byte has number [irs]. *)
Context (K : NetworkTuple) (irs : Z) (bs : list byte).

(** A packet of the session is a SYN with the number before [irs], or carries a
    piece of the stream; it does not close it. *)
Definition peer_packet (p : NetworkPacket) : Prop :=
  network_tuple p = K ->
  (forall h, transport p = TransTcp h -> tcp_syn h = true -> sequence_number h + 1 = irs) /\
  stream_packet irs bs p.

(** The same of what the device returns, after [off] bytes of packet information. *)
Definition peer_input (off : Z) (buf : list byte) : Prop :=
  forall p, parse (drain_front off buf) = Ok p -> peer_packet p.

Hypothesis Hirs : 0 <= irs.
Hypothesis Hfit : irs + len bs < U32.

(** ** The invariant *)

Definition chan_of st : option Chan := fst <$> stream_channel st.

(** A TCP stream of the session that may still deliver has delivered what was
    read from it. *)
Definition ordered (hist : Chan -> list byte) st : Prop :=
  forall t i, st = StreamTcp t -> TcpWrapper.inner t = Some i -> session_key i = K ->
    is_shut_none (shutdown i) = true ->
    is_shut_pending (shutdown i) = false /\ open_state (state (tcb i)) /\ recv_rel irs bs (tcb i) /\
    delivered irs bs (tcb i) = hist (Tcp.stream_receiver i).

Definition all_streams (S : System (W := W) (D := D)) : list (IpStackStream (W := W)) :=
  held S ++ accepted (stack S).

Record order_sys (hist : Chan -> list byte) (S : System (W := W) (D := D)) : Prop := {
  os_queues : forall d p, d <> pkt_chan (stack S) -> p ∈ queue d (sworld (stack S)) -> peer_packet p;
  os_streams : Forall (ordered hist) (all_streams S);
  os_nodup : NoDup (omap chan_of (all_streams S));
  os_prefix : forall ch, hist ch `prefix_of` bs;
  os_fresh : forall ch, used ch (sworld (stack S)) = false -> hist ch = [];
}.

Lemma ordered_no_channel hist st : stream_channel st = None -> ordered hist st.
Proof. intros Hc t i -> Hi. simpl in Hc. by rewrite Hi in Hc. Qed.

Lemma ordered_ext hist hist' st :
  ordered hist st ->
  (forall ch, stream_channel st = Some (ch, K) -> hist' ch = hist ch) -> ordered hist' st.
Proof.
  intros Ho He t i -> Hi HK Hn. destruct (Ho t i eq_refl Hi HK Hn) as (H1 & H2 & H3 & H4).
  split; [done|]. split; [done|]. split; [done|]. rewrite He; [done|]. simpl. by rewrite Hi, <-HK.
Qed.

(** ** Streams that move, and the world around them *)

Lemma order_sys_moved hist s h ts w' h' ts' :
  order_sys hist (mkSystem s h ts) ->
  (forall d, used d (sworld s) = true -> used d w' = true) ->
  (forall d, d <> pkt_chan s -> queue d w' `suffix_of` queue d (sworld s)) ->
  Forall (ordered hist) h' -> omap chan_of h' `sublist_of` omap chan_of h ->
  order_sys hist (mkSystem (with_world w' s) h' ts').
Proof.
  intros [Hq Hst Hnd Hpre Hfr] Hu Hsuf Hh' Hsub. unfold all_streams in *; simpl in *.
  split; unfold all_streams; simpl.
  - intros d p Hd Hin. apply (Hq d p Hd). destruct (Hsuf d Hd) as [l ->]. apply elem_of_app. auto.
  - apply Forall_app in Hst as [_ Ha]. by apply Forall_app_2.
  - rewrite omap_app in *. eapply sublist_NoDup; [exact Hnd|by apply sublist_app].
  - done.
  - intros ch Hch. apply Hfr. destruct (used ch (sworld s)) eqn:Hc; [|done]. by rewrite Hu in Hch.
Qed.

Definition call_bytes (e : call_event) : list byte := match e with Got x => x | _ => [] end.

Lemma got_app {E A} (rb rb' : ReadBuf (W := W)) x (r : A) :
  filled rb' = filled rb ++ x -> call_bytes (got rb rb' (Ret r : exec E A)) = x.
Proof.
  intros Hf. simpl. rewrite Hf. unfold drain_front, len. rewrite Nat2Z.id.
  by rewrite drop_app_length.
Qed.

Lemma wrote_nothing {E} buf (r : exec E PollSize) : call_bytes (wrote buf r) = [].
Proof. by destruct r as [[[|]|]| |]. Qed.

(** A call on a TCP stream: after a shutdown nothing is handed over; before it,
    what comes next, unless the call is the shutdown. *)
Lemma call_effect e t i w st' w' :
  TcpWrapper.inner t = Some i -> stream_call b true e (StreamTcp t) w st' w' ->
  exists c, st' = StreamTcp (set_inner (Some (self c)) t) /\
    (shut (mkConn i w) -> shut c /\ call_bytes e = []) /\
    (order_inv irs bs (mkConn i w) ->
      (shut c /\ call_bytes e = []) \/
      (order_inv irs bs c /\
       delivered irs bs (tcb (self c)) = delivered irs bs (tcb i) ++ call_bytes e)).
Proof.
  intros Hi Hc.
  assert (forall c, conn_ack c = conn_ack (mkConn i w) ->
    delivered irs bs (tcb (self c)) = delivered irs bs (tcb i) ++ []) as Hsame.
  { intros c Hc'. rewrite app_nil_r. unfold delivered, conn_ack in *. by rewrite Hc'. }
  inversion Hc as [n k rb ? ? t' ? rb' r Hrun|k buf ? ? t' ? r Hrun|? ? t' ? r Hrun|n k ? ? t' ? r Hrun| | |];
    subst; unfold wrapper_poll_read, wrapper_poll_write, wrapper_poll_flush,
      wrapper_poll_shutdown in Hrun; rewrite Hi in Hrun.
  - destruct (poll_read _ _ _ _) as [[s r']|] eqn:Hp; [|done]. simplify_eq. exists (conn s).
    destruct r as [r|[]|q]; [|done]. split; [done|]. split.
    + intros Hs. eapply poll_read_shut in Hp as [Hs' Hb]; [|exact Hs]. split; [done|].
      apply got_app. by rewrite Hb, app_nil_r.
    + intros Ho. right. eapply (poll_read_ordered b irs bs) in Hp as [Ho' (x & Hf & Hd)]; [|exact Ho].
      split; [done|]. simpl in Hf. by rewrite (got_app _ _ _ _ Hf).
  - pose proof (framed_poll_write b (fun _ : Empty_set => True) k buf (mkConn i w)) as Hk.
    pose proof (poll_write_quiet (E := Empty_set) b irs bs k buf (mkConn i w)) as Hq. unfold wp in Hk, Hq.
    destruct (poll_write _ _ _ _) as [c r']. simplify_eq/=. exists c. rewrite wrote_nothing.
    split; [done|]. split; [intros Hs; split; [by eapply kept_shut; [apply Hk|]|done]|].
    intros Ho. right. destruct (Hq Ho) as [Ho' Ha]. auto.
  - pose proof (framed_poll_flush b (fun _ : Empty_set => True) (mkConn i w)) as Hk.
    pose proof (quiet_poll_flush (E := Empty_set) b irs bs (mkConn i w)) as Hq. unfold wp in Hk, Hq.
    destruct (poll_flush _ _) as [c r']. simplify_eq/=. exists c.
    split; [done|]. split; [intros Hs; split; [by eapply kept_shut; [apply Hk|]|done]|].
    intros Ho. right. destruct (Hq Ho) as [Ho' Ha]. auto.
  - destruct (poll_shutdown _ _ _ _) as [[c r']|] eqn:Hp; [|done]. simplify_eq. exists c.
    apply poll_shutdown_shut in Hp. auto.
Qed.

Lemma call_ordered hist e t i w st' w' :
  TcpWrapper.inner t = Some i -> session_key i = K -> Tcp.packet_sender i <> Tcp.stream_receiver i ->
  (forall p, p ∈ queue (Tcp.stream_receiver i) w -> stream_packet irs bs p) ->
  ordered hist (StreamTcp t) -> hist (Tcp.stream_receiver i) `prefix_of` bs ->
  stream_call b true e (StreamTcp t) w st' w' -> stream_channel st' = stream_channel (StreamTcp t) ->
  let ch := Tcp.stream_receiver i in
  let hist' := fun d => hist d ++ event_bytes (d, K) (Called (Some (ch, K)) e) in
  ordered hist' st' /\ hist' ch `prefix_of` bs.
Proof.
  intros Hi HK Hd Hq Ho Hp Hc Hch ch hist'.
  destruct (call_effect e t i w st' w' Hi Hc) as (c & -> & Hshut & Hord).
  assert (hist' ch = hist ch ++ call_bytes e) as Hh'.
  { unfold hist'. f_equal. destruct e; simpl; by rewrite ?decide_True. }
  simpl in Hch. rewrite Hi in Hch. simpl in Hch. injection Hch as Hr Hk'.
  assert (shut c -> call_bytes e = [] ->
    ordered hist' (StreamTcp (set_inner (Some (self c)) t)) /\ hist' ch `prefix_of` bs) as Hs.
  { intros Hs He. split; [|by rewrite Hh', He, app_nil_r].
    intros t' i' [= <-] [= <-] _ Hn. unfold shut in Hs. congruence. }
  destruct (is_shut_none (shutdown i)) eqn:Hn.
  2:{ destruct (Hshut Hn) as [? ?]. auto. }
  destruct (Ho t i eq_refl Hi HK Hn) as (H1 & H2 & H3 & H4).
  assert (order_inv irs bs (mkConn i w)) as Hoi.
  { split; try done. by apply Forall_forall. }
  destruct (Hord Hoi) as [[? ?]|[Ho' Hd']]; [auto|].
  assert (delivered irs bs (tcb (self c)) = hist' ch) as Hd2 by (by rewrite Hd', H4, Hh').
  split.
  - intros t' i' [= <-] [= <-] _ _. destruct Ho'. rewrite Hr. done.
  - rewrite <-Hd2. unfold delivered, truncate. by eexists (drop _ _); rewrite take_drop.
Qed.

(** ** Every step keeps the invariant *)

Lemma order_sys_ext hist hist' S : (forall ch, hist' ch = hist ch) -> order_sys hist S -> order_sys hist' S.
Proof.
  intros He [H1 H2 H3 H4 H5]. split; [done| |done|intros ch; rewrite He; done|intros ch; rewrite He; auto].
  eapply Forall_impl; [exact H2|]. intros st Ho. by eapply ordered_ext.
Qed.

(** Two streams never share a channel. *)
Lemma omap_nodup_split {A B} (f : A -> option B) l1 x l2 c y :
  NoDup (omap f (l1 ++ x :: l2)) -> f x = Some c -> y ∈ l1 ++ l2 -> f y <> Some c.
Proof.
  rewrite omap_app. simpl. intros Hnd Hx Hy Hc. rewrite Hx in Hnd.
  apply NoDup_app in Hnd as (_ & H12 & [H2 _]%NoDup_cons).
  apply elem_of_app in Hy as [Hy|Hy].
  - apply (H12 c); [apply list_elem_of_omap; eauto|constructor].
  - apply H2, list_elem_of_omap. eauto.
Qed.

Lemma sublist_omap {A B} (f : A -> option B) l k : l `sublist_of` k -> omap f l `sublist_of` omap f k.
Proof. induction 1; simpl; [done|..]; destruct (f _); by try constructor. Qed.

Lemma first_ordered hist cf p st ch w m' w' m :
  opened_by b cf p st -> stream_channel st = Some (ch, network_tuple p) -> peer_packet p ->
  typed_packet p -> hist ch = [] -> opened p m w m' w' ch -> ordered hist st.
Proof.
  intros Hop Hch Hp Hty Hh _ t i -> Hi HK Hn. simpl in Hch. rewrite Hi in Hch. simpl in Hch.
  assert (Tcp.stream_receiver i = ch /\ session_key i = network_tuple p) as [Hr Hk]
    by (split; congruence).
  destruct Hop as (rnd & now & h & pkt & ch' & mt & Ht & Hsyn & Hi').
  rewrite Hi in Hi'. injection Hi' as ->. destruct (Hp (eq_trans (eq_sym Hk) HK)) as [Hs _].
  specialize (Hs h Ht Hsyn). destruct (Hty h Ht) as (Hsq & _ & _).
  assert (wrapping_add U32 (sequence_number h) 1 = irs) as Hack
    by (rewrite wrapping_add_small by (pose proof (len_nonneg bs); lia); done).
  split; [done|]. split; [done|]. simpl. split.
  - split; simpl; [done|rewrite Hack; pose proof (len_nonneg bs); lia|done|apply map_Forall_empty].
  - unfold delivered. simpl in *. rewrite Hack, Hr, Hh, Z.sub_diag. done.
Qed.

(** A stream joins, and the queues of packets for streams grow by peer packets. *)
Lemma order_sys_joined hist s h ts m' w' r :
  order_sys hist (mkSystem s h ts) ->
  (forall d, used d (sworld s) = true -> used d w' = true) ->
  (forall d p, d <> pkt_chan s -> p ∈ queue d w' -> p ∈ queue d (sworld s) \/ peer_packet p) ->
  (forall st, r = Some st -> ordered hist st /\
     forall ch, chan_of st = Some ch -> ch ∉ omap chan_of (h ++ accepted s)) ->
  order_sys hist (mkSystem (mkStack (config s) m' (pkt_chan s) (device s)
    (accepted s ++ option_list r) (accepting s) w') h ts).
Proof.
  intros [Hq Hst Hnd Hpre Hfr] Hu Hqs Hr. unfold all_streams in *; simpl in *.
  split; unfold all_streams; simpl.
  - intros d p Hd Hin. destruct (Hqs d p Hd Hin) as [Hin'|?]; [by eapply Hq|done].
  - rewrite app_assoc. apply Forall_app_2; [done|]. destruct r as [st|]; simpl; [|done].
    constructor; [by apply Hr|done].
  - rewrite app_assoc, omap_app. apply NoDup_app. split; [done|].
    destruct r as [st|]; simpl; [|split; [by intros ? ? ?%not_elem_of_nil|constructor]].
    destruct (chan_of st) as [ch|] eqn:Hch; [|split; [by intros ? ? ?%not_elem_of_nil|constructor]].
    split; [|apply NoDup_singleton]. intros d Hd ->%list_elem_of_singleton.
    by destruct (Hr st eq_refl) as [_ Hn]; apply (Hn ch Hch).
  - done.
  - intros ch Hch. apply Hfr. destruct (used ch (sworld s)) eqn:Hc; [|done]. by rewrite Hu in Hch.
Qed.

Lemma device_ordered owner hist rnd buf s s' h ts :
  sys_inv owner (mkSystem s h ts) -> order_sys hist (mkSystem s h ts) ->
  rnd ∈u U32 -> on_device_read b rnd buf s = (s', Ret tt) -> peer_input (offset b s) buf ->
  order_sys hist (mkSystem s' h ts).
Proof.
  intros Hinv Ho Hrnd Hrun Hin. pose proof (sy_stack _ _ Hinv) as Hst. simpl in Hst.
  destruct (on_device_read_outcome b rnd buf s s') as (r & Hout & ->); [done|apply Hst..|done|].
  destruct Hout as [_ Ht Hr|p ch _ -> Hp Hl _ Hq [Ht Hu]|p ch st -> Hp Hby Hch _ Hop
    |ch l _ -> _ _ [_ Hco] _ _ _ [Ht Hu]]; apply order_sys_joined; try done.
  - apply Ht.
  - intros d p Hd. destruct (touches_nil _ _ d Ht) as [-> _]. auto.
  - intros st ->. destruct (Hr st eq_refl) as [Hn _]. split; [by apply ordered_no_channel|].
    intros ch. unfold chan_of. by rewrite Hn.
  - intros d q Hd. destruct (decide (d = ch)) as [->|Hne].
    + rewrite Hq. intros [?| ->%list_elem_of_singleton]%elem_of_app; [auto|right; by apply Hin].
    + destruct (Ht d) as [-> _]; [by rewrite list_elem_of_singleton|auto].
  - apply Hop.
  - destruct Hop as (_ & _ & _ & _ & He & Ht & _). intros d q Hd.
    destruct (decide (d = ch)) as [->|Hne]; [rewrite He; by intros ?%not_elem_of_nil|].
    destruct (Ht d) as [-> _]; [by rewrite list_elem_of_singleton|auto].
  - pose proof Hop as (_ & Hu & _). intros st' [= <-]. split.
    + eapply first_ordered; [done|done|by apply Hin| |by eapply (os_fresh _ _ Ho)|done].
      intros h' Ht'. by eapply parse_tcp_range.
    + unfold chan_of at 1. rewrite Hch. intros ? [= <-] Hc.
      apply list_elem_of_omap in Hc as (y & Hy & Hcy). unfold chan_of in Hcy.
      destruct (stream_channel y) as [[c k]|] eqn:Hsy; simplify_eq/=.
      enough (used ch (sworld s) = true) by congruence.
      apply elem_of_app in Hy as [Hy|Hy]; [by eapply (sy_owned _ _ Hinv)|].
      by eapply (si_accepted _ _ Hst).
  - intros d q Hd. destruct (decide (d = ch)) as [->|Hne]; [rewrite Hco; by intros ?%not_elem_of_nil|].
    destruct (Ht d) as [-> _]; [|auto]. by rewrite elem_of_cons, list_elem_of_singleton; intros [?|?].
Qed.

(** A step that takes the stack along with its streams, whatever the history. *)
Lemma stack_ordered hist s s' h ts h' :
  order_sys hist (mkSystem s h ts) -> pkt_chan s' = pkt_chan s ->
  (forall d, used d (sworld s') = used d (sworld s)) ->
  (forall d, d <> pkt_chan s -> queue d (sworld s') = queue d (sworld s)) ->
  h' ++ accepted s' = h ++ accepted s -> order_sys hist (mkSystem s' h' ts).
Proof.
  intros [Hq Hst Hnd Hpre Hfr] Hp Hu Hqs Hh. unfold all_streams in *; simpl in *.
  split; unfold all_streams; simpl; rewrite ?Hh; try done.
  - intros d p Hd. rewrite Hp in Hd. rewrite Hqs by done. by apply Hq.
  - intros ch. rewrite Hu. apply Hfr.
Qed.

Lemma packet_ordered hist k p w s s' h ts :
  order_sys hist (mkSystem s h ts) ->
  chan_poll_recv (pkt_chan s) k (sworld s) = (Ready (Some p), w) ->
  on_packet b write_all p w s = (s', Ret tt) -> order_sys hist (mkSystem s' h ts).
Proof.
  intros Ho Hrecv Hrun. unfold on_packet in Hrun.
  destruct (process_upstream_recv _ _ _ _ _ _) as [[m' d'] r]. injection Hrun as <- _.
  pose proof (chan_recv_other (pkt_chan s) k (sworld s)) as Hq.
  pose proof (fun d => chan_recv_used (pkt_chan s) k (sworld s) d) as Hu. rewrite Hrecv in Hq, Hu.
  by eapply stack_ordered; [exact Ho|..].
Qed.

Lemma accept_ordered hist x s s' h ts :
  order_sys hist (mkSystem s h ts) -> accept true s = (s', Ready (Ok x)) ->
  order_sys hist (mkSystem s' (h ++ [x]) ts).
Proof.
  intros Ho Hrun. unfold accept in Hrun. destruct (accepted s) as [|y l] eqn:Ha; [done|].
  simplify_eq/=. eapply stack_ordered; [exact Ho|try done..]. simpl. by rewrite Ha, <-app_assoc.
Qed.

(** A call on a stream of another session, or of another protocol, reads nothing
    of the session. *)
Lemma ordered_other hist st :
  (forall t i, st = StreamTcp t -> TcpWrapper.inner t = Some i -> session_key i <> K) -> ordered hist st.
Proof. intros Hn t i He Hi HK. by destruct (Hn t i He Hi). Qed.

Lemma event_bytes_other ch who e : who <> Some (ch, K) -> event_bytes (ch, K) (Called who e) = [].
Proof. intros Hn. simpl. destruct who, e; try done. rewrite decide_False by congruence. done. Qed.

#[local] Arguments event_bytes : simpl never.

(** A call on one of the streams, for that stream. *)
Lemma called_stream owner hist i e st st' w' s h ts :
  sys_inv owner (mkSystem s h ts) -> order_sys hist (mkSystem s h ts) ->
  h !! i = Some st -> stream_call b true e st (sworld s) st' w' -> stream_channel st' = stream_channel st ->
  let hist' := fun ch => hist ch ++ event_bytes (ch, K) (Called (stream_channel st) e) in
  ordered hist' st' /\ forall ch, hist' ch `prefix_of` bs.
Proof.
  intros Hinv [Hq Hord _ Hpre _] Hi Hc Hch hist'; unfold all_streams in *.
  simpl in *.
  apply list_elem_of_lookup_2 in Hi as Hin. rewrite Forall_app, (Forall_forall _ h) in Hord.
  destruct Hord as [Hord _]. specialize (Hord st Hin).
  assert (forall ch, event_bytes (ch, K) (Called (stream_channel st) e) = [] ->
    hist' ch `prefix_of` bs) as Hnil by (intros ch He; unfold hist'; by rewrite He, app_nil_r).
  destruct st as [t|u|u|l].
  2: { inversion Hc; subst; (split; [by intros ??|intros ch; by apply Hnil]). }
  2: { inversion Hc; subst; (split; [by intros ??|intros ch; by apply Hnil]). }
  2: { inversion Hc. }
  destruct (TcpWrapper.inner t) as [j|] eqn:Hj.
  2: { split; [|intros ch; apply Hnil; simpl; by rewrite Hj].
       apply ordered_no_channel. rewrite Hch. simpl. by rewrite Hj. }
  assert (stream_channel (StreamTcp t) = Some (Tcp.stream_receiver j, session_key j)) as Hsc
    by (simpl; by rewrite Hj).
  destruct (decide (session_key j = K)) as [HK|HK].
  2: { split; [|intros ch; apply Hnil, event_bytes_other; congruence].
       apply ordered_other. intros t' i' -> Hi'. simpl in Hch. rewrite Hi', Hj in Hch.
       simpl in Hch. congruence. }
  destruct (sy_owned _ _ Hinv _ _ _ Hin Hsc) as (_ & Hne & Hown).
  change (stack _) with s in *. pose proof (sy_held _ _ Hinv) as Hg. rewrite Forall_forall in Hg.
  destruct (Hg _ Hin j Hj) as (_ & Hp & _).
  destruct (call_ordered hist e t j (sworld s) st' w') as [Ho Hpr]; try done.
  - change (stack _) with s in Hp. congruence.
  - intros p Hin'. apply (Hq (Tcp.stream_receiver j)); [done|done|].
    rewrite <-HK, <-Hown. by eapply (si_queues _ _ (sy_stack _ _ Hinv)).
  - subst hist'. rewrite Hsc, HK in *. split; [done|]. intros ch.
    destruct (decide (ch = Tcp.stream_receiver j)) as [->|Hne']; [done|].
    apply Hnil, event_bytes_other. congruence.
Qed.

Lemma called_ordered owner hist i e st st' w' s h ts :
  sys_inv owner (mkSystem s h ts) -> order_sys hist (mkSystem s h ts) ->
  h !! i = Some st -> stream_call b true e st (sworld s) st' w' ->
  order_sys (fun ch => hist ch ++ event_bytes (ch, K) (Called (stream_channel st) e))
    (mkSystem (with_world w' s) (<[i := st']> h) ts).
Proof.
  intros Hinv Ho Hi Hc. pose proof Hinv as [Hst Hty _ _ Hhe _ Hown]; simpl in *.
  assert (stream_good (pkt_chan s) (cfg_mtu (config s)) st) as Hg
    by (rewrite Forall_lookup in Hhe; by eapply Hhe).
  destruct (call_outside b (pkt_chan s) (cfg_mtu (config s)) true e st (sworld s) st' w')
    as (_ & Hch & [Hu _ Hsuf _]); [apply Hst|done..|].
  destruct (called_stream owner hist i e st st' w' s h ts Hinv Ho Hi Hc Hch) as [Hst' Hpre'].
  destruct Ho as [Hq Hord Hnd Hpre Hfr]; unfold all_streams in *; simpl in *.
  apply list_elem_of_lookup_2 in Hi as Hin.
  apply list_elem_of_split_length in Hi as (h1 & h2 & -> & ->).
  rewrite insert_app_r_alt, Nat.sub_diag in * by lia. simpl. rewrite <-app_assoc in *. simpl in *.
  split; unfold all_streams; simpl; rewrite <-?app_assoc; simpl.
  - intros d p Hd Hinq. apply (Hq d p Hd). destruct (Hsuf d Hd) as [l ->]. apply elem_of_app. auto.
  - apply Forall_app in Hord as [H1 [_ H2]%Forall_cons].
    assert (forall y, y ∈ h1 ++ h2 ++ accepted s -> ordered hist y ->
      ordered (fun ch => hist ch ++ event_bytes (ch, K) (Called (stream_channel st) e)) y) as Hoth.
    { intros y Hy Hoy. eapply ordered_ext; [exact Hoy|]. intros ch Hcy.
      rewrite event_bytes_other; [apply app_nil_r|]. intros Hcs.
      eapply (omap_nodup_split chan_of h1 st _ ch y Hnd); unfold chan_of; by rewrite ?Hcs, ?Hcy. }
    rewrite Forall_forall in H1, H2.
    apply Forall_app_2; [|constructor; [done|]]; apply Forall_forall; intros y Hy;
      (apply Hoth; [rewrite elem_of_app|]; auto).
  - assert (chan_of st' = chan_of st) as He by (unfold chan_of; by rewrite Hch).
    rewrite omap_app in *. simpl in *. by rewrite He.
  - done.
  - intros ch Hch'. rewrite Hfr, event_bytes_other; [done| |].
    + intros Hcs. destruct (Hown st ch K Hin Hcs) as [Hc' _]. rewrite Hu in Hch'; done.
    + destruct (used ch (sworld s)) eqn:Hc'; [|done]. by rewrite Hu in Hch'.
Qed.

Lemma order_step owner hist e S S' :
  sys_event b write_all e S S' -> sys_inv owner S -> order_sys hist S ->
  (forall buf, e = Input buf -> peer_input (offset b (stack S)) buf) ->
  order_sys (fun ch => hist ch ++ event_bytes (ch, K) e) S'.
Proof.
  intros Hstep Hinv Ho Hin. pose proof Hinv as [Hst Hty _ _ Hhe Hta _].
  pose proof (os_streams _ _ Ho) as Hord. unfold all_streams in Hord.
  rewrite Forall_app in Hord. destruct Hord as [Hord _].
  assert (forall w' s h ts h' ts', S = mkSystem s h ts ->
    outside (pkt_chan s) (fits (cfg_mtu (config s))) (sworld s) w' -> Forall (ordered hist) h' ->
    omap chan_of h' `sublist_of` omap chan_of h ->
    order_sys hist (mkSystem (with_world w' s) h' ts')) as Hout
    by (intros w' s h ts h' ts' -> [? _ ? _] ? ?; by eapply order_sys_moved).
  destruct Hstep as [rnd buf s s' h ts Hrnd Hrun|k p w s s' h ts Hrecv Hrun|x s s' h ts Hrun
    |i e st st' w' s h ts Hi Hrun|i e st st' w1 w' new s h ts _ Hi Hrun Hdrop|i st w' new s h ts Hi Hrun
    |i n k t t' w' s h ts Hi Hrun|i n k t w' s h ts Hi Hrun|i n k t q w' s h ts _ Hi Hrun
    |w' s h ts Hsc Hu]; simpl in *;
    try (eapply order_sys_ext; [intros ch; apply app_nil_r|]).
  - eapply device_ordered; try done. by apply Hin.
  - by eapply packet_ordered.
  - by eapply accept_ordered.
  - by eapply called_ordered.
  - rewrite Forall_lookup in Hhe.
    destruct (call_outside b (pkt_chan s) (cfg_mtu (config s)) false e st (sworld s) st' w1) as (Hg & _ & Hs1);
      [apply Hst|done|by eapply Hhe|done|].
    destruct (drop_user_outside (pkt_chan s) (cfg_mtu (config s)) st' w1 w' new) as [Hs2 _]; [done..|].
    eapply Hout; [done|by etrans|by apply Forall_delete|]. apply sublist_omap, sublist_delete.
  - rewrite Forall_lookup in Hhe.
    destruct (drop_user_outside (pkt_chan s) (cfg_mtu (config s)) st (sworld s) w' new) as [Hs _];
      [by eapply Hhe|done|].
    eapply Hout; [done|done|by apply Forall_delete|]. apply sublist_omap, sublist_delete.
  - rewrite Forall_lookup in Hta.
    destruct (task_outside b (pkt_chan s) (cfg_mtu (config s)) n k t (sworld s) w' (Ret (Some t'))) as [Hs _];
      [done|by eapply Hta|done|]. by eapply Hout.
  - rewrite Forall_lookup in Hta.
    destruct (task_outside b (pkt_chan s) (cfg_mtu (config s)) n k t (sworld s) w' (Ret None)) as [Hs _];
      [done|by eapply Hta|done|]. by eapply Hout.
  - rewrite Forall_lookup in Hta.
    destruct (task_outside b (pkt_chan s) (cfg_mtu (config s)) n k t (sworld s) w' (Panic q)) as [Hs _];
      [done|by eapply Hta|done|]. by eapply Hout.
  - eapply Hout; [done|by apply outside_same|done|done].
Qed.

(** In every run from the start, what was read is what the streams delivered. *)
Lemma boot_ordered cf dev w : (forall d, queue d w = []) -> order_sys (fun _ => []) (boot cf dev w).
Proof.
  intros Hw. unfold boot, stack_new. pose proof (chan_new_queue w) as Hq.
  destruct (chan_new w) as [ch w']; simpl in *. split; simpl; try done.
  - intros d p Hd. rewrite Hq, decide_False, Hw by done. by intros ?%not_elem_of_nil.
  - constructor.
  - intros _. apply prefix_nil.
Qed.

Lemma trace_ordered tr S S' owner hist :
  sys_trace b write_all tr S S' -> sys_inv owner S -> order_sys hist S ->
  (forall buf, Input buf ∈ tr -> peer_input (offset b (stack S)) buf) ->
  exists owner', sys_inv owner' S' /\ order_sys (fun ch => hist ch ++ bytes_read (ch, K) tr) S'.
Proof.
  induction 1 as [S|tr e S1 S2 S3 Htr IH Hev]; intros Hinv Ho Hin.
  { exists owner. split; [done|]. eapply order_sys_ext; [|done]. intros ch. apply app_nil_r. }
  destruct IH as (o & Hinv2 & Ho2); [done..|intros buf Hb; apply Hin, elem_of_app; auto|].
  destruct (system_refines b write_all o S2 S3 (event_step _ _ _ _ _ Hev) Hinv2) as (_ & o' & _ & Hinv3).
  exists o'. split; [done|]. eapply order_sys_ext; [|eapply (order_step o _ e S2 S3 Hev Hinv2 Ho2)].
  { intros ch. by rewrite bytes_read_snoc, app_assoc. }
  intros buf ->. replace (offset b (stack S2)) with (offset b (stack S1)).
  - apply Hin, elem_of_app. right. constructor.
  - unfold offset. destruct (system_inv b write_all owner S1 S2) as [Hs _];
      [by eapply trace_steps|done|]. by rewrite (stack_steps_config b write_all _ _ Hs).
Qed.

End system_order.
