(* ===== verification/SystemSend.v ===== *)
(** * What the whole system sends

    The packets on their way to the device carry, in every run and whoever sent
    them (a write, a retransmission during a read, the task of a dropped stream),
    pieces of what the user wrote to a stream of their session. *)

From S2P Require Import Prelude Errors Etherparse Packet Runtime Tcb TcbSpec Tcp TcpPacket TcpLoop.
From S2P Require Import TcpFoot TcpSend TcpWrapper Udp Unknown Stream Stack StackSpec StackInv System.

Section system_send.
Context `{EP : Etherparse, EL : !EtherparseLaws} {W : Type} `{RT : !Runtime W NetworkPacket}.
Context `{RO : !RuntimeObs W NetworkPacket, RL : !RuntimeLaws W NetworkPacket}.
Context (b : Build).
Context {D : Type} (write_all : list byte -> D -> D * Result unit IoError).
Implicit Types (st : IpStackStream (W := W)) (w : W) (s : Stack (W := W) (D := D)).
Implicit Types (i : Tcp.IpStackTcpStream (W := W)) (iss : Chan (W := W) (A := NetworkPacket) -> Z).

(** What was written to a stream in a run. *)
Definition call_written (e : call_event) : list byte := match e with Wrote x => x | _ => [] end.
Definition event_written (who : Chan * NetworkTuple) (e : event (W := W)) : list byte :=
  match e with
  | Called (Some who') ev => if decide (who' = who) then call_written ev else []
  | _ => []
  end.
Definition bytes_written (who : Chan * NetworkTuple) (tr : list event) : list byte :=
  tr ≫= event_written who.

Lemma bytes_written_snoc who tr e :
  bytes_written who (tr ++ [e]) = bytes_written who tr ++ event_written who e.
Proof. unfold bytes_written. rewrite bind_app. simpl. by rewrite app_nil_r. Qed.

Definition Written : Type := Chan (W := W) (A := NetworkPacket) * NetworkTuple -> list byte.
Implicit Types hist : Written.

(** A data packet carries a piece of what was written to a stream of its session;
    the bytes of the stream with channel [ch] are numbered from [iss ch] on. *)
Definition carries iss hist (p : NetworkPacket) : Prop :=
  forall h, transport p = TransTcp h -> Packet.payload p <> [] ->
    exists ch, wpiece (iss ch) (hist (ch, reverse_network_tuple p)) (sequence_number h) (Packet.payload p).

(** ** The invariant *)

Definition conn_of st : option (Tcp.IpStackTcpStream (W := W)) :=
  match st with StreamTcp t => TcpWrapper.inner t | _ => None end.

(** The connections: of the streams the user holds or will accept, and of the
    streams that were dropped. *)
Definition conns (h : list (IpStackStream (W := W))) s (ts : list (DropTask (W := W))) :=
  omap conn_of (h ++ accepted s) ++ (task_stream <$> ts).

Definition conn_sends iss hist i : Prop :=
  forall w, send_inv (iss (Tcp.stream_receiver i)) (hist (Tcp.stream_receiver i, session_key i)) (mkConn i w).

Record send_sys iss hist (pkt : Chan) w (cs : list (Tcp.IpStackTcpStream (W := W))) : Prop := {
  ss_queue : Forall (carries iss hist) (queue pkt w);
  ss_conns : Forall (conn_sends iss hist) cs;
  ss_nodup : NoDup (Tcp.stream_receiver <$> cs);
  ss_used : Forall (fun ch => used ch w = true) (Tcp.stream_receiver <$> cs);
  ss_fresh : forall ch K, used ch w = false -> hist (ch, K) = [];
}.

Definition grows hist hist' : Prop := forall who, hist who `prefix_of` hist' who.

Lemma carries_grows iss hist hist' p : grows hist hist' -> carries iss hist p -> carries iss hist' p.
Proof.
  intros Hg Hc h Ht Hp. destruct (Hc h Ht Hp) as [ch Hw]. exists ch.
  destruct (Hg (ch, reverse_network_tuple p)) as [x ->]. by apply wpiece_app.
Qed.

Lemma carries_empty iss hist p : Packet.payload p = [] -> carries iss hist p.
Proof. by intros ? h _. Qed.

Lemma carries_other iss hist m p : not_tcp m p -> carries iss hist p.
Proof. intros [_ Hn] h Ht. by destruct (Hn h). Qed.

Lemma carries_data iss hist i p :
  reverse_network_tuple p = session_key i ->
  data_of (iss (Tcp.stream_receiver i)) (hist (Tcp.stream_receiver i, session_key i)) p ->
  carries iss hist p.
Proof.
  intros Hk [Hp|(h & Ht & Hw)] h' Ht' Hne; [done|]. rewrite Ht in Ht'. injection Ht' as <-.
  exists (Tcp.stream_receiver i). by rewrite Hk.
Qed.

Lemma conn_sends_world iss hist i w :
  send_inv (iss (Tcp.stream_receiver i)) (hist (Tcp.stream_receiver i, session_key i)) (mkConn i w) ->
  conn_sends iss hist i.
Proof. intros [? ? ? ?] w'. by split. Qed.

Lemma conn_sends_ext iss hist iss' hist' i :
  iss' (Tcp.stream_receiver i) = iss (Tcp.stream_receiver i) ->
  hist' (Tcp.stream_receiver i, session_key i) = hist (Tcp.stream_receiver i, session_key i) ->
  conn_sends iss hist i -> conn_sends iss' hist' i.
Proof. intros Hi Hh Hc w. rewrite Hi, Hh. apply Hc. Qed.

(** ** Steps of streams and tasks *)

Lemma send_sys_moved iss hist hist' pkt w cs w' cs' l :
  send_sys iss hist pkt w cs -> (forall d, used d w = true -> used d w' = true) ->
  queue pkt w' = queue pkt w ++ l -> Forall (carries iss hist') l ->
  grows hist hist' -> (forall ch K, used ch w' = false -> hist' (ch, K) = []) ->
  Forall (conn_sends iss hist') cs' ->
  Tcp.stream_receiver <$> cs' ⊆+ Tcp.stream_receiver <$> cs ->
  send_sys iss hist' pkt w' cs'.
Proof.
  intros [Hq Hc Hnd Hu Hf] Hum Hl Hcl Hg Hf' Hc' Hsub. split; try done.
  - rewrite Hl. apply Forall_app_2; [|done]. eapply Forall_impl; [exact Hq|]. intros p. by apply carries_grows.
  - apply submseteq_Permutation in Hsub as [k Hk]. rewrite Hk in Hnd. by apply NoDup_app in Hnd as [? _].
  - rewrite Forall_forall in Hu |- *. intros ch Hch. apply Hum, Hu. by eapply elem_of_submseteq.
Qed.

(** The same when nothing is written and the connections stay. *)
Lemma send_sys_kept iss hist pkt w cs w' cs' l :
  send_sys iss hist pkt w cs -> (forall d, used d w = true -> used d w' = true) ->
  queue pkt w' = queue pkt w ++ l -> Forall (carries iss hist) l -> cs' ⊆+ cs ->
  send_sys iss hist pkt w' cs'.
Proof.
  intros Hs Hu Hl Hcl Hsub. eapply send_sys_moved; [exact Hs|done|done|done|by intros who|..].
  - intros ch K Hc. apply (ss_fresh _ _ _ _ _ Hs). destruct (used ch w) eqn:Hw; [|done].
    by rewrite Hu in Hc.
  - rewrite Forall_forall. intros x Hx. pose proof (ss_conns _ _ _ _ _ Hs) as Hc.
    rewrite Forall_forall in Hc. apply Hc. by eapply elem_of_submseteq.
  - by apply fmap_submseteq.
Qed.

(** A new connection, on a channel that was never used. *)
Lemma send_sys_added iss hist pkt w cs w' cs' i :
  send_sys iss hist pkt w cs -> (forall d, used d w = true -> used d w' = true) ->
  queue pkt w' = queue pkt w -> used (Tcp.stream_receiver i) w = false ->
  used (Tcp.stream_receiver i) w' = true -> conn_sends iss hist i -> cs' ≡ₚ i :: cs ->
  send_sys iss hist pkt w' cs'.
Proof.
  intros [Hq Hc Hnd Hu Hf] Hum Hqq Hn Hn' Hi Hcs. split.
  - by rewrite Hqq.
  - rewrite Hcs. by constructor.
  - rewrite Hcs. simpl. constructor; [|done]. intros Hin. rewrite Forall_forall in Hu.
    apply Hu in Hin. congruence.
  - rewrite Hcs. simpl. constructor; [done|]. eapply Forall_impl; [exact Hu|]. auto.
  - intros ch K Hch. apply Hf. destruct (used ch w) eqn:Hw; [|done]. by rewrite Hum in Hch.
Qed.

(** Numbers of channels that were never used may be chosen anew. *)
Lemma carries_fresh iss iss' hist w p :
  (forall ch K, used ch w = false -> hist (ch, K) = []) ->
  (forall ch, used ch w = true -> iss' ch = iss ch) -> carries iss hist p -> carries iss' hist p.
Proof.
  intros Hf Hi Hc h Ht Hp. destruct (Hc h Ht Hp) as [ch Hw]. exists ch.
  destruct (used ch w) eqn:Hu; [by rewrite Hi|]. rewrite Hf in Hw by done.
  destruct Hw as (k & _ & _ & Hpre). unfold drain_front in Hpre. rewrite drop_nil in Hpre.
  by apply prefix_nil_inv in Hpre.
Qed.

Lemma send_sys_fresh iss iss' hist pkt w cs :
  (forall ch, used ch w = true -> iss' ch = iss ch) ->
  send_sys iss hist pkt w cs -> send_sys iss' hist pkt w cs.
Proof.
  intros Hi [Hq Hc Hnd Hu Hf]. split; try done.
  - eapply Forall_impl; [exact Hq|]. intros p. by eapply carries_fresh.
  - rewrite Forall_forall in Hc |- *. rewrite Forall_forall in Hu. intros x Hx. eapply conn_sends_ext; [|done|by apply Hc].
    apply Hi, Hu. by apply list_elem_of_fmap_2.
Qed.

(** What a connection did and what it sent, seen from the channel to the device. *)
Lemma own_carries iss hist m i w c :
  conn_good (Tcp.packet_sender i) m i -> own (mkConn i w) c ->
  send_inv (iss (Tcp.stream_receiver i)) (hist (Tcp.stream_receiver i, session_key i)) c ->
  sends (iss (Tcp.stream_receiver i)) (hist (Tcp.stream_receiver i, session_key i)) (mkConn i w) c ->
  conn_sends iss hist (self c) /\ Tcp.stream_receiver (self c) = Tcp.stream_receiver i /\
  exists l, queue (Tcp.packet_sender i) (world c) = queue (Tcp.packet_sender i) w ++ l /\
    Forall (carries iss hist) l.
Proof.
  intros Hg [Hcfg _ _ (l & Hl & Hm) _] Hinv [_ (l' & Hl' & Hd)]. unfold txq in *. simpl in *.
  rewrite Hl in Hl'. apply app_inv_head in Hl' as ->. unfold cfg in Hcfg.
  injection Hcfg as Es Ed Er Ep Em. split; [|split; [done|]].
  - apply (conn_sends_world _ _ _ (world c)). destruct c as [i' w']. simpl in *.
    unfold session_key in *. by rewrite Es, Ed, Er.
  - exists l'. rewrite Ep in Hl. split; [done|]. rewrite Forall_forall in Hm, Hd |- *.
    intros p Hp. destruct (Hm p Hp) as [Hk _]. eapply carries_data; [done|by apply Hd].
Qed.

(** A call on a TCP stream, for its connection. *)
Lemma call_sends ok e t i w st' w' first S :
  TcpWrapper.inner t = Some i -> stream_call b ok e (StreamTcp t) w st' w' ->
  send_inv first S (mkConn i w) ->
  exists c, st' = StreamTcp (set_inner (Some (self c)) t) /\ w' = world c /\
    send_inv first (S ++ call_written e) c /\ sends first (S ++ call_written e) (mkConn i w) c.
Proof.
  intros Hi Hc Hs.
  inversion Hc as [n k rb ? ? t' ? rb' r Hrun|k buf ? ? t' ? r Hrun|? ? t' ? r Hrun|n k ? ? t' ? r Hrun| | |];
    subst; unfold wrapper_poll_read, wrapper_poll_write, wrapper_poll_flush,
      wrapper_poll_shutdown in Hrun; rewrite Hi in Hrun; simpl; rewrite ?app_nil_r.
  - destruct (poll_read _ _ _ _) as [[s r']|] eqn:Hp; [|done]. simplify_eq. exists (conn s).
    apply (poll_read_talks b first S) in Hp; [|done].
    by destruct r; unfold got; simpl; rewrite ?app_nil_r.
  - destruct (poll_write _ _ _ _) as [c r'] eqn:Hp. simplify_eq/=.
    apply (poll_write_written b first k buf S) in Hp; [|done]. exists c.
    replace (call_written (wrote buf r)) with (accepted_by buf r) by (by destruct r as [[[|]|]| |]). done.
  - destruct (poll_flush _ _) as [c r'] eqn:Hp. simplify_eq/=. exists c.
    pose proof (talks_poll_flush b first S (fun _ : Empty_set => True) (mkConn i w) Hs) as Hf.
    unfold wp in Hf. rewrite Hp in Hf. by destruct Hf as (? & ? & _).
  - destruct (poll_shutdown _ _ _ _) as [[c r']|] eqn:Hp; [|done]. simplify_eq. exists c.
    apply (poll_shutdown_talks b first S) in Hp; [done|done].
Qed.

(** The task of a dropped stream. *)
Lemma task_sends iss hist pkt m n k t w w' r :
  typed_queues pkt w -> conn_good pkt m (task_stream t) -> conn_sends iss hist (task_stream t) ->
  drop_task_poll b n k t w = Some (w', r) ->
  (exists l, queue pkt w' = queue pkt w ++ l /\ Forall (carries iss hist) l) /\
  forall t', r = Ret (Some t') -> conn_sends iss hist (task_stream t') /\
    Tcp.stream_receiver (task_stream t') = Tcp.stream_receiver (task_stream t).
Proof.
  intros Hq Hg Hs. destruct (conn_start pkt m (task_stream t) w Hg Hq) as (Hd & Hrx & Hty).
  unfold drop_task_poll.
  replace (match t with Spawned i => _ | Running i d => _ end) with (task_stream t, task_deadline w t)
    by (by destruct t). cbn beta iota.
  destruct (poll_shutdown _ _ _ _) as [[c r1]|] eqn:Hp; [|done].
  destruct (poll_shutdown_talks b _ _ _ _ _ _ _ (Hs w) Hp) as [Hi' Hse].
  apply (poll_shutdown_own b) in Hp; [|done..].
  pose proof Hg as (_ & Hpk & Hne & _). rewrite <-Hpk in *.
  destruct (own_outside _ m _ w c Hg Hp) as (Hg' & _ & _).
  destruct (own_carries iss hist m (task_stream t) w c Hg Hp Hi' Hse) as (Hc' & Hr' & l & Hl & Hcl).
  assert (forall w1 w2 r2, queue (Tcp.packet_sender (task_stream t)) w1 = queue (Tcp.packet_sender (task_stream t)) (world c) ->
    drop_stream b (self c) w1 = (w2, r2) -> exists l,
    queue (Tcp.packet_sender (task_stream t)) w2 = queue (Tcp.packet_sender (task_stream t)) w ++ l /\
    Forall (carries iss hist) l) as Hend.
  { intros w1 w2 r2 Hw1. unfold drop_stream. destruct Hg' as (Hwf & Hps & Hsr & _).
    destruct (create_rev_packet_ok b (self c) NON DROP_TTL None []) as (p & -> & Hrp); [apply Hwf|].
    rewrite Hps. pose proof (chan_send_queue (Tcp.packet_sender (task_stream t)) p w1
      (Tcp.packet_sender (task_stream t))) as Hsq. rewrite decide_True in Hsq by done.
    destruct (chan_send _ _ _) as [ok w3]. intros [= <- _]. simpl in Hsq.
    rewrite chan_close_queue, decide_False, Hsq, Hw1, Hl by done.
    destruct (rx_open _ _); [|by exists l]. exists (l ++ [p]). rewrite app_assoc. split; [done|].
    apply Forall_app_2; [done|]. constructor; [|done]. apply carries_empty.
    destruct Hrp as [-> _ _ _ _ _ _]. unfold truncate. by rewrite take_nil. }
  destruct r1 as [[v|]|[]|q].
  3:{ destruct (drop_stream _ _ _) as [w1 r2] eqn:Hdr. apply Hend in Hdr; [|done].
      intros [= <- <-]. split; [exact Hdr|done]. }
  - destruct (drop_stream _ _ _) as [w1 r2] eqn:Hdr. apply Hend in Hdr; [|done].
    destruct r2; intros [= <- <-]; (split; [exact Hdr|done]).
  - pose proof (sleep_poll_chans (task_deadline w t) k (world c)) as [Hsc _].
    destruct (sleep_poll _ _ _) as [e w1]; simpl in *. destruct e.
    + destruct (drop_stream _ _ _) as [w2 r2] eqn:Hdr. apply Hend in Hdr; [|done].
      destruct r2; intros [= <- <-]; (split; [exact Hdr|done]).
    + intros [= <- <-]. split; [exists l; by rewrite Hsc|]. by intros t' [= <-].
Qed.

(** ** Every step keeps the invariant *)

Definition sending iss hist (S : System (W := W) (D := D)) : Prop :=
  send_sys iss hist (pkt_chan (stack S)) (sworld (stack S)) (conns (held S) (stack S) (tasks S)).

Lemma sending_hist iss hist hist' S : (forall who, hist' who = hist who) -> sending iss hist S -> sending iss hist' S.
Proof.
  intros He [H1 H2 H3 H4 H5]. split; try done.
  - eapply Forall_impl; [exact H1|]. intros p. apply carries_grows. intros who. by rewrite He.
  - eapply Forall_impl; [exact H2|]. intros x. by apply conn_sends_ext.
  - intros ch K Hc. by rewrite He, (H5 ch K Hc).
Qed.

(** A stream the stack has just made. *)
Lemma first_sends iss hist rnd now p h pkt ch mt tmo :
  ch <> pkt -> (forall K, hist (ch, K) = []) ->
  let i := first_stream b rnd now p h pkt ch mt tmo in iss ch = seq (tcb i) + 1 -> conn_sends iss hist i.
Proof.
  intros Hne Hh i Hi w. simpl. rewrite Hh, Hi. split; [by apply not_eq_sym|done|apply Forall_nil_2|done].
Qed.

Lemma conns_accept h s ts r :
  omap conn_of (h ++ accepted s ++ option_list r) ++ (task_stream <$> ts) ≡ₚ
  option_list (r ≫= conn_of) ++ conns h s ts.
Proof.
  unfold conns. rewrite app_assoc, !omap_app. destruct r as [st|]; simpl; [|by rewrite app_nil_r].
  destruct (conn_of st) as [i|]; simpl; [|by rewrite app_nil_r].
  rewrite <-!app_assoc. simpl. rewrite app_assoc. rewrite <-Permutation_middle. by rewrite <-app_assoc.
Qed.

Lemma no_channel_conn st : stream_channel st = None -> conn_of st = None.
Proof. destruct st as [t|u|u|l]; simpl; try done. by destruct (TcpWrapper.inner t). Qed.

Lemma device_sends owner iss hist rnd buf s s' h ts :
  sys_inv owner (mkSystem s h ts) -> sending iss hist (mkSystem s h ts) ->
  rnd ∈u U32 -> on_device_read b rnd buf s = (s', Ret tt) ->
  exists iss', (forall ch, used ch (sworld s) = true -> iss' ch = iss ch) /\
    sending iss' hist (mkSystem s' h ts).
Proof.
  intros Hinv Hse Hrnd Hrun. pose proof (sy_stack _ _ Hinv) as Hst. simpl in Hst.
  destruct (on_device_read_outcome b rnd buf s s') as (r & Hout & ->); [done|apply Hst..|done|].
  unfold sending in *; simpl in *.
  set (cs' := conns _ _ _). set (w' := sworld s') in *. set (m' := sessions s') in *.
  assert (cs' ≡ₚ option_list (r ≫= conn_of) ++ conns h s ts) as Hcs by apply conns_accept.
  assert (forall l, r ≫= conn_of = None -> (forall d, used d (sworld s) = true -> used d w' = true) ->
    queue (pkt_chan s) w' = queue (pkt_chan s) (sworld s) ++ l -> Forall (carries iss hist) l ->
    exists iss', (forall ch, used ch (sworld s) = true -> iss' ch = iss ch) /\
      send_sys iss' hist (pkt_chan s) w' cs') as Hsame.
  { intros l Hn Hu Hl Hcl. exists iss. split; [done|]. eapply send_sys_kept; [done..|].
    rewrite Hcs, Hn. done. }
  destruct Hout as [_ Ht Hr|p ch _ -> Hp Hl _ Hq [Ht Hu]|p ch st -> Hp Hby Hch Hgo Hop
    |ch l _ -> _ _ _ Hl _ Hem [Ht Hu]].
  - apply (Hsame []); [|apply Ht| |constructor].
    + destruct r as [st|]; [|done]. apply no_channel_conn. by apply Hr.
    + destruct (touches_nil _ _ (pkt_chan s) Ht) as [-> _]. by rewrite app_nil_r.
  - apply (Hsame []); [done|done| |constructor]. rewrite app_nil_r.
    apply live_session in Hl as [Hm _]. destruct (si_sessions _ _ Hst _ _ Hm) as (_ & Hne & _).
    apply Ht. rewrite list_elem_of_singleton. congruence.
  - destruct Hop as (_ & Hu & Hu' & _ & _ & Ht & Hum).
    assert (ch <> pkt_chan s) as Hne
      by (intros ->; pose proof (chan_open_used _ _ (si_pkt _ _ Hst)); congruence).
    destruct (Ht (pkt_chan s)) as [Hq _]; [by rewrite list_elem_of_singleton|].
    destruct (conn_of st) as [i|] eqn:Hi.
    2:{ apply (Hsame []); [done|done|by rewrite app_nil_r|constructor]. }
    destruct st as [t| | |]; simpl in Hi; try done.
    destruct Hby as (rnd' & now & h' & pkt & ch' & mt & _ & _ & Hi'). rewrite Hi in Hi'. injection Hi' as ->.
    simpl in Hch. rewrite Hi in Hch. simpl in Hch. assert (ch' = ch) as -> by congruence.
    destruct (Hgo _ Hi) as (_ & Hpk & _). simpl in Hpk. subst pkt.
    set (i := first_stream _ _ _ _ _ _ _ _ _) in *.
    set (iss' := fun d => if decide (d = ch) then seq (tcb i) + 1 else iss d).
    assert (forall d, used d (sworld s) = true -> iss' d = iss d) as Hiss.
    { intros d Hd. unfold iss'. rewrite decide_False; [done|congruence]. }
    exists iss'. split; [done|]. eapply (send_sys_added _ _ _ _ (conns h s ts) _ cs' i);
      [by eapply send_sys_fresh|done..| |].
    + apply first_sends; [done| |]; [|unfold iss'; by rewrite decide_True].
      intros K. by apply (ss_fresh _ _ _ _ _ Hse).
    + rewrite Hcs. simpl. by rewrite Hi.
  - apply (Hsame l); [done|done|done|]. eapply Forall_impl; [exact Hem|]. intros q. apply carries_empty.
Qed.

Lemma packet_sends iss hist k p w s s' h ts :
  sending iss hist (mkSystem s h ts) ->
  chan_poll_recv (pkt_chan s) k (sworld s) = (Ready (Some p), w) ->
  on_packet b write_all p w s = (s', Ret tt) ->
  sending iss hist (mkSystem s' h ts) /\ carries iss hist p.
Proof.
  intros [Hq Hc Hnd Hu Hf] Hrecv Hrun. unfold on_packet in Hrun; simpl in *.
  destruct (process_upstream_recv _ _ _ _ _ _) as [[m' d'] r]. injection Hrun as <- _.
  pose proof (chan_recv_spec (pkt_chan s) k (sworld s)) as Hs.
  pose proof (chan_recv_used (pkt_chan s) k (sworld s)) as Hum. rewrite Hrecv in Hs, Hum. simpl in *.
  rewrite Hs in Hq. apply Forall_cons in Hq as [Hp Hq]. split; [|done]. split; simpl; try done.
  - eapply Forall_impl; [exact Hu|]. intros ch. by rewrite Hum.
  - intros ch K. rewrite Hum. apply Hf.
Qed.

Lemma accept_sends iss hist x s s' h ts :
  sending iss hist (mkSystem s h ts) -> accept true s = (s', Ready (Ok x)) ->
  sending iss hist (mkSystem s' (h ++ [x]) ts).
Proof.
  intros Hse Hrun. unfold accept in Hrun. destruct (accepted s) as [|y l] eqn:Ha; [done|].
  simplify_eq/=. unfold sending, conns in *; simpl in *. by rewrite Ha, <-app_assoc in *.
Qed.

Lemma conns_split h1 st h2 s ts :
  conns (h1 ++ st :: h2) s ts =
  omap conn_of h1 ++ option_list (conn_of st) ++ omap conn_of (h2 ++ accepted s) ++ (task_stream <$> ts).
Proof.
  unfold conns. rewrite <-app_assoc, omap_app, <-app_assoc. simpl. by destruct (conn_of st).
Qed.

(** A call on a stream that is no TCP connection. *)
Lemma other_call_sends owner iss hist j ok e st st' w' s h ts :
  sys_inv owner (mkSystem s h ts) -> sending iss hist (mkSystem s h ts) -> conn_of st = None ->
  h !! j = Some st -> stream_call b ok e st (sworld s) st' w' ->
  sending iss hist (mkSystem (with_world w' s) (<[j := st']> h) ts) /\
  forall who, event_written who (Called (stream_channel st) e) = [].
Proof.
  intros Hinv Hse Hn Hj Hc. pose proof Hinv as [Hst Hty _ _ Hhe _ _]; simpl in *.
  assert (stream_good (pkt_chan s) (cfg_mtu (config s)) st) as Hg
    by (rewrite Forall_lookup in Hhe; by eapply Hhe).
  destruct (call_outside b (pkt_chan s) (cfg_mtu (config s)) ok e st (sworld s) st' w')
    as (_ & _ & [Hum _ _ _]); [apply Hst|done..|].
  assert (conn_of st' = None /\ (exists l, queue (pkt_chan s) w' = queue (pkt_chan s) (sworld s) ++ l /\
    Forall (carries iss hist) l) /\ forall who, event_written who (Called (stream_channel st) e) = [])
    as (Hn' & (l & Hl & Hcl) & Hwr).
  { assert (forall w2, outside (pkt_chan s) (not_tcp (cfg_mtu (config s))) (sworld s) w2 -> exists l,
      queue (pkt_chan s) w2 = queue (pkt_chan s) (sworld s) ++ l /\ Forall (carries iss hist) l) as Hnt.
    { intros w2 [_ _ _ (l & Hl & Hf)]. exists l. split; [done|]. eapply Forall_impl; [exact Hf|].
      intros p. apply carries_other. }
    destruct st as [t|u|u|bs].
    - destruct (tcp_call_gone b ok e t (sworld s) st' w' Hn Hc) as [-> ->]. split; [done|].
      split; [exists []; by rewrite app_nil_r|]. intros who. simpl in *. by rewrite Hn.
    - pose proof (udp_call_outside b (pkt_chan s) (cfg_mtu (config s)) ok e u (sworld s) st' w' Hg Hc)
        as (_ & _ & Ho). split; [by inversion Hc|]. split; [by apply Hnt|].
      intros who. simpl. case_decide; [|done]. by inversion Hc.
    - split; [by inversion Hc|]. split; [|done]. inversion Hc; subst. eapply Hnt, unknown_send_outside;
        [apply Hst|done|done].
    - inversion Hc. }
  split; [|done]. unfold sending in *; simpl in *.
  apply list_elem_of_split_length in Hj as (h1 & h2 & -> & ->).
  rewrite insert_app_r_alt, Nat.sub_diag by lia. simpl.
  eapply send_sys_kept; [exact Hse|done..|]. unfold conns; simpl. fold (conns (h1 ++ st :: h2) s ts).
  change (omap conn_of ((h1 ++ st' :: h2) ++ accepted s) ++ (task_stream <$> ts))
    with (conns (h1 ++ st' :: h2) s ts). by rewrite !conns_split, Hn, Hn'.
Qed.

(** A call on a TCP connection: the history of its stream grows by what the call
    accepted, and no other connection is concerned. *)
Lemma tcp_call_sends owner iss hist j ok e t i st' w' s h ts :
  sys_inv owner (mkSystem s h ts) -> sending iss hist (mkSystem s h ts) ->
  h !! j = Some (StreamTcp t) -> TcpWrapper.inner t = Some i ->
  stream_call b ok e (StreamTcp t) (sworld s) st' w' ->
  sending iss (fun who => hist who ++ event_written who (Called (stream_channel (StreamTcp t)) e))
    (mkSystem (with_world w' s) (<[j := st']> h) ts).
Proof.
  intros Hinv Hse Hj Hi Hc. pose proof Hinv as [Hst Hty _ _ Hhe _ Hown]; simpl in *.
  assert (conn_good (pkt_chan s) (cfg_mtu (config s)) i) as Hg
    by (rewrite Forall_lookup in Hhe; by apply (Hhe j (StreamTcp t))).
  destruct (conn_start _ _ i (sworld s) Hg Hty) as (Hd & Hrx & Hsty).
  destruct (tcp_call_own b ok e t i (sworld s) st' w' Hi Hd Hrx Hsty Hc) as (c & Hownc & -> & ->).
  destruct (own_outside _ _ i (sworld s) c Hg Hownc) as (_ & _ & [Hum _ _ _]).
  apply list_elem_of_lookup_2 in Hj as Hin. rewrite Hi; simpl.
  set (K := session_key i). set (ch := Tcp.stream_receiver i).
  set (hist' := fun who => hist who ++ (if decide ((ch, K) = who) then call_written e else [])).
  assert (grows hist hist') as Hgr by (intros who; by eexists).
  destruct (Hown _ ch K Hin) as (Huch & _ & _); [simpl; by rewrite Hi|].
  unfold sending in *; simpl in *. apply list_elem_of_split_length in Hj as (h1 & h2 & -> & ->).
  rewrite insert_app_r_alt, Nat.sub_diag by lia. simpl.
  change (conns _ (with_world _ _) ts) with
    (conns (h1 ++ StreamTcp (set_inner (Some (self c)) t) :: h2) s ts).
  rewrite conns_split in *. simpl in *. rewrite Hi in Hse. simpl in Hse.
  pose proof (ss_conns _ _ _ _ _ Hse) as Hcs. pose proof (ss_nodup _ _ _ _ _ Hse) as Hnd.
  rewrite fmap_app, fmap_cons in Hnd. apply NoDup_app in Hnd as (_ & Hn1 & [Hn2 _]%NoDup_cons).
  apply Forall_app in Hcs as [Hc1 [Hci Hc2]%Forall_cons].
  destruct (call_sends ok e t i (sworld s) _ _ _ _ Hi Hc (Hci (sworld s))) as (c' & [= Hcc] & Hw & Hsi & Hss).
  assert (c' = c) as -> by (destruct c', c; simpl in *; congruence).
  assert (hist' (ch, K) = hist (ch, K) ++ call_written e) as Hh by (unfold hist'; by rewrite decide_True).
  assert (Tcp.packet_sender i = pkt_chan s) as Hpk by apply Hg.
  destruct (own_carries iss hist' (cfg_mtu (config s)) i (sworld s) c) as (Hcn & Hrc & l & Hl & Hcl);
    [by rewrite Hpk|done|fold ch K; by rewrite Hh|fold ch K; by rewrite Hh|].
  rewrite Hpk in Hl.
  assert (forall x, Tcp.stream_receiver x <> ch -> conn_sends iss hist x -> conn_sends iss hist' x) as Hoth.
  { intros x Hx. apply conn_sends_ext; [done|]. unfold hist'. rewrite decide_False by congruence.
    apply app_nil_r. }
  eapply send_sys_moved; [exact Hse|done|exact Hl|done|done|..].
  - intros d K' Hd'. unfold hist'. rewrite decide_False by (intros [= <- <-]; by rewrite Hum in Hd').
    rewrite app_nil_r. apply (ss_fresh _ _ _ _ _ Hse). destruct (used d (sworld s)) eqn:Hx; [|done].
    by rewrite Hum in Hd'.
  - rewrite Forall_forall in Hc1, Hc2. apply Forall_app_2; [|constructor; [done|]];
      apply Forall_forall; intros x Hx; (apply Hoth; [|by auto]); intros He.
    + apply (Hn1 ch); [rewrite <-He; by apply list_elem_of_fmap_2|constructor].
    + apply Hn2. fold ch. rewrite <-He. by apply list_elem_of_fmap_2.
  - rewrite !fmap_app, !fmap_cons, Hrc. done.
Qed.

Lemma drop_sends iss hist j st w' new s h ts :
  sending iss hist (mkSystem s h ts) -> (stream_good (pkt_chan s) (cfg_mtu (config s)) st) ->
  h !! j = Some st -> drop_user st (sworld s) = (w', new) ->
  sending iss hist (mkSystem (with_world w' s) (delete j h) (ts ++ new)).
Proof.
  intros Hse Hg Hj Hd. unfold sending in *; simpl in *.
  destruct (drop_user_outside (pkt_chan s) (cfg_mtu (config s)) st (sworld s) w' new) as [[Hum _ _ _] _];
    [done..|].
  assert (queue (pkt_chan s) w' = queue (pkt_chan s) (sworld s)) as Hq.
  { destruct st as [t|u|u|bs]; simpl in Hd; simplify_eq; try done. destruct Hg as (_ & _ & Hne & _).
    by rewrite chan_close_queue, decide_False. }
  assert (task_stream <$> new = option_list (conn_of st)) as Hnew.
  { destruct st as [t|u|u|bs]; simpl in Hd; simplify_eq; try done. simpl. by destruct (TcpWrapper.inner t). }
  apply list_elem_of_split_length in Hj as (h1 & h2 & -> & ->). rewrite delete_middle.
  eapply (send_sys_kept _ _ _ _ _ _ _ []); [exact Hse|done|by rewrite app_nil_r|constructor|].
  apply Permutation_submseteq. rewrite conns_split. unfold conns; simpl.
  rewrite fmap_app, Hnew, <-app_assoc, omap_app, <-!app_assoc. apply Permutation_app_head.
  by rewrite (Permutation_app_comm (option_list _)), <-!app_assoc.
Qed.

Lemma task_step_sends owner iss hist j n k t w' r s h ts :
  sys_inv owner (mkSystem s h ts) -> sending iss hist (mkSystem s h ts) ->
  ts !! j = Some t -> drop_task_poll b n k t (sworld s) = Some (w', r) ->
  sending iss hist (mkSystem (with_world w' s) h
    (match r with Ret (Some t') => <[j := t']> ts | _ => delete j ts end)).
Proof.
  intros Hinv Hse Hj Hrun. pose proof Hinv as [Hst Hty _ _ _ Hta _]; simpl in *.
  assert (conn_good (pkt_chan s) (cfg_mtu (config s)) (task_stream t)) as Hg
    by (rewrite Forall_lookup in Hta; by eapply Hta).
  unfold sending in *; simpl in *. change (conns h (with_world w' s)) with (conns h s).
  destruct (task_outside b (pkt_chan s) (cfg_mtu (config s)) n k t (sworld s) w' r) as [[Hum _ _ _] _];
    [done..|].
  apply list_elem_of_split_length in Hj as (t1 & t2 & -> & ->).
  assert (forall x, conns h s (t1 ++ x ++ t2) =
    (omap conn_of (h ++ accepted s) ++ (task_stream <$> t1)) ++ (task_stream <$> x) ++ (task_stream <$> t2))
    as Hcs by (intros x; unfold conns; by rewrite !fmap_app, <-app_assoc).
  pose proof (ss_conns _ _ _ _ _ Hse) as Hcf. rewrite (Hcs [t] : conns h s (t1 ++ t :: t2) = _) in Hcf.
  apply Forall_app in Hcf as [Hc1 [Hct Hc2]%Forall_cons].
  destruct (task_sends iss hist (pkt_chan s) (cfg_mtu (config s)) n k t (sworld s) w' r)
    as ((l & Hl & Hcl) & Hr'); [done..|].
  eapply send_sys_moved; [exact Hse|done|exact Hl|done|by intros who|..].
  - intros ch K Hc. apply (ss_fresh _ _ _ _ _ Hse). destruct (used ch (sworld s)) eqn:Hw; [|done].
    by rewrite Hum in Hc.
  - destruct r as [[t'|]|[]|q]; [rewrite insert_app_r_alt, Nat.sub_diag by lia; simpl; rewrite (Hcs [t'] : conns h s (t1 ++ t' :: t2) = _)
                         |rewrite delete_middle, (Hcs [] : conns h s (t1 ++ t2) = _)..];
      apply Forall_app_2; try done. constructor; [by apply Hr'|done].
  - rewrite (Hcs [t] : conns h s (t1 ++ t :: t2) = _).
    destruct r as [[t'|]|[]|q]; [rewrite insert_app_r_alt, Nat.sub_diag by lia; simpl; rewrite (Hcs [t'] : conns h s (t1 ++ t' :: t2) = _)
                         |rewrite delete_middle, (Hcs [] : conns h s (t1 ++ t2) = _)..]; rewrite !fmap_app; simpl.
    + destruct (Hr' t' eq_refl) as [_ ->]. done.
    + apply submseteq_app; [done|]. by apply submseteq_cons.
    + apply submseteq_app; [done|]. by apply submseteq_cons.
Qed.

(** Any call on a stream. *)
Lemma any_call_sends owner iss hist j ok e st st' w' s h ts :
  sys_inv owner (mkSystem s h ts) -> sending iss hist (mkSystem s h ts) ->
  h !! j = Some st -> stream_call b ok e st (sworld s) st' w' ->
  sending iss (fun who => hist who ++ event_written who (Called (stream_channel st) e))
    (mkSystem (with_world w' s) (<[j := st']> h) ts).
Proof.
  intros Hinv Hse Hj Hc. destruct (conn_of st) as [c|] eqn:Hcn.
  - destruct st as [t| | |]; try done. by eapply tcp_call_sends.
  - destruct (other_call_sends owner iss hist j ok e st st' w' s h ts) as [Hs' He]; [done..|].
    eapply sending_hist; [|exact Hs']. intros who. by rewrite He, app_nil_r.
Qed.

(** A call that panics accepts nothing. *)
Lemma crash_writes_nothing e st w st' w' : stream_call b false e st w st' w' -> call_written e = [].
Proof. intros Hc. by inversion Hc as [? ? ? ? ? ? ? ? []|? ? ? ? ? ? []| | | | |]. Qed.

Lemma crash_sends owner iss hist j e st st' w1 w' new s h ts :
  sys_inv owner (mkSystem s h ts) -> sending iss hist (mkSystem s h ts) ->
  h !! j = Some st -> stream_call b false e st (sworld s) st' w1 -> drop_user st' w1 = (w', new) ->
  sending iss hist (mkSystem (with_world w' s) (delete j h) (ts ++ new)).
Proof.
  intros Hinv Hse Hj Hc Hd. pose proof Hinv as [Hst Hty _ _ Hhe _ _]; simpl in *.
  rewrite Forall_lookup in Hhe.
  destruct (call_outside b (pkt_chan s) (cfg_mtu (config s)) false e st (sworld s) st' w1) as (Hg & _);
    [apply Hst|done|by eapply Hhe|done|].
  assert (sending iss hist (mkSystem (with_world w1 s) (<[j := st']> h) ts)) as Hse1.
  { eapply sending_hist; [|by eapply any_call_sends]. intros who. simpl.
    pose proof (crash_writes_nothing e st (sworld s) st' w1 Hc) as ->.
    repeat case_match; by rewrite app_nil_r. }
  rewrite <-(delete_insert_list j st' h). change (with_world w' s) with (with_world w' (with_world w1 s)).
  eapply drop_sends; [exact Hse1|done| |done]. apply list_lookup_insert_eq. by eapply lookup_lt_Some.
Qed.

Lemma send_step owner iss hist e S S' :
  sys_event b write_all e S S' -> sys_inv owner S -> sending iss hist S ->
  exists iss', (forall ch, used ch (sworld (stack S)) = true -> iss' ch = iss ch) /\
    sending iss' (fun who => hist who ++ event_written who e) S' /\
    forall p, e = Output p -> carries iss hist p.
Proof.
  intros Hstep Hinv Hse. pose proof Hinv as [Hst Hty _ _ Hhe Hta _].
  assert (forall S2, (forall who, event_written who e = []) -> sending iss hist S2 ->
    sending iss (fun who => hist who ++ event_written who e) S2) as Hnil.
  { intros S2 He. apply sending_hist. intros who. by rewrite He, app_nil_r. }
  destruct Hstep as [rnd buf s s' h ts Hrnd Hrun|k p w s s' h ts Hrecv Hrun|x s s' h ts Hrun
    |i e st st' w' s h ts Hi Hrun|i e st st' w1 w' new s h ts _ Hi Hrun Hdrop|i st w' new s h ts Hi Hrun
    |i n k t t' w' s h ts Hi Hrun|i n k t w' s h ts Hi Hrun|i n k t q w' s h ts _ Hi Hrun
    |w' s h ts Hsc Hu].
  - destruct (device_sends owner iss hist rnd buf s s' h ts) as (iss' & Hi & Hs'); [done..|].
    exists iss'. split; [done|]. split; [|done]. eapply sending_hist; [|exact Hs']. intros who. apply app_nil_r.
  - destruct (packet_sends iss hist k p w s s' h ts Hse Hrecv Hrun) as [Hs' Hp].
    exists iss. split; [done|]. split; [by apply Hnil|]. by intros ? [= <-].
  - exists iss. split; [done|]. split; [|done]. apply Hnil; [done|]. by eapply accept_sends.
  - exists iss. split; [done|]. split; [|done]. by eapply any_call_sends.
  - exists iss. split; [done|]. split; [|done]. apply Hnil; [done|]. by eapply crash_sends.
  - exists iss. split; [done|]. split; [|done]. apply Hnil; [done|]. simpl in Hhe.
    rewrite Forall_lookup in Hhe. eapply drop_sends; [done|by eapply Hhe|done|done].
  - exists iss. split; [done|]. split; [|done]. apply Hnil; [done|].
    by apply (task_step_sends owner iss hist i n k t w' (Ret (Some t')) s h ts).
  - exists iss. split; [done|]. split; [|done]. apply Hnil; [done|].
    by apply (task_step_sends owner iss hist i n k t w' (Ret None) s h ts).
  - exists iss. split; [done|]. split; [|done]. apply Hnil; [done|].
    by apply (task_step_sends owner iss hist i n k t w' (Panic q) s h ts).
  - exists iss. split; [done|]. split; [|done]. apply Hnil; [done|]. destruct Hsc as [Hq _].
    eapply (send_sys_kept _ _ _ _ _ _ _ []); [exact Hse|simpl; intros d; by rewrite Hu|
      simpl; by rewrite Hq, app_nil_r|constructor|done].
Qed.

(** ** Runs *)

Lemma boot_sends iss cf dev w : (forall d, queue d w = []) -> sending iss (fun _ => []) (boot cf dev w).
Proof.
  intros Hw. unfold sending, boot, stack_new. pose proof (chan_new_queue w) as Hq.
  destruct (chan_new w) as [ch w']; simpl in *. split; simpl; try done; [|constructor..].
  by rewrite Hq, decide_True.
Qed.

(** Every packet that is on its way to the device or was taken for it. *)
Lemma trace_sends cf dev w tr S :
  cfg_mtu cf ∈u U16 -> (forall d, queue d w = []) -> sys_trace b write_all tr (boot cf dev w) S ->
  exists owner iss, sys_inv owner S /\ sending iss (fun who => bytes_written who tr) S /\
    forall p, Output p ∈ tr -> carries iss (fun who => bytes_written who tr) p.
Proof.
  intros Hm Hw Htr. remember (boot cf dev w) as S0 eqn:HS.
  induction Htr as [S|tr e S1 S2 S3 Htr IH Hev]; subst.
  { exists (fun _ => mkNetworkTuple (SockV4 0 0) (SockV4 0 0) true), (fun _ => 0).
    split; [by apply boot_inv|]. split; [by apply boot_sends|]. by intros p ?%not_elem_of_nil. }
  destruct (IH eq_refl) as (o & iss & Hinv & Hse & Hout).
  destruct (system_refines b write_all o S2 S3 (event_step _ _ _ _ _ Hev) Hinv) as (_ & o' & _ & Hinv3).
  destruct (send_step o iss _ e S2 S3 Hev Hinv Hse) as (iss' & Hi & Hse3 & He).
  exists o', iss'. split; [done|]. split.
  { eapply sending_hist; [|exact Hse3]. intros who. apply bytes_written_snoc. }
  intros p Hp. assert (carries iss (fun who => bytes_written who tr) p) as Hc.
  { apply elem_of_app in Hp as [Hp|Hp%list_elem_of_singleton]; [by apply Hout|by apply He]. }
  eapply (carries_grows _ (fun who => bytes_written who tr));
    [|eapply carries_fresh; [apply (ss_fresh _ _ _ _ _ Hse)|exact Hi|exact Hc]].
  intros who. rewrite bytes_written_snoc. by eexists.
Qed.

End system_send.
