(* ===== verification/SystemSafe.v ===== *)
(** * The connections of the whole system

    A step of the system, seen from one connection, is nothing, a packet that
    arrives, or one call of it ([conn_step]); so what [TcpSafety.v] shows of one
    connection holds of every connection in every run. *)

From S2P Require Import Prelude Errors Etherparse Packet Runtime Tcb TcbSpec Tcp TcpPacket TcpLoop.
From S2P Require Import TcpFoot TcpSafety TcpSend TcpApi TcpDeliver TcpTrace TcpOpen TcpWrapper.
From S2P Require Import Udp Unknown Stream Stack StackSpec StackInv System SystemSend.

Section system_safe.
Context `{EP : Etherparse, EL : !EtherparseLaws} {W : Type} `{RT : !Runtime W NetworkPacket}.
Context `{RO : !RuntimeObs W NetworkPacket, RL : !RuntimeLaws W NetworkPacket}.
Context (b : Build).
Context {D : Type} (write_all : list byte -> D -> D * Result unit IoError).
Implicit Types (st : IpStackStream (W := W)) (w : W) (s : Stack (W := W) (D := D)).
Implicit Types (S : System (W := W) (D := D)).
Implicit Types (i : Tcp.IpStackTcpStream (W := W)) (iss : Chan (W := W) (A := NetworkPacket) -> Z).

(** ** A step of the system, seen from a connection *)

(** The name of a connection: its channel and its session. *)
Definition name_of i : Chan (W := W) (A := NetworkPacket) * NetworkTuple := (Tcp.stream_receiver i, session_key i).

(** A call of a connection, whatever comes of it. *)
Inductive conn_call i w : Conn (W := W) -> Prop :=
  | conn_read n k rb x r :
      poll_read b n k (mkReadSt (mkConn i w) rb) = Some (x, r) -> conn_call i w (conn x)
  | conn_write k buf c r : poll_write (E := Empty_set) b k buf (mkConn i w) = (c, r) -> conn_call i w c
  | conn_flush c r : poll_flush (E := Empty_set) b (mkConn i w) = (c, r) -> conn_call i w c
  | conn_shutdown n k c r : poll_shutdown b n k (mkConn i w) = Some (c, r) -> conn_call i w c.

Inductive conn_step (off : Z) (e : event (W := W)) i w : Tcp.IpStackTcpStream (W := W) -> W -> Prop :=
  | conn_still w' :
      queue (Tcp.stream_receiver i) w' `suffix_of` queue (Tcp.stream_receiver i) w ->
      conn_step off e i w i w'
  | conn_delivered buf p w' :
      e = Input buf -> parse (drain_front off buf) = Ok p -> typed_packet p ->
      network_tuple p = session_key i ->
      queue (Tcp.stream_receiver i) w' = queue (Tcp.stream_receiver i) w ++ [p] ->
      conn_step off e i w i w'
  | conn_called c w' :
      conn_call i w c ->
      queue (Tcp.stream_receiver i) w' `suffix_of` queue (Tcp.stream_receiver i) (world c) ->
      conn_step off e i w (self c) w'.

(** A connection that a SYN has just opened in a stack with configuration [cf]. *)
Definition conn_born (off : Z) (cf : IpStackConfig) (e : event (W := W)) w i w' : Prop :=
  exists buf p rnd now h pkt mt,
    e = Input buf /\ parse (drain_front off buf) = Ok p /\
    i = first_stream b rnd now p h pkt (Tcp.stream_receiver i) mt (cfg_tcp_timeout cf) /\
    session_key i = network_tuple p /\ used (Tcp.stream_receiver i) w = false /\
    queue (Tcp.stream_receiver i) w' = [].

Lemma elem_of_conns i h s ts :
  i ∈ conns h s ts <->
  (exists st, st ∈ h ++ accepted s /\ conn_of st = Some i) \/ exists t, t ∈ ts /\ i = task_stream t.
Proof.
  unfold conns. rewrite elem_of_app, list_elem_of_omap, list_elem_of_fmap. split; (intros [?|(t & ? & ?)]; [by left|right; by exists t]).
Qed.

(** Every connection is good and knows its channel. *)
Lemma conns_good owner S i :
  sys_inv owner S -> i ∈ conns (held S) (stack S) (tasks S) ->
  conn_good (pkt_chan (stack S)) (cfg_mtu (config (stack S))) i.
Proof.
  intros [_ _ _ Hac Hhe Hta _] [(st & Hin & Hc)|(t & Hin & ->)]%elem_of_conns.
  - rewrite Forall_forall in Hac. rewrite Forall_forall in Hhe.
    destruct st as [t| | |]; try done. apply elem_of_app in Hin as [Hin|Hin];
      [by apply (Hhe (StreamTcp t))|by apply (Hac (StreamTcp t))].
  - rewrite Forall_forall in Hta. by apply Hta.
Qed.

(** What leaves the channel of a connection alone leaves the connection alone. *)
Lemma outside_still owner off e S i Q w' :
  sys_inv owner S -> outside (pkt_chan (stack S)) Q (sworld (stack S)) w' ->
  i ∈ conns (held S) (stack S) (tasks S) -> conn_step off e i (sworld (stack S)) i w'.
Proof.
  intros Hinv [_ _ Hq _] Hi. apply conn_still, Hq. by destruct (conns_good owner S i Hinv Hi) as (_ & _ & ? & _).
Qed.

(** A step after which packets leave the channel. *)
Lemma conn_step_shrink owner off e S i i' w1 w2 :
  sys_inv owner S -> i ∈ conns (held S) (stack S) (tasks S) -> (forall buf, e <> Input buf) ->
  conn_step off e i (sworld (stack S)) i' w1 ->
  (forall d, d <> pkt_chan (stack S) -> queue d w2 `suffix_of` queue d w1) ->
  conn_step off e i (sworld (stack S)) i' w2.
Proof.
  intros Hinv Hi He Hs Hq. destruct (conns_good owner S i Hinv Hi) as (_ & _ & Hne & _).
  destruct Hs as [w1 Hw|buf p w1 -> _ _ _ _|c w1 Hc Hw]; [|by edestruct He|].
  - apply conn_still. etrans; [by apply Hq|done].
  - eapply conn_called; [done|]. etrans; [by apply Hq|done].
Qed.

Lemma tcp_call_conn off ev ok e t i w st' w' :
  TcpWrapper.inner t = Some i -> stream_call b ok e (StreamTcp t) w st' w' ->
  exists i', st' = StreamTcp (set_inner (Some i') t) /\ conn_step off ev i w i' w'.
Proof.
  intros Hi Hc.
  inversion Hc as [n k rb ? ? t' ? rb' r Hrun|k buf ? ? t' ? r Hrun|? ? t' ? r Hrun|n k ? ? t' ? r Hrun| | |];
    subst; unfold wrapper_poll_read, wrapper_poll_write, wrapper_poll_flush,
      wrapper_poll_shutdown in Hrun; rewrite Hi in Hrun.
  - destruct (poll_read _ _ _ _) as [[s r']|] eqn:Hp; [|done]. simplify_eq. eexists. split; [done|].
    eapply conn_called; [by eapply conn_read|done].
  - destruct (poll_write _ _ _ _) as [c r'] eqn:Hp. simplify_eq/=. eexists. split; [done|].
    eapply conn_called; [by eapply conn_write|done].
  - destruct (poll_flush _ _) as [c r'] eqn:Hp. simplify_eq/=. eexists. split; [done|].
    eapply conn_called; [by eapply conn_flush|done].
  - destruct (poll_shutdown _ _ _ _) as [[c r']|] eqn:Hp; [|done]. simplify_eq. eexists. split; [done|].
    eapply conn_called; [by eapply conn_shutdown|done].
Qed.

Lemma task_conn off e n k t w w' t' :
  drop_task_poll b n k t w = Some (w', Ret (Some t')) -> conn_step off e (task_stream t) w (task_stream t') w'.
Proof.
  unfold drop_task_poll.
  replace (match t with Spawned i => _ | Running i d => _ end) with (task_stream t, task_deadline w t)
    by (by destruct t). cbn beta iota.
  destruct (poll_shutdown _ _ _ _) as [[c [[v|]|[]|q]]|] eqn:Hp; try done.
  - destruct (drop_stream _ _ _) as [w1 [| |]]; done.
  - pose proof (sleep_poll_chans (task_deadline w t) k (world c)) as [Hsc _].
    destruct (sleep_poll _ _ _) as [e' w1]; simpl in *. destruct e'.
    + destruct (drop_stream _ _ _) as [w2 [| |]]; done.
    + intros [= <- <-]. eapply conn_called; [by eapply conn_shutdown|]. by rewrite Hsc.
  - by destruct (drop_stream _ _ _) as [w2 r].
Qed.

Definition owns (owner : Chan -> NetworkTuple) S : Prop :=
  forall i, i ∈ conns (held S) (stack S) (tasks S) ->
    used (Tcp.stream_receiver i) (sworld (stack S)) = true /\ owner (Tcp.stream_receiver i) = session_key i.

(** A packet from the device. *)
Lemma device_conns owner off rnd buf s s' h ts i :
  sys_inv owner (mkSystem s h ts) -> owns owner (mkSystem s h ts) -> off = offset b s -> rnd ∈u U32 ->
  on_device_read b rnd buf s = (s', Ret tt) -> i ∈ conns h s' ts ->
  (i ∈ conns h s ts /\ conn_step off (Input buf) i (sworld s) i (sworld s')) \/
  (conn_born off (config s) (Input buf) (sworld s) i (sworld s') /\
   exists st, st ∈ accepted s' /\ conn_of st = Some i).
Proof.
  intros Hinv Hown -> Hrnd Hrun Hi. pose proof (sy_stack _ _ Hinv) as Hst. simpl in Hst.
  destruct (on_device_read_outcome b rnd buf s s') as (r & Hout & Hs'); [done|apply Hst..|done|].
  assert (i ∈ option_list (r ≫= conn_of) ++ conns h s ts) as [Hnew|Hold]%elem_of_app.
  { rewrite <-(conns_accept h s ts r). rewrite Hs' in Hi. exact Hi. }
  - right. destruct r as [st|]; simpl in Hnew; [|by apply not_elem_of_nil in Hnew].
    destruct (conn_of st) as [i'|] eqn:Hc; simpl in Hnew; [|by apply not_elem_of_nil in Hnew].
    apply list_elem_of_singleton in Hnew as ->. split.
    2:{ exists st. split; [|done]. rewrite Hs'. simpl. apply elem_of_app. right. constructor. }
    destruct Hout as [_ _ Hr|p ch _ Hr|p ch st' [= <-] Hp Hby Hch _ Hop|ch l _ Hr]; try done.
    { destruct (Hr st eq_refl) as [Hn _]. apply no_channel_conn in Hn. congruence. }
    destruct st as [t| | |]; try done. simpl in Hc.
    destruct Hby as (rnd' & now & h' & pkt & ch' & mt & _ & _ & Hi').
    rewrite Hc in Hi'. injection Hi' as ->. cbn [stream_channel] in Hch.
    rewrite Hc in Hch. apply (inj Some) in Hch. pose proof (f_equal fst Hch) as Hch1.
    apply (f_equal snd) in Hch. cbn [fst snd] in Hch, Hch1. rewrite <-Hch1 in Hop.
    destruct Hop as (_ & Hu & _ & _ & Hq & _). exists buf, p, rnd', now, h', pkt, mt. done.
  - left. split; [done|]. destruct (Hown i Hold) as [Hu Ho]. simpl in Hu, Ho.
    destruct (conns_good owner (mkSystem s h ts) i Hinv Hold) as (_ & _ & Hne & _). simpl in Hne.
    assert (forall l, touches l (sworld s) (sworld s') -> Tcp.stream_receiver i ∉ l ->
      conn_step (offset b s) (Input buf) i (sworld s) i (sworld s')) as Hstill.
    { intros l [Ht _] Hl. apply conn_still. by destruct (Ht _ Hl) as [-> _]. }
    destruct Hout as [_ Ht _|p ch _ -> Hp [Hm _]%live_session Hty Hq Ht|p ch st -> _ _ _ _ Hop|ch l _ -> Hnu _ _ _ _ _ Ht].
    + eapply Hstill; [exact Ht|]. apply not_elem_of_nil.
    + destruct (decide (ch = Tcp.stream_receiver i)) as [->|Hn].
      * destruct (si_sessions _ _ Hst _ _ Hm) as (_ & _ & HK).
        eapply conn_delivered; [done|exact Hp|done|congruence|done].
      * eapply Hstill; [exact Ht|]. rewrite list_elem_of_singleton. congruence.
    + destruct Hop as (_ & Hnu & _ & _ & _ & Ht). eapply Hstill; [exact Ht|].
      rewrite list_elem_of_singleton. congruence.
    + eapply Hstill; [exact Ht|]. rewrite elem_of_cons, list_elem_of_singleton. intros [?|?]; congruence.
Qed.

(** A call on a stream the user holds. *)
Lemma call_conns owner off ev ok j e st st' w' s h ts i :
  sys_inv owner (mkSystem s h ts) -> h !! j = Some st -> stream_call b ok e st (sworld s) st' w' ->
  i ∈ conns (<[j := st']> h) (with_world w' s) ts ->
  exists i0, i0 ∈ conns h s ts /\ conn_step off ev i0 (sworld s) i w'.
Proof.
  intros Hinv Hj Hc Hi. pose proof Hinv as [Hst Hty _ _ Hhe _ _]; simpl in *.
  rewrite Forall_lookup in Hhe.
  destruct (call_outside b (pkt_chan s) (cfg_mtu (config s)) ok e st (sworld s) st' w')
    as (_ & _ & Hout); [apply Hst|done|by eapply Hhe|done|].
  assert (i ∈ conns h s ts -> exists i0, i0 ∈ conns h s ts /\ conn_step off ev i0 (sworld s) i w') as Hstill.
  { intros Hin. exists i. split; [done|]. by eapply (outside_still owner off _ (mkSystem s h ts)). }
  apply elem_of_conns in Hi as [(x & [Hx|Hx]%elem_of_app & Hxi)|(t & Ht & ->)].
  2:{ apply Hstill, elem_of_conns. left. exists x. split; [apply elem_of_app; by right|done]. }
  2:{ apply Hstill, elem_of_conns. right. by exists t. }
  apply list_elem_of_lookup in Hx as [j' Hx].
  apply list_lookup_insert_Some in Hx as [(-> & -> & _)|(_ & Hx)].
  2:{ apply Hstill, elem_of_conns. left. exists x. split; [|done]. apply elem_of_app. left.
      by eapply list_elem_of_lookup_2. }
  assert (st ∈ h ++ accepted s) as Hin by (apply elem_of_app; left; by eapply list_elem_of_lookup_2).
  destruct st as [t|u|u|bs]; try (inversion Hc; by subst).
  destruct (TcpWrapper.inner t) as [i0|] eqn:Hi0.
  - destruct (tcp_call_conn off ev ok e t i0 (sworld s) _ w' Hi0 Hc) as (i1 & -> & Hs). simpl in Hxi.
    injection Hxi as <-. exists i0. split; [|done]. apply elem_of_conns. left. by exists (StreamTcp t).
  - destruct (tcp_call_gone b ok e t (sworld s) _ w' Hi0 Hc) as [-> _]. simpl in Hxi. congruence.
Qed.

(** Dropping a stream moves its connection to a task. *)
Lemma drop_conns j st w' new s h ts i :
  h !! j = Some st -> drop_user st (sworld s) = (w', new) ->
  i ∈ conns (delete j h) (with_world w' s) (ts ++ new) -> i ∈ conns h s ts.
Proof.
  intros Hj Hrun Hi. apply elem_of_conns.
  apply elem_of_conns in Hi as [(y & [Hy|Hy]%elem_of_app & Hc)|(t & [Ht|Ht]%elem_of_app & ->)].
  - left. exists y. split; [|done]. apply elem_of_app. left. apply list_elem_of_lookup in Hy as [l Hl].
    rewrite list_lookup_delete in Hl. by eapply list_elem_of_lookup_2.
  - left. exists y. split; [|done]. apply elem_of_app. by right.
  - right. by exists t.
  - left. exists st. split; [apply elem_of_app; left; by eapply list_elem_of_lookup_2|].
    destruct st as [t0|u|u|bs]; simpl in Hrun; simplify_eq; try by apply not_elem_of_nil in Ht.
    destruct (TcpWrapper.inner t0) as [i0|] eqn:Hi0; simpl in *; [|by apply not_elem_of_nil in Ht].
    apply list_elem_of_singleton in Ht as ->. done.
Qed.

(** A call that panics: the connection goes on in a task, as the call left it. *)
Lemma crash_conns owner off j e st st' w1 w' new s h ts i :
  sys_inv owner (mkSystem s h ts) -> h !! j = Some st -> stream_call b false e st (sworld s) st' w1 ->
  drop_user st' w1 = (w', new) -> i ∈ conns (delete j h) (with_world w' s) (ts ++ new) ->
  exists i0, i0 ∈ conns h s ts /\ conn_step off Silent i0 (sworld s) i w'.
Proof.
  intros Hinv Hj Hrun Hdrop Hi. pose proof Hinv as [Hst Hty _ _ Hhe _ _]; simpl in *. rewrite Forall_lookup in Hhe.
  destruct (call_outside b (pkt_chan s) (cfg_mtu (config s)) false e st (sworld s) st' w1)
    as (Hg & _ & _); [apply Hst|done|by eapply Hhe|done|].
  destruct (drop_user_outside (pkt_chan s) (cfg_mtu (config s)) st' w1 w' new) as [Ho _]; [done..|].
  assert (i ∈ conns (<[j := st']> h) (with_world w1 s) ts) as Hin.
  { eapply (drop_conns j st' w' new (with_world w1 s)); [|done|by rewrite delete_insert_list].
    apply list_lookup_insert_eq. by eapply lookup_lt_Some. }
  destruct (call_conns owner off Silent false j e st st' w1 s h ts i) as (i0 & Hi0 & Hs); [done..|].
  exists i0. split; [done|]. by eapply (conn_step_shrink owner off _ (mkSystem s h ts)); [..|apply Ho].
Qed.

(** A task is polled. *)
Lemma task_conns owner off j n k t w' r s h ts i :
  sys_inv owner (mkSystem s h ts) -> ts !! j = Some t -> drop_task_poll b n k t (sworld s) = Some (w', r) ->
  i ∈ conns h s (match r with Ret (Some t') => <[j := t']> ts | _ => delete j ts end) ->
  exists i0, i0 ∈ conns h s ts /\ conn_step off Silent i0 (sworld s) i w'.
Proof.
  intros Hinv Hj Hrun Hi. pose proof Hinv as [_ Hty _ _ _ Hta _]; simpl in *. rewrite Forall_lookup in Hta.
  destruct (task_outside b (pkt_chan s) (cfg_mtu (config s)) n k t (sworld s) w' r) as [Ho _];
    [done|by eapply Hta|done|].
  assert (i ∈ conns h s ts -> exists i0, i0 ∈ conns h s ts /\ conn_step off Silent i0 (sworld s) i w') as Hstill.
  { intros Hin. exists i. split; [done|]. by eapply (outside_still owner off _ (mkSystem s h ts)). }
  apply elem_of_conns in Hi as [Hi|(t1 & Ht1 & ->)]; [apply Hstill, elem_of_conns; by left|].
  assert (t1 ∈ ts \/ r = Ret (Some t1)) as [Hold|Hr].
  { destruct r as [[t'|]|[]|q]; [|left; by eapply elem_of_delete..].
    apply list_elem_of_lookup in Ht1 as [l Hl].
    apply list_lookup_insert_Some in Hl as [(_ & -> & _)|(_ & Hl)]; [by right|].
    left. by eapply list_elem_of_lookup_2. }
  - apply Hstill, elem_of_conns. right. by exists t1.
  - subst r. exists (task_stream t). split; [|by eapply task_conn].
    apply elem_of_conns. right. exists t. split; [by eapply list_elem_of_lookup_2|done].
Qed.

(** Every connection after a step was there before, or has just been opened. *)
Lemma conns_step owner off e S S' i :
  sys_event b write_all e S S' -> sys_inv owner S -> owns owner S -> off = offset b (stack S) ->
  i ∈ conns (held S') (stack S') (tasks S') ->
  (exists i0, i0 ∈ conns (held S) (stack S) (tasks S) /\
     conn_step off e i0 (sworld (stack S)) i (sworld (stack S'))) \/
  (conn_born off (config (stack S)) e (sworld (stack S)) i (sworld (stack S')) /\
   exists st, st ∈ accepted (stack S') /\ conn_of st = Some i).
Proof.
  intros Hstep Hinv Hown Hoff Hi. pose proof Hinv as [Hst Hty _ _ Hhe Hta _].
  assert (forall Q w', outside (pkt_chan (stack S)) Q (sworld (stack S)) w' ->
    i ∈ conns (held S) (stack S) (tasks S) ->
    exists i0, i0 ∈ conns (held S) (stack S) (tasks S) /\ conn_step off e i0 (sworld (stack S)) i w') as Hstill.
  { intros Q w' Ho Hin. exists i. split; [done|]. by eapply outside_still. }
  destruct Hstep as [rnd buf s s' h ts Hrnd Hrun|k p w s s' h ts Hrecv Hrun|x s s' h ts Hrun
    |j e st st' w' s h ts Hj Hrun|j e st st' w1 w' new s h ts _ Hj Hrun Hdrop|j st w' new s h ts Hj Hrun
    |j n k t t' w' s h ts Hj Hrun|j n k t w' s h ts Hj Hrun|j n k t q w' s h ts _ Hj Hrun
    |w' s h ts Hsc Hu]; simpl in *.
  - destruct (device_conns owner off rnd buf s s' h ts i) as [[H1 H2]|H1]; [done..|left; by exists i|by right].
  - left. unfold on_packet in Hrun. destruct (process_upstream_recv _ _ _ _ _ _) as [[m' d'] r].
    injection Hrun as <- _. simpl in *. exists i. split; [done|]. apply conn_still.
    pose proof (chan_recv_other (pkt_chan s) k (sworld s)) as Hq. rewrite Hrecv in Hq. simpl in Hq.
    rewrite Hq; [done|]. by destruct (conns_good owner (mkSystem s h ts) i Hinv Hi) as (_ & _ & ? & _).
  - left. unfold accept in Hrun. destruct (accepted s) as [|y l] eqn:Ha; [done|]. simplify_eq/=.
    exists i. split; [|by apply conn_still]. revert Hi. unfold conns. simpl. by rewrite Ha, <-app_assoc.
  - left. by eapply call_conns.
  - left. by eapply crash_conns.
  - left. rewrite Forall_lookup in Hhe.
    destruct (drop_user_outside (pkt_chan s) (cfg_mtu (config s)) st (sworld s) w' new) as [Ho _];
      [by eapply Hhe|done|]. apply (Hstill _ _ Ho).
    by eapply drop_conns.
  - left. by eapply (task_conns owner off j n k t w' (Ret (Some t'))).
  - left. by eapply (task_conns owner off j n k t w' (Ret None)).
  - left. by eapply (task_conns owner off j n k t w' (Panic q)).
  - left. eapply Hstill; [by apply (outside_same _ (fun _ => True))|done].
Qed.

(** A step does not change who a connection is. *)
Lemma conn_step_name owner off e S i i' w' :
  sys_inv owner S -> i ∈ conns (held S) (stack S) (tasks S) ->
  conn_step off e i (sworld (stack S)) i' w' -> name_of i' = name_of i.
Proof.
  intros Hinv Hi Hs. pose proof (conns_good owner S i Hinv Hi) as Hg.
  destruct (conn_start _ _ i _ Hg (sy_typed _ _ Hinv)) as (Hd & Hrx & Hty).
  assert (forall c, own (mkConn i (sworld (stack S))) c -> name_of (self c) = name_of i) as Hown.
  { intros c [Hc _ _ _ _]. unfold cfg in Hc. simpl in Hc. injection Hc as Es Ed Er _ _.
    unfold name_of, session_key. by rewrite Es, Ed, Er. }
  destruct Hs as [| |c w' Hc _]; [done|done|apply Hown].
  destruct Hc as [n k rb x r Hrun|k buf c r Hrun|c r Hrun|n k c r Hrun].
  - by eapply (poll_read_own b) in Hrun.
  - pose proof (keep_own _ _ (poll_write_keep (E := Empty_set) b _ Hd k buf) Hty) as Ho.
    by rewrite Hrun in Ho.
  - pose proof (keep_own _ _ (keep_poll_flush (E := Empty_set) b _ Hd) Hty) as Ho. by rewrite Hrun in Ho.
  - by eapply (poll_shutdown_own b) in Hrun.
Qed.

(** ** The invariant of a connection along a run *)

(** More fuel does not change what a call returns. *)
Lemma poll_read_mono n m k (y : ReadSt (W := W)) x :
  poll_read b n k y = Some x -> (n <= m)%nat -> poll_read b m k y = Some x.
Proof. apply loop_mono. Qed.

Lemma poll_shutdown_mono n m k (c : Conn (W := W)) x :
  poll_shutdown b n k c = Some x -> (n <= m)%nat -> poll_shutdown b m k c = Some x.
Proof.
  unfold poll_shutdown. case_match; [done|]. intros Hx Hle.
  destruct (poll_read b n _ _) as [[s r]|] eqn:Hp; [|done]. by rewrite (poll_read_mono _ m _ _ _ Hp Hle).
Qed.

(** The longest payload of the peer of session [K]. *)
Context (L : Z).

(** What a connection relies on in a run: the packets of its session are not too
    long and do not acknowledge the number before [first], which is that of the
    SYN|ACK; and the bytes written to it leave room for one more packet before the
    numbers wrap. *)
Definition honest_input (off first : Z) (K : NetworkTuple) (e : event (W := W)) : Prop :=
  forall buf p h, e = Input buf -> parse (drain_front off buf) = Ok p -> network_tuple p = K ->
    transport p = TransTcp h -> acknowledgment_number h <> first - 1 /\ len (Packet.payload p) <= L.

Definition relies (off first : Z) (who : Chan (W := W) (A := NetworkPacket) * NetworkTuple)
    (tr : list (event (W := W))) : Prop :=
  (forall e, e ∈ tr -> honest_input off first who.2 e) /\ first + len (bytes_written who tr) + 65495 < U32.

Lemma relies_snoc off first who tr e :
  relies off first who (tr ++ [e]) -> relies off first who tr /\ honest_input off first who.2 e.
Proof.
  intros [H1 H2]. rewrite bytes_written_snoc, len_app in H2. pose proof (len_nonneg (event_written who e)).
  split; [split; [|lia]|]; [intros e' He|]; apply H1, elem_of_app; [by left|right; constructor].
Qed.

Lemma honest_packet off first e i buf p :
  honest_input off first (session_key i) e -> e = Input buf -> parse (drain_front off buf) = Ok p ->
  typed_packet p -> network_tuple p = session_key i -> packet_ok (mkPeer L (first - 1)) p.
Proof.
  intros Ht -> Hp Hty Hk. assert (is_tcp p = true) as Htcp by (by apply (f_equal tcp) in Hk).
  unfold is_tcp in Htcp. destruct (transport p) as [h|u|] eqn:Htr; try done. destruct (Hty h Htr) as (? & ? & ?).
  destruct (Ht buf p h) as [? ?]; [done..|]. by exists h.
Qed.

(** A call keeps the invariant, also a read that panics because its buffer is too short. *)
Lemma conn_call_inv first hist k i w c :
  let R := mkPeer L (first - 1) in
  conn_call i w c -> conn_inv R k (mkConn i w) -> send_inv first hist (mkConn i w) ->
  0 <= first -> first + len hist + 65495 < U32 ->
  conn_inv R k c.
Proof.
  intros R Hcall Hc Hsend Hpos Hfit.
  destruct Hcall as [n kk rb x r Hrun|kk buf c r Hrun|c r Hrun|n kk c r Hrun].
  - destruct (poll_read_ends b R k kk (mkReadSt (mkConn i w) rb) (n + read_fuel (mkConn i w)))
      as (s' & r' & Hrun' & Hi' & _); [done|unfold read_fuel; simpl; lia|].
    eapply (poll_read_mono _ (n + read_fuel (mkConn i w))) in Hrun; [|lia].
    rewrite Hrun in Hrun'. by injection Hrun' as <- _.
  - destruct (poll_write_safe b R (E := Empty_set) k kk buf (mkConn i w)) as (c' & r' & Hrun' & Hi'); [done| |].
    { intros He _. pose proof (sv_numbered _ _ _ Hsend) as Hn. unfold numbered, conn_state in *. simpl in *.
      rewrite He in Hn. assert (seq (tcb i) ∈u U32) as Hsq by (destruct Hc as [Hb _]; apply (conn_base_wf _ _ _ Hb)).
      pose proof (len_nonneg hist). rewrite !cast_small in Hn by lia. lia. }
    rewrite Hrun in Hrun'. by injection Hrun' as <- _.
  - pose proof (safe_poll_flush b R (E := Empty_set) k _ Hc) as Hf. unfold wp in Hf. rewrite Hrun in Hf.
    by destruct Hf.
  - destruct (poll_shutdown_safe b R k (n + read_fuel (mkConn i w)) kk (mkConn i w))
      as (c' & r' & Hrun' & Hi' & _); [done|unfold read_fuel; simpl; lia|].
    eapply (poll_shutdown_mono _ (n + read_fuel (mkConn i w))) in Hrun; [|lia].
    rewrite Hrun in Hrun'. by injection Hrun' as <- _.
Qed.

Lemma conn_step_inv off first hist k e i w i' w' :
  let R := mkPeer L (first - 1) in
  conn_step off e i w i' w' -> name_of i' = name_of i -> conn_inv R (Datatypes.S k) (mkConn i w) -> send_inv first hist (mkConn i w) ->
  honest_input off first (session_key i) e -> 0 <= first -> first + len hist + 65495 < U32 ->
  conn_inv R k (mkConn i' w').
Proof.
  intros R Hs Hnm Hc Hsend Ht Hpos Hfit. pose proof (conn_inv_weaken R k _ Hc) as Hw.
  assert (forall w1 w2 i1, conn_inv R k (mkConn i1 w1) -> Tcp.stream_receiver i1 = Tcp.stream_receiver i ->
    queue (Tcp.stream_receiver i) w2 `suffix_of` queue (Tcp.stream_receiver i) w1 ->
    conn_inv R k (mkConn i1 w2)) as Hsuf.
  { intros w1 w2 i1 Hi1 Er [l Hl]. eapply (conn_inv_rx R k k); [exact Hi1|..]; unfold rxq; simpl; rewrite Er.
    - pose proof (cb_rx _ _ _ (proj1 Hi1)) as Hrx. unfold rxq in Hrx. simpl in Hrx. rewrite Er, Hl in Hrx.
      by apply Forall_app in Hrx as [_ ?].
    - rewrite Hl, length_app. lia. }
  destruct Hs as [w' Hq|buf p w' -> Hp Hty Hk Hq|c w' Hcall Hq].
  - by eapply Hsuf.
  - eapply (conn_inv_rx R (Datatypes.S k) k); [exact Hc|..]; unfold rxq; simpl; rewrite Hq.
    + apply Forall_app_2; [apply Hc|]. constructor; [|done]. by eapply honest_packet.
    + rewrite length_app. simpl. lia.
  - assert (conn_inv R k c) as Hc' by (by eapply conn_call_inv). apply (f_equal fst) in Hnm.
    destruct c as [i1 w1]. by eapply Hsuf.
Qed.

(** A connection that was just opened. *)
Lemma born_inv off cf e w i w' pkt m (n : nat) :
  timely (W := W) (cfg_tcp_timeout cf) -> conn_born off cf e w i w' -> conn_good pkt m i -> m ∈u U16 ->
  seq (tcb i) + 1 < U32 -> Z.of_nat n < 2 ^ 47 - 1 ->
  conn_inv (mkPeer L (seq (tcb i))) n (mkConn i w').
Proof.
  intros Htm (buf & p & rnd & now & h & pkt' & mt & _ & _ & Hi & _ & _ & Hq) ([[] _] & Hpk & Hne & Hm) Hmt Hsq Hn.
  assert (rxq (mkConn i w') = []) as Hrx by done. split; [split|]; try done.
  - unfold distinct. simpl. congruence.
  - by rewrite Hrx.
  - rewrite Hrx, Nat.add_0_r. simpl. split; [done| | |].
    + rewrite Hi. unfold count_ok. simpl. lia.
    + rewrite Hi. simpl. apply map_Forall_empty.
    + by rewrite Hi.
  - unfold tcb_link. simpl. rewrite Hi. simpl. rewrite Hi in Hsq. simpl in Hsq. unfold greeting. simpl.
    split; [done|]. split; [done|]. split; [done|]. split; [lia|done].
Qed.

(** ** Runs *)

(** In a run of at most [B] steps. *)
Record surviving (owner : Chan -> NetworkTuple) iss (off : Z) (B : nat) (tr : list (event (W := W))) S : Prop := {
  sr_inv : sys_inv owner S;
  sr_sends : sending iss (fun who => bytes_written who tr) S;
  sr_owns : owns owner S;
  sr_offset : offset b (stack S) = off;
  sr_timely : timely (W := W) (cfg_tcp_timeout (config (stack S)));
  sr_first : forall i, i ∈ conns (held S) (stack S) (tasks S) -> 1 <= iss (Tcp.stream_receiver i) <= U32;
  sr_conns : forall i, i ∈ conns (held S) (stack S) (tasks S) ->
    relies off (iss (Tcp.stream_receiver i)) (name_of i) tr ->
    conn_inv (mkPeer L (iss (Tcp.stream_receiver i) - 1)) (B - length tr) (mkConn i (sworld (stack S)));
}.

Lemma boot_survives cf dev w B :
  cfg_mtu cf ∈u U16 -> timely (W := W) (cfg_tcp_timeout cf) -> (forall d, queue d w = []) ->
  exists owner, surviving owner (fun _ => 0) (offset b (stack_new cf dev w)) B [] (boot cf dev w).
Proof.
  intros Hm Htm Hw. exists (fun _ => mkNetworkTuple (SockV4 0 0) (SockV4 0 0) true).
  assert (conns [] (stack_new cf dev w) [] = []) as Hn
    by (unfold conns, stack_new; by destruct (chan_new w)).
  split; [by apply boot_inv|by apply boot_sends| |done| | |]; simpl.
  2:{ unfold stack_new. by destruct (chan_new w). }
  all: intros i; simpl; rewrite Hn; by intros ?%not_elem_of_nil.
Qed.

(** Where a connection comes from, with its first number. *)
Lemma step_origin owner owner' iss iss' off hist e S S' i :
  sys_event b write_all e S S' -> sys_inv owner S -> sys_inv owner' S' -> owns owner S ->
  offset b (stack S) = off -> sending iss' hist S' ->
  (forall ch, used ch (sworld (stack S)) = true -> iss' ch = iss ch) ->
  i ∈ conns (held S') (stack S') (tasks S') ->
  (exists i0, i0 ∈ conns (held S) (stack S) (tasks S) /\ name_of i = name_of i0 /\
     iss' (Tcp.stream_receiver i) = iss (Tcp.stream_receiver i0) /\
     conn_step off e i0 (sworld (stack S)) i (sworld (stack S'))) \/
  (conn_born off (config (stack S)) e (sworld (stack S)) i (sworld (stack S')) /\
   (exists st, st ∈ accepted (stack S') /\ conn_of st = Some i) /\
   iss' (Tcp.stream_receiver i) = seq (tcb i) + 1 /\ seq (tcb i) ∈u U32).
Proof.
  intros Hev Hinv Hinv' Hown Hoff Hse Hiss Hi.
  destruct (conns_step owner off e S S' i) as [(i0 & Hi0 & Hs)|[Hb Hac]]; [done..|left|right].
  - exists i0. split; [done|].
    assert (name_of i = name_of i0) as Hnm by (exact (conn_step_name owner off e S i0 i _ Hinv Hi0 Hs)).
    split; [done|]. split; [|done]. apply (f_equal fst) in Hnm. simpl in Hnm. rewrite Hnm.
    apply Hiss. by apply Hown.
  - split; [done|]. split; [done|]. pose proof (ss_conns _ _ _ _ _ Hse) as Hc. rewrite Forall_forall in Hc.
    pose proof (sv_numbered _ _ _ (Hc i Hi (sworld (stack S')))) as Hn.
    destruct (conns_good owner' S' i Hinv' Hi) as ([[_ _ _ _ []] _] & _).
    destruct Hb as (? & ? & ? & ? & ? & ? & ? & _ & _ & Hfs & _). split; [|done].
    assert (state (tcb i) = SynReceived false) as Hsf by (by rewrite Hfs).
    unfold numbered in Hn. simpl in Hn. rewrite Hsf in Hn. by destruct Hn as [_ ?].
Qed.

(** The owner of a channel is the session of its connection, new or old. *)
Lemma step_owner owner owner' S S' i :
  sys_inv owner' S' -> owns owner S ->
  owners_kept owner owner' (sworld (stack S)) (sworld (stack S')) ->
  ((exists i0, i0 ∈ conns (held S) (stack S) (tasks S) /\ name_of i = name_of i0) \/
   (exists st, st ∈ accepted (stack S') /\ conn_of st = Some i)) ->
  owner' (Tcp.stream_receiver i) = session_key i.
Proof.
  intros Hinv' Hown Hkept [(i0 & Hi0 & Hnm)|(st & Hin & Hc)].
  - pose proof (f_equal fst Hnm) as Er. pose proof (f_equal snd Hnm) as Es. simpl in Er, Es.
    rewrite Er, Es. destruct (Hown i0 Hi0) as [Hu0 Ho0]. by destruct (Hkept _ Hu0) as [_ ->].
  - destruct st as [t| | |]; try done. simpl in Hc.
    assert (stream_channel (StreamTcp t) = Some (name_of i)) as Hch by (simpl; by rewrite Hc).
    by destruct (si_accepted _ _ (sy_stack _ _ Hinv') _ _ _ Hin Hch) as (_ & _ & ?).
Qed.

Lemma surviving_step owner iss off B tr e S S' :
  surviving owner iss off B tr S -> sys_event b write_all e S S' ->
  (length tr < B)%nat -> Z.of_nat B < 2 ^ 47 - 1 ->
  exists owner' iss', surviving owner' iss' off B (tr ++ [e]) S'.
Proof.
  intros [Hinv Hse Hown Hoff Htm Hfirst Hconns] Hev Hlen HB.
  destruct (system_refines b write_all owner S S' (event_step _ _ _ _ _ Hev) Hinv) as (Hst & o' & Hkept & Hinv').
  destruct (send_step b write_all owner iss _ e S S' Hev Hinv Hse) as (iss' & Hiss & Hse' & _).
  pose proof (stack_steps_config b write_all _ _ (rtc_once _ _ Hst)) as Hcf. exists o', iss'.
  assert (sending iss' (fun who => bytes_written who (tr ++ [e])) S') as Hse2
    by (eapply sending_hist; [|exact Hse']; intros who; apply bytes_written_snoc).
  pose proof (fun i => step_origin owner o' iss iss' off _ e S S' i Hev Hinv Hinv' Hown Hoff Hse2 Hiss) as Hcase.
  split; [done|done|..].
  - intros i Hi. pose proof (ss_used _ _ _ _ _ Hse2) as Hu. rewrite Forall_forall in Hu.
    split; [by apply Hu, list_elem_of_fmap_2|]. eapply (step_owner owner o' S S'); [done..|].
    destruct (Hcase i Hi) as [(i0 & ? & ? & _)|(_ & ? & _)]; [left|right]; eauto.
  - rewrite <-Hoff. unfold offset. by rewrite Hcf.
  - by rewrite Hcf.
  - intros i Hi. destruct (Hcase i Hi) as [(i0 & Hi0 & _ & -> & _)|(_ & _ & -> & ?)]; [by apply Hfirst|lia].
  - intros i Hi [Hrel Hin]%relies_snoc. rewrite length_app. simpl.
    destruct (Hcase i Hi) as [(i0 & Hi0 & Hnm & Hf & Hs)|(Hb & _ & Hf & Hr)]; rewrite Hf in *.
    + rewrite Hnm in Hrel, Hin. pose proof (ss_conns _ _ _ _ _ Hse) as Hc. rewrite Forall_forall in Hc.
      destruct (Hfirst i0 Hi0). eapply (conn_step_inv off _ (bytes_written (name_of i0) tr)); [exact Hs|exact Hnm|..|lia|apply Hrel].
      * replace (Datatypes.S (B - (length tr + 1))) with (B - length tr)%nat by lia. by apply Hconns.
      * by apply Hc.
      * done.
    + replace (seq (tcb i) + 1 - 1) with (seq (tcb i)) by lia.
      eapply born_inv; [exact Htm|exact Hb|by eapply conns_good|apply Hinv'| |lia].
      destruct Hrel as [_ Hfit]. pose proof (len_nonneg (bytes_written (name_of i) tr)). lia.
Qed.

Lemma trace_survives cf dev w tr S :
  cfg_mtu cf ∈u U16 -> timely (W := W) (cfg_tcp_timeout cf) -> (forall d, queue d w = []) -> sys_trace b write_all tr (boot cf dev w) S ->
  Z.of_nat (length tr) < 2 ^ 47 - 1 ->
  exists owner iss, surviving owner iss (offset b (stack_new cf dev w)) (length tr) tr S.
Proof.
  intros Hm Htm Hw Htr HB. remember (length tr) as B eqn:HBe.
  assert (length tr <= B)%nat as Hle by lia. clear HBe. remember (boot cf dev w) as S0 eqn:HS.
  induction Htr as [S|tr e S1 S2 S3 Htr IH Hev]; subst.
  { destruct (boot_survives cf dev w B Hm Htm Hw) as [o Ho]. by exists o, (fun _ => 0). }
  rewrite length_app in Hle. simpl in Hle. destruct IH as (o & iss & Hs); [done|lia|].
  destruct (surviving_step o iss _ B tr e S2 S3 Hs Hev) as (o' & iss' & ?); [lia|done|]. by exists o', iss'.
Qed.

End system_safe.
