(* ===== verification/Icmp.v ===== *)
(** * ICMP: the part of the packet library the example programs use

    The programs under examples/ answer ICMPv4 echo requests with etherparse's
    ICMP headers.  As in [Etherparse.v], the library is a parameter: a class of
    the operations and a class of the documented behaviour the theorems use. *)

From S2P Require Import Prelude Etherparse.

Record IcmpEchoHeader := mkEcho {
  echo_id : Z;
  echo_seq : Z;
}.

(** [Icmpv4Type], by the two constructors the programs name. *)
Inductive Icmpv4Type (Other : Type) :=
  | EchoRequest (h : IcmpEchoHeader)
  | EchoReply (h : IcmpEchoHeader)
  | OtherIcmp (o : Other).
Arguments EchoRequest {Other} h.
Arguments EchoReply {Other} h.
Arguments OtherIcmp {Other} o.

Record Icmpv4Header (Other : Type) := mkIcmp {
  icmp_type : Icmpv4Type Other;
  icmp_checksum : Z;
}.
Arguments mkIcmp {Other} _ _.
Arguments icmp_type {Other} _.
Arguments icmp_checksum {Other} _.

Class Icmp `{ET : EtherparseTypes} := {
  IpNumber_ICMP : IpNumber;
  IcmpOther : Type;
  IcmpError : Type;
  (** [Icmpv4Header::from_slice]: the header and the rest. *)
  icmp_from_slice : list byte -> Result (Icmpv4Header IcmpOther * list byte) IcmpError;
  icmp_header_new : Icmpv4Type IcmpOther -> Icmpv4Header IcmpOther;
  update_checksum : list byte -> Icmpv4Header IcmpOther -> Icmpv4Header IcmpOther;
  icmp_to_bytes : Icmpv4Header IcmpOther -> list byte;
}.

Class IcmpLaws `{IC : Icmp} := {
  icmp_header_new_type : forall t, icmp_type (icmp_header_new t) = t;
  update_checksum_type : forall bs h, icmp_type (update_checksum bs h) = icmp_type h;
  (** a parsed echo header has fields of 16 bits *)
  icmp_echo_range : forall bs h e rest,
    icmp_from_slice bs = Ok (h, rest) -> icmp_type h = EchoRequest e ->
    echo_id e ∈u U16 /\ echo_seq e ∈u U16;
  (** what is written for an echo reply parses back *)
  icmp_reply_roundtrip : forall h e rest,
    icmp_type h = EchoReply e -> echo_id e ∈u U16 -> echo_seq e ∈u U16 ->
    exists h', icmp_from_slice (icmp_to_bytes h ++ rest) = Ok (h', rest) /\ icmp_type h' = EchoReply e;
}.
