(* ===== verification/Examples.v ===== *)
(** * The example programs: examples/tun2.rs and examples/tun_wintun.rs

    A program that serves a stack: it accepts streams, connects TCP and UDP
    streams to an echo server, copies between the two in a task per session, and
    answers ICMP echo requests itself.  Its main loop stops at two [await]s, so
    its state has a program counter; the answers of [accept], of [connect] and of
    the copying tasks are inputs of its steps.  [tun2.rs] also counts its
    sessions.  A run of it interleaves [main], the task of the stack, the tasks of
    dropped streams and the copying tasks, which may panic.  The server's sockets and the command-line parser are third-party
    code: a socket is a value of the parameter [Peer].  How [main] sets the device
    up is in [ExampleMain.v]. *)

From S2P Require Import Prelude Errors Etherparse Packet Runtime Tcb Tcp TcpPacket TcpLoop.
From S2P Require Import TcpFoot TcpWrapper Udp Unknown Stream Stack StackSpec StackInv Run System Icmp.

(** ** Arguments and configuration *)

Definition MTU : Z := U16 - 1.

Inductive ArgVerbosity := VOff | VError | VWarn | VInfo | VDebug | VTrace.
#[export] Instance ArgVerbosity_eq_dec : EqDecision ArgVerbosity.
Proof. solve_decision. Defined.
Definition verbosity_default : ArgVerbosity := VInfo.

(** [Args] of tun2.rs; timeouts in seconds.  The defaults are those of the
    [arg] attributes. *)
Record Args := mkArgs {
  server_addr : SocketAddr;
  arg_tcp_timeout : Z;
  arg_udp_timeout : Z;
  verbosity : ArgVerbosity;
}.
Definition args_default (server : SocketAddr) : Args := mkArgs server 60 10 verbosity_default.

Definition tun2_config (args : Args) : IpStackConfig :=
  config_udp_timeout (from_secs (arg_udp_timeout args))
    (config_tcp_timeout (from_secs (arg_tcp_timeout args))
       (config_mtu MTU config_default)).

Definition wintun_config : IpStackConfig := config_mtu MTU config_default.

Section examples.
Context `{EP : Etherparse, IC : !Icmp} {W : Type} `{RT : !Runtime W NetworkPacket}.
Context (b : Build).
Context {D : Type} {Peer : Type}.

(** What [main] can return: the error of [accept], of the ICMP parser, or of
    [send], in a box. *)
Inductive MainError :=
  | MainStack (e : IpStackError)
  | MainIcmp (e : IcmpError)
  | MainIo (e : IoError).

(** ** ICMP, the same in both programs *)

(** The bytes of the answer to an echo request. *)
Definition echo_reply (req : IcmpEchoHeader) (req_payload : list byte) : list byte :=
  let echo := mkEcho (echo_id req) (echo_seq req) in
  let resp := icmp_header_new (EchoReply echo) in
  let resp := update_checksum req_payload resp in
  icmp_to_bytes resp ++ req_payload.

Definition is_ipv4_addr (a : IpAddr) : bool := match a with IpV4 _ => true | IpV6 _ => false end.

(** The arm for another transport; [None] is running out of [send]'s fuel. *)
Definition on_unknown (fuel : nat) (u : IpStackUnknownTransport (W := W)) (w : W)
    : option (W * exec MainError unit) :=
  if is_ipv4_addr (Unknown.src_addr u) && bool_decide (Unknown.ip_protocol u = IpNumber_ICMP) then
    match icmp_from_slice (Unknown.payload u) with
    | Err e => Some (w, Throw (MainIcmp e))
    | Ok (icmp_header, req_payload) =>
        match icmp_type icmp_header with
        | EchoRequest req =>
            match send b fuel u (echo_reply req req_payload) w with
            | None => None
            | Some (w, Ret (Ok _)) => Some (w, Ret tt)
            | Some (w, Ret (Err e)) => Some (w, Throw (MainIo e))
            | Some (w, Throw e) => match e with end
            | Some (w, Panic p) => Some (w, Panic p)
            end
        | _ => Some (w, Ret tt)
        end
    end
  else Some (w, Ret tt).

(** ** examples/tun2.rs *)

(** Where [main] is: waiting for [accept], with the number of the round; waiting
    for [connect], with the stream it accepted; or returned. *)
Inductive Pc :=
  | AtAccept (number : Z)
  | AtConnect (number : Z) (st : IpStackStream (W := W))
  | Stopped (e : MainError).

(** A task that copies between a stream and the server. *)
Record Session := mkSession {
  s_number : Z;
  s_stream : IpStackStream (W := W);
  s_peer : Peer;
}.

(** The lines of the log that tell the session count. *)
Inductive LogLine :=
  | Connecting (number c : Z)
  | SessionClosed (number c : Z).

(** [count] and [serial_number] are [AtomicUsize]s.  [ex_run] is the task of the
    stack: the branches of its [select!] that are enabled, or [None] when it is
    over. *)
Record Tun2 := mkTun2 {
  ex_stack : Stack (W := W) (D := D);
  ex_run : option (bool * bool);
  ex_tasks : list (DropTask (W := W));
  ex_pc : Pc;
  ex_sessions : list Session;
  count : Z;
  serial_number : Z;
  ex_log : list LogLine;
}.

Definition set_pc v t := mkTun2 (ex_stack t) (ex_run t) (ex_tasks t) v (ex_sessions t) (count t)
  (serial_number t) (ex_log t).
Definition set_stack v t := mkTun2 v (ex_run t) (ex_tasks t) (ex_pc t) (ex_sessions t) (count t)
  (serial_number t) (ex_log t).
Definition set_run v t := mkTun2 (ex_stack t) v (ex_tasks t) (ex_pc t) (ex_sessions t) (count t)
  (serial_number t) (ex_log t).
Definition set_env v ts t := mkTun2 v (ex_run t) ts (ex_pc t) (ex_sessions t) (count t)
  (serial_number t) (ex_log t).
Definition set_sessions v t := mkTun2 (ex_stack t) (ex_run t) (ex_tasks t) (ex_pc t) v (count t)
  (serial_number t) (ex_log t).
Definition set_count v t := mkTun2 (ex_stack t) (ex_run t) (ex_tasks t) (ex_pc t) (ex_sessions t) v
  (serial_number t) (ex_log t).
Definition set_serial v t := mkTun2 (ex_stack t) (ex_run t) (ex_tasks t) (ex_pc t) (ex_sessions t) (count t)
  v (ex_log t).
Definition add_log v t := mkTun2 (ex_stack t) (ex_run t) (ex_tasks t) (ex_pc t) (ex_sessions t) (count t)
  (serial_number t) (ex_log t ++ [v]).

(** The program lets go of a stream. *)
Definition release (st : IpStackStream (W := W)) (t : Tun2) : Tun2 :=
  let '(w, new) := drop_user st (sworld (ex_stack t)) in
  set_env (with_world w (ex_stack t)) (ex_tasks t ++ new) t.

(** The start of a round: [serial_number.fetch_add(1)]. *)
Definition next_round (t : Tun2) : Tun2 :=
  set_pc (AtAccept (serial_number t)) (set_serial (wrapping_add U64 (serial_number t) 1) t).

Definition tun2_start (s : Stack (W := W) (D := D)) : Tun2 :=
  next_round (mkTun2 s (Some (true, true)) [] (AtAccept 0) [] 0 0 []).

(** [accept] has answered. *)
Definition tun2_on_accept (fuel : nat) (r : Result (IpStackStream (W := W)) IpStackError) (t : Tun2)
    : option (Tun2 * exec Empty_set unit) :=
  match ex_pc t with
  | AtAccept number =>
      match r with
      | Err e => Some (set_pc (Stopped (MainStack e)) t, Ret tt)
      | Ok (StreamTcp tcp) => Some (set_pc (AtConnect number (StreamTcp tcp)) t, Ret tt)
      | Ok (StreamUdp udp) => Some (set_pc (AtConnect number (StreamUdp udp)) t, Ret tt)
      | Ok (StreamUnknownTransport u) =>
          match on_unknown fuel u (sworld (ex_stack t)) with
          | None => None
          | Some (w, r) =>
              let t := set_stack (with_world w (ex_stack t)) t in
              match r with
              | Ret _ => Some (next_round t, Ret tt)
              | Throw e => Some (set_pc (Stopped e) t, Ret tt)
              | Panic p => Some (t, Panic p)
              end
          end
      | Ok (StreamUnknownNetwork _) => Some (next_round t, Ret tt)
      end
  | _ => Some (t, Ret tt)
  end.

(** [connect] has answered. *)
Definition tun2_on_connect (r : Result Peer IoError) (t : Tun2) : Tun2 * exec Empty_set unit :=
  match ex_pc t with
  | AtConnect number st =>
      match r with
      | Err _ => (next_round (release st t), Ret tt)
      | Ok s =>
          let old := count t in
          let t := set_count (wrapping_add U64 old 1) t in
          match plain_add (E := Empty_set) b U64 old 1 with
          | Ret c =>
              let t := add_log (Connecting number c) t in
              (next_round (set_sessions (ex_sessions t ++ [mkSession number st s]) t), Ret tt)
          | Throw e => match e with end
          | Panic p => (t, Panic p)
          end
      end
  | _ => (t, Ret tt)
  end.

(** The copying of session [i] is over, with whatever result: it is counted off,
    and its task drops its stream. *)
Definition tun2_session_end (i : nat) (t : Tun2) : Tun2 * exec Empty_set unit :=
  match ex_sessions t !! i with
  | Some s =>
      let old := count t in
      let t := set_count (wrapping_sub U64 old 1) t in
      let gone t := release (s_stream s) (set_sessions (delete i (ex_sessions t)) t) in
      match plain_sub (E := Empty_set) b U64 old 1 with
      | Ret c => (gone (add_log (SessionClosed (s_number s) c) t), Ret tt)
      | Throw e => match e with end
      | Panic p => (gone t, Panic p)
      end
  | None => (t, Ret tt)
  end.

(** A call of the stream of session [i] during the copying: the stream as the call
    left it, in the world after it. *)
Definition tun2_copied (i : nat) (st : IpStackStream (W := W)) (w : W) (t : Tun2) : Tun2 :=
  match ex_sessions t !! i with
  | Some s => set_sessions (<[i := mkSession (s_number s) st (s_peer s)]> (ex_sessions t))
                (set_stack (with_world w (ex_stack t)) t)
  | None => t
  end.

(** ... and of a call that panics: the task unwinds and drops the stream; the rest of
    the task, with the counting, is not reached. *)
Definition tun2_crashed (i : nat) (st : IpStackStream (W := W)) (w : W) (t : Tun2) : Tun2 :=
  release st (set_sessions (delete i (ex_sessions t)) (set_stack (with_world w (ex_stack t)) t)).

(** ** examples/tun_wintun.rs *)

Inductive WPc :=
  | WAtAccept
  | WAtConnect (st : IpStackStream (W := W))
  | WStopped (e : MainError).

Record Wintun := mkWintun {
  w_stack : Stack (W := W) (D := D);
  w_tasks : list (DropTask (W := W));
  w_pc : WPc;
  w_sessions : list (IpStackStream (W := W) * Peer);
}.

Definition set_w_pc v t := mkWintun (w_stack t) (w_tasks t) v (w_sessions t).
Definition set_w_env v ts t := mkWintun v ts (w_pc t) (w_sessions t).
Definition set_w_sessions v t := mkWintun (w_stack t) (w_tasks t) (w_pc t) v.

Definition w_release (st : IpStackStream (W := W)) (t : Wintun) : Wintun :=
  let '(w, new) := drop_user st (sworld (w_stack t)) in
  set_w_env (with_world w (w_stack t)) (w_tasks t ++ new) t.

Definition wintun_start (s : Stack (W := W) (D := D)) : Wintun := mkWintun s [] WAtAccept [].

Definition wintun_on_accept (fuel : nat) (r : Result (IpStackStream (W := W)) IpStackError)
    (t : Wintun) : option (Wintun * exec Empty_set unit) :=
  match w_pc t with
  | WAtAccept =>
      match r with
      | Err e => Some (set_w_pc (WStopped (MainStack e)) t, Ret tt)
      | Ok (StreamTcp tcp) => Some (set_w_pc (WAtConnect (StreamTcp tcp)) t, Ret tt)
      | Ok (StreamUdp udp) => Some (set_w_pc (WAtConnect (StreamUdp udp)) t, Ret tt)
      | Ok (StreamUnknownTransport u) =>
          match on_unknown fuel u (sworld (w_stack t)) with
          | None => None
          | Some (w, r) =>
              let t := set_w_env (with_world w (w_stack t)) (w_tasks t) t in
              match r with
              | Ret _ => Some (set_w_pc WAtAccept t, Ret tt)
              | Throw e => Some (set_w_pc (WStopped e) t, Ret tt)
              | Panic p => Some (t, Panic p)
              end
          end
      | Ok (StreamUnknownNetwork _) => Some (set_w_pc WAtAccept t, Ret tt)
      end
  | _ => Some (t, Ret tt)
  end.

Definition wintun_on_connect (r : Result Peer IoError) (t : Wintun) : Wintun :=
  match w_pc t with
  | WAtConnect st =>
      match r with
      | Err _ => set_w_pc WAtAccept (w_release st t)
      | Ok s => set_w_pc WAtAccept (set_w_sessions (w_sessions t ++ [(st, s)]) t)
      end
  | _ => t
  end.

Definition wintun_session_end (i : nat) (t : Wintun) : Wintun :=
  match w_sessions t !! i with
  | Some (st, _) => w_release st (set_w_sessions (delete i (w_sessions t)) t)
  | None => t
  end.

(** ** Runs of tun2.rs *)

Context `{EL : !EtherparseLaws}.
Context `{RO : !RuntimeObs W NetworkPacket, RL : !RuntimeLaws W NetworkPacket}.
Context (write_all : list byte -> D -> D * Result unit IoError).
Implicit Types t : Tun2.

(** A panic of a task unwinds the task, or, in a build that aborts, ends the process. *)
Definition survived {E A} (r : exec E A) : Prop := forall p, r = Panic p -> unwinds b = true.

(** [main] has neither returned nor panicked, which ends the process. *)
Definition main_runs t : Prop := match ex_pc t with Stopped _ => False | _ => True end.

(** One step of [main] or of a task of the program, or time passes; the label tells
    whether a copying task panicked while it was copying.  The copying task may make
    any call of its stream. *)
Inductive tun2_move : bool -> Tun2 -> Tun2 -> Prop :=
  | t2_run read recv k t :
      ex_run t = Some (read, recv) -> run_step b write_all (mkTask (ex_stack t) read recv) k ->
      tun2_move false t (set_run (Some (read_on k, recv_on k)) (set_stack (t_stack k) t))
  | t2_run_ends read recv s' t :
      ex_run t = Some (read, recv) -> run_stop b write_all (mkTask (ex_stack t) read recv) s' ->
      tun2_move false t (set_run None (set_stack s' t))
  | t2_task i n k d w' r t :
      ex_tasks t !! i = Some d -> drop_task_poll b n k d (sworld (ex_stack t)) = Some (w', r) -> survived r ->
      tun2_move false t (set_env (with_world w' (ex_stack t))
        (match r with Ret (Some d') => <[i := d']> (ex_tasks t) | _ => delete i (ex_tasks t) end) t)
  | t2_time w' t :
      same_chans (sworld (ex_stack t)) w' -> (forall d, used d w' = used d (sworld (ex_stack t))) ->
      tun2_move false t (set_stack (with_world w' (ex_stack t)) t)
  | t2_accept n number r s' t t' :
      ex_pc t = AtAccept number ->
      accept (match ex_run t with Some _ => true | None => false end) (ex_stack t) = (s', Ready r) ->
      tun2_on_accept n r (set_stack s' t) = Some (t', Ret tt) -> tun2_move false t t'
  | t2_connect r t t' : tun2_on_connect r t = (t', Ret tt) -> tun2_move false t t'
  | t2_copy i e s st' w' t :
      ex_sessions t !! i = Some s -> stream_call b true e (s_stream s) (sworld (ex_stack t)) st' w' ->
      tun2_move false t (tun2_copied i st' w' t)
  | t2_crash i e s st' w' t :
      unwinds b = true -> ex_sessions t !! i = Some s ->
      stream_call b false e (s_stream s) (sworld (ex_stack t)) st' w' ->
      tun2_move true t (tun2_crashed i st' w' t)
  | t2_end i r t t' : tun2_session_end i t = (t', r) -> survived r -> tun2_move false t t'.

Definition tun2_step (crash : bool) t t' : Prop := main_runs t /\ tun2_move crash t t'.

(** A run, with the number of copying tasks that panicked in it. *)
Inductive tun2_run : nat -> Tun2 -> Tun2 -> Prop :=
  | tun2_run_nil t : tun2_run 0 t t
  | tun2_run_snoc n c t1 t2 t3 :
      tun2_run n t1 t2 -> tun2_step c t2 t3 -> tun2_run (n + Nat.b2n c) t1 t3.

(** *** The session count *)

(** The copying tasks and those that panicked, which were not counted off. *)
Definition counted (n : nat) t : Prop := count t = cast U64 (len (ex_sessions t) + Z.of_nat n).

Lemma release_counted n st t : counted n t -> counted n (release st t).
Proof. unfold counted, release. by destruct (drop_user _ _). Qed.

Lemma len_insert {A} i (x : A) l : len (<[i := x]> l) = len l.
Proof. unfold len. by rewrite length_insert. Qed.
Lemma len_delete {A} i (x : A) l : l !! i = Some x -> len (delete i l) = len l - 1.
Proof.
  intros Hi. apply lookup_lt_Some in Hi as Hlt. unfold len. rewrite length_delete by eauto. lia.
Qed.

Lemma on_accept_counted k n r t t' o : counted k t -> tun2_on_accept n r t = Some (t', o) -> counted k t'.
Proof.
  unfold tun2_on_accept, counted. intros Hc Hr. repeat case_match; simplify_eq; done.
Qed.

Lemma on_connect_counted k r t :
  counted k t -> counted k (tun2_on_connect r t).1 \/ (tun2_on_connect r t).2 <> Ret tt.
Proof.
  intros Hc. unfold tun2_on_connect. destruct (ex_pc t) as [|number st|]; [by left| |by left].
  destruct r as [s|e]; [|left; by apply (release_counted _ st)].
  destruct (plain_add b U64 (count t) 1) as [c|[]|p]; [|by right]. left.
  unfold counted, wrapping_add in *; simpl. rewrite Hc, len_app. unfold cast.
  rewrite Zplus_mod_idemp_l. f_equal. unfold len. simpl. lia.
Qed.

Lemma session_end_counted k i t : counted k t -> counted k (tun2_session_end i t).1.
Proof.
  intros Hc. unfold tun2_session_end. destruct (ex_sessions t !! i) as [s|] eqn:Hi; [|done].
  assert (wrapping_sub U64 (count t) 1 = cast U64 (len (delete i (ex_sessions t)) + Z.of_nat k)) as Heq.
  { rewrite (len_delete i s) by done. unfold counted in Hc. rewrite Hc. unfold wrapping_sub, cast.
    rewrite Zminus_mod_idemp_l. f_equal. lia. }
  destruct (plain_sub b U64 (count t) 1) as [c|[]|p]; simpl; by apply release_counted.
Qed.

(** A task that panics is gone, and still counted. *)
Lemma crashed_counted k i s st w t :
  ex_sessions t !! i = Some s -> counted k t -> counted (S k) (tun2_crashed i st w t).
Proof.
  intros Hi Hc. apply release_counted. unfold counted in *; simpl. rewrite Hc, (len_delete i s) by done.
  f_equal. lia.
Qed.

Lemma tun2_step_counted k c t t' : tun2_step c t t' -> counted k t -> counted (k + Nat.b2n c) t'.
Proof.
  intros [_ Hs]. destruct Hs as [| | | |n number r s' t1 t2 _ _ Hrun|r t1 t2 Hrun|i e s st' w' t1 Hi _
    |i e s st' w' t1 _ Hi _|i r t1 t2 Hrun _]; intros Hc; simpl; rewrite ?Nat.add_0_r, ?Nat.add_1_r; try done.
  - eapply (on_accept_counted _ _ _ (set_stack s' t1)); [exact Hc|exact Hrun].
  - destruct (on_connect_counted k r t1 Hc) as [H|H]; rewrite Hrun in H; done.
  - unfold tun2_copied, counted. rewrite Hi. simpl. by rewrite len_insert.
  - by eapply crashed_counted.
  - pose proof (session_end_counted k i t1 Hc) as H. by rewrite Hrun in H.
Qed.

Lemma tun2_run_counted k n t t' : tun2_run n t t' -> counted k t -> counted (k + n) t'.
Proof.
  induction 1 as [t|n c t1 t2 t3 _ IH Hs]; intros Hc; [by rewrite Nat.add_0_r|].
  rewrite Nat.add_assoc. by eapply tun2_step_counted; [|apply IH].
Qed.

(** No task panics, and lives to be counted, in a build that aborts. *)
Lemma tun2_run_aborts n t t' : unwinds b = false -> tun2_run n t t' -> n = 0%nat.
Proof.
  intros Hu. induction 1 as [|n c t1 t2 t3 _ -> [_ Hs]]; [done|].
  by destruct Hs as [| | | | | | |? ? ? ? ? ? Hu'|]; try done; rewrite Hu in Hu'.
Qed.

(** *** The program as a user of the stack *)

Definition pc_streams (pc : Pc) : list (IpStackStream (W := W)) :=
  match pc with AtConnect _ st => [st] | _ => [] end.

(** The streams of the sessions, then the one that is being connected. *)
Definition tun2_view t : System (W := W) (D := D) :=
  mkSystem (ex_stack t) ((s_stream <$> ex_sessions t) ++ pc_streams (ex_pc t)) (ex_tasks t).

(** A round of the task of the stack: a packet, or a branch that is disabled. *)
Lemma run_refines (k k' : Task (W := W) (D := D)) h ts :
  run_step b write_all k k' ->
  rtc (sys_step b write_all) (mkSystem (t_stack k) h ts) (mkSystem (t_stack k') h ts).
Proof.
  intros [br t1 t2 Hen Hrecv Hrun]. destruct br as [rnd [buf|e]|[p|] w]; simpl in *.
  - destruct (on_device_read _ _ _ _) as [s r] eqn:Hd. simplify_eq. apply rtc_once.
    by eapply event_step, sys_device.
  - unfold without_branch in Hrun. case_match; by simplify_eq.
  - destruct Hrecv as [q Hk]. destruct (on_packet _ _ _ _ _) as [s r] eqn:Hp. simplify_eq.
    apply rtc_once. by eapply event_step, sys_packet.
  - destruct Hrecv as [q Hk]. unfold without_branch in Hrun. case_match; [|done]. simplify_eq. simpl.
    pose proof (chan_recv_spec (pkt_chan (t_stack t1)) q (sworld (t_stack t1))) as Hs.
    pose proof (chan_recv_other (pkt_chan (t_stack t1)) q (sworld (t_stack t1))) as Hq.
    pose proof (chan_recv_used (pkt_chan (t_stack t1)) q (sworld (t_stack t1))) as Hu.
    pose proof (chan_recv_open (pkt_chan (t_stack t1)) q (sworld (t_stack t1))) as Hop.
    rewrite Hk in *. simpl in *. destruct Hs as [H1 H2]. apply rtc_once. eapply event_step, sys_time; [|done].
    split; [|done]. intros d. destruct (decide (d = pkt_chan (t_stack t1))) as [->|Hd]; [congruence|by apply Hq].
Qed.

Lemma release_step l1 st l2 t :
  sys_step b write_all (mkSystem (ex_stack t) (l1 ++ st :: l2) (ex_tasks t))
    (mkSystem (ex_stack (release st t)) (l1 ++ l2) (ex_tasks (release st t))).
Proof.
  unfold release. destruct (drop_user st (sworld (ex_stack t))) as [w new] eqn:Hd. simpl.
  replace (l1 ++ l2) with (delete (length l1) (l1 ++ st :: l2))
    by (rewrite delete_middle; done).
  eapply event_step, sys_drop; [|exact Hd]. by rewrite list_lookup_middle.
Qed.

(** Accepting: the stream is at the end of what the program holds. *)
Lemma accept_view alive x s' h t :
  accept alive (ex_stack t) = (s', Ready (Ok x)) ->
  sys_step b write_all (mkSystem (ex_stack t) h (ex_tasks t)) (mkSystem s' (h ++ [x]) (ex_tasks t)).
Proof.
  intros Ha. eapply event_step, sys_accept. unfold accept in *.
  destruct (accepted (ex_stack t)); [by destruct alive|done].
Qed.

(** Answering a packet of another transport. *)
Lemma on_unknown_step n (u : IpStackUnknownTransport (W := W)) w1 r s h ts :
  on_unknown n u (sworld s) = Some (w1, r) -> (forall p, r <> Panic p) ->
  rtc (sys_step b write_all) (mkSystem s (h ++ [StreamUnknownTransport u]) ts)
    (mkSystem (with_world w1 s) h ts).
Proof.
  intros Hr Hnp.
  assert (rtc (sys_step b write_all) (mkSystem s (h ++ [StreamUnknownTransport u]) ts)
            (mkSystem (with_world w1 s) (h ++ [StreamUnknownTransport u]) ts)) as Hsend.
  { assert (w1 = sworld s \/ exists bs v, send b n u bs (sworld s) = Some (w1, Ret v)) as [->|(bs & v & Hs)].
    { unfold on_unknown in Hr. destruct (_ && _); [|simplify_eq; by left].
      destruct (icmp_from_slice _) as [[ih rest]|e]; [|simplify_eq; by left].
      destruct (icmp_type ih) as [req|req|o]; [|simplify_eq; by left..].
      destruct (send _ _ _ _ _) as [[w2 [[v|e]|[]|p]]|] eqn:Hs; simplify_eq; eauto.
      by destruct (Hnp p). }
    - by destruct s.
    - apply rtc_once.
      rewrite <-(list_insert_id (h ++ [StreamUnknownTransport u]) (length h) (StreamUnknownTransport u)) at 2
        by (by rewrite list_lookup_middle).
      eapply event_step, sys_call; [by rewrite list_lookup_middle|]. by apply (call_unknown_send b n bs u _ _ (Ret v)). }
  etrans; [exact Hsend|]. apply rtc_once.
  rewrite <-(app_nil_r h) at 2. replace (h ++ []) with (delete (length h) (h ++ [StreamUnknownTransport u]))
    by (rewrite delete_middle; done).
  replace (with_world w1 s) with (with_world w1 (with_world w1 s)) at 2 by done.
  rewrite <-(app_nil_r ts) at 2.
  eapply event_step, sys_drop; [by rewrite list_lookup_middle|done].
Qed.

Lemma accept_refines n number r alive s' t t' :
  ex_pc t = AtAccept number -> accept alive (ex_stack t) = (s', Ready r) ->
  tun2_on_accept n r (set_stack s' t) = Some (t', Ret tt) ->
  rtc (sys_step b write_all) (tun2_view t) (tun2_view t').
Proof.
  intros Hpc Ha Hrun. unfold tun2_on_accept in Hrun. simpl in Hrun. rewrite Hpc in Hrun.
  unfold tun2_view at 1. rewrite Hpc, app_nil_r. set (h := s_stream <$> ex_sessions t).
  destruct r as [x|e].
  2:{ simplify_eq. unfold tun2_view. simpl. rewrite app_nil_r. unfold accept in Ha.
      destruct (accepted (ex_stack t)); by simplify_eq. }
  eapply rtc_l; [by apply (accept_view alive x s' h)|].
  destruct x as [tcp|udp|u|bs].
  - by simplify_eq.
  - by simplify_eq.
  - destruct (on_unknown _ _ _) as [[w1 r1]|] eqn:Hu; [|done]. simpl in Hu.
    assert (tun2_view t' = mkSystem (with_world w1 s') h (ex_tasks t) /\ forall p, r1 <> Panic p)
      as [-> Hnp].
    { unfold tun2_view. destruct r1; simplify_eq/=; rewrite ?app_nil_r; done. }
    by eapply on_unknown_step.
  - simplify_eq. unfold tun2_view. simpl. rewrite app_nil_r. apply rtc_once.
    pose proof (release_step h (StreamUnknownNetwork bs) [] (set_stack s' t)) as Hr.
    simpl in Hr. rewrite !app_nil_r in Hr. by destruct s'.
Qed.

Lemma fmap_delete {A B} (f : A -> B) (i : nat) (l : list A) : f <$> delete i l = delete i (f <$> l).
Proof. revert i. induction l as [|x l IH]; intros [|i]; simpl; [done..|]. by rewrite IH. Qed.

(** A session's place among the streams of the program. *)
Lemma view_lookup i s t :
  ex_sessions t !! i = Some s -> held (tun2_view t) !! i = Some (s_stream s).
Proof.
  intros Hi. simpl. rewrite lookup_app_l by (rewrite length_fmap; by eapply lookup_lt_Some).
  by rewrite list_lookup_fmap, Hi.
Qed.

Lemma view_delete i s t :
  ex_sessions t !! i = Some s ->
  delete i (held (tun2_view t)) = (s_stream <$> delete i (ex_sessions t)) ++ pc_streams (ex_pc t).
Proof.
  intros (l1 & l2 & Hl & ->)%list_elem_of_split_length. simpl. rewrite Hl, delete_middle, !fmap_app, fmap_cons.
  rewrite <-!app_assoc. simpl. rewrite <-(length_fmap s_stream l1). by rewrite delete_middle.
Qed.

Lemma connect_refines r t t' :
  tun2_on_connect r t = (t', Ret tt) -> rtc (sys_step b write_all) (tun2_view t) (tun2_view t').
Proof.
  intros Hrun. unfold tun2_on_connect in Hrun.
  destruct (ex_pc t) as [|number st|] eqn:Hpc; simplify_eq; [done| |done].
  unfold tun2_view at 1. rewrite Hpc. simpl. destruct r as [p|e].
  - destruct (plain_add b U64 (count t) 1) as [c|[]|q]; simplify_eq. unfold tun2_view. simpl.
    by rewrite fmap_app, app_nil_r.
  - simplify_eq. apply rtc_once.
    pose proof (release_step (s_stream <$> ex_sessions t) st [] t) as Hr.
    unfold tun2_view. simpl. unfold release in *. by destruct (drop_user _ _).
Qed.

(** The stream of a session is dropped: as it is, or as a panicking call left it. *)
Lemma session_end_refines i r t t' :
  tun2_session_end i t = (t', r) -> rtc (sys_step b write_all) (tun2_view t) (tun2_view t').
Proof.
  intros Hrun. unfold tun2_session_end in Hrun. destruct (ex_sessions t !! i) as [s|] eqn:Hi; simplify_eq; [|done].
  apply rtc_once. destruct (drop_user (s_stream s) (sworld (ex_stack t))) as [w new] eqn:Hd.
  assert (tun2_view t' = mkSystem (with_world w (ex_stack t)) (delete i (held (tun2_view t))) (ex_tasks t ++ new)) as ->.
  { rewrite (view_delete i s) by done. unfold release in Hrun. simpl in Hrun. rewrite Hd in Hrun.
    by destruct (plain_sub b U64 (count t) 1) as [c|[]|q]; simplify_eq. }
  eapply event_step, (sys_drop _ _ i (s_stream s) w new (ex_stack t)); [by apply view_lookup|done].
Qed.

Lemma crash_refines i e s st w t :
  unwinds b = true -> ex_sessions t !! i = Some s ->
  stream_call b false e (s_stream s) (sworld (ex_stack t)) st w ->
  sys_step b write_all (tun2_view t) (tun2_view (tun2_crashed i st w t)).
Proof.
  intros Hu Hi Hc. unfold tun2_crashed, release. simpl. destruct (drop_user st w) as [w' new] eqn:Hd.
  assert (sys_step b write_all (tun2_view t)
    (mkSystem (with_world w' (ex_stack t)) (delete i (held (tun2_view t))) (ex_tasks t ++ new))) as Hs.
  { eapply event_step, (sys_crash _ _ i e (s_stream s) st w w' new (ex_stack t)); [done|by apply view_lookup|done..]. }
  by rewrite (view_delete i s) in Hs.
Qed.

Lemma copy_refines i e s st w t :
  ex_sessions t !! i = Some s -> stream_call b true e (s_stream s) (sworld (ex_stack t)) st w ->
  sys_step b write_all (tun2_view t) (tun2_view (tun2_copied i st w t)).
Proof.
  intros Hi Hc. unfold tun2_copied. rewrite Hi. unfold tun2_view at 2; simpl.
  rewrite list_fmap_insert. simpl. rewrite <-insert_app_l by (rewrite length_fmap; by eapply lookup_lt_Some).
  eapply event_step, sys_call; [|done]. by apply view_lookup.
Qed.

Lemma task_refines i n k d w r t :
  ex_tasks t !! i = Some d -> drop_task_poll b n k d (sworld (ex_stack t)) = Some (w, r) -> survived r ->
  sys_step b write_all (tun2_view t) (tun2_view (set_env (with_world w (ex_stack t))
    (match r with Ret (Some d') => <[i := d']> (ex_tasks t) | _ => delete i (ex_tasks t) end) t)).
Proof.
  intros Hi Hrun Hs. eapply event_step. destruct r as [[d'|]|[]|p].
  - by eapply sys_task.
  - by eapply sys_task_ends.
  - eapply sys_task_crash; [by eapply Hs|done..].
Qed.

(** Every step of the program is made of steps of the system of [System.v], as long
    as the task of the stack goes on. *)
Lemma tun2_refines c t t' :
  tun2_step c t t' -> ex_run t' <> None -> rtc (sys_step b write_all) (tun2_view t) (tun2_view t').
Proof.
  intros [_ Hs] Hrun. destruct Hs as [read recv k t1 _ Hs|read recv s' t1 _ _|i n k d w' r t1 Hi Hr Hsv
    |w' t1 Hsc Hu|n number r s' t1 t2 Hpc Ha Hr|r t1 t2 Hr|i e s st' w' t1 Hi Hc
    |i e s st' w' t1 Hu Hi Hc|i r t1 t2 Hr _].
  - by apply (run_refines (mkTask (ex_stack t1) read recv)).
  - done.
  - apply rtc_once. by eapply task_refines.
  - apply rtc_once. by eapply event_step, sys_time.
  - by eapply accept_refines.
  - by eapply connect_refines.
  - apply rtc_once. by eapply copy_refines.
  - apply rtc_once. by eapply crash_refines.
  - by eapply session_end_refines.
Qed.

(** What is over stays over. *)
Lemma tun2_step_run c t t' : tun2_step c t t' -> ex_run t = None -> ex_run t' = None.
Proof.
  intros [_ Hs] Hn. destruct Hs as [| | | |n number r s' t1 t2 _ _ Hr|r t1 t2 Hr|i e s st' w' t1 _ _
    |i e s st' w' t1 _ _ _|i r t1 t2 Hr _]; simpl in *; try congruence.
  - unfold tun2_on_accept in Hr. repeat case_match; by simplify_eq.
  - unfold tun2_on_connect, release in Hr. repeat case_match; by simplify_eq.
  - unfold tun2_copied. by case_match.
  - unfold tun2_crashed, release. by case_match.
  - unfold tun2_session_end, release in Hr. repeat case_match; by simplify_eq.
Qed.

Lemma tun2_run_refines n t t' :
  tun2_run n t t' -> ex_run t' <> None -> rtc (sys_step b write_all) (tun2_view t) (tun2_view t').
Proof.
  induction 1 as [t|n c t1 t2 t3 _ IH Hs]; intros Hr; [done|]. etrans; [apply IH|by eapply tun2_refines].
  intros Hn. by apply Hr, (tun2_step_run c t2).
Qed.

(** ** The two programs do the same *)

(** What tun_wintun.rs keeps of the state of tun2.rs. *)
Definition forget_pc (pc : Pc) : WPc :=
  match pc with
  | AtAccept _ => WAtAccept
  | AtConnect _ st => WAtConnect st
  | Stopped e => WStopped e
  end.
Definition forget t : Wintun :=
  mkWintun (ex_stack t) (ex_tasks t) (forget_pc (ex_pc t))
    ((fun s => (s_stream s, s_peer s)) <$> ex_sessions t).

Lemma forget_release st t : forget (release st t) = w_release st (forget t).
Proof. unfold release, w_release. simpl. by destruct (drop_user _ _). Qed.

Lemma forget_accept n r t :
  prod_map forget id <$> tun2_on_accept n r t = wintun_on_accept n r (forget t).
Proof.
  unfold tun2_on_accept, wintun_on_accept. simpl. destruct (ex_pc t); simpl; [|done..].
  destruct r as [[tcp|udp|u|bs]|e]; try done.
  destruct (on_unknown _ _ _) as [[w1 [v|e|p]]|]; done.
Qed.

Lemma forget_connect r t :
  count t + 1 < U64 -> prod_map forget id (tun2_on_connect r t) = (wintun_on_connect r (forget t), Ret tt).
Proof.
  intros Hc. unfold tun2_on_connect, wintun_on_connect. simpl. destruct (ex_pc t) as [|number st|]; simpl; [done| |done].
  destruct r as [s|e]; [|by rewrite <-forget_release].
  unfold plain_add. rewrite arith_small by done. unfold forget, prod_map, set_w_pc, set_w_sessions; simpl.
  by rewrite fmap_app.
Qed.

Lemma forget_session_end i t :
  0 < count t -> prod_map forget id (tun2_session_end i t) = (wintun_session_end i (forget t), Ret tt).
Proof.
  intros Hc. unfold tun2_session_end, wintun_session_end. simpl. rewrite list_lookup_fmap.
  destruct (ex_sessions t !! i) as [s|] eqn:Hi; simpl; [|done].
  unfold plain_sub. destruct (Z.leb_spec 1 (count t)); [|lia]. unfold prod_map; simpl.
  rewrite forget_release. f_equal. unfold forget, set_w_sessions; simpl. by rewrite fmap_delete.
Qed.

End examples.
