(* ===== verification/WintunDevice.v ===== *)
(** * The Windows device: module [wintun] of examples/tun_wintun.rs

    A thread receives packets from the wintun driver and sends them through a
    channel; [poll_read] takes one packet from it, and [poll_write] hands one to
    the driver.  The driver's session is third-party code: a parameter. *)

From S2P Require Import Prelude Errors Runtime.

(** The calls of the wintun crate.  The library is loaded, an adapter created,
    given its address and netmask, and a session started on it; a send packet is
    allocated with a length of 16 bits, filled and sent. *)
Class WintunApi := {
  WLib : Type;
  WAdapter : Type;
  WSession : Type;
  WError : Type;
  wintun_load : Result WLib WError;
  adapter_create : WLib -> Result WAdapter WError;
  set_address : Z -> WAdapter -> Result WAdapter WError;
  set_netmask : Z -> WAdapter -> Result WAdapter WError;
  start_session : WAdapter -> Result WSession WError;
  SendPacket : Type;
  allocate_send_packet : Z -> WSession -> WSession * Result SendPacket IoError;
  bytes_mut_len : SendPacket -> Z;
  send_packet : SendPacket -> list byte -> WSession -> WSession;
}.

(** The buffer of an allocated packet has the length asked for. *)
Class WintunLaws `{WA : WintunApi} := {
  allocate_len : forall n s s' p, allocate_send_packet n s = (s', Ok p) -> bytes_mut_len p = n;
}.

Section device.
Context `{WA : WintunApi} {W : Type} `{RT : !Runtime W (list byte)}.

Record WinTunDevice := mkDevice {
  session : WSession;
  receiver : Chan;
}.

(** [WinTunDevice::new]: the session, and the device up to the start of the
    reading thread. *)
Definition new_session (ip netmask : Z) : exec Empty_set WSession :=
  wintun ← unwrap wintun_load;
  adapter ← unwrap (adapter_create wintun);
  adapter ← unwrap (set_address ip adapter);
  adapter ← unwrap (set_netmask netmask adapter);
  unwrap (start_session adapter).

Definition wintun_new (ip netmask : Z) (w : W) : W * exec Empty_set WinTunDevice :=
  match new_session ip netmask with
  | Ret session =>
      let '(receiver_rx, w) := chan_new w in
      (w, Ret (mkDevice session receiver_rx))
  | Throw e => match e with end
  | Panic p => (w, Panic p)
  end.

(** A round of the reading thread; [r] is what [receive_blocking] returns. *)
Definition reader_round (d : WinTunDevice) (r : Result (list byte) WError) (w : W)
    : W * exec Empty_set unit :=
  match r with
  | Err _ => (w, Panic PUnwrap)
  | Ok bytes =>
      let '(ok, w) := chan_send (receiver d) bytes w in
      (w, if (ok : bool) then Ret tt else Panic PUnwrap)
  end.

Definition wintun_poll_read (k : Waker) (d : WinTunDevice) (w : W) (rb : ReadBuf)
    : W * ReadBuf * exec Empty_set PollUnit :=
  let '(r, w) := chan_poll_recv (receiver d) k w in
  match r with
  | Pending => (w, rb, Ret Pending)
  | Ready (Some bytes) =>
      match put_slice bytes rb with
      | Some rb => (w, rb, Ret (Ready (Ok tt)))
      | None => (w, rb, Panic PPutSlice)
      end
  | Ready None => (w, rb, Ret (Ready (Ok tt)))
  end.

Definition wintun_poll_write (buf : list byte) (d : WinTunDevice)
    : WinTunDevice * exec Empty_set PollSize :=
  let '(s, r) := allocate_send_packet (cast U16 (len buf)) (session d) in
  let d := mkDevice s (receiver d) in
  match r with
  | Err e => (d, Ret (ready_err e))
  | Ok write_pack =>
      if bytes_mut_len write_pack =? len buf
      then (mkDevice (send_packet write_pack buf s) (receiver d), Ret (Ready (Ok (len buf))))
      else (d, Panic PCopySlice)
  end.

Definition wintun_poll_flush (d : WinTunDevice) : PollUnit := Ready (Ok tt).
Definition wintun_poll_shutdown (d : WinTunDevice) : PollUnit := Ready (Ok tt).

Context `{RO : !RuntimeObs W (list byte), RL : !RuntimeLaws W (list byte)}.

(** ** What it does *)

(** The channel of a new device is empty and open. *)
Lemma wintun_new_queue ip netmask w w' d :
  wintun_new ip netmask w = (w', Ret d) ->
  queue (receiver d) w' = [] /\ rx_open (receiver d) w' = true.
Proof.
  unfold wintun_new. destruct (new_session ip netmask) as [se|[]|p]; [|done].
  pose proof (chan_new_queue w) as Hq. pose proof (chan_new_open w) as Ho.
  destruct (chan_new w) as [ch w1]. intros [= <- <-]. simpl in *. specialize (Hq ch). specialize (Ho ch).
  rewrite decide_True in Hq by done. by rewrite decide_True in Ho.
Qed.

(** A packet of at most 65535 bytes goes to the driver whole. *)
Lemma write_whole `{WL : !WintunLaws} buf d s p :
  len buf < U16 -> allocate_send_packet (len buf) (session d) = (s, Ok p) ->
  wintun_poll_write buf d =
    (mkDevice (send_packet p buf s) (receiver d), Ret (Ready (Ok (len buf)))).
Proof.
  intros Hl Ha. pose proof (len_nonneg buf). unfold wintun_poll_write.
  rewrite cast_small, Ha by lia. rewrite (allocate_len _ _ _ _ Ha), Z.eqb_refl. done.
Qed.

(** A longer one is a panic: its length is cut to 16 bits. *)
Lemma write_long `{WL : !WintunLaws} buf d s p :
  U16 <= len buf -> allocate_send_packet (cast U16 (len buf)) (session d) = (s, Ok p) ->
  (wintun_poll_write buf d).2 = Panic PCopySlice.
Proof.
  intros Hl Ha. unfold wintun_poll_write. rewrite Ha, (allocate_len _ _ _ _ Ha).
  pose proof (cast_range U16 (len buf)). destruct (Z.eqb_spec (cast U16 (len buf)) (len buf)); [lia|done].
Qed.

(** The thread hands the packets over in the order it receives them... *)
Lemma reader_round_queue d p w :
  rx_open (receiver d) w = true ->
  exists w', reader_round d (Ok p) w = (w', Ret tt) /\
    queue (receiver d) w' = queue (receiver d) w ++ [p] /\ rx_open (receiver d) w' = true.
Proof.
  intros Ho. unfold reader_round. pose proof (chan_send_ok (receiver d) p w) as Hok.
  pose proof (chan_send_queue (receiver d) p w (receiver d)) as Hq.
  pose proof (chan_send_open (receiver d) p w (receiver d)) as Ho'.
  destruct (chan_send _ _ _) as [ok w']; simpl in *. rewrite Ho in *. subst ok.
  rewrite decide_True in Hq by done. eauto.
Qed.

Definition reader_rounds (d : WinTunDevice) (ps : list (list byte)) (w : W) : W :=
  foldl (fun w p => (reader_round d (Ok p) w).1) w ps.

Lemma reader_rounds_queue d ps w :
  rx_open (receiver d) w = true ->
  queue (receiver d) (reader_rounds d ps w) = queue (receiver d) w ++ ps /\
  rx_open (receiver d) (reader_rounds d ps w) = true.
Proof.
  unfold reader_rounds. revert w. induction ps as [|p ps IH]; intros w Ho; cbn [foldl];
    [by rewrite app_nil_r|].
  destruct (reader_round_queue d p w Ho) as (w' & Hr & Hq & Ho'). rewrite Hr. cbn [fst].
  destruct (IH w' Ho') as [-> ->]. by rewrite Hq, <-app_assoc.
Qed.

(** ... and a read that finds something takes the oldest, whole. *)
Lemma read_oldest k d w rb p q :
  queue (receiver d) w = p :: q -> len p <= remaining rb ->
  exists w' rb' r, wintun_poll_read k d w rb = (w', rb', Ret r) /\
    ((r = Pending /\ queue (receiver d) w' = p :: q /\ rb' = rb) \/
     (r = Ready (Ok tt) /\ queue (receiver d) w' = q /\ filled rb' = filled rb ++ p)).
Proof.
  intros Hq Hl. unfold wintun_poll_read. pose proof (chan_recv_spec (receiver d) k w) as Hs.
  destruct (chan_poll_recv _ _ _) as [[[p'|]|] w']; simpl in *; rewrite Hq in Hs; simplify_eq.
  - destruct (put_slice_fits p' rb Hl) as (rb' & -> & Hf & _). eauto 10.
  - by destruct Hs.
  - eauto 10.
Qed.

End device.
