(* ===== verification/ExampleMain.v ===== *)
(** * The set-up of the example programs

    What the [main]s of examples/tun2.rs and examples/tun_wintun.rs do before
    their loops: they describe a TUN device, per platform, create it, and start a
    stack on it; on Windows tun_wintun.rs uses its own device.  The [tun] crate is
    third-party code: its configuration and its devices are a parameter. *)

From S2P Require Import Prelude Errors Etherparse Packet Runtime Stack Icmp Examples WintunDevice.

(** The calls of the [tun] crate; [D] is its device. *)
Class TunApi (D : Type) := {
  Configuration : Type;
  PlatformConfig : Type;
  TunError : Type;
  configuration_default : Configuration;
  tun_address : Z -> Configuration -> Configuration;
  tun_netmask : Z -> Configuration -> Configuration;
  tun_mtu : Z -> Configuration -> Configuration;
  tun_up : Configuration -> Configuration;
  tun_destination : Z -> Configuration -> Configuration;
  platform_config : (PlatformConfig -> PlatformConfig) -> Configuration -> Configuration;
  ensure_root_privileges : bool -> PlatformConfig -> PlatformConfig;
  device_guid : Z -> PlatformConfig -> PlatformConfig;
  create_as_async : Configuration -> Result D TunError;
}.

(** What a configuration says; a setter sets what it is named after. *)
Class TunLaws {D} (TA : TunApi D) := {
  mtu_of : Configuration -> option Z;
  address_of : Configuration -> option Z;
  mtu_of_mtu : forall m c, mtu_of (tun_mtu m c) = Some m;
  mtu_of_up : forall c, mtu_of (tun_up c) = mtu_of c;
  mtu_of_destination : forall a c, mtu_of (tun_destination a c) = mtu_of c;
  mtu_of_platform : forall f c, mtu_of (platform_config f c) = mtu_of c;
  address_of_address : forall a c, address_of (tun_address a c) = Some a;
  address_of_netmask : forall a c, address_of (tun_netmask a c) = address_of c;
  address_of_mtu : forall m c, address_of (tun_mtu m c) = address_of c;
  address_of_up : forall c, address_of (tun_up c) = address_of c;
  address_of_destination : forall a c, address_of (tun_destination a c) = address_of c;
  address_of_platform : forall f c, address_of (platform_config f c) = address_of c;
}.

(** [Ipv4Addr::new]. *)
Definition ipv4_addr (a b c d : Z) : Z :=
  Z.lor (Z.shiftl a 24) (Z.lor (Z.shiftl b 16) (Z.lor (Z.shiftl c 8) d)).

Definition ipv4 : Z := ipv4_addr 10 0 0 33.
Definition netmask : Z := ipv4_addr 255 255 255 0.
Definition gateway : Z := ipv4_addr 10 0 0 1.

Section main.
Context `{EP : Etherparse, IC : !Icmp} {W : Type} `{RT : !Runtime W NetworkPacket}.
Context (b : Build) {D Peer : Type} `{TA : !TunApi D}.

(** [tun_config] of tun2.rs, with what [cfg] leaves of it on the platform. *)
Definition tun2_tun_config : Configuration :=
  let tun_config := configuration_default in
  let tun_config := tun_up (tun_mtu MTU (tun_netmask netmask (tun_address ipv4 tun_config))) in
  let tun_config :=
    if decide (target b = Windows) then tun_config else tun_destination gateway tun_config in
  let tun_config :=
    if decide (target b = Linux) then platform_config (ensure_root_privileges true) tun_config
    else tun_config in
  if decide (target b = Windows) then platform_config (device_guid 12324323423423434234) tun_config
  else tun_config.

(** [config] of tun_wintun.rs, which is not there on Windows. *)
Definition wintun_tun_config : Configuration :=
  let config := configuration_default in
  let config := tun_up (tun_mtu MTU (tun_netmask netmask (tun_address ipv4 config))) in
  tun_destination gateway config.

(** [main] of tun2.rs up to its loop, or the error of [create_as_async]. *)
Definition tun2_main (args : Args) (w : W) : Result (Tun2 (W := W) (D := D) (Peer := Peer)) TunError :=
  match create_as_async tun2_tun_config with
  | Err e => Err e
  | Ok device => Ok (tun2_start (stack_new (tun2_config args) device w))
  end.

(** [main] of tun_wintun.rs up to its loop, on other platforms than Windows... *)
Definition wintun_main (w : W) : Result (Wintun (W := W) (D := D) (Peer := Peer)) TunError :=
  match create_as_async wintun_tun_config with
  | Err e => Err e
  | Ok device => Ok (wintun_start (stack_new wintun_config device w))
  end.

(** ... and on Windows, where the device is the program's own; [v] is the world
    of its channel. *)
Definition wintun_main_windows `{WA : WintunApi} {V} `{RV : !Runtime V (list byte)} (v : V) (w : W)
    : V * exec Empty_set (Wintun (W := W) (D := WinTunDevice) (Peer := Peer)) :=
  let '(v, device) := wintun_new ipv4 netmask v in
  (v, device ← device; mret (wintun_start (stack_new wintun_config device w))).

(** ** The device and the stack fit together *)

Context `{TL : !TunLaws TA}.

Lemma tun2_tun_config_spec :
  mtu_of tun2_tun_config = Some MTU /\ address_of tun2_tun_config = Some ipv4.
Proof.
  unfold tun2_tun_config. repeat case_decide;
    by rewrite ?mtu_of_platform, ?mtu_of_destination, ?mtu_of_up, ?mtu_of_mtu,
      ?address_of_platform, ?address_of_destination, ?address_of_up, ?address_of_mtu,
      ?address_of_netmask, ?address_of_address.
Qed.

Lemma wintun_tun_config_spec :
  mtu_of wintun_tun_config = Some MTU /\ address_of wintun_tun_config = Some ipv4.
Proof.
  unfold wintun_tun_config.
  by rewrite mtu_of_destination, mtu_of_up, mtu_of_mtu, address_of_destination, address_of_up,
    address_of_mtu, address_of_netmask, address_of_address.
Qed.

End main.
