(* ===== verification/Reference.v ===== *)
(** * Reference instances of the third-party interfaces

    One concrete packet library and one concrete runtime that satisfy the laws
    of [Etherparse.v] and [Runtime.v].  They show that the laws can hold
    together, and let the model be run on concrete inputs: every witness of the
    development uses them. *)

From stdpp Require Import infinite fin_sets.
From S2P Require Import Prelude Errors Etherparse Runtime Packet Icmp WintunDevice.

(** ** A packet library *)

#[export] Instance ref_types : EtherparseTypes := {|
  IpNumber := Z;
  FlowLabel := Z;
  TcpExt := unit;
  UdpExt := Z * Z;
  Ipv4Ext := unit;
|}.

(** A 16-bit sum of a byte sequence, standing for the checksum. *)
Definition byte_sum (bs : list byte) : Z :=
  cast U16 (foldr (fun x acc => Z.of_N (Byte.to_N x) + acc) 0 bs).

(** Big-endian bytes of a number. *)
Definition be_byte (z : Z) : byte :=
  default Byte.x00 (Byte.of_N (Z.to_N (cast U8 z))).
Definition be16 (z : Z) : list byte := [be_byte (z / U8); be_byte z].
Definition be32 (z : Z) : list byte := be16 (z / U16) ++ be16 z.
Definition be128 (z : Z) : list byte :=
  be32 (z / (U64 * U32)) ++ be32 (z / U64) ++ be32 (z / U32) ++ be32 z.

Definition ref_tcp_write (h : TcpHeader) : list byte :=
  be16 (tcp_source_port h) ++ be16 (tcp_destination_port h) ++ be32 (sequence_number h)
  ++ be32 (acknowledgment_number h)
  ++ [Byte.x50; be_byte (flags (mkTcpHeaderWrapper h))]
  ++ be16 (window_size h) ++ be16 (tcp_checksum h) ++ [Byte.x00; Byte.x00].

Definition ref_ipv4_write (h : Ipv4Header) : list byte :=
  [Byte.x45; Byte.x00] ++ be16 (ip4_total_len h) ++ [Byte.x00; Byte.x00]
  ++ [if ip4_dont_fragment h then Byte.x40 else Byte.x00; Byte.x00]
  ++ [be_byte (ip4_time_to_live h); be_byte (ip4_protocol h)] ++ [Byte.x00; Byte.x00]
  ++ be32 (ip4_source h) ++ be32 (ip4_destination h).

Definition ref_ipv6_write (h : Ipv6Header) : list byte :=
  [Byte.x60; Byte.x00; Byte.x00; Byte.x00] ++ be16 (ip6_payload_length h)
  ++ [be_byte (ip6_next_header h); be_byte (ip6_hop_limit h)]
  ++ be128 (ip6_source h) ++ be128 (ip6_destination h).

(** Big-endian numbers from bytes. *)
Definition num (bs : list byte) : Z :=
  foldl (fun acc x => acc * U8 + Z.of_N (Byte.to_N x)) 0 bs.
Definition field (off n : nat) (bs : list byte) : Z := num (take n (drop off bs)).
Definition bit (bs : list byte) (off : nat) (i : Z) : bool := Z.testbit (field off 1 bs) i.

Definition ref_parse_transport (proto : Z) (bs : list byte) : option TransportSlice :=
  if (proto =? 6) && (20 <=? len bs) then
    Some (SliceTcp (mkTcpHeader (field 0 2 bs) (field 2 2 bs) (field 4 4 bs) (field 8 4 bs)
                      (bit bs 13 0) (bit bs 13 1) (bit bs 13 2) (bit bs 13 3) (bit bs 13 4)
                      (bit bs 13 5) (bit bs 13 6) (bit bs 13 7)
                      (field 14 2 bs) (field 16 2 bs) ()) (drop 20 bs))
  else if (proto =? 17) && (8 <=? len bs) then
    Some (SliceUdp (mkUdpHeader (field 0 2 bs) (field 2 2 bs) (field 4 2 bs, field 6 2 bs))
            (drop 8 bs))
  else None.

(** Headers without options and extensions only. *)
Definition ref_sliced_from_ip (bs : list byte) : option SlicedPacket :=
  let version := field 0 1 bs / 16 in
  if (version =? 4) && (20 <=? len bs) then
    let h := mkIpv4Header (field 2 2 bs) (bit bs 6 6) (field 8 1 bs) (field 9 1 bs)
               (field 12 4 bs) (field 16 4 bs) () in
    let pl := drop 20 bs in
    Some (mkSlicedPacket (Some (NetIpv4 h pl)) (ref_parse_transport (field 9 1 bs) pl))
  else if (version =? 6) && (40 <=? len bs) then
    let h := mkIpv6Header 0 0 (field 4 2 bs) (field 6 1 bs) (field 7 1 bs)
               (field 8 16 bs) (field 24 16 bs) in
    let pl := drop 40 bs in
    Some (mkSlicedPacket (Some (NetIpv6 h pl)) (ref_parse_transport (field 6 1 bs) pl))
  else None.

#[export] Instance ref_etherparse : Etherparse := {|
  IpNumber_TCP := 6;
  IpNumber_UDP := 17;
  FlowLabel_ZERO := 0;
  tcp_header_new sp dp s w :=
    mkTcpHeader sp dp s 0 false false false false false false false false w 0 ();
  tcp_header_len _ := 20;
  calc_checksum_ipv4 _ _ p :=
    if 20 + len p <? U16 then Ok (byte_sum p) else Err TooBigUsize;
  calc_checksum_ipv6 _ _ p :=
    if 20 + len p <? U32 then Ok (byte_sum p) else Err TooBigUsize;
  tcp_write h := Ok (ref_tcp_write h);
  with_ipv4_checksum sp dp _ p :=
    if 8 + len p <? U16 then Ok (mkUdpHeader sp dp (8 + len p, byte_sum p)) else Err TooBigUsize;
  with_ipv6_checksum sp dp _ p :=
    if 8 + len p <? U16 then Ok (mkUdpHeader sp dp (8 + len p, byte_sum p)) else Err TooBigUsize;
  udp_write h := Ok (be16 (udp_source_port h) ++ be16 (udp_destination_port h)
                     ++ be16 (udp_ext h).1 ++ be16 (udp_ext h).2);
  ipv4_header_new n ttl proto src dst :=
    if n <=? 65515 then Ok (mkIpv4Header (20 + n) true ttl proto src dst ()) else Err TooBigU16;
  ipv4_header_len _ := 20;
  ipv4_set_payload_len h n :=
    if 20 + n <? U16 then
      Ok (mkIpv4Header (20 + n) (ip4_dont_fragment h) (ip4_time_to_live h)
            (ip4_protocol h) (ip4_source h) (ip4_destination h) (ip4_ext h))
    else Err TooBigUsize;
  ipv4_write h := Ok (ref_ipv4_write h);
  ipv6_header_len _ := 40;
  ipv6_set_payload_length h n :=
    if n <? U16 then
      Ok (mkIpv6Header (ip6_traffic_class h) (ip6_flow_label h) n (ip6_next_header h)
            (ip6_hop_limit h) (ip6_source h) (ip6_destination h))
    else Err TooBigUsize;
  ipv6_write h := Ok (ref_ipv6_write h);
  sliced_from_ip := ref_sliced_from_ip;
|}.

Lemma byte_sum_range bs : 0 <= byte_sum bs < U16.
Proof. apply cast_range. lia. Qed.

Lemma num_range bs : 0 <= num bs < 256 ^ len bs.
Proof.
  unfold num, len. induction bs as [|x bs IH] using rev_ind; [done|].
  rewrite foldl_snoc, length_app. simpl. rewrite Nat2Z.inj_add, Z.pow_add_r by lia.
  pose proof (Byte.to_N_bounded x). change (256 ^ Z.of_nat 1) with 256. lia.
Qed.

Lemma field_range off n bs : 0 <= field off n bs < 256 ^ Z.of_nat n.
Proof.
  unfold field. pose proof (num_range (take n (drop off bs))) as [? Hlt]. split; [done|].
  eapply Z.lt_le_trans; [apply Hlt|]. apply Z.pow_le_mono_r; [lia|]. unfold len.
  rewrite length_take. lia.
Qed.

Lemma ref_tcp_range bs p h pl :
  ref_sliced_from_ip bs = Some p -> sliced_transport p = Some (SliceTcp h pl) ->
  sequence_number h ∈u U32 /\ acknowledgment_number h ∈u U32 /\ window_size h ∈u U16.
Proof.
  intros Hp Ht. assert (exists proto d, sliced_transport p = ref_parse_transport proto d)
    as (proto & d & Hr).
  { unfold ref_sliced_from_ip in Hp. repeat case_match; simplify_eq/=; eauto. }
  rewrite Hr in Ht. unfold ref_parse_transport in Ht. repeat case_match; simplify_eq/=.
  pose proof (field_range 4 4 d). pose proof (field_range 8 4 d).
  pose proof (field_range 14 2 d). simpl in *. lia.
Qed.

#[export] Instance ref_etherparse_laws : EtherparseLaws.
Proof.
  refine {| tcp_default_ext := tt : @TcpExt ref_types;
            ipv4_default_ext := tt : @Ipv4Ext ref_types;
            ipv4_default_df := true |}; simpl; intros; try done.
  all: repeat match goal with
       | |- context [if ?x <? ?y then _ else _] => destruct (Z.ltb_spec x y); [|lia]
       | |- context [if ?x <=? ?y then _ else _] => destruct (Z.leb_spec x y); [|lia]
       | H : Ok _ = Ok _ |- _ => injection H as <-
       end; eauto using byte_sum_range, ref_tcp_range.
Qed.

(** *** ICMP *)

Definition ref_icmp_from_slice (bs : list byte)
    : Result (Icmpv4Header (list byte) * list byte) unit :=
  if len bs <? 8 then Err ()
  else
    let e := mkEcho (field 4 2 bs) (field 6 2 bs) in
    let t := if field 0 1 bs =? 8 then EchoRequest e
             else if field 0 1 bs =? 0 then EchoReply e
             else OtherIcmp (take 8 bs) in
    Ok (mkIcmp t (field 2 2 bs), drop 8 bs).

Definition ref_icmp_to_bytes (h : Icmpv4Header (list byte)) : list byte :=
  let echo t e := [t; Byte.x00] ++ be16 (icmp_checksum h) ++ be16 (echo_id e) ++ be16 (echo_seq e) in
  match icmp_type h with
  | EchoRequest e => echo Byte.x08 e
  | EchoReply e => echo Byte.x00 e
  | OtherIcmp bs => bs
  end.

#[export] Instance ref_icmp : Icmp := {|
  IpNumber_ICMP := 1;
  IcmpOther := list byte;
  IcmpError := unit;
  icmp_from_slice := ref_icmp_from_slice;
  icmp_header_new t := mkIcmp t 0;
  update_checksum bs h := mkIcmp (icmp_type h) (byte_sum (ref_icmp_to_bytes h ++ bs));
  icmp_to_bytes := ref_icmp_to_bytes;
|}.

Lemma be_byte_num z : num [be_byte z] = cast U8 z.
Proof.
  unfold num, be_byte. simpl. pose proof (cast_range U8 z).
  destruct (Byte.of_N (Z.to_N (cast U8 z))) as [x|] eqn:Hx; simpl.
  - apply Byte.to_of_N in Hx. lia.
  - apply Byte.of_N_None_iff in Hx. lia.
Qed.

Lemma be16_num z : z ∈u U16 -> num (be16 z) = z.
Proof.
  intros Hz. unfold be16. change (num [be_byte (z / U8); be_byte z])
    with (num [be_byte (z / U8)] * U8 + num [be_byte z]).
  rewrite !be_byte_num. unfold cast. rewrite (Z.mod_small (z / U8)) by
    (split; [apply Z.div_pos|apply Z.div_lt_upper_bound]; lia).
  pose proof (Z.div_mod z U8). lia.
Qed.

#[export] Instance ref_icmp_laws : IcmpLaws.
Proof.
  split; [done|done| |].
  - simpl. unfold ref_icmp_from_slice. intros bs h e rest Hs He. repeat case_match; simplify_eq/=.
    pose proof (field_range 4 2 bs). pose proof (field_range 6 2 bs). simpl in *. lia.
  - simpl. intros h [i q] rest Ht Hi Hq. unfold ref_icmp_to_bytes. rewrite Ht. simpl in *.
    unfold ref_icmp_from_slice. rewrite (proj2 (Z.ltb_ge _ 8))
      by (unfold len; simpl; lia).
    eexists. split; [reflexivity|]. simpl. unfold field; simpl.
    rewrite take_0. fold (be16 i) (be16 q). by rewrite !be16_num.
Qed.

(** *** The wintun driver *)

(** What was sent; every packet can be allocated. *)
#[export] Instance ref_wintun : WintunApi := {|
  WLib := unit;
  WAdapter := unit;
  WSession := list (list byte);
  WError := unit;
  wintun_load := Ok tt;
  adapter_create _ := Ok tt;
  set_address _ _ := Ok tt;
  set_netmask _ _ := Ok tt;
  start_session _ := Ok [];
  SendPacket := Z;
  allocate_send_packet n s := (s, Ok n);
  bytes_mut_len n := n;
  send_packet _ bs s := s ++ [bs];
|}.
#[export] Instance ref_wintun_laws : WintunLaws.
Proof. split. by intros n s s' p [= <- <-]. Qed.

(** ** A runtime *)

(** Channels are numbered; each has its messages and whether its receiver is
    open.  The clock stands still while code runs. *)
Record RefWorld (A : Type) := mkRefWorld {
  ref_chans : gmap nat (list A * bool);
  ref_clock : Z;
  ref_woken : list nat;
}.
Arguments mkRefWorld {A}.
Arguments ref_chans {A}.
Arguments ref_clock {A}.
Arguments ref_woken {A}.

(** The clock stops after 100 years. *)
Definition REF_HORIZON : Z := 100 * 366 * 24 * 3600 * 1000000000.

Section ref_runtime.
Context {A : Type}.
Implicit Types (w : RefWorld A) (c : nat).

Definition ref_get c w : list A * bool := default ([], false) (ref_chans w !! c).
Definition ref_put c v w : RefWorld A :=
  mkRefWorld (<[c := v]> (ref_chans w)) (ref_clock w) (ref_woken w).

#[export] Instance ref_runtime : Runtime (RefWorld A) A := {|
  Chan := nat;
  Waker := nat;
  ReadBuf := list byte * Z;
  chan_new w :=
    let c := fresh (dom (ref_chans w)) in (c, ref_put c ([], true) w);
  chan_send c a w :=
    let '(q, open) := ref_get c w in
    if open then (true, ref_put c (q ++ [a], true) w) else (false, w);
  chan_poll_recv c _ w :=
    match ref_get c w with
    | (a :: q, open) => (Ready (Some a), ref_put c (q, open) w)
    | ([], _) => (Pending, w)
    end;
  chan_close c w := ref_put c ([], false) w;
  instant_now w := Z.min (ref_clock w) REF_HORIZON;
  instant_max := 2 ^ 63 * 1000000000 - 1;
  sleep_poll d _ w := (d <=? Z.min (ref_clock w) REF_HORIZON, w);
  wake_by_ref k w := mkRefWorld (ref_chans w) (ref_clock w) (k :: ref_woken w);
  put_slice bs rb := if len bs <=? rb.2 then Some (rb.1 ++ bs, rb.2 - len bs) else None;
  read_buf_uninit n := ([], n);
|}.

#[export] Instance ref_obs : RuntimeObs (RefWorld A) A := {|
  queue ch w := (ref_get ch w).1;
  rx_open ch w := (ref_get ch w).2;
  used ch w := bool_decide (is_Some (ref_chans w !! ch));
  wakes k w := length (filter (k =.) (ref_woken w));
  filled rb := rb.1;
  remaining rb := rb.2;
  horizon := REF_HORIZON;
|}.

Lemma ref_get_put c d v w : ref_get d (ref_put c v w) = if decide (d = c) then v else ref_get d w.
Proof.
  unfold ref_get, ref_put; simpl. case_decide as Hd; [subst|].
  - by rewrite lookup_insert_eq.
  - by rewrite lookup_insert_ne.
Qed.

Lemma ref_used_put c d v w :
  bool_decide (is_Some (ref_chans (ref_put c v w) !! d)) =
    bool_decide (d = c) || bool_decide (is_Some (ref_chans w !! d)).
Proof.
  simpl. destruct (decide (d = c)) as [->|Hne].
  - rewrite lookup_insert_eq, (bool_decide_eq_true_2 (c = c)) by done.
    by apply bool_decide_eq_true_2.
  - by rewrite lookup_insert_ne, (bool_decide_eq_false_2 (d = c)).
Qed.

Lemma ref_used_get c w x :
  ref_get c w = x -> x <> ([], false) -> bool_decide (is_Some (ref_chans w !! c)) = true.
Proof.
  unfold ref_get. intros <- Hx. apply bool_decide_eq_true. by destruct (ref_chans w !! c).
Qed.


Lemma ref_recv_empty c k w o : ref_get c w = ([], o) -> chan_poll_recv c k w = (Pending, w).
Proof. simpl. by intros ->. Qed.

#[export] Instance ref_runtime_laws : RuntimeLaws (RefWorld A) A.
Proof.
  split; simpl.
  - intros w. rewrite bool_decide_eq_false, <-elem_of_dom. apply is_fresh.
  - intros c w. unfold ref_get. by destruct (ref_chans w !! c).
  - intros. rewrite ref_get_put. by case_decide.
  - intros. rewrite ref_get_put. by case_decide.
  - intros w c. apply ref_used_put.
  - intros c a w d. destruct (ref_get c w) as [q []] eqn:Hg; [|done]. simpl.
    etrans; [apply ref_used_put|]. apply ref_used_get in Hg; [|done].
    destruct (decide (d = c)) as [->|?]; [by rewrite Hg, orb_true_r|].
    by rewrite (bool_decide_eq_false_2 (d = c)).
  - intros c k w d. destruct (ref_get c w) as [[|a q] o] eqn:Hg; simpl; [done|].
    etrans; [apply ref_used_put|]. apply ref_used_get in Hg; [|done].
    destruct (decide (d = c)) as [->|?]; [by rewrite Hg, orb_true_r|].
    by rewrite (bool_decide_eq_false_2 (d = c)).
  - intros c w d Hd. etrans; [apply ref_used_put|]. rewrite Hd. apply orb_true_r.
  - intros c a w. destruct (ref_get c w) as [q []]; done.
  - intros c a w d. destruct (ref_get c w) as [q []] eqn:Hg; simpl;
      rewrite ?ref_get_put; case_decide; subst; by rewrite ?Hg.
  - intros c a w d. destruct (ref_get c w) as [q []] eqn:Hg; simpl;
      rewrite ?ref_get_put; [case_decide; subst|]; by rewrite ?Hg.
  - intros c k w. destruct (ref_get c w) as [[|a q] o] eqn:Hg; simpl.
    + by rewrite Hg.
    + rewrite ref_get_put. by rewrite decide_True.
  - intros c k w d Hne. destruct (ref_get c w) as [[|a q] o] eqn:Hg; simpl; [done|].
    rewrite ref_get_put. by rewrite decide_False.
  - intros c k w d. destruct (ref_get c w) as [[|a q] o] eqn:Hg; simpl; [done|].
    rewrite ref_get_put. case_decide; subst; by rewrite ?Hg.
  - intros c w d. rewrite ref_get_put. by case_decide.
  - intros c w d. rewrite ref_get_put. by case_decide.
  - intros w. lia.
  - intros d k w Hle. propify. lia.
  - intros. by split.
  - done.
  - intros. by split.
  - done.
  - intros k w k'. rewrite filter_cons. by case_decide.
  - intros bs rb Hle. rewrite (proj2 (Z.leb_le _ _)) by done. eauto.
  - intros bs rb Hlt. by rewrite (proj2 (Z.leb_gt _ _)).
  - done.
Qed.

End ref_runtime.

(** A world with the channels 0, 1, ..., all open, holding the given messages. *)
Definition ref_world {A} (now : Z) (qs : list (list A)) : RefWorld A :=
  mkRefWorld (list_to_map (imap (fun i q => (i, (q, true))) qs)) now [].
