(* ===== verification/Scenario.v ===== *)
(** * Concrete scenarios

    A client 0.0.0.1:1000 that talks to 0.0.0.2:80 through the stack, over the
    reference packet library and runtime: packets, worlds and connections the
    theorems are applied to. *)

From S2P Require Import Prelude Errors Etherparse Packet Runtime Tcb TcbSpec Tcp TcpPacket.
From S2P Require Import TcpLoop TcpSafety TcpOrder TcpTrace Reference.

Abbreviation World := (RefWorld NetworkPacket).

Definition client : SocketAddr := SockV4 1 1000.
Definition server : SocketAddr := SockV4 2 80.

(** Channel 0 leads to the device, channel 1 to the stream. *)
Definition PKT : Chan (W := World) (A := NetworkPacket) := 0%nat.
Definition RX : Chan (W := World) (A := NetworkPacket) := 1%nat.
Definition WAKER : Waker (W := World) (A := NetworkPacket) := 7%nat.

(** A segment from the client. *)
Definition segment (seqn ackn fl win : Z) (bs : list byte) : NetworkPacket :=
  mkNetworkPacket
    (Ipv4 (mkIpv4Header (40 + len bs) true 64 IpNumber_TCP 1 2 tt))
    (TransTcp (set_flags ackn fl (tcp_header_new 1000 80 seqn win))) bs.

Definition world_with (rx : list NetworkPacket) : World := ref_world 0 [[]; rx].

Definition stream_with (t : Tcb) : IpStackTcpStream (W := World) :=
  mkTcpStream client server RX PKT None t 1500 ShutNone None.

Definition conn_with (t : Tcb) (rx : list NetworkPacket) : Conn (W := World) :=
  mkConn (stream_with t) (world_with rx).

(** The connection a SYN with sequence number 500 opens. *)
Definition fresh (rx : list NetworkPacket) : Conn (W := World) :=
  mkConn (tcp_stream_init client server (tcb_start dev_build 0 1000 501 1000) PKT RX 1500) (world_with rx).

Definition buffer (n : Z) : ReadBuf (W := World) (A := NetworkPacket) := read_buf_uninit n.

(** A read of it, with a buffer of [n] bytes. *)
Definition read (n : Z) (c : Conn (W := World)) :=
  poll_read dev_build 20 WAKER (mkReadSt c (buffer n)).

(** The connection after a read; itself if the read does not return. *)
Definition after_read (n : Z) (c : Conn (W := World)) : Conn (W := World) :=
  match read n c with Some (s, _) => conn s | None => c end.

Definition more_packets (rx : list NetworkPacket) (c : Conn (W := World)) : Conn (W := World) :=
  mkConn (self c) (foldl (fun w p => (chan_send RX p w).2) (world c) rx).

(** An established connection with the bytes 101 and 102 unacknowledged, which
    was sent as two packets. *)
Definition busy_tcb : Tcb :=
  mkTcb 103 None 501 101 1000 1000 16384 1000 Established (500, 2)
    [mkInflightPacket 102 [Byte.x62]; mkInflightPacket 101 [Byte.x61]] ∅.

Definition busy_buf : SendBuf := mkSendBuf 101 [Byte.x61; Byte.x62].

Lemma busy_send_rel : send_rel busy_tcb busy_buf.
Proof.
  exists [mkInflightPacket 101 [Byte.x61]; mkInflightPacket 102 [Byte.x62]].
  split; [apply Permutation_swap|]. by repeat split.
Qed.

Lemma busy_tcb_wf : tcb_wf busy_tcb.
Proof.
  split; simpl; try lia; [repeat constructor; simpl; lia|apply map_Forall_empty].
Qed.

(** A timeout of up to 2^62 nanoseconds, some 146 years, can always be added to the time. *)
Lemma short_timely d : d <= 2 ^ 62 -> timely (W := World) d.
Proof. unfold timely. cbn -[Z.add Z.pow]. unfold REF_HORIZON. lia. Qed.

Lemma busy_tcb_base R n : (n < 1000)%nat -> tcb_base R n busy_tcb.
Proof. intros. split; [apply busy_tcb_wf|split; simpl; lia|apply map_Forall_empty|by apply short_timely]. Qed.

Lemma conn_with_base R n t rx :
  Forall (packet_ok R) rx -> tcb_base R (n + length rx) t -> conn_base R n (conn_with t rx).
Proof. intros. by split. Qed.

(** The client sends at most 1460 bytes, and does not acknowledge 100, the number
    of the SYN|ACK of a development build. *)
Definition PEER : Peer := mkPeer 1460 100.

Lemma segment_ok R s a fl w bs :
  s ∈u U32 -> a ∈u U32 -> w ∈u U16 -> len bs <= longest R -> a <> unsaid R ->
  packet_ok R (segment s a fl w bs).
Proof. intros. eexists. split; [reflexivity|]. by simpl. Qed.

(** It holds the invariant, whatever well-formed packets wait for it. *)
Lemma busy_inv R rx n :
  Forall (packet_ok R) rx -> (n + length rx < 1000)%nat -> conn_inv R n (conn_with busy_tcb rx).
Proof.
  intros Hrx Hn. split; [by apply conn_with_base; [|apply busy_tcb_base]|].
  split; [done|]. split; [exists busy_buf; apply busy_send_rel|done].
Qed.
