(* ===== verification/TcbTheorems.v ===== *)
(** * Theorems on the TCP control block

    The refinement of the send buffer, the classification of packets, the
    windows and the reassembly map. *)

From S2P Require Import Prelude Errors Etherparse Packet Runtime Tcb TcbSpec Tcp Reference.
From S2P Require Import Scenario.

(** C7: [change_last_ack] implements the acknowledgment of a send buffer: in
    the established state, for every number between the oldest unacknowledged
    byte and the next byte to send, it neither panics nor loses data: the
    in-flight packets hold exactly the bytes after the acknowledged ones, also
    when the number falls inside a packet, and nothing but the number and the
    packets changes. *)
Theorem ack_refines_send_buffer (b : Build) (a : Z) (t : Tcb) (s : SendBuf) :
  send_rel t s -> state t = Established -> una s <= a <= seq t ->
  exists l, change_last_ack (E := Empty_set) b a t = Ret (set_inflight l (set_last_ack a t)) /\
    send_rel (set_inflight l (set_last_ack a t)) (sb_ack a s).
Proof. apply change_last_ack_rel. Qed.

Lemma ack_refines_send_buffer_witness :
  exists l, change_last_ack (E := Empty_set) dev_build 102 busy_tcb =
      Ret (set_inflight l (set_last_ack 102 busy_tcb)) /\
    send_rel (set_inflight l (set_last_ack 102 busy_tcb)) (mkSendBuf 102 [Byte.x62]).
Proof.
  apply (ack_refines_send_buffer dev_build 102 busy_tcb busy_buf).
  - apply busy_send_rel.
  - reflexivity.
  - split; discriminate.
Defined.

(** Once the sequence number has wrapped past zero while data is
    outstanding, every packet is classified as invalid, also the one that
    acknowledges all of it: the connection cannot make progress any more. *)
Theorem wrapped_rejects_all `{EP : Etherparse} (t : Tcb) (h : TcpHeaderWrapper) (p : list byte) :
  tcb_wf t -> acknowledgment_number (inner h) ∈u U32 -> seq t < last_ack t ->
  check_pkt_type t h p = Invalid.
Proof. apply check_pkt_type_wrapped. Qed.

(** Two bytes in flight, the second of them with number zero. *)
Definition wrapped_tcb : Tcb :=
  mkTcb 1 None 501 (U32 - 1) 1000 1000 16384 1000 Established (500, 2)
    [mkInflightPacket (U32 - 1) [Byte.x61; Byte.x62]] ∅.

Lemma wrapped_rejects_all_witness :
  check_pkt_type wrapped_tcb
    (wrap_tcp_header (set_flags 1 ACK (tcp_header_new 1000 80 501 1000))) [] = Invalid.
Proof.
  apply (wrapped_rejects_all wrapped_tcb
           (wrap_tcp_header (set_flags 1 ACK (tcp_header_new 1000 80 501 1000))) []).
  - split; simpl; try lia; [repeat constructor; simpl; lia|apply map_Forall_empty].
  - split; [discriminate|reflexivity].
  - reflexivity.
Defined.

(** The window the stream advertises is the free part of the read buffer:
    it is never negative, never above the size of the buffer, so the cast to 16
    bits loses nothing, and it is the full size when nothing waits. *)
Theorem receive_window_bounds (t : Tcb) :
  0 <= get_available_read_buffer_size t <= READ_BUFFER_SIZE /\
  cast U16 (get_available_read_buffer_size t) = get_available_read_buffer_size t /\
  (unordered_packets t = ∅ -> get_available_read_buffer_size t = READ_BUFFER_SIZE).
Proof.
  pose proof (available_bounds t) as Hb. split; [done|]. split.
  - apply cast_small. unfold READ_BUFFER_SIZE in Hb. lia.
  - intros He. unfold get_available_read_buffer_size. rewrite He. done.
Qed.

(** A window update never overflows the running average in the first 2^47
    updates, in any build: it stores the window, counts the update, and the new
    average lies between the old one and the window. *)
Theorem average_window_bounds (b : Build) (w : Z) (t : Tcb) :
  w ∈u U16 -> count_ok 0 t ->
  exists avg, change_send_window (E := Empty_set) b w t =
      Ret (set_send_window w (avg, (avg_send_window t).2 + 1) t) /\
    Z.min (avg_send_window t).1 w <= avg <= Z.max (avg_send_window t).1 w.
Proof.
  intros Hw Hc. eexists. split; [by apply change_send_window_ok|]. destruct Hc as (? & ? & _).
  apply weighted_mean_between; lia.
Qed.

Lemma average_window_bounds_witness :
  exists avg, change_send_window (E := Empty_set) dev_build 2000 busy_tcb =
      Ret (set_send_window 2000 (avg, 3) busy_tcb) /\ 500 <= avg <= 2000.
Proof.
  apply (average_window_bounds dev_build 2000 busy_tcb).
  - split; [discriminate|reflexivity].
  - split; [split; [discriminate|reflexivity]|]. split; [discriminate|reflexivity].
Defined.

(** A segment left in the reassembly map below the acknowledgment number
    stays there: neither taking the next segment, nor advancing the number,
    nor storing another segment removes or replaces it, so its bytes reduce the
    advertised window from then on. *)
Theorem stale_segment_stays (t : Tcb) (k : Z) (p : UnorderedPacket) :
  unordered_packets t !! k = Some p -> k < ack t ->
  unordered_packets (get_unordered_packets t).2 !! k = Some p /\
  (forall n, unordered_packets (add_ack n t) !! k = Some p) /\
  (forall s bs, unordered_packets (add_unordered_packet s bs t) !! k = Some p).
Proof.
  intros Hk Hlt. split; [|split; [done|]].
  - simpl. rewrite lookup_delete_ne by lia. done.
  - intros s bs. unfold add_unordered_packet. destruct (Z.ltb_spec s (ack t)); [done|].
    simpl. rewrite lookup_insert_ne by lia. done.
Qed.

(** The segment 502 was stored before a longer one at 501 was delivered. *)
Definition stale_tcb : Tcb :=
  set_unordered {[502 := mkUnorderedPacket [Byte.x62]]} (set_ack 503 busy_tcb).

Lemma stale_segment_stays_witness :
  unordered_packets (get_unordered_packets stale_tcb).2 !! 502 = Some (mkUnorderedPacket [Byte.x62]) /\
  (forall n, unordered_packets (add_ack n stale_tcb) !! 502 = Some (mkUnorderedPacket [Byte.x62])) /\
  (forall s bs, unordered_packets (add_unordered_packet s bs stale_tcb) !! 502 =
     Some (mkUnorderedPacket [Byte.x62])).
Proof.
  apply (stale_segment_stays stale_tcb 502 (mkUnorderedPacket [Byte.x62])); reflexivity.
Defined.
