(* ===== verification/TcpTheorems.v ===== *)
(** * Theorems on TCP connections

    What the read loop, the send buffer, the handshake and the closing of a
    connection guarantee. *)

From S2P Require Import Prelude Errors Etherparse Packet Runtime Tcb TcbSpec Tcp TcpPacket.
From S2P Require Import TcpDeliver TcpLoop TcpSafety TcpOrder TcpApi TcpTrace TcpWrapper Reference Scenario.

Section tcp_theorems.
Context `{EP : Etherparse, EL : !EtherparseLaws} {W : Type} `{RT : !Runtime W NetworkPacket}.
Context `{RO : !RuntimeObs W NetworkPacket, RL : !RuntimeLaws W NetworkPacket}.
Context (b : Build).
Implicit Types (c : Conn (W := W)) (t : Tcb).

(** C1: [poll_read] always returns: one iteration for each packet that waits in
    the stream's channel and one for each remaining state of the connection are
    enough.  The state of the connection moves along the state machine
    [tcp_step], its addresses, channels and MTU never change, no packet sent
    before is taken back, and a shutdown is not undone. *)
Theorem poll_read_terminates k (s : ReadSt (W := W)) n :
  distinct (conn s) -> (length (rxq (conn s)) + rank (conn_state (conn s)) < n)%nat ->
  exists s' r, poll_read b n k s = Some (s', r) /\ kept (conn s) (conn s') /\
    rtc tcp_step (conn_state (conn s)) (conn_state (conn s')).
Proof. apply poll_read_total. Qed.

(** C2: A connection survives, from its SYN on, any sequence of deliveries, reads,
    writes, flushes and shutdowns: whatever well-formed packets the peer sends, no
    call panics, every call returns, and the invariant holds at the end, as long as
    the read buffers hold the largest payload, writes do not wrap the sequence
    number, and the peer does not acknowledge the number of the SYN|ACK itself.  The
    invariant at the start asks for a timeout that can be added to the time. *)
Theorem connection_survives (R : Peer) (l : list action) c :
  conn_inv R (deliveries l) c -> admissible b R l c ->
  exists c', run b l c = Some c' /\ conn_inv R 0 c'.
Proof. apply run_safe. Qed.

(** C16: The send buffer is bounded: whatever a user and the stack do with an
    established connection, and as long as it stays established, no more than
    [MAX_UNACK] bytes and one packet are unacknowledged at any time. *)
Theorem inflight_bounded (R : Peer) (l : list action) c :
  conn_inv R (deliveries l) c -> admissible b R l c ->
  exists c', run b l c = Some c' /\
    (conn_state c' = Established -> exists s, send_rel (tcb (self c')) s /\
       len (unacked s) < MAX_UNACK + 65495).
Proof.
  intros Hc Ha. destruct (run_safe b R l c Hc Ha) as (c' & Hrun & [_ Hl]). exists c'. split; [done|].
  intros Hs. unfold tcb_link, conn_state in *. rewrite Hs in Hl. destruct Hl as (_ & [s Hrel] & Hfl).
  exists s. split; [done|]. rewrite (send_rel_len _ _ Hrel). unfold MAX_INFLIGHT in Hfl. lia.
Qed.

(** C6: In-order delivery: on a connection that neither side has closed and that has
    no shutdown pending, if no packet that waits is a FIN|ACK and every one carries a
    piece of the peer's stream [S], in any order and with repetitions, where the
    numbers of [S] do not wrap, then a read returns, and what it puts into the caller's
    buffer is the next bytes of [S] after those delivered before, without gap or
    repetition.  It does not panic if the connection satisfies the invariant of C2 and
    the buffer has room. *)
Theorem poll_read_in_order (irs : Z) (S : list byte) k (s : ReadSt (W := W)) n :
  order_inv irs S (conn s) -> (length (rxq (conn s)) + rank (conn_state (conn s)) < n)%nat ->
  exists s' r, poll_read b n k s = Some (s', r) /\
    ((exists p, r = Panic p /\ forall R K, ~ read_inv R K s) \/
     (exists v bs, r = Ret v /\ order_inv irs S (conn s') /\
        filled (rbuf s') = filled (rbuf s) ++ bs /\
        delivered irs S (tcb (self (conn s'))) = delivered irs S (tcb (self (conn s))) ++ bs)).
Proof.
  intros Hs Hn. destruct (poll_read_delivers b irs S k s n Hs Hn) as (s' & r & Hrun & Hr).
  exists s', r. split; [done|]. destruct r as [v|[]|p].
  2:{ left. exists p. split; [done|]. intros R K Hinv.
      destruct (poll_read_safe b R K k s n Hinv Hn) as (? & ? & ? & _). congruence. }
  right. destruct Hr as [Ho (bs & Hf & Hd)]. by exists v, bs.
Qed.

(** A packet that acknowledges the SYN|ACK completes the handshake: the
    connection is established and satisfies the invariant of C2. *)
Theorem handshake_establishes (R : Peer) n p h c :
  handshaking R (S n) c -> transport p = TransTcp h -> header_ok (wrap_tcp_header h) ->
  flags (wrap_tcp_header h) = ACK -> acknowledgment_number h = seq (tcb (self c)) ->
  exists c', handle_packet b p c = (c', Ret tt) /\ conn_inv R n c' /\
    conn_state c' = Established.
Proof. apply handshake_inv. Qed.

(** C8: An accepted write appends to the send buffer exactly the bytes it
    reports as written, a prefix of the caller's buffer; they go to the device
    in one PSH|ACK packet, and the invariant of C2 is kept. *)
Theorem write_refines_send_buffer (R : Peer) n k buf c s :
  conn_inv R n c -> conn_state c = Established -> write_blocked (tcb (self c)) = false ->
  tx_open c = true -> write_ok buf c -> send_rel (tcb (self c)) s ->
  exists p c', poll_write (E := Empty_set) b k buf c = (c', Ret (Ready (Ok (len (payload p))))) /\
    payload p `prefix_of` buf /\
    rev_packet_of (self c) (Z.lor PSH ACK) (TTL b) (seq (tcb (self c))) buf p /\
    txq c' = txq c ++ [p] /\ conn_inv R n c' /\
    send_rel (tcb (self c')) (sb_write (payload p) s).
Proof.
  intros Hc Hs Hnb Ho Hok Hrel.
  destruct (poll_write_appends (E := Empty_set) b R n k buf c s) as (p & c' & Hrun & Hrp & H);
    [done..|].
  exists p, c'. split; [done|]. split; [|done]. destruct Hrp as [-> _ _ _ _ _ _].
  apply prefix_take.
Qed.

(** C12: A requested retransmission resends the oldest unacknowledged bytes: the
    packet starts at the last acknowledged number, carries a prefix of the
    unacknowledged bytes (cut to what a packet may carry now), which is not empty
    unless a write of no bytes is in flight, and the request is cleared. *)
Theorem retransmits_oldest (R : Peer) n c s :
  conn_base R n c -> conn_state c = Established -> send_rel (tcb (self c)) s ->
  last_ack (tcb (self c)) <> seq (tcb (self c)) ->
  retransmission (tcb (self c)) = Some (last_ack (tcb (self c))) -> tx_open c = true ->
  exists p q c', poll_flush (E := Empty_set) b c = (c', Ret (Ready (Ok tt))) /\
    txq c' = txq c ++ [p] /\ q `prefix_of` unacked s /\
    (Forall (fun f => inflight_payload f <> []) (inflight_packets (tcb (self c))) -> q <> []) /\
    rev_packet_of (self c) (Z.lor PSH ACK) (TTL b) (last_ack (tcb (self c))) q p /\
    retransmission (tcb (self c')) = None.
Proof.
  intros Hb Hs Hrel Hne Hr Ho. destruct (send_rel_oldest _ _ Hrel Hne) as (q & Hf & Hpre).
  apply List.find_some in Hf as Hin. destruct Hin as [Hin%list_elem_of_In Hseq%Z.eqb_eq].
  destruct (poll_flush_resends (E := Empty_set) b R n c _ q Hb Hs Hr Hf Ho)
    as (p & c' & Hrun & Hrp & Htx & Hself).
  exists p, (inflight_payload q), c'. rewrite <-Hseq. do 3 (split; [done|]).
  split; [rewrite Forall_forall; auto|]. split; [done|]. by rewrite Hself.
Qed.

(** C13: A stream can always build a reply: [create_rev_packet] neither fails
    nor panics; the packet goes from the peer's address to the local one, has
    the flags, TTL and numbers asked for, carries as much of the payload as the
    peer's window and the MTU leave room for, and its reversed key is the key
    of the stream's session. *)
Theorem reply_packet (s : IpStackTcpStream (W := W)) flags ttl seqn bs :
  stream_wf s ->
  exists p, create_rev_packet b s flags ttl seqn bs = Ret p /\
    rev_packet_of s flags ttl (default (seq (tcb s)) seqn) bs p /\
    reverse_network_tuple p = session_key s.
Proof.
  intros Hwf. destruct (create_rev_packet_ok b s flags ttl seqn bs Hwf) as (p & Hp & Hrp).
  exists p. split; [done|]. split; [done|]. by eapply rev_packet_key.
Qed.

(** On the wire a reply takes exactly the number of bytes its IP header
    announces, and no more than the MTU if the MTU holds the headers. *)
Theorem reply_fits_mtu (s : IpStackTcpStream (W := W)) flags ttl seqn bs p w :
  stream_wf s -> headers_len s <= mtu s ->
  create_rev_packet b s flags ttl seqn bs = Ret p -> to_bytes p = Ok w ->
  len w = ip_total_len p /\ len w <= mtu s.
Proof.
  intros Hwf Hm Hp Hw. apply create_rev_packet_inv in Hp; [|done].
  assert (len w = ip_total_len p) as Hl by (by eapply rev_packet_bytes).
  split; [done|]. rewrite Hl. by eapply rev_packet_fits.
Qed.


(** C21: [poll_shutdown] returns without a panic, although it reads into a
    buffer of one byte; it keeps the invariant of C2, moves along the state
    machine, and keeps what a read keeps. *)
Theorem shutdown_returns (R : Peer) K n k c :
  conn_inv R K c -> (length (rxq c) + rank (conn_state c) < n)%nat ->
  exists c' r, poll_shutdown b n k c = Some (c', Ret r) /\ conn_inv R K c' /\
    kept c c' /\ rtc tcp_step (conn_state c) (conn_state c').
Proof. apply poll_shutdown_safe. Qed.


(** C26: A packet with the RST flag closes the connection in every state,
    whatever its numbers: the user sees [ConnectionReset], a waiting shutdown is
    released, and the request to forget the session is queued. *)
Theorem reset_closes_connection p h c :
  stream_wf (self c) -> transport p = TransTcp h -> tcp_rst h = true ->
  exists q w, handle_packet b p c =
      (mkConn (closed_with (Some q) (self c)) w,
       Throw (Return (Ready (Err (IoKind ConnectionReset))))) /\
    rev_packet_of (self c) NON DROP_TTL (seq (tcb (self c))) [] q /\ same_chans (world c) w.
Proof. apply reset_closes. Qed.

(** C27: When the connection's timer has run out, which is not before its
    deadline, a read sends RST|ACK to the peer, closes the connection and
    reports [TimedOut]. *)
Theorem timeout_closes_connection k c w1 :
  stream_wf (self c) -> tx_open c = true ->
  sleep_poll (timeout (tcb (self c))) k (world c) = (true, w1) ->
  exists c' q, read_timeout b k c = (c', Throw (Return (Ready (Err (IoKind TimedOut))))) /\
    conn_state c' = Closed /\ shutdown (self c') = ShutReady /\ txq c' = txq c ++ [q] /\
    rev_packet_of (self c') (Z.lor RST ACK) (TTL b) (seq (tcb (self c))) [] q /\
    timeout (tcb (self c)) <= instant_now (world c).
Proof. apply timeout_closes. Qed.

(** A write that is not accepted changes nothing that matters: outside the
    established state it reports [NotConnected] and leaves the connection as it
    is; while the send buffer is full or the peer's window is small (and the timeout
    can be added to the time) it sends nothing and registers the caller for a wake-up. *)
Theorem write_refused k buf c :
  (conn_state c <> Established ->
   poll_write (E := Empty_set) b k buf c = (c, Ret (Ready (Err (IoKind NotConnected))))) /\
  (timely (W := W) (tcp_timeout (tcb (self c))) ->
   conn_state c = Established -> write_blocked (tcb (self c)) = true ->
   poll_write (E := Empty_set) b k buf c =
     (upd_self (fun s => set_write_notify (Some k)
        (set_tcb (rearm (instant_now (world c)) (tcb s)) s)) c, Ret Pending)).
Proof. split; intros; [by apply poll_write_not_connected|by apply poll_write_blocked]. Qed.

End tcp_theorems.

(** ** The theorems at work on concrete connections *)

(** Fresh from a SYN, the handshake and three bytes of data waiting, the second
    segment before the first. *)
Definition ooo_packets : list NetworkPacket :=
  [segment 501 101 ACK 1000 []; segment 502 101 ACK 1000 [Byte.x62; Byte.x63];
   segment 501 101 ACK 1000 [Byte.x61]].
Definition out_of_order : Conn (W := World) := fresh ooo_packets.

Lemma poll_read_terminates_witness :
  exists s' r, poll_read dev_build 10 WAKER (mkReadSt out_of_order (buffer 100)) = Some (s', r) /\
    kept out_of_order (conn s') /\
    rtc tcp_step (conn_state out_of_order) (conn_state (conn s')).
Proof.
  apply (poll_read_terminates dev_build WAKER (mkReadSt out_of_order (buffer 100)) 10).
  - done.
  - apply Nat.ltb_lt. vm_compute. reflexivity.
Defined.

Definition busy_actions : list (action (W := World)) :=
  [AWrite WAKER []; AWrite WAKER [Byte.x63]; ADeliver (segment 501 103 ACK 1000 []); ARead WAKER (buffer 2000);
   AFlush; ADeliver (segment 501 101 (Z.lor RST ACK) 0 []); AShutdown WAKER].

Lemma busy_admissible : admissible dev_build PEER busy_actions (conn_with busy_tcb []).
Proof.
  split; [by intros _ _|intros c0 Hc0]. split; [injection Hc0 as <-; by intros _ _|intros c1 _].
  split; [by apply segment_ok|intros c2 _]. split; [done|intros c3 _].
  split; [done|intros c4 _]. split; [by apply segment_ok|intros c5 _].
  split; [done|intros c6 _]. done.
Qed.

(** A connection from its SYN to its end: the handshake, a segment, a retransmitted
    one, the shutdown, a reset. *)
Definition life_actions : list (action (W := World)) :=
  [ARead WAKER (buffer 2000); ADeliver (segment 501 101 ACK 1000 []); ARead WAKER (buffer 2000);
   ADeliver (segment 501 101 (Z.lor PSH ACK) 1000 [Byte.x61]); ARead WAKER (buffer 2000);
   ADeliver (segment 501 101 (Z.lor PSH ACK) 1000 [Byte.x61]); AFlush; AShutdown WAKER;
   ADeliver (segment 502 101 (Z.lor RST ACK) 0 []); AShutdown WAKER].

Lemma fresh_inv n : (n < 1000)%nat -> conn_inv PEER n (fresh []).
Proof.
  intros Hn. split; [split; try done|by repeat split].
  change (rxq (fresh [])) with (@nil NetworkPacket). rewrite Nat.add_0_r. split.
  - by apply tcb_start_wf.
  - unfold count_ok. simpl. lia.
  - apply map_Forall_empty.
  - by apply short_timely.
Qed.

Lemma connection_survives_witness :
  exists c', run dev_build life_actions (fresh []) = Some c' /\ conn_inv PEER 0 c'.
Proof.
  apply (connection_survives dev_build PEER life_actions (fresh [])).
  - apply fresh_inv. simpl. lia.
  - do 10 (split; [first [by apply segment_ok|done]|intros ? _]). done.
Defined.

Lemma inflight_bounded_witness :
  exists c', run dev_build busy_actions (conn_with busy_tcb []) = Some c' /\
    (conn_state c' = Established -> exists s, send_rel (tcb (self c')) s /\
       len (unacked s) < MAX_UNACK + 65495).
Proof.
  apply (inflight_bounded dev_build PEER busy_actions (conn_with busy_tcb [])).
  - apply busy_inv; [constructor|simpl; lia].
  - exact busy_admissible.
Defined.

Definition abc : list byte := [Byte.x61; Byte.x62; Byte.x63].

Lemma poll_read_in_order_witness :
  exists s' r, poll_read dev_build 10 WAKER (mkReadSt out_of_order (buffer 100)) = Some (s', r) /\
    ((exists p, r = Panic p /\ forall R K, ~ read_inv R K (mkReadSt out_of_order (buffer 100))) \/
     (exists v bs, r = Ret v /\ order_inv 501 abc (conn s') /\
        filled (rbuf s') = filled (buffer 100) ++ bs /\
        delivered 501 abc (tcb (self (conn s'))) =
          delivered 501 abc (tcb (self out_of_order)) ++ bs)).
Proof.
  apply (poll_read_in_order dev_build 501 abc WAKER (mkReadSt out_of_order (buffer 100)) 10).
  - split; [done|done|done|split; [done|done|done|apply map_Forall_empty]|].
    change (Forall (stream_packet 501 abc) ooo_packets).
    repeat apply Forall_cons_2; [..|apply Forall_nil_2]; intros h [= <-];
      (split; [done|intros _; split; [done|]]); [by exists abc|by exists []|by exists [Byte.x62; Byte.x63]].
  - apply Nat.ltb_lt. vm_compute. reflexivity.
Defined.

(** The SYN|ACK is sent and nothing else. *)
Definition hs_tcb : Tcb :=
  mkTcb 101 None 501 100 1000 1000 16384 65535 (SynReceived true) (1, 1) [] ∅.

Lemma handshake_establishes_witness :
  exists c', handle_packet dev_build (segment 501 101 ACK 1000 []) (conn_with hs_tcb []) =
      (c', Ret tt) /\ conn_inv PEER 3 c' /\ conn_state c' = Established.
Proof.
  eapply (handshake_establishes dev_build PEER 3 (segment 501 101 ACK 1000 []) _
            (conn_with hs_tcb [])).
  - split; [|done..]. apply conn_with_base; [constructor|].
    split; [|done|apply map_Forall_empty|by apply short_timely].
    split; simpl; try lia; [constructor|apply map_Forall_empty].
  - reflexivity.
  - done.
  - reflexivity.
  - reflexivity.
Defined.

Lemma write_refines_send_buffer_witness :
  exists p c', poll_write (E := Empty_set) dev_build WAKER abc (conn_with busy_tcb []) =
      (c', Ret (Ready (Ok (len (payload p))))) /\
    payload p `prefix_of` abc /\
    rev_packet_of (stream_with busy_tcb) (Z.lor PSH ACK) 64 103 abc p /\
    txq c' = txq (conn_with busy_tcb []) ++ [p] /\ conn_inv PEER 5 c' /\
    send_rel (tcb (self c')) (sb_write (payload p) busy_buf).
Proof.
  apply (write_refines_send_buffer dev_build PEER 5 WAKER abc (conn_with busy_tcb []) busy_buf).
  - apply busy_inv; [constructor|simpl; lia].
  - reflexivity.
  - reflexivity.
  - reflexivity.
  - by intros _ _.
  - apply busy_send_rel.
Defined.

(** The same connection after the peer asked for the byte 101 again. *)
Definition asked_tcb : Tcb := set_retransmission (Some 101) busy_tcb.

Lemma retransmits_oldest_witness :
  exists p q c', poll_flush (E := Empty_set) dev_build (conn_with asked_tcb []) =
      (c', Ret (Ready (Ok tt))) /\
    txq c' = txq (conn_with asked_tcb []) ++ [p] /\ q <> [] /\ q `prefix_of` [Byte.x61; Byte.x62] /\
    rev_packet_of (stream_with asked_tcb) (Z.lor PSH ACK) 64 101 q p /\
    retransmission (tcb (self c')) = None.
Proof.
  destruct (retransmits_oldest dev_build PEER 0 (conn_with asked_tcb []) busy_buf)
    as (p & q & c' & Hrun & Htx & Hpre & Hne & Hrp & Hr).
  - apply conn_with_base; [constructor|]. apply tcb_base_retransmission, busy_tcb_base. simpl. lia.
  - reflexivity.
  - by apply (send_rel_ext busy_tcb), busy_send_rel.
  - done.
  - reflexivity.
  - reflexivity.
  - exists p, q, c'. split; [done|]. split; [done|]. split; [|done].
    apply Hne. apply Forall_cons. split; [done|]. apply Forall_cons. split; [done|]. constructor.
Defined.

Lemma busy_stream_wf : stream_wf (stream_with busy_tcb).
Proof. split; try done. apply busy_tcb_wf. Qed.

Lemma reply_packet_witness :
  exists p, create_rev_packet dev_build (stream_with busy_tcb) ACK 64 None abc = Ret p /\
    rev_packet_of (stream_with busy_tcb) ACK 64 103 abc p /\
    reverse_network_tuple p = mkNetworkTuple client server true.
Proof. apply (reply_packet dev_build (stream_with busy_tcb) ACK 64 None abc), busy_stream_wf. Defined.

(** The packet of the previous witness, by evaluation. *)
Definition busy_reply : NetworkPacket :=
  match create_rev_packet dev_build (stream_with busy_tcb) ACK 64 None abc with
  | Ret p => p
  | _ => segment 0 0 0 0 []
  end.

Lemma reply_fits_mtu_witness :
  exists w, to_bytes busy_reply = Ok w /\ len w = ip_total_len busy_reply /\ len w <= 1500.
Proof.
  eexists. split; [reflexivity|].
  eapply (reply_fits_mtu dev_build (stream_with busy_tcb) ACK 64 None abc busy_reply).
  - apply busy_stream_wf.
  - vm_compute. discriminate.
  - reflexivity.
  - reflexivity.
Defined.



Lemma shutdown_returns_witness :
  exists c' r, poll_shutdown dev_build 10 WAKER
      (conn_with busy_tcb [segment 501 103 ACK 1000 abc]) = Some (c', Ret r) /\
    conn_inv PEER 2 c' /\ kept (conn_with busy_tcb [segment 501 103 ACK 1000 abc]) c' /\
    rtc tcp_step Established (conn_state c').
Proof.
  apply (shutdown_returns dev_build PEER 2 10 WAKER
           (conn_with busy_tcb [segment 501 103 ACK 1000 abc])).
  - apply busy_inv; [constructor; [by apply segment_ok|constructor]|simpl; lia].
  - apply Nat.ltb_lt. vm_compute. reflexivity.
Defined.


Lemma reset_closes_connection_witness :
  exists q w, handle_packet dev_build (segment 7 8 (Z.lor RST ACK) 0 []) (conn_with busy_tcb []) =
      (mkConn (closed_with (Some q) (stream_with busy_tcb)) w,
       Throw (Return (Ready (Err (IoKind ConnectionReset))))) /\
    rev_packet_of (stream_with busy_tcb) NON DROP_TTL 103 [] q /\ same_chans (world_with []) w.
Proof.
  eapply (reset_closes_connection dev_build (segment 7 8 (Z.lor RST ACK) 0 []) _
            (conn_with busy_tcb [])).
  - apply busy_stream_wf.
  - reflexivity.
  - reflexivity.
Defined.

(** The clock is past the deadline 1000 of the connection. *)
Definition late_conn : Conn (W := World) := mkConn (stream_with busy_tcb) (ref_world 1000 [[]; []]).

Lemma timeout_closes_connection_witness :
  exists c' q, read_timeout dev_build WAKER late_conn =
      (c', Throw (Return (Ready (Err (IoKind TimedOut))))) /\
    conn_state c' = Closed /\ shutdown (self c') = ShutReady /\ txq c' = txq late_conn ++ [q] /\
    rev_packet_of (self c') (Z.lor RST ACK) 64 103 [] q /\ 1000 <= 1000.
Proof.
  eapply (timeout_closes_connection dev_build WAKER late_conn (world late_conn)).
  - apply busy_stream_wf.
  - reflexivity.
  - reflexivity.
Defined.

Lemma write_refused_witness :
  poll_write (E := Empty_set) dev_build WAKER abc (conn_with hs_tcb []) =
    (conn_with hs_tcb [], Ret (Ready (Err (IoKind NotConnected)))).
Proof. by apply (write_refused dev_build WAKER abc (conn_with hs_tcb [])). Defined.
