(* ===== verification/TcpLifeTheorems.v ===== *)
(** * Theorems on the life of a TCP connection

    The types of its fields and its footprint, kept by every call; and the
    handshake that closes it, segment by segment; and who wakes a waiting writer. *)

From S2P Require Import Prelude Errors Etherparse Packet Runtime Tcb TcbSpec Tcp TcpPacket TcpLoop TcpFoot.
From S2P Require Import TcpSafety TcpApi TcpTrace TcpWake TcpClose Reference Scenario.

Section tcp_life.
Context `{EP : Etherparse, EL : !EtherparseLaws} {W : Type} `{RT : !Runtime W NetworkPacket}.
Context `{RO : !RuntimeObs W NetworkPacket, RL : !RuntimeLaws W NetworkPacket}.
Context (b : Build).
Implicit Types c : Conn (W := W).

(** C15: The types of a connection hold after every call, whatever it returns and
    even if it panics: sequence numbers stay in 32 bits, windows and the MTU in
    16, the keys of the reassembly map and of the packets in flight in 32, and a
    packet that waits to be sent is a packet of this session that fits the MTU.
    And a call touches nothing else: it takes packets from the front of the
    stream's own channel, sends only packets of its session, and leaves every
    other channel alone. *)
Theorem types_preserved c :
  conn_typed c ->
  (forall n k rb, (length (rxq c) + rank (conn_state c) < n)%nat ->
    exists s' r, poll_read b n k (mkReadSt c rb) = Some (s', r) /\
      conn_typed (conn s') /\ own c (conn s')) /\
  (forall k buf, let c' := (poll_write (E := Empty_set) b k buf c).1 in conn_typed c' /\ own c c') /\
  (let c' := (poll_flush (E := Empty_set) b c).1 in conn_typed c' /\ own c c') /\
  (forall n k, (length (rxq c) + rank (conn_state c) < n)%nat ->
    exists c' r, poll_shutdown b n k c = Some (c', r) /\ conn_typed c' /\ own c c').
Proof.
  intros Hc. pose proof Hc as [Hd Hrx Ht].
  assert (forall c', own c c' -> conn_typed c' /\ own c c') as Hown
    by (intros c' Ho; split; [by eapply own_conn_typed|done]).
  split; [|split; [|split]].
  - intros n k rb Hn. destruct (poll_read_typed b n k rb c Hc Hn) as (s' & r & Hr & Ho). eauto 10.
  - intros k buf. apply Hown. apply keep_own; [by apply poll_write_keep|done].
  - apply Hown. apply keep_own; [by apply keep_poll_flush|done].
  - intros n k Hn. destruct (poll_shutdown_typed b n k c Hc Hn) as (c' & r & Hr & Ho). eauto 10.
Qed.

(** C17: The closing handshake: a valid ACK or FIN|ACK moves a closing connection
    exactly as the table [closing] says, grows the acknowledgment number by what
    it says, leaves the world alone, and queues the reply it names with the
    connection's numbers. *)
Theorem closing_segments p h c st dack reply :
  stream_wf (self c) -> count_ok 0 (tcb (self c)) -> transport p = TransTcp h ->
  acknowledgment_number h ∈u U32 -> window_size h ∈u U16 -> tcp_rst h = false ->
  check_pkt_type (tcb (self c)) (wrap_tcp_header h) (payload p) <> Invalid ->
  closing (conn_state c) (flags (wrap_tcp_header h)) = Some (st, dack, reply) ->
  exists c' r, handle_packet b p c = (c', r) /\ (r = Ret tt \/ r = Throw Continue) /\
    closed_by b c st dack reply c'.
Proof. apply closing_run. Qed.

(** C18: The FINs of the stream: once everything is acknowledged a shutdown is
    followed by one FIN|ACK, the peer's FIN is answered with one, each takes one
    sequence number; and a connection that is done with them is closed and asks
    the stack to forget its session. *)
Theorem closing_fins c :
  stream_wf (self c) ->
  (conn_state c = FinWait1 true \/
   (conn_state c = Established /\ is_shut_pending (shutdown (self c)) = true /\
    last_ack (tcb (self c)) = seq (tcb (self c))) ->
   exists c' p, read_fin b c = (c', Throw Continue) /\ packet_to_send (self c') = Some p /\
     rev_packet_of (self c) (Z.lor FIN ACK) (TTL b) (seq (tcb (self c))) [] p /\
     conn_state c' = (if decide (conn_state c = Established) then FinWait1 false else FinWait2 true) /\
     seq (tcb (self c')) = wrapping_add U32 (seq (tcb (self c))) 1 /\
     ack (tcb (self c')) =
       (if decide (conn_state c = Established) then ack (tcb (self c))
        else wrapping_add U32 (ack (tcb (self c))) 1) /\ world c' = world c) /\
  (conn_state c = FinWait2 false ->
   exists w q, read_closed b c =
       (mkConn (closed_with (Some q) (self c)) w,
        Throw (Return (Ready (Err (IoKind ConnectionAborted))))) /\
     rev_packet_of (self c) NON DROP_TTL (seq (tcb (self c))) [] q /\ same_chans (world c) w).
Proof.
  intros Hwf. split; [intros Hst; by apply own_fin_run|intros Hst; by apply finished_run].
Qed.

(** C19: A writer that has to wait is woken: a write that finds the send buffer
    full or the window too small sends nothing and is pending, and the next ACK
    that acknowledges data, updates the window or carries data wakes the waker of
    that call, exactly once; the invariant of C2 is kept. *)
Theorem blocked_writer_woken (R : Peer) n k buf p h c :
  conn_inv R (1 + n) c -> conn_state c = Established -> write_blocked (tcb (self c)) = true ->
  packet_ok R p -> transport p = TransTcp h -> flags (wrap_tcp_header h) = ACK ->
  wakes_writer (check_pkt_type (tcb (self c)) (wrap_tcp_header h) (payload p)) = true ->
  exists c1 c2, poll_write (E := Empty_set) b k buf c = (c1, Ret Pending) /\ world c1 = world c /\
    handle_packet b p c1 = (c2, Throw Continue) /\
    wakes k (world c2) = S (wakes k (world c)) /\ write_notify (self c2) = None /\ conn_inv R n c2.
Proof.
  intros Hc Hs Hbl Hp Ht Hf Hst. assert (timely (W := W) (tcp_timeout (tcb (self c)))) as Htm by apply Hc.
  rewrite poll_write_blocked by done. set (c1 := upd_self _ c).
  assert (conn_inv R (1 + n) c1) as Hc1 by (by apply registered_inv).
  destruct (ack_wakes b R n p h k c1 Hc1 Hs Hp Ht Hf Hst eq_refl) as (c2 & Hrun & [Hn Hw] & Hi).
  by exists c1, c2.
Qed.

(** ... but data from the peer does not wake it: a PSH|ACK packet on an
    established connection, although it may acknowledge what fills the send
    buffer and open the window, leaves the waker registered and wakes nobody. *)
Theorem push_wakes_nobody p h c c' r :
  conn_state c = Established -> transport p = TransTcp h ->
  flags (wrap_tcp_header h) = Z.lor PSH ACK -> handle_packet b p c = (c', r) ->
  write_notify (self c') = write_notify (self c) /\ forall k, wakes k (world c') = wakes k (world c).
Proof.
  intros Hs Ht Hf Hrun. pose proof (handle_push_still b p h c Ht Hf Hs) as Hw. unfold wp in Hw.
  rewrite Hrun in Hw. destruct Hw as [Hn Hw]. simpl in Hn, Hw. by rewrite Hw.
Qed.

End tcp_life.

(** ** Concrete connections *)

Lemma busy_typed rx : Forall typed_packet rx -> conn_typed (conn_with busy_tcb rx).
Proof.
  intros Hrx. split; [done|exact Hrx|]. split; [|done|done].
  split; try done. apply busy_tcb_wf.
Qed.

Lemma types_preserved_witness :
  exists c' r, poll_shutdown dev_build 10 WAKER (conn_with busy_tcb [segment 501 103 ACK 1000 []]) =
      Some (c', r) /\ conn_typed c' /\ own (conn_with busy_tcb [segment 501 103 ACK 1000 []]) c'.
Proof.
  destruct (types_preserved dev_build (conn_with busy_tcb [segment 501 103 ACK 1000 []]))
    as (_ & _ & _ & Hsd).
  - apply busy_typed. constructor; [|constructor]. by intros h [= <-].
  - apply Hsd. apply Nat.ltb_lt. vm_compute. reflexivity.
Defined.

(** The connection of [busy_tcb] after everything was acknowledged, in a given
    state. *)
Definition calm_tcb (st : TcpState) : Tcb :=
  mkTcb 103 None 501 103 1000 1000 16384 1000 st (500, 2) [] ∅.

Lemma calm_wf st : stream_wf (stream_with (calm_tcb st)).
Proof. by split. Qed.

Lemma closing_segments_witness :
  exists c' r, handle_packet dev_build (segment 501 103 (Z.lor FIN ACK) 1000 [])
      (conn_with (calm_tcb Established) []) = (c', r) /\ (r = Ret tt \/ r = Throw Continue) /\
    closed_by dev_build (conn_with (calm_tcb Established) []) (FinWait1 true) 1 (Some ACK) c'.
Proof.
  eapply (closing_segments dev_build (segment 501 103 (Z.lor FIN ACK) 1000 []) _
            (conn_with (calm_tcb Established) [])).
  - apply calm_wf.
  - split; simpl; lia.
  - reflexivity.
  - done.
  - done.
  - reflexivity.
  - vm_compute. discriminate.
  - reflexivity.
Defined.

Lemma closing_fins_witness :
  exists c' p, read_fin dev_build (conn_with (calm_tcb (FinWait1 true)) []) = (c', Throw Continue) /\
    packet_to_send (self c') = Some p /\ conn_state c' = FinWait2 true.
Proof.
  destruct (closing_fins dev_build (conn_with (calm_tcb (FinWait1 true)) [])) as [H _].
  - apply calm_wf.
  - destruct H as (c' & p & Hr & Hp & _ & Hs & _); [by left|]. exists c', p.
    split; [exact Hr|]. split; [exact Hp|exact Hs].
Defined.

(** A writer waits because the window shrank to 100 bytes. *)
Definition WRITER : Waker (W := World) (A := NetworkPacket) := 9%nat.
Definition small_window : Tcb :=
  mkTcb 101 None 501 101 1000 1000 16384 100 Established (366, 3) [] ∅.

Lemma small_window_inv n :
  (n < 1000)%nat -> conn_inv PEER n (conn_with small_window []).
Proof.
  intros Hn. split.
  - apply conn_with_base; [constructor|]. split; [|split; simpl; lia|apply map_Forall_empty|by apply short_timely].
    split; simpl; try lia; [constructor|apply map_Forall_empty].
  - split; [done|]. split; [|done]. exists (mkSendBuf 101 []). by exists [].
Qed.

Lemma blocked_writer_woken_witness :
  exists c1 c2, poll_write (E := Empty_set) dev_build WRITER [Byte.x61] (conn_with small_window []) =
      (c1, Ret Pending) /\ world c1 = world_with [] /\
    handle_packet dev_build (segment 501 101 ACK 60000 []) c1 = (c2, Throw Continue) /\
    wakes WRITER (world c2) = S (wakes WRITER (world_with [])) /\ write_notify (self c2) = None /\
    conn_inv PEER 5 c2.
Proof.
  eapply (blocked_writer_woken dev_build PEER 5 WRITER [Byte.x61] (segment 501 101 ACK 60000 []) _
            (conn_with small_window [])).
  - apply small_window_inv. lia.
  - reflexivity.
  - reflexivity.
  - by apply segment_ok.
  - reflexivity.
  - reflexivity.
  - reflexivity.
Defined.

(** The writer waits; a PSH|ACK packet opens the window so that it could go on. *)
Definition waiting_writer : Conn (W := World) :=
  (poll_write (E := Empty_set) dev_build WRITER [Byte.x61] (conn_with small_window [])).1.
Definition opens_window : NetworkPacket := segment 501 101 (Z.lor PSH ACK) 60000 [Byte.x62].
Definition opened_window : Conn (W := World) * exec Exit unit :=
  handle_packet dev_build opens_window waiting_writer.

Lemma push_wakes_nobody_witness :
  write_blocked (tcb (self waiting_writer)) = true /\
  write_blocked (tcb (self opened_window.1)) = false /\
  write_notify (self opened_window.1) = Some WRITER /\ wakes WRITER (world opened_window.1) = 0%nat.
Proof.
  destruct (push_wakes_nobody dev_build opens_window
    (set_flags 101 (Z.lor PSH ACK) (tcp_header_new 1000 80 501 60000))
    waiting_writer opened_window.1 opened_window.2) as [Hn Hk].
  - reflexivity.
  - reflexivity.
  - reflexivity.
  - apply surjective_pairing.
  - split; [vm_compute; reflexivity|]. split; [vm_compute; reflexivity|].
    rewrite Hn, Hk. split; vm_compute; reflexivity.
Defined.
