(* ===== verification/TcpFindings.v ===== *)
(** * Where a TCP connection fails

    Inputs a peer or a user can produce on which the code does not do what it means
    to: first for every connection that meets the conditions, then concrete runs of
    the model, over the reference library and runtime. *)

From S2P Require Import Prelude Errors Etherparse Packet Runtime Tcb Tcp TcpPacket TcpLoop TcpSafety.
From S2P Require Import TcpApi TcpDeliver TcpOpen TcpClose Reference Scenario.

Section findings.
Context `{EP : Etherparse, EL : !EtherparseLaws} {W : Type} `{RT : !Runtime W NetworkPacket}.
Context `{RO : !RuntimeObs W NetworkPacket, RL : !RuntimeLaws W NetworkPacket}.
Context (b : Build).
Implicit Types c : Conn (W := W).

(** ** A forged acknowledgment *)

(** The SYN|ACK was sent, and nothing else. *)
Record greeting_sent c : Prop := {
  gs_wf : stream_wf (self c);
  gs_count : count_ok 1 (tcb (self c));
  gs_timely : timely (W := W) (tcp_timeout (tcb (self c)));
  gs_state : conn_state c = SynReceived true;
  gs_retransmission : retransmission (tcb (self c)) = None;
  gs_inflight : inflight_packets (tcb (self c)) = [];
  gs_unordered : unordered_packets (tcb (self c)) = ∅;
  gs_packet : packet_to_send (self c) = None;
  gs_seq : last_ack (tcb (self c)) < seq (tcb (self c));
}.

(** An ACK without data that acknowledges [a] with the window [win]. *)
Definition pure_ack (a win : Z) (p : NetworkPacket) : Prop :=
  exists h, transport p = TransTcp h /\ flags (wrap_tcp_header h) = ACK /\ payload p = [] /\
    acknowledgment_number h = a /\ window_size h = win.

Lemma ack_no_reset h : flags (wrap_tcp_header h) = ACK -> tcp_rst h = false.
Proof. intros Hf. pose proof (flags_bits (wrap_tcp_header h)) as (_ & _ & _ & _ & _ & Hr & _). by rewrite Hf in Hr. Qed.

(** The first one ends the handshake: the acknowledgment is valid, although it
    acknowledges nothing. *)
Lemma forged_first a win p c :
  stream_wf (self c) -> count_ok 1 (tcb (self c)) -> conn_state c = SynReceived true ->
  a = last_ack (tcb (self c)) -> a < seq (tcb (self c)) -> win ∈u U16 -> pure_ack a win p ->
  exists avg, handle_packet b p c =
      (upd_tcb (fun t => change_state Established (set_send_window win avg (set_last_ack a t))) c, Ret tt) /\
    count_ok 0 (change_state Established (set_send_window win avg (set_last_ack a (tcb (self c))))).
Proof.
  intros Hwf Hcnt Hs Ha Hlt Hwin (h & Ht & Hf & _ & Ha' & Hw').
  assert (a ∈u U32) as Hau by (rewrite Ha; apply Hwf).
  set (t1 := set_last_ack a (tcb (self c))).
  assert (count_ok 0 t1) as Hc1 by (eapply (count_ok_le 1); [lia|exact Hcnt]).
  pose proof (change_send_window_ok (E := Empty_set) b win t1 Hwin Hc1) as Hcw.
  assert (0 <= 0) as H0 by done. pose proof (change_send_window_count b win t1 _ 0 Hwin H0 Hcnt Hcw) as Hc0.
  match type of Hcw with _ = Ret (set_send_window _ ?avg _) => exists avg end. split; [|exact Hc0].
  rewrite (handle_packet_valid b p h), Hs; [|done|by apply ack_no_reset|].
  - unfold on_syn_received. rewrite Hf, Z.eqb_refl. cbn [when].
    unfold store_ack, store_window. rewrite (Ha' : ackno (wrap_tcp_header h) = a).
    rewrite (Hw' : window_size (inner (wrap_tcp_header h)) = win).
    erewrite bind_run by (apply try_tcb_run, change_last_ack_other; [done|unfold conn_state in Hs; congruence]).
    by erewrite bind_run by (apply try_tcb_run; exact Hcw).
  - apply check_pkt_type_valid; [apply Hwf|simpl; congruence|lia|simpl; lia].
Qed.

(** The second asks for data that was never sent. *)
Lemma forged_second a win p c :
  stream_wf (self c) -> count_ok 0 (tcb (self c)) -> conn_state c = Established ->
  inflight_packets (tcb (self c)) = [] -> a = last_ack (tcb (self c)) -> a < seq (tcb (self c)) ->
  win = send_window (tcb (self c)) -> pure_ack a win p ->
  (handle_packet b p c).2 = Panic PExplicit.
Proof.
  intros Hwf Hcnt Hs Hi Ha Hlt Hwin (h & Ht & Hf & Hpl & Ha' & Hw').
  pose proof Hwf as [_ _ _ _ []].
  assert (check_pkt_type (tcb (self c)) (wrap_tcp_header h) (payload p) = RetransmissionRequest) as Hck.
  { assert (check_pkt_type (tcb (self c)) (wrap_tcp_header h) (payload p) <> Invalid) as Hv
      by (apply check_pkt_type_valid; [apply Hwf|simpl; congruence|lia|simpl; lia]).
    unfold check_pkt_type in *. change (inner (wrap_tcp_header h)) with h in *. destruct (_ || _); [done|].
    rewrite Ha', Ha, Z.eqb_refl, Hpl, bool_decide_eq_true_2 by done. simpl.
    rewrite Hw', Hwin, Z.eqb_refl. simpl. by destruct (Z.eqb_spec (seq (tcb (self c))) (last_ack (tcb (self c)))); [lia|]. }
  rewrite (handle_packet_valid b p h), Hs; [|done|by apply ack_no_reset|by rewrite Hck].
  unfold on_established. rewrite Hf, Z.eqb_refl. cbn [when]. unfold on_ack.
  erewrite bind_panic; [done|]. erewrite bind_run by reflexivity. rewrite Hck.
  erewrite bind_panic; [done|]. unfold ack_arm.
  erewrite bind_run by (apply try_tcb_run, change_send_window_ok; [simpl; congruence|exact Hcnt]).
  erewrite bind_run by reflexivity. erewrite bind_panic; [done|].
  unfold poll_flush, call, poll_flush_body. erewrite bind_run by reflexivity.
  unfold get_state. rewrite bool_decide_eq_true_2 by done. cbn [negb].
  do 2 erewrite bind_run by reflexivity. simpl. erewrite bind_run by reflexivity. simpl. by rewrite Hi.
Qed.

Lemma quiet_greeting k c w :
  greeting_sent c -> sleep_poll (timeout (tcb (self c))) k (world c) = (false, w) -> quiet k c (unqueued c) w.
Proof.
  intros [_ _ Htm Hs Hr _ Hu Hp _] Hsl. assert (conn_state (unqueued c) = SynReceived true) as Hs' by done.
  split; [by unfold reading; rewrite Hs'|by rewrite Hs'|done|done|by apply read_send_nothing|done| |by rewrite Hs'].
  left. simpl. by rewrite Hu.
Qed.

(** C39: Two packets of a peer make a read panic: on any connection that has sent its
    SYN|ACK and nothing else, an ACK that acknowledges the number of the SYN|ACK
    itself, and so nothing, ends the handshake; and the next ACK of that number with
    the same window and no data asks for a retransmission of data that was never
    sent, which [poll_flush] answers with [panic!]. *)
Theorem forged_ack_panics n k c rb win p1 p2 w1 w2 w3 w4 :
  greeting_sent c -> win ∈u U16 ->
  pure_ack (last_ack (tcb (self c))) win p1 -> pure_ack (last_ack (tcb (self c))) win p2 ->
  next_packet k c p1 w1 w2 ->
  sleep_poll (instant_now w1 + tcp_timeout (tcb (self c))) k w2 = (false, w3) ->
  chan_poll_recv (stream_receiver (self c)) k w3 = (Ready (Some p2), w4) ->
  snd <$> poll_read b (2 + n) k (mkReadSt c rb) = Some (Panic PExplicit).
Proof.
  intros Hg Hwin Hp1 Hp2 [Hsl Hrv] Hsl2 Hrv2. pose proof Hg as [Hwf Hcnt Htm Hs Hr Hi Hu Hp Hlt].
  set (c1 := mkConn (self (looked w1 (unqueued c))) w2).
  assert (stream_wf (self c1)) as Hwf1 by (by apply (looked_wf w1 (unqueued c)), unqueued_wf).
  destruct (forged_first (last_ack (tcb (self c))) win p1 c1) as (avg & Hrun1 & Hcnt2); [done..|].
  set (c2 := upd_tcb _ c1) in Hrun1.
  assert (quiet k c2 (unqueued c2) w3) as Hq2.
  { split; [done|done|exact Htm|exact Hr|by apply read_send_nothing|exact Hsl2| |].
    - left. simpl. by rewrite Hu, delete_empty.
    - intros _ _. simpl. lia. }
  assert (stream_wf (self c2)) as Hwf2.
  { destruct Hcnt2 as (? & ? & ?). destruct Hwf1 as [? ? ? ? []]. split; [done..|]. split; try assumption; simpl in *; lia. }
  set (c3 := mkConn (self (looked w3 (unqueued c2))) w4).
  assert ((handle_packet b p2 c3).2 = Panic PExplicit) as Hf.
  { apply (forged_second (last_ack (tcb (self c))) win); [|exact Hcnt2|reflexivity|exact Hi|reflexivity|exact Hlt|reflexivity|done].
    by apply (looked_wf w3 (unqueued c2)), unqueued_wf. }
  unfold poll_read. cbn [Nat.add loop].
  rewrite (quiet_packet b k c (unqueued c) rb w1 w2 p1) by (try done; by apply quiet_greeting). fold c1. rewrite Hrun1.
  rewrite (quiet_packet b k c2 (unqueued c2) rb w3 w4 p2) by done.
  fold c3. destruct (handle_packet b p2 c3) as [c4 r]. simpl in Hf. by rewrite Hf.
Qed.

(** ** Data that is lost *)



(** ** A close that does not end *)

(** A poll of the shutdown in some world [w], before the timer elapses and with no
    packet there. *)
Definition idle_poll (w : W) (r : exec Empty_set PollUnit) c c' : Prop :=
  exists n k w1 w2, sleep_poll (timeout (tcb (self c))) k w = (false, w1) /\
    chan_poll_recv (stream_receiver (self c)) k w1 = (Pending, w2) /\
    poll_shutdown b (S n) k (mkConn (self c) w) = Some (c', r).

Lemma idle_poll_waits w r c c' :
  waiting c -> distinct c -> idle_poll w r c c' ->
  r = Ret Pending /\ waiting c' /\ distinct c' /\ txq c' = txq (mkConn (self c) w).
Proof.
  intros Hw Hd (n & k & w1 & w2 & Hsl & Hrv & Hrun).
  destruct (poll_shutdown_waits b n k (mkConn (self c) w) w1 w2) as (c1 & Hrun' & Hw' & Hcfg & <-);
    [by destruct Hw|done|done|].
  rewrite Hrun in Hrun'. injection Hrun' as <- ->. unfold cfg in Hcfg. injection Hcfg as _ _ Er Ep _.
  unfold distinct, txq in *. simpl in Er, Ep. rewrite Er, Ep. do 3 (split; [done|]).
  pose proof (sleep_poll_chans (timeout (tcb (self c))) k w) as [Hsq _].
  pose proof (chan_recv_other (stream_receiver (self c)) k w1 (packet_sender (self c))) as Hrq.
  rewrite Hsl in Hsq. rewrite Hrv in Hrq. simpl in *. by rewrite Hrq, Hsq by congruence.
Qed.

(** C40: A close that the peer answers with one FIN|ACK does not complete: on any
    stream that was shut down and has sent its FIN, a valid FIN|ACK, also one that
    acknowledges the stream's FIN, is acknowledged, and then the stream stays in
    [FinWait2(true)]: polled in whatever worlds, as long as no other packet is there
    and the timer, which every poll resets, has not elapsed, its shutdown is pending
    and sends nothing. *)
Theorem fin_ack_answer_stalls n k p c w1 w2 :
  fin_sent c -> fin_segment c p -> next_packet k c p w1 w2 -> nothing_more k c w1 w2 ->
  exists c' q s0, poll_shutdown b (2 + n) k c = Some (c', Ret Pending) /\ conn_state c' = FinWait2 true /\
    txq c' = txq c ++ [q] /\ rev_packet_of s0 ACK (TTL b) (seq (tcb (self c))) [] q /\
    ack (tcb s0) = wrapping_add U32 (ack (tcb (self c))) 1 /\
    forall c1, rtc (fun x y => exists w r, idle_poll w r x y) c' c1 ->
      conn_state c1 = FinWait2 true /\
      forall w r c2, idle_poll w r c1 c2 -> r = Ret Pending /\ txq c2 = txq (mkConn (self c1) w).
Proof.
  intros Hf Hseg Hnx Hno. destruct (answered_shutdown b n k p c w1 w2 Hf Hseg Hnx Hno)
    as (c' & q & s0 & Hrun & Hw & Htx & Hrp & Hack & Hcfg).
  exists c', q, s0. split; [done|]. split; [apply Hw|]. do 3 (split; [done|]).
  assert (distinct c') as Hd.
  { unfold cfg in Hcfg. injection Hcfg as _ _ Er Ep _. pose proof (fn_distinct _ Hf). unfold distinct in *. congruence. }
  clear -Hw Hd RL. induction 1 as [x|x y z (w & r & Hp) _ IH].
  - split; [apply Hw|]. intros w r c2 Hp. by destruct (idle_poll_waits w r x c2 Hw Hd Hp) as (? & _ & _ & ?).
  - destruct (idle_poll_waits w r x y Hw Hd Hp) as (_ & Hw' & Hd' & _). by apply IH.
Qed.

End findings.

(** ** Concrete runs *)

(** The first ACK arrives and the connection is established. *)
Definition established : Conn (W := World) := after_read 100 (fresh [segment 501 101 ACK 1000 []]).

Definition write (bs : list byte) (c : Conn (W := World)) : Conn (W := World) :=
  (poll_write (E := Empty_set) dev_build WAKER bs c).1.

(** The sequence number, the flags and the payload of a segment. *)
Definition segment_view (p : NetworkPacket) : option (Z * Z * list byte) :=
  match transport p with
  | TransTcp h => Some (sequence_number h, flags (wrap_tcp_header h), payload p)
  | _ => None
  end.

(** A write of no bytes is stored as an in-flight packet with the sequence
    number of the next one, and the retransmission of that number finds it
    first: when the peer asks for the lost bytes again, it is sent a packet
    without data while two bytes are unacknowledged. *)
Theorem empty_write_blocks_retransmission :
  let c := after_read 100 (more_packets [segment 501 101 ACK 1000 []]
             (write [Byte.x61; Byte.x62] (write [] established))) in
  (last (txq c) ≫= segment_view) = Some (101, Z.lor PSH ACK, []) /\
  last_ack (tcb (self c)) = 101 /\ seq (tcb (self c)) = 103.
Proof. vm_compute. repeat split. Qed.

(** A read panics if the next segment is longer than the caller's buffer:
    the whole segment is put into it. *)
Theorem small_buffer_panics :
  snd <$> read 1 (fresh [segment 501 101 ACK 1000 [];
                         segment 501 101 (Z.lor PSH ACK) 1000 [Byte.x62; Byte.x63]]) =
    Some (Panic PPutSlice).
Proof. vm_compute. reflexivity. Qed.

(** ** The closing handshake *)

Definition shut (c : Conn (W := World)) : option (Conn (W := World) * exec Empty_set PollUnit) :=
  poll_shutdown dev_build 20 WAKER c.
Definition after_shut (c : Conn (W := World)) : Conn (W := World) :=
  match shut c with Some (c', _) => c' | None => c end.

(** The sequence number, the acknowledgment number and the flags of a segment. *)
Definition numbers (p : NetworkPacket) : option (Z * Z * Z) :=
  match transport p with
  | TransTcp h => Some (sequence_number h, acknowledgment_number h, flags (wrap_tcp_header h))
  | _ => None
  end.

(** Had the ACK and the FIN come in two segments, the connection would be closed. *)
Theorem two_segments_close :
  state (tcb (self (after_shut (more_packets
    [segment 501 102 ACK 1000 []; segment 501 102 (Z.lor FIN ACK) 1000 []]
    (after_shut established))))) = Closed.
Proof. vm_compute. reflexivity. Qed.

(** When the peer closes first, its FIN is counted twice: the stream's answers
    carry the number after the FIN, but then the connection's own number is one
    more, and a FIN that is sent again (its answer was lost) is acknowledged with
    a number the peer never used. *)
Theorem passive_close_acks_beyond :
  let closing := after_read 100 (more_packets [segment 501 101 (Z.lor FIN ACK) 1000 []] established) in
  let again := after_read 100 (more_packets [segment 501 101 (Z.lor FIN ACK) 1000 []] closing) in
  numbers <$> txq again =
    [Some (100, 501, Z.lor SYN ACK); Some (101, 502, ACK); Some (101, 502, Z.lor FIN ACK);
     Some (102, 503, ACK)].
Proof. vm_compute. reflexivity. Qed.

(** ** The theorems at work *)

(** The world after the next packet is taken from the stream's channel. *)
Definition taken (w : World) : World := (chan_poll_recv RX WAKER w).2.

(** The SYN|ACK was sent; the peer acknowledges its number, twice. *)
Definition forged : NetworkPacket := segment 501 100 ACK 1000 [].
Definition greeted_conn : Conn (W := World) :=
  conn_with (mkTcb 101 None 501 100 1000 1000 16384 65535 (SynReceived true) (1, 1) [] ∅) [forged; forged].

Lemma greeted_conn_sent : greeting_sent greeted_conn.
Proof.
  split; [|done|by apply short_timely|done..].
  split; [done..|]. split; simpl; try lia; [constructor|apply map_Forall_empty].
Qed.

Lemma forged_ack_panics_witness :
  snd <$> poll_read dev_build 2 WAKER (mkReadSt greeted_conn (buffer 2000)) = Some (Panic PExplicit).
Proof.
  apply (forged_ack_panics dev_build 0 WAKER greeted_conn (buffer 2000) 1000 forged forged
    (world greeted_conn) (taken (world greeted_conn)) (taken (world greeted_conn))
    (taken (taken (world greeted_conn)))).
  - exact greeted_conn_sent.
  - lia.
  - eexists. by split_and!.
  - eexists. by split_and!.
  - split; vm_compute; reflexivity.
  - vm_compute. reflexivity.
  - vm_compute. reflexivity.
Defined.

(** The same from the SYN on. *)
Theorem forged_ack_run : snd <$> read 2000 (fresh [forged; forged]) = Some (Panic PExplicit).
Proof. vm_compute. reflexivity. Qed.

Definition late_fin : NetworkPacket := segment 504 101 (Z.lor FIN ACK) 1000 [].



(** The same from the SYN on: the reader gets [bc] as if it was all. *)
Theorem fin_skips_run :
  (fun x => (filled (rbuf x.1), x.2)) <$>
    read 100 (fresh [segment 501 101 ACK 1000 []; segment 502 101 ACK 1000 [Byte.x62; Byte.x63]; late_fin]) =
    Some ([Byte.x62; Byte.x63], Ret (Ready (Ok tt))).
Proof. vm_compute. reflexivity. Qed.

(** The stream was shut down and has sent its FIN; the peer answers with ACK and
    FIN in one segment. *)
Definition answer : NetworkPacket := segment 501 102 (Z.lor FIN ACK) 1000 [].
Definition answered : Conn (W := World) :=
  mkConn (set_shutdown (ShutPending WAKER)
    (stream_with (mkTcb 102 None 501 101 1000 1000 16384 1000 (FinWait1 false) (500, 2) [] ∅))) (world_with [answer]).

Lemma answered_fin_sent : fin_sent answered.
Proof.
  split; [|done|by apply short_timely|done..].
  split; [done..|]. split; simpl; try lia; [constructor|apply map_Forall_empty].
Qed.

Lemma fin_ack_answer_stalls_witness :
  exists c' q s0, poll_shutdown dev_build 2 WAKER answered = Some (c', Ret Pending) /\
    conn_state c' = FinWait2 true /\ txq c' = txq answered ++ [q] /\
    rev_packet_of s0 ACK 64 102 [] q /\ ack (tcb s0) = 502 /\
    forall c1, rtc (fun x y => exists w r, idle_poll dev_build w r x y) c' c1 ->
      conn_state c1 = FinWait2 true /\
      forall w r c2, idle_poll dev_build w r c1 c2 -> r = Ret Pending /\ txq c2 = txq (mkConn (self c1) w).
Proof.
  apply (fin_ack_answer_stalls dev_build 0 WAKER answer answered (world answered) (taken (world answered))).
  - exact answered_fin_sent.
  - split. eexists. by split_and!.
  - split; vm_compute; reflexivity.
  - intros q. split; vm_compute; reflexivity.
Defined.

(** It can be polled again, in a world where nothing has changed but the time. *)
Lemma idle_poll_at (c : Conn (W := World)) w w1 w2 :
  sleep_poll (timeout (tcb (self c))) WAKER w = (false, w1) ->
  chan_poll_recv (stream_receiver (self c)) WAKER w1 = (Pending, w2) ->
  (if shut (mkConn (self c) w) is Some _ then true else false) = true ->
  exists c' r, idle_poll dev_build w r c c'.
Proof.
  intros Hsl Hrv Hs. destruct (shut _) as [[c' r]|] eqn:Hrun; [|done]. exists c', r, 19%nat, WAKER, w1, w2. done.
Qed.

Lemma answered_idle : exists c' r, idle_poll dev_build (ref_world 900 [[]; []]) r (after_shut answered) c'.
Proof.
  apply (idle_poll_at (after_shut answered) (ref_world 900 [[]; []]) (ref_world 900 [[]; []]) (ref_world 900 [[]; []]));
    vm_compute; reflexivity.
Qed.
