(* ===== verification/StreamTheorems.v ===== *)
(** * Theorems on UDP streams and other transports *)

From S2P Require Import Prelude Errors Etherparse Packet Runtime Udp Unknown Reference Scenario.

Section stream_theorems.
Context `{EP : Etherparse, EL : !EtherparseLaws} {W : Type} `{RT : !Runtime W NetworkPacket}.
Context `{RO : !RuntimeObs W NetworkPacket, RL : !RuntimeLaws W NetworkPacket}.
Context (b : Build).

(** A UDP stream can always build a datagram: it goes from the peer's
    address to the local one, carries as much of the payload as the MTU leaves
    room for, and is no longer than the MTU if the MTU holds the headers. *)
Theorem udp_datagram (s : IpStackUdpStream (W := W)) ttl bs :
  udp_wf s ->
  exists p, Udp.create_rev_packet s ttl bs = Ret p /\ datagram_of s ttl bs p /\
    (udp_headers_len s <= Udp.mtu s -> ip_total_len p <= Udp.mtu s).
Proof.
  intros Hwf. destruct (udp_create_ok s ttl bs Hwf) as (p & Hp & Hd). exists p.
  split; [done|]. split; [done|]. by eapply datagram_fits.
Qed.

(** C30: Datagrams are read one by one, whole and in order: a successful read
    takes the oldest unread datagram (the one that opened the session first) or
    finds none; a timeout is reported only after the deadline and loses nothing;
    a read panics only if the oldest datagram does not fit the buffer, or if the
    timeout cannot be added to the time, in which case it leaves the stream and the
    buffer as they were. *)
Theorem udp_reads_in_order k (s : IpStackUdpStream (W := W)) w rb :
  let '(st, r) := udp_poll_read k (mkUdpSt s w rb) in
  match r with
  | Ret (Ready (Ok _)) =>
      (exists d, unread s w = d :: unread (ustream st) (uworld st) /\
         filled (ubuf st) = filled rb ++ d /\ remaining (ubuf st) = remaining rb - len d) \/
      (unread s w = [] /\ unread (ustream st) (uworld st) = [] /\ ubuf st = rb)
  | Ret (Ready (Err e)) =>
      e = IoKind TimedOut /\ Udp.timeout s <= instant_now w /\ ustream st = s /\ ubuf st = rb /\
      unread (ustream st) (uworld st) = unread s w
  | Ret Pending => unread (ustream st) (uworld st) = unread s w /\ ubuf st = rb
  | Throw e => False
  | Panic p =>
      (p = PPutSlice /\ exists d, head (unread s w) = Some d /\ remaining rb < len d) \/
      (p = PInstant /\ instant_max W < instant_now (uworld st) + Udp.udp_timeout s /\
       ustream st = s /\ ubuf st = rb)
  end.
Proof. apply udp_poll_read_spec. Qed.

(** A UDP write sends exactly one datagram towards the device, reports the
    number of bytes it carries, and restarts the timer, if the timeout can be added to
    the time. *)
Theorem udp_write_sends bs (s : IpStackUdpStream (W := W)) w :
  udp_wf s -> timely (W := W) (Udp.udp_timeout s) -> rx_open (pkt_sender s) w = true ->
  exists p w', udp_poll_write b bs s w =
      (Udp.rearm (instant_now w) s, w', Ret (Ready (Ok (len (Packet.payload p))))) /\
    datagram_of s (TTL b) bs p /\
    queue (pkt_sender s) w' = queue (pkt_sender s) w ++ [p].
Proof. intros. by apply udp_poll_write_spec. Qed.

(** C31: An IPv4 answer of another transport is sent whole: if a packet has room
    for payload, [send] returns after at most one round per byte, and it has
    sent the fewest packets that carry the answer, in order, each with the
    protocol of the packet answered and no longer than the MTU. *)
Theorem unknown_send_whole (s : IpStackUnknownTransport (W := W)) src dst fuel bs w :
  unk_src_addr s = IpV4 src -> unk_dst_addr s = IpV4 dst ->
  Unknown.mtu s ∈u U16 -> 20 < Unknown.mtu s ->
  rx_open (packet_sender s) w = true -> (length bs < fuel)%nat ->
  exists w' pkts, send b fuel s bs w = Some (w', Ret (Ok tt)) /\
    queue (packet_sender s) w' = queue (packet_sender s) w ++ pkts /\
    Forall (fun p => exists d, p = reply4 b s src dst d /\ ip_total_len p <= Unknown.mtu s) pkts /\
    concat (Packet.payload <$> pkts) = bs /\
    len pkts = Z.max 1 ((len bs + room4 s - 1) / room4 s).
Proof. intros. by apply send_v4_ok. Qed.

(** An IPv6 answer is sent as one packet with its first bytes only: what
    does not fit is dropped although [send] reports success, and the packet says
    it carries UDP, whatever the protocol of the packet answered. *)
Theorem unknown_send_v6_truncates (s : IpStackUnknownTransport (W := W)) src dst fuel bs w :
  unk_src_addr s = IpV6 src -> unk_dst_addr s = IpV6 dst -> Unknown.mtu s ∈u U16 ->
  rx_open (packet_sender s) w = true ->
  exists w' p, send b (S fuel) s bs w = Some (w', Ret (Ok tt)) /\
    queue (packet_sender s) w' = queue (packet_sender s) w ++ [p] /\
    Packet.payload p = truncate (room6 s) bs /\
    exists h, ip p = Ipv6 h /\ ip6_next_header h = IpNumber_UDP.
Proof.
  intros Hs Hd Hm Ho. destruct (send_v6_ok b s src dst fuel bs w) as (w' & Hrun & Hq); [done..|].
  eexists w', _. split; [done|]. split; [done|]. split; [done|]. by eexists.
Qed.

(** If the MTU does not exceed the IPv4 header, [send] never returns on a
    non-empty answer: no number of rounds is enough, each of them sends an empty
    packet. *)
Theorem unknown_send_diverges (s : IpStackUnknownTransport (W := W)) src dst fuel bs w :
  unk_src_addr s = IpV4 src -> unk_dst_addr s = IpV4 dst -> 0 <= Unknown.mtu s <= 20 ->
  rx_open (packet_sender s) w = true -> bs <> [] ->
  send b fuel s bs w = None.
Proof. intros. by eapply send_v4_stuck. Qed.

End stream_theorems.

(** ** Concrete streams *)

Definition text : list byte := [Byte.x61; Byte.x62; Byte.x63; Byte.x64; Byte.x65].

(** A UDP session, and an MTU that leaves room for four bytes. *)
Definition datagram (bs : list byte) : NetworkPacket :=
  mkNetworkPacket (Ipv4 (mkIpv4Header (28 + len bs) true 64 IpNumber_UDP 1 2 tt))
    (TransUdp (mkUdpHeader 1000 80 (8 + len bs, 0))) bs.
Definition udp_stream : IpStackUdpStream (W := World) :=
  mkUdpStream client server RX RX PKT (Some text) 1000 1000 32.

Lemma udp_stream_wf : udp_wf udp_stream.
Proof. by split. Qed.

Lemma udp_datagram_witness :
  exists p, Udp.create_rev_packet udp_stream 64 text = Ret p /\ datagram_of udp_stream 64 text p /\
    (udp_headers_len udp_stream <= 32 -> ip_total_len p <= 32).
Proof. apply (udp_datagram udp_stream 64 text), udp_stream_wf. Defined.

Lemma udp_reads_in_order_witness :
  let '(st, r) := udp_poll_read WAKER (mkUdpSt udp_stream (world_with [datagram []]) (buffer 10)) in
  match r with
  | Ret (Ready (Ok _)) =>
      (exists d, unread udp_stream (world_with [datagram []]) = d :: unread (ustream st) (uworld st) /\
         filled (ubuf st) = filled (buffer 10) ++ d /\
         remaining (ubuf st) = remaining (buffer 10) - len d) \/
      (unread udp_stream (world_with [datagram []]) = [] /\
       unread (ustream st) (uworld st) = [] /\ ubuf st = buffer 10)
  | Ret (Ready (Err e)) =>
      e = IoKind TimedOut /\ Udp.timeout udp_stream <= instant_now (world_with [datagram []]) /\
      ustream st = udp_stream /\ ubuf st = buffer 10 /\
      unread (ustream st) (uworld st) = unread udp_stream (world_with [datagram []])
  | Ret Pending =>
      unread (ustream st) (uworld st) = unread udp_stream (world_with [datagram []]) /\
      ubuf st = buffer 10
  | Throw e => False
  | Panic p =>
      (p = PPutSlice /\ exists d,
       head (unread udp_stream (world_with [datagram []])) = Some d /\ remaining (buffer 10) < len d) \/
      (p = PInstant /\ instant_max World < instant_now (uworld st) + 1000 /\
       ustream st = udp_stream /\ ubuf st = buffer 10)
  end.
Proof.
  apply (udp_reads_in_order WAKER udp_stream (world_with [datagram []]) (buffer 10)).
Defined.

Lemma udp_write_sends_witness :
  exists p w', udp_poll_write dev_build text udp_stream (world_with []) =
      (Udp.rearm 0 udp_stream, w', Ret (Ready (Ok (len (Packet.payload p))))) /\
    datagram_of udp_stream 64 text p /\
    queue (pkt_sender udp_stream) w' = queue (pkt_sender udp_stream) (world_with []) ++ [p].
Proof.
  apply (udp_write_sends dev_build text udp_stream (world_with [])).
  - apply udp_stream_wf.
  - by apply short_timely.
  - reflexivity.
Defined.

(** A packet of protocol 1 (ICMP) to answer, with the given MTU. *)
Definition icmp (src dst : IpAddr) (mtu : Z) : IpStackUnknownTransport (W := World) :=
  mkUnknown src dst text 1 mtu PKT.

Lemma unknown_send_whole_witness :
  let s := icmp (IpV4 1) (IpV4 2) 22 in
  exists w' pkts, send dev_build 6 s text (world_with []) = Some (w', Ret (Ok tt)) /\
    queue (packet_sender s) w' = queue (packet_sender s) (world_with []) ++ pkts /\
    Forall (fun p => exists d, p = reply4 dev_build s 1 2 d /\ ip_total_len p <= 22) pkts /\
    concat (Packet.payload <$> pkts) = text /\ len pkts = Z.max 1 ((len text + room4 s - 1) / room4 s).
Proof.
  apply (unknown_send_whole dev_build (icmp (IpV4 1) (IpV4 2) 22) 1 2 6 text (world_with [])).
  - reflexivity.
  - reflexivity.
  - split; [discriminate|reflexivity].
  - reflexivity.
  - reflexivity.
  - apply Nat.ltb_lt. reflexivity.
Defined.

Lemma unknown_send_v6_truncates_witness :
  let s := icmp (IpV6 1) (IpV6 2) 42 in
  exists w' p, send dev_build 1 s text (world_with []) = Some (w', Ret (Ok tt)) /\
    queue (packet_sender s) w' = queue (packet_sender s) (world_with []) ++ [p] /\
    Packet.payload p = truncate (room6 s) text /\
    exists h, ip p = Ipv6 h /\ ip6_next_header h = IpNumber_UDP.
Proof.
  apply (unknown_send_v6_truncates dev_build (icmp (IpV6 1) (IpV6 2) 42) 1 2 0 text (world_with [])).
  - reflexivity.
  - reflexivity.
  - split; [discriminate|reflexivity].
  - reflexivity.
Defined.

Lemma unknown_send_diverges_witness :
  send dev_build 1000 (icmp (IpV4 1) (IpV4 2) 20) text (world_with []) = None.
Proof.
  apply (unknown_send_diverges dev_build (icmp (IpV4 1) (IpV4 2) 20) 1 2 1000 text (world_with [])).
  - reflexivity.
  - reflexivity.
  - split; discriminate.
  - reflexivity.
  - discriminate.
Defined.
