(* ===== verification/StackTheorems.v ===== *)
(** * Theorems on the stack

    Dispatch of packets to streams, opening and forgetting of sessions, the way
    to the device, and the panics a packet from the device can cause. *)

From S2P Require Import Prelude Errors Etherparse Packet Runtime Tcb Tcp TcpPacket TcpLoop.
From S2P Require Import TcpWrapper Udp Unknown Stream Stack StackSpec StackInv Reference Scenario.

Section stack_theorems.
Context `{EP : Etherparse, EL : !EtherparseLaws} {W : Type} `{RT : !Runtime W NetworkPacket}.
Context `{RO : !RuntimeObs W NetworkPacket, RL : !RuntimeLaws W NetworkPacket}.
Context (b : Build).
Context {D : Type} (write_all : list byte -> D -> D * Result unit IoError).
Implicit Types (p : NetworkPacket) (w : W) (m : SessionCollection (W := W)).

(** A packet of a session whose stream is still there is appended to that
    stream's channel; the session table and every other channel stay as they
    are, and no stream is opened. *)
Theorem live_session_dispatch rnd data p cf pkt m w ch :
  parse data = Ok p -> is_known p -> live m w (network_tuple p) = Some ch ->
  exists w', process_device_read b rnd data cf pkt m w = (m, w', Ret None) /\
    queue ch w' = queue ch w ++ [p] /\ rx_open ch w' = true /\ touches [ch] w w'.
Proof. apply read_live. Qed.

(** A SYN without a live session opens one: the user gets a TCP stream
    between the packet's addresses that expects the number after the SYN's, and
    the table maps the packet's key to the stream's new, empty channel. *)
Theorem syn_opens_session rnd data p h cf pkt m w :
  parse data = Ok p -> transport p = TransTcp h -> tcp_syn h = true ->
  seq_ok b (sequence_number h) -> timely (cfg_tcp_timeout cf) -> live m w (network_tuple p) = None ->
  exists m' w' ch s, process_device_read b rnd data cf pkt m w =
      (m', w', Ret (Some (StreamTcp (mkWrapper (Some s) (Packet.dst_addr p) (Packet.src_addr p) ch)))) /\
    opened p m w m' w' ch /\ session_key s = network_tuple p /\
    Tcp.stream_receiver s = ch /\ Tcp.packet_sender s = pkt /\
    state (tcb s) = SynReceived false /\ ack (tcb s) = wrapping_add U32 (sequence_number h) 1.
Proof.
  intros Hp Ht Hsyn Hok Htm Hl. rewrite <-(session_timeout_tcp cf p h) in Htm by done.
  destruct (read_syn b rnd data p h cf pkt m w) as [Hlt|(m' & w' & ch & s & Hrun & (now & Hs) & Hop)];
    [done..|by destruct (timely_read b rnd data p cf pkt m w Htm)|].
  exists m', w', ch, s. split; [done|]. split; [done|]. subst s.
  unfold session_key, network_tuple, is_tcp. by rewrite Ht.
Qed.

(** C28: A TCP packet that belongs to no session and is no SYN opens none: the
    peer is sent RST|ACK, unless the packet is itself a reset, followed by the
    request to forget the session; the table stays as it is.  The half-built stream
    must not panic: the packet's number is not the last one where arithmetic is
    checked, and the timeout can be added to the time. *)
Theorem stray_packet_reset rnd data p h cf pkt m w :
  parse data = Ok p -> transport p = TransTcp h -> tcp_syn h = false ->
  seq_ok b (sequence_number h) -> timely (cfg_tcp_timeout cf) ->
  rnd ∈u U32 -> cfg_mtu cf ∈u U16 -> rx_open pkt w = true ->
  live m w (network_tuple p) = None ->
  exists w' s l ch, process_device_read b rnd data cf pkt m w = (m, w', Ret None) /\
    session_key s = network_tuple p /\ stray_reply b s (tcp_rst h) l /\
    queue pkt w' = queue pkt w ++ l /\ rx_open pkt w' = true /\
    used ch w = false /\ gone ch w' /\ touches [pkt; ch] w w'.
Proof.
  intros Hp Ht Hsyn Hok Htm Hrnd Hm Ho Hl. rewrite <-(session_timeout_tcp cf p h) in Htm by done.
  destruct (read_stray b rnd data p h cf pkt m w) as [Hlt|(w' & s & l & ch & Hrun & (now & ->) & Hrest)];
    [done..|by destruct (timely_read b rnd data p cf pkt m w Htm)|].
  exists w', (first_stream b rnd now p h pkt ch (cfg_mtu cf) (cfg_tcp_timeout cf)), l, ch.
  split; [done|]. split; [by apply first_stream_key|done].
Qed.

(** A UDP datagram without a live session opens one, in the same way; the
    datagram itself is the first the stream will read. *)
Theorem udp_opens_session rnd data p u cf pkt m w :
  parse data = Ok p -> transport p = TransUdp u -> timely (cfg_udp_timeout cf) ->
  live m w (network_tuple p) = None ->
  exists m' w' ch s, process_device_read b rnd data cf pkt m w = (m', w', Ret (Some (StreamUdp s))) /\
    opened p m w m' w' ch /\ Udp.src_addr s = Packet.src_addr p /\
    Udp.dst_addr s = Packet.dst_addr p /\ Udp.stream_receiver s = ch /\
    unread s w' = [Packet.payload p].
Proof.
  intros Hp Ht Htm Hl. rewrite <-(session_timeout_udp cf p u) in Htm by done.
  destruct (read_udp b rnd data p u cf pkt m w) as [Hlt|(m' & w' & ch & s & Hrun & (dl & ->) & Hop)];
    [done..|by destruct (timely_read b rnd data p cf pkt m w Htm)|].
  do 4 eexists. split; [exact Hrun|]. split; [done|]. do 3 (split; [done|]).
  destruct Hop as (_ & _ & _ & _ & Hq & _). unfold unread. simpl. by rewrite Hq.
Qed.

(** C29: Dropping a TCP stream ends in the removal of exactly its session: the
    drop sends one packet towards the device, and when the stack serves that
    packet, whatever the table and the device, it deletes the stream's key and
    writes nothing. *)
Theorem drop_forgets_session (s : Tcp.IpStackTcpStream (W := W)) w :
  stream_wf s -> rx_open (Tcp.packet_sender s) w = true ->
  Tcp.stream_receiver s <> Tcp.packet_sender s ->
  exists w' p, drop_stream b s w = (w', Ret tt) /\
    queue (Tcp.packet_sender s) w' = queue (Tcp.packet_sender s) w ++ [p] /\
    forall pi m dev, process_upstream_recv b write_all p pi m dev =
      (delete (session_key s) m, dev, Ok tt).
Proof.
  intros Hwf Ho Hne. destruct (drop_stream_ok b s w Hwf Ho Hne) as (w' & p & Hrun & Hq & Ht & Hk & _).
  exists w', p. split; [done|]. split; [done|]. intros pi m dev.
  unfold process_upstream_recv. by rewrite Ht, Hk.
Qed.

(** What the stack writes for a packet is what it would read: the device
    gets the packet's bytes, preceded on unix by four bytes if packet
    information is on, and exactly what is before the packet is what a read
    skips; the session table is not touched. *)
Theorem packet_information_roundtrip (s : Stack (W := W) (D := D)) p bs m dev :
  ttl p <> 0 -> to_bytes p = Ok bs ->
  exists x, process_upstream_recv b write_all p (cfg_packet_information (config s)) m dev =
      (m, (write_all x dev).1, map_err ipstack_error_from_io (write_all x dev).2) /\
    drain_front (offset b s) x = bs /\ len x = offset b s + len bs.
Proof.
  intros Ht Hb. unfold process_upstream_recv, offset. rewrite (proj2 (Z.eqb_neq _ _) Ht), Hb.
  rewrite (andb_comm (cfg_packet_information _)).
  destruct (unix b && cfg_packet_information (config s)).
  - exists (packet_information_header b p ++ bs).
    assert (len (packet_information_header b p) = 4) as Hl.
    { unfold packet_information_header, TUN_PROTO_IP4, TUN_PROTO_IP6. by repeat case_match. }
    split; [by destruct (write_all _ dev)|].
    rewrite drain_front_app, len_app, Hl by lia. split; [|lia].
    by rewrite drain_front_ge by lia.
  - exists bs. split; [by destruct (write_all _ dev)|]. rewrite drain_front_0. split; [done|lia].
Qed.

(** C37: A read from the device panics for three reasons only: it returned fewer
    bytes than the packet information takes; or, where the build checks
    arithmetic, a TCP packet with the last sequence number tries to open a
    session; or a packet tries to open a session whose timeout ends after the last
    instant the platform can represent. *)
Theorem device_read_panic_causes rnd buf (s s' : Stack (W := W) (D := D)) q :
  rnd ∈u U32 -> cfg_mtu (config s) ∈u U16 -> rx_open (pkt_chan s) (sworld s) = true ->
  on_device_read b rnd buf s = (s', Panic q) ->
  (q = PSliceIndex /\ len buf < offset b s) \/
  (q = POverflow /\ overflow_checks b = true /\
   exists p h, parse (drain_front (offset b s) buf) = Ok p /\ transport p = TransTcp h /\
     sequence_number h = U32 - 1 /\ live (sessions s) (sworld s) (network_tuple p) = None) \/
  (q = PInstant /\
   exists p, parse (drain_front (offset b s) buf) = Ok p /\ is_known p /\
     live (sessions s) (sworld s) (network_tuple p) = None /\
     instant_max W < instant_now (sworld s') + session_timeout (config s) p).
Proof.
  intros Hrnd Hm Ho Hrun. unfold on_device_read in Hrun.
  destruct (Z.ltb_spec (len buf) (offset b s)) as [Hlt|_]; [left; by simplify_eq|right].
  destruct (process_device_read _ _ _ _ _ _ _) as [[m' w'] r] eqn:Hp.
  destruct r as [r|[]|q']; [by destruct r; [destruct (accepting s)|]|]. simplify_eq/=.
  by eapply process_panic.
Qed.

(** The first two happen: a read shorter than the packet information, such as the
    end of a file, panics in every such stack; and in a build that checks
    arithmetic so does every TCP packet without a session whose sequence number
    is the last one. *)
Theorem device_read_panics rnd buf (s : Stack (W := W) (D := D)) p h :
  (len buf < offset b s -> on_device_read b rnd buf s = (s, Panic PSliceIndex)) /\
  (offset b s <= len buf -> parse (drain_front (offset b s) buf) = Ok p ->
   transport p = TransTcp h -> overflow_checks b = true -> sequence_number h = U32 - 1 ->
   live (sessions s) (sworld s) (network_tuple p) = None ->
   (on_device_read b rnd buf s).2 = Panic POverflow).
Proof.
  unfold on_device_read. split.
  - intros Hlt. by rewrite (proj2 (Z.ltb_lt _ _) Hlt).
  - intros Hge Hp Ht Hb Hn Hl. rewrite (proj2 (Z.ltb_ge _ _) Hge).
    pose proof (seq_overflow b rnd _ p h (config s) (pkt_chan s) (sessions s) (sworld s) Hp Ht)
      as Hov.
    destruct (process_device_read _ _ _ _ _ _ _) as [[m' w'] r]. simpl in Hov. rewrite Hov; [done| |done].
    unfold seq_ok. rewrite Hb, Hn. intros [?|?]; [done|lia].
Qed.

End stack_theorems.

(** ** A concrete stack *)

(** The device records what is written to it. *)
Definition Tape : Type := list (list byte).
Definition tape_write (bs : list byte) (d : Tape) : Tape * Result unit IoError := (d ++ [bs], Ok tt).
Abbreviation DemoStack := (Stack (W := World) (D := Tape)).

Definition bytes (p : NetworkPacket) : list byte :=
  match to_bytes p with Ok bs => bs | Err _ => [] end.

Definition start : DemoStack := stack_new config_default [] (ref_world 0 []).

(** One round of the loop: a packet from the device, or one from a stream. *)
Definition device_round (p : NetworkPacket) (s : DemoStack) : DemoStack :=
  (on_device_read dev_build 0 (bytes p) s).1.
Definition packet_round (s : DemoStack) : DemoStack :=
  match chan_poll_recv (pkt_chan s) WAKER (sworld s) with
  | (Ready (Some p), w) => (on_packet dev_build tape_write p w s).1
  | _ => s
  end.

Definition key : NetworkTuple := mkNetworkTuple client server true.
Definition syn : NetworkPacket := segment 500 0 SYN 1000 [].
Definition data_ack : NetworkPacket := segment 501 101 ACK 1000 [Byte.x61].

(** The stack after the SYN, and after the first data. *)
Definition opened_stack : DemoStack := device_round syn start.
Definition fed_stack : DemoStack := device_round data_ack opened_stack.

Definition first_accepted (s : DemoStack) : IpStackStream (W := World) :=
  default (StreamUnknownNetwork []) (head (accepted s)).
Definition session_chan (s : DemoStack) : Chan (W := World) (A := NetworkPacket) :=
  default PKT (sessions s !! key).

(** A late request to forget a session removes its successor: a stray
    packet is answered and asks to forget its key; before that request is
    served the same client opens a session with a SYN; serving the request
    removes the new session although its stream is open, so the client's next
    packet is answered with a reset. *)
Theorem late_drop_removes_session :
  let s1 := device_round syn (device_round data_ack start) in
  let s2 := packet_round (packet_round s1) in
  let s3 := device_round data_ack s2 in
  sessions s1 !! key = Some (session_chan s1) /\
  sessions s2 !! key = None /\ rx_open (session_chan s1) (sworld s2) = true /\
  queue (session_chan s1) (sworld s3) = [] /\
  (flags ∘ wrap_tcp_header) <$>
    (p ← head (queue (pkt_chan s3) (sworld s3));
     match transport p with TransTcp h => Some h | _ => None end) = Some (Z.lor RST ACK).
Proof. vm_compute. repeat split. Qed.

Lemma default_head_in {A} (d : A) (l : list A) : length l = 1%nat -> default d (head l) ∈ l.
Proof. destruct l; [done|]. constructor. Qed.

(** The packets as the stack parses them. *)
Definition parsed (p : NetworkPacket) : NetworkPacket :=
  match parse (bytes p) with Ok q => q | Err _ => p end.
Definition header_of (p : NetworkPacket) : TcpHeader :=
  match transport p with TransTcp h => h | _ => tcp_header_new 0 0 0 0 end.

Lemma live_session_dispatch_witness :
  exists w', process_device_read dev_build 0 (bytes data_ack) config_default (pkt_chan opened_stack)
      (sessions opened_stack) (sworld opened_stack) = (sessions opened_stack, w', Ret None) /\
    queue (session_chan opened_stack) w' =
      queue (session_chan opened_stack) (sworld opened_stack) ++ [parsed data_ack] /\
    rx_open (session_chan opened_stack) w' = true /\
    touches [session_chan opened_stack] (sworld opened_stack) w'.
Proof.
  apply (live_session_dispatch dev_build 0 (bytes data_ack) (parsed data_ack) config_default
           (pkt_chan opened_stack) (sessions opened_stack) (sworld opened_stack)
           (session_chan opened_stack)).
  - vm_compute. reflexivity.
  - unfold is_known. vm_compute. discriminate.
  - vm_compute. reflexivity.
Defined.

Lemma syn_opens_session_witness :
  exists m' w' ch s, process_device_read dev_build 0 (bytes syn) config_default (pkt_chan start)
      (sessions start) (sworld start) =
      (m', w', Ret (Some (StreamTcp (mkWrapper (Some s) (Packet.dst_addr (parsed syn))
                                       (Packet.src_addr (parsed syn)) ch)))) /\
    opened (parsed syn) (sessions start) (sworld start) m' w' ch /\
    session_key s = network_tuple (parsed syn) /\
    Tcp.stream_receiver s = ch /\ Tcp.packet_sender s = pkt_chan start /\
    state (tcb s) = SynReceived false /\
    ack (tcb s) = wrapping_add U32 (sequence_number (header_of (parsed syn))) 1.
Proof.
  apply (syn_opens_session dev_build 0 (bytes syn) (parsed syn) (header_of (parsed syn))
           config_default (pkt_chan start) (sessions start) (sworld start)).
  - vm_compute. reflexivity.
  - vm_compute. reflexivity.
  - vm_compute. reflexivity.
  - right. vm_compute. reflexivity.
  - by apply short_timely.
  - vm_compute. reflexivity.
Defined.

Lemma stray_packet_reset_witness :
  exists w' s l ch, process_device_read dev_build 0 (bytes data_ack) config_default (pkt_chan start)
      (sessions start) (sworld start) = (sessions start, w', Ret None) /\
    session_key s = network_tuple (parsed data_ack) /\
    stray_reply dev_build s (tcp_rst (header_of (parsed data_ack))) l /\
    queue (pkt_chan start) w' = queue (pkt_chan start) (sworld start) ++ l /\
    rx_open (pkt_chan start) w' = true /\
    used ch (sworld start) = false /\ gone ch w' /\
    touches [pkt_chan start; ch] (sworld start) w'.
Proof.
  apply (stray_packet_reset dev_build 0 (bytes data_ack) (parsed data_ack)
           (header_of (parsed data_ack)) config_default (pkt_chan start) (sessions start)
           (sworld start)).
  - vm_compute. reflexivity.
  - vm_compute. reflexivity.
  - vm_compute. reflexivity.
  - right. vm_compute. reflexivity.
  - by apply short_timely.
  - split; [discriminate|reflexivity].
  - split; [discriminate|reflexivity].
  - vm_compute. reflexivity.
  - vm_compute. reflexivity.
Defined.

Definition query : NetworkPacket :=
  mkNetworkPacket (Ipv4 (mkIpv4Header 30 true 64 IpNumber_UDP 1 2 tt))
    (TransUdp (mkUdpHeader 1000 53 (10, 0))) [Byte.x61; Byte.x62].

Lemma udp_opens_session_witness :
  exists m' w' ch s, process_device_read dev_build 0 (bytes query) config_default (pkt_chan start)
      (sessions start) (sworld start) = (m', w', Ret (Some (StreamUdp s))) /\
    opened (parsed query) (sessions start) (sworld start) m' w' ch /\
    Udp.src_addr s = Packet.src_addr (parsed query) /\
    Udp.dst_addr s = Packet.dst_addr (parsed query) /\ Udp.stream_receiver s = ch /\
    unread s w' = [Packet.payload (parsed query)].
Proof.
  eapply (udp_opens_session dev_build 0 (bytes query) (parsed query) _
            config_default (pkt_chan start) (sessions start) (sworld start)).
  - vm_compute. reflexivity.
  - vm_compute. reflexivity.
  - by apply short_timely.
  - vm_compute. reflexivity.
Defined.

Lemma drop_forgets_session_witness :
  exists w' p, drop_stream dev_build (stream_with busy_tcb) (world_with []) = (w', Ret tt) /\
    queue PKT w' = queue PKT (world_with []) ++ [p] /\
    forall pi m dev, process_upstream_recv dev_build tape_write p pi m dev =
      (delete key m, dev, Ok tt).
Proof.
  apply (drop_forgets_session dev_build tape_write (stream_with busy_tcb) (world_with [])).
  - split; try done. apply busy_tcb_wf.
  - reflexivity.
  - discriminate.
Defined.

Definition pi_stack : DemoStack :=
  stack_new (config_packet_information true config_default) [] (ref_world 0 []).

Lemma packet_information_roundtrip_witness :
  exists x, process_upstream_recv dev_build tape_write data_ack true (sessions pi_stack) [] =
      (sessions pi_stack, (tape_write x []).1,
       map_err ipstack_error_from_io (tape_write x []).2) /\
    drain_front 4 x = bytes data_ack /\ len x = 4 + len (bytes data_ack).
Proof.
  apply (packet_information_roundtrip dev_build tape_write pi_stack data_ack (bytes data_ack)
           (sessions pi_stack) []).
  - vm_compute. discriminate.
  - vm_compute. reflexivity.
Defined.

Lemma device_read_panic_causes_witness :
  (PSliceIndex = PSliceIndex /\ len (@nil byte) < offset dev_build pi_stack) \/
  (PSliceIndex = POverflow /\ overflow_checks dev_build = true /\
   exists p h, parse (drain_front (offset dev_build pi_stack) []) = Ok p /\
     transport p = TransTcp h /\ sequence_number h = U32 - 1 /\
     live (sessions pi_stack) (sworld pi_stack) (network_tuple p) = None) \/
  (PSliceIndex = PInstant /\
   exists p, parse (drain_front (offset dev_build pi_stack) []) = Ok p /\ is_known p /\
     live (sessions pi_stack) (sworld pi_stack) (network_tuple p) = None /\
     instant_max World < instant_now (sworld pi_stack) + session_timeout (config pi_stack) p).
Proof.
  apply (device_read_panic_causes dev_build 0 [] pi_stack pi_stack PSliceIndex).
  - split; [discriminate|reflexivity].
  - split; [discriminate|reflexivity].
  - vm_compute. reflexivity.
  - reflexivity.
Defined.

Definition last_syn : NetworkPacket := segment (U32 - 1) 0 SYN 1000 [].

Lemma device_read_panics_witness :
  (on_device_read dev_build 0 (bytes last_syn) start).2 = Panic POverflow.
Proof.
  apply (device_read_panics dev_build 0 (bytes last_syn) start (parsed last_syn)
           (header_of (parsed last_syn))).
  - vm_compute. discriminate.
  - vm_compute. reflexivity.
  - vm_compute. reflexivity.
  - reflexivity.
  - vm_compute. reflexivity.
  - vm_compute. reflexivity.
Defined.

(** So does the third: with the longest [Duration] for a timeout, the first SYN. *)
Definition endless_stack : DemoStack :=
  stack_new (config_tcp_timeout (from_secs (U64 - 1)) config_default) [] (ref_world 0 []).

Theorem endless_timeout_panics : (on_device_read dev_build 0 (bytes syn) endless_stack).2 = Panic PInstant.
Proof. vm_compute. reflexivity. Qed.
