(* ===== verification/RunTheorems.v ===== *)
(** * Theorems on the task of the stack

    What ends the loop of [run], what an error of the device does to it, and what
    the users of the stack see when it is gone. *)

From S2P Require Import Prelude Errors Etherparse Packet Runtime Tcb Tcp TcpPacket TcpLoop TcpSafety TcpApi.
From S2P Require Import TcpWrapper Udp Unknown Stream Stack StackSpec StackInv Run.
From S2P Require Import Reference Scenario StackTheorems.

Section run_theorems.
Context `{EP : Etherparse, EL : !EtherparseLaws} {W : Type} `{RT : !Runtime W NetworkPacket}.
Context `{RO : !RuntimeObs W NetworkPacket, RL : !RuntimeLaws W NetworkPacket}.
Context (b : Build).
Context {D : Type} (write_all : list byte -> D -> D * Result unit IoError).
Implicit Types t : Task (W := W) (D := D).

(** C23: The task of the stack ends for two reasons only: a packet opened a stream
    after the [IpStack] was dropped, and then the task's error is [SendError]; or
    the device refused to write a packet that is not a request to forget a
    session, and then it is the device's error. *)
Theorem run_ends_because br t t' e :
  select_round b write_all br t = (t', Throw e) ->
  (exists rnd buf m w st, br = ReadDone rnd (Ok buf) /\ e = SendError /\ accepting (t_stack t) = false /\
     process_device_read b rnd (drain_front (offset b (t_stack t)) buf) (config (t_stack t))
       (pkt_chan (t_stack t)) (sessions (t_stack t)) (sworld (t_stack t)) = (m, w, Ret (Some st))) \/
  (exists p w bs dev io, br = RecvDone (Some p) w /\ e = IpStackIoError io /\ ttl p <> 0 /\
     write_all bs (device (t_stack t)) = (dev, Err io)).
Proof. apply round_fails. Qed.

(** C24: An error of the device's read is not reported and makes the stack deaf: in
    a round in which it happens the device is not read again, so that whatever
    the world does, as long as no stream sends a packet, the task can make no step
    at all. *)
Theorem read_error_deafens rnd io s w' t' :
  queue (pkt_chan s) w' = [] ->
  select_round b write_all (ReadDone rnd (Err io)) (new_round s) = (mkTask s false true, Ret tt) /\
  ~ run_step b write_all (mkTask (with_world w' s) false true) t'.
Proof.
  intros Hq. split; [done|]. intros Hs. inversion Hs as [br t1 t2 Hen Hr Hrun]; subst.
  pose proof (deaf_round b write_all br (mkTask (with_world w' s) false true) eq_refl Hq Hen Hr) as Hp.
  by rewrite Hrun in Hp.
Qed.

(** C25: What users learn when the task is over: [accept] hands out the streams that
    were waiting, in order, and then fails with [AcceptError]; a write to a UDP stream,
    and a write to an established TCP stream that is not blocked, fails with
    [UnexpectedEof]; but a write that is blocked by a full send buffer or a small
    window is pending as before, and one to a stream that is not established reports
    [NotConnected].  Timeouts are such that they can be added to the time. *)
Theorem users_learn_the_end t :
  (forall n, (accept_all n (run_end t)).2 =
     (Ok <$> take n (accepted (t_stack t))) ++
     replicate (n - length (accepted (t_stack t))) (Err AcceptError)) /\
  (forall u buf, udp_wf u -> timely (W := W) (Udp.udp_timeout u) -> Udp.pkt_sender u = pkt_chan (t_stack t) ->
     (udp_poll_write b buf u (sworld (run_end t))).2 = Ret (Ready (Err (IoKind UnexpectedEof)))) /\
  (forall R n k i buf, Tcp.packet_sender i = pkt_chan (t_stack t) ->
     conn_inv R n (mkConn i (sworld (run_end t))) -> state (tcb i) = Established ->
     write_blocked (tcb i) = false ->
     (poll_write (E := Empty_set) b k buf (mkConn i (sworld (run_end t)))).2 =
       Ret (Ready (Err (IoKind UnexpectedEof)))) /\
  (forall k i buf, timely (W := W) (tcp_timeout (tcb i)) -> state (tcb i) = Established ->
     write_blocked (tcb i) = true ->
     (poll_write (E := Empty_set) b k buf (mkConn i (sworld (run_end t)))).2 = Ret Pending) /\
  (forall k i buf, state (tcb i) <> Established ->
     (poll_write (E := Empty_set) b k buf (mkConn i (sworld (run_end t)))).2 =
       Ret (Ready (Err (IoKind NotConnected)))).
Proof.
  split; [intros n; apply (accept_all_spec n (run_end t))|]. split; [|split; [|split]].
  - intros u buf Hwf Htm Hp. apply udp_write_gone; [done|done|]. rewrite Hp. apply run_end_closed.
  - intros R n k i buf Hp Hc Hs Hnb.
    destruct (poll_write_eof (E := Empty_set) b R n k buf (mkConn i (sworld (run_end t))))
      as (c' & Hrun & _); [done..| |by rewrite Hrun].
    unfold tx_open. simpl. rewrite Hp. apply run_end_closed.
  - intros k i buf Htm Hs Hb. by rewrite poll_write_blocked.
  - intros k i buf Hs. by rewrite poll_write_not_connected.
Qed.

End run_theorems.

(** ** The theorems at work *)

(** A device that is full. *)
Definition full_write (bs : list byte) (t : Tape) : Tape * Result unit IoError :=
  (t, Err (IoKind UnexpectedEof)).

Lemma run_ends_because_witness :
  (exists rnd buf m w st,
     RecvDone (Some data_ack) (sworld start) = ReadDone rnd (Ok buf) /\
     IpStackIoError (IoKind UnexpectedEof) = SendError /\ accepting start = false /\
     process_device_read dev_build rnd (drain_front (offset dev_build start) buf) (config start)
       (pkt_chan start) (sessions start) (sworld start) = (m, w, Ret (Some st))) \/
  (exists p w bs dev io, RecvDone (Some data_ack) (sworld start) = RecvDone (Some p) w /\
     IpStackIoError (IoKind UnexpectedEof) = IpStackIoError io /\ ttl p <> 0 /\
     full_write bs (device start) = (dev, Err io)).
Proof.
  apply (run_ends_because dev_build full_write (RecvDone (Some data_ack) (sworld start)) (new_round start)
           (select_round dev_build full_write (RecvDone (Some data_ack) (sworld start)) (new_round start)).1).
  assert ((select_round dev_build full_write (RecvDone (Some data_ack) (sworld start)) (new_round start)).2 =
    Throw (IpStackIoError (IoKind UnexpectedEof))) as He by (vm_compute; reflexivity).
  rewrite <-He. apply surjective_pairing.
Defined.

Lemma read_error_deafens_witness :
  select_round dev_build tape_write (ReadDone 0 (Err (IoKind UnexpectedEof))) (new_round start) =
    (mkTask start false true, Ret tt) /\
  ~ run_step dev_build tape_write (mkTask (with_world (sworld start) start) false true) (new_round start).
Proof. apply read_error_deafens. vm_compute. reflexivity. Defined.

(** The task is over; a UDP stream and a connection with data in flight are left. *)
Definition over : Task (W := World) (D := Tape) := new_round (with_world (world_with []) start).
Definition orphan : IpStackUdpStream (W := World) :=
  mkUdpStream client server RX RX PKT None 1000 1000 1500.

Lemma orphan_inv : conn_inv PEER 5 (mkConn (stream_with busy_tcb) (sworld (run_end over))).
Proof.
  destruct (busy_inv PEER [] 5) as [Hb Hl]; [constructor|simpl; lia|]. split; [|exact Hl].
  eapply conn_base_ext; [..|exact Hb]; [reflexivity|vm_compute; reflexivity|apply Hb].
Qed.

Lemma users_learn_the_end_witness :
  (accept_all 2 (run_end over)).2 = [Err AcceptError; Err AcceptError] /\
  (udp_poll_write dev_build [Byte.x61] orphan (sworld (run_end over))).2 =
    Ret (Ready (Err (IoKind UnexpectedEof))) /\
  (poll_write (E := Empty_set) dev_build WAKER [Byte.x61]
     (mkConn (stream_with busy_tcb) (sworld (run_end over)))).2 = Ret (Ready (Err (IoKind UnexpectedEof))).
Proof.
  destruct (users_learn_the_end dev_build over) as (Ha & Hu & Ht & _). split; [apply (Ha 2%nat)|]. split.
  - apply Hu; [split; try done; simpl; lia|by apply short_timely|vm_compute; reflexivity].
  - eapply Ht; [vm_compute; reflexivity|apply orphan_inv|reflexivity|vm_compute; reflexivity].
Defined.
