(* ===== verification/ExchangeTheorems.v ===== *)
(** * Exchanges from the device and back

    A packet comes in through the device, the stack opens a session, the user
    accepts the stream, reads and answers, and the answer goes out: the pieces of
    the system composed along one exchange. *)

From S2P Require Import Prelude Errors Etherparse Packet Runtime Tcb TcbSpec Tcp TcpPacket TcpLoop.
From S2P Require Import TcpFoot TcpSafety TcpApi TcpTrace TcpOpen TcpWrapper Udp Unknown Stream Stack StackSpec StackInv.
From S2P Require Import Reference Scenario StackTheorems.

Section exchange.
Context `{EP : Etherparse, EL : !EtherparseLaws} {W : Type} `{RT : !Runtime W NetworkPacket}.
Context `{RO : !RuntimeObs W NetworkPacket, RL : !RuntimeLaws W NetworkPacket}.
Context (b : Build).
Context {D : Type} (write_all : list byte -> D -> D * Result unit IoError).
Implicit Types (s : Stack (W := W) (D := D)) (w : W).

(** A stack whose user waits for a stream, and to which a packet without a session
    comes; the timeout of the new session can be added to the time. *)
Record waits_for s (buf : list byte) (p : NetworkPacket) : Prop := {
  wf_parse : parse (drain_front (offset b s) buf) = Ok p;
  wf_room : offset b s <= len buf;
  wf_new : live (sessions s) (sworld s) (network_tuple p) = None;
  wf_accepting : accepting s = true;
  wf_accepted : accepted s = [];
  wf_open : rx_open (pkt_chan s) (sworld s) = true;
  wf_mtu : cfg_mtu (config s) ∈u U16;
  wf_timely : timely (W := W) (session_timeout (config s) p);
}.

(** What the device returned is handled, and the user accepts the stream. *)
Lemma accept_new rnd buf p s m' w' st :
  waits_for s buf p ->
  process_device_read b rnd (drain_front (offset b s) buf) (config s) (pkt_chan s) (sessions s) (sworld s) =
    (m', w', Ret (Some st)) ->
  exists s1 s2, on_device_read b rnd buf s = (s1, Ret tt) /\ accept true s1 = (s2, Ready (Ok st)) /\
    sessions s2 = m' /\ sworld s2 = w' /\ pkt_chan s2 = pkt_chan s /\ config s2 = config s /\
    accepted s2 = [].
Proof.
  intros [Hp Hr Hl Ha Hac Ho Hm _] Hrun. unfold on_device_read.
  rewrite (proj2 (Z.ltb_ge _ _)) by done. rewrite Hrun, Ha, Hac. do 2 eexists. split; [done|].
  split; [done|]. done.
Qed.

(** C11: A UDP exchange from the device and back: a datagram that belongs to no
    session opens one; the user accepts a stream, reads from it exactly the
    datagram's data, and writes an answer; the answer is on its way to the device
    in one datagram from the address the first one was sent to, to the address it
    came from; it carries what the write reports, the beginning of what was
    written (all of it, if the MTU has room). *)
Theorem udp_exchange rnd buf p u s k rb bs :
  waits_for s buf p -> transport p = TransUdp u -> len (Packet.payload p) <= remaining rb ->
  exists s1 s2 st us u' w' d,
    on_device_read b rnd buf s = (s1, Ret tt) /\
    accept true s1 = (s2, Ready (Ok (StreamUdp st))) /\
    sessions s2 !! network_tuple p = Some (Udp.stream_receiver st) /\
    udp_poll_read k (mkUdpSt st (sworld s2) rb) = (us, Ret (Ready (Ok tt))) /\
    filled (ubuf us) = filled rb ++ Packet.payload p /\
    udp_poll_write b bs (ustream us) (uworld us) = (u', w', Ret (Ready (Ok (len (Packet.payload d))))) /\
    queue (pkt_chan s) w' = queue (pkt_chan s) (sworld s) ++ [d] /\
    Packet.src_addr d = Packet.dst_addr p /\ Packet.dst_addr d = Packet.src_addr p /\
    Packet.payload d `prefix_of` bs /\
    (udp_headers_len st + len bs <= cfg_mtu (config s) -> Packet.payload d = bs).
Proof.
  intros Hw Ht Hroom. pose proof Hw as [Hp _ Hl _ _ Ho Hm Htm].
  destruct (read_udp b rnd (drain_front (offset b s) buf) p u (config s) (pkt_chan s) (sessions s) (sworld s))
    as [Hlt|(m' & w1 & ch & st & Hrun & (dl & ->) & Hop)]; [done..|by eapply timely_read in Htm|].
  destruct (accept_new rnd buf p s _ _ _ Hw Hrun) as (s1 & s2 & H1 & H2 & <- & <- & Hpk & Hcf & _).
  set (st := mkUdpStream _ _ _ _ _ _ _ _ _) in *.
  destruct Hop as (Hm' & Hu & Hu' & _ & _ & Ht' & _).
  assert (ch <> pkt_chan s) as Hne by (intros ->; apply chan_open_used in Ho; congruence).
  destruct (Ht' (pkt_chan s)) as [Hq Hop]; [by rewrite list_elem_of_singleton|].
  destruct (put_slice_fits _ _ Hroom) as (rb' & Hput & Hfill & _).
  set (st1 := Udp.set_first_payload None st).
  assert (udp_wf st1) as Hwf by (split; simpl; auto using packet_family, packet_plain_src, packet_plain_dst).
  destruct (udp_poll_write_spec b bs st1 (sworld s2) Hwf) as (d & w' & Hwr & Hd & Hqd);
    [by rewrite (session_timeout_udp (config s) p u) in Htm|simpl; congruence|].
  exists s1, s2, st, (mkUdpSt st1 (sworld s2) rb'), (Udp.rearm (instant_now (sworld s2)) st1), w', d.
  split; [done|]. split; [done|]. split; [rewrite Hm'; unfold SessionCollection; apply lookup_insert_eq|].
  split; [unfold udp_poll_read, put_ready; simpl; by rewrite Hput|]. split; [done|]. split; [done|].
  destruct Hd as [Hpl _ Hsrc Hdst _ _ _]. simpl in Hqd, Hsrc, Hdst. rewrite Hqd, Hq.
  split; [done|]. split; [done|]. split; [done|].
  change (udp_max_payload st1) with (udp_max_payload st) in Hpl. split; [rewrite Hpl; apply prefix_take|].
  intros Hfit. rewrite Hpl. unfold truncate. apply take_ge. unfold udp_max_payload, saturating_sub, len in *.
  simpl. lia.
Qed.



End exchange.

Lemma udp_exchange_witness :
  exists s1 s2 st us u' w' d,
    on_device_read dev_build 0 (bytes query) start = (s1, Ret tt) /\
    accept true s1 = (s2, Ready (Ok (StreamUdp st))) /\
    sessions s2 !! network_tuple (parsed query) = Some (Udp.stream_receiver st) /\
    udp_poll_read WAKER (mkUdpSt st (sworld s2) (buffer 100)) = (us, Ret (Ready (Ok tt))) /\
    filled (ubuf us) = filled (buffer 100) ++ Packet.payload (parsed query) /\
    udp_poll_write dev_build [Byte.x7a] (ustream us) (uworld us) =
      (u', w', Ret (Ready (Ok (len (Packet.payload d))))) /\
    queue (pkt_chan start) w' = queue (pkt_chan start) (sworld start) ++ [d] /\
    Packet.src_addr d = Packet.dst_addr (parsed query) /\
    Packet.dst_addr d = Packet.src_addr (parsed query) /\
    Packet.payload d `prefix_of` [Byte.x7a] /\
    (udp_headers_len st + len [Byte.x7a] <= cfg_mtu (config start) -> Packet.payload d = [Byte.x7a]).
Proof.
  eapply (udp_exchange dev_build 0 (bytes query) (parsed query) _ start WAKER (buffer 100) [Byte.x7a]).
  - split; [vm_compute; reflexivity|vm_compute; discriminate|vm_compute; reflexivity|reflexivity|reflexivity
           |vm_compute; reflexivity|split; [discriminate|reflexivity]|by apply short_timely].
  - vm_compute. reflexivity.
  - vm_compute. discriminate.
Defined.



