(* ===== verification/SystemTheorems.v ===== *)
(** * Theorems on the whole system

    The stack with its streams and background tasks: dispatch, and what reaches
    the device, in every run. *)

From S2P Require Import Prelude Errors Etherparse Packet Runtime Tcb TcbSpec Tcp TcpPacket TcpLoop.
From S2P Require Import TcpFoot TcpWrapper Udp Unknown Stream Stack StackSpec StackInv System SystemOrder TcpSend SystemSend.
From S2P Require Import Reference Scenario StackTheorems.

Section system_theorems.
Context `{EP : Etherparse, EL : !EtherparseLaws} {W : Type} `{RT : !Runtime W NetworkPacket}.
Context `{RO : !RuntimeObs W NetworkPacket, RL : !RuntimeLaws W NetworkPacket}.
Context (b : Build).
Context {D : Type} (write_all : list byte -> D -> D * Result unit IoError).

(** C9: Packets never reach the wrong stream: in every run of the stack with its
    streams, their users and the tasks of dropped streams, from its start on and
    in whatever order they act, every packet that waits in the channel of a
    stream, held by the user or still to be accepted, belongs to that stream's
    session. *)
Theorem dispatch_sound cf dev (w : W) (S : System (W := W) (D := D)) st ch K p :
  cfg_mtu cf ∈u U16 -> (forall d, queue d w = []) ->
  rtc (sys_step b write_all) (boot cf dev w) S ->
  st ∈ held S ++ accepted (stack S) -> stream_channel st = Some (ch, K) ->
  p ∈ queue ch (sworld (stack S)) -> network_tuple p = K.
Proof.
  intros Hm Hw Hr Hin Hst Hp. set (owner0 := fun _ : Chan => network_tuple p).
  destruct (system_inv b write_all owner0 _ _ Hr) as (_ & o & Hinv); [by apply boot_inv|].
  assert (ch <> pkt_chan (stack S) /\ o ch = K) as [Hne <-].
  { apply elem_of_app in Hin as [Hin|Hin]; [by eapply (sy_owned _ _ Hinv)|].
    by eapply (si_accepted _ _ (sy_stack _ _ Hinv)). }
  by apply (si_queues _ _ (sy_stack _ _ Hinv)).
Qed.

(** C14: The MTU is respected: in every run of the system, no packet on its way
    to the device, whichever stream or task sent it, prints to more bytes than
    the configured MTU (or than the 60 bytes of the longest headers, where the
    MTU is smaller than that). *)
Theorem mtu_respected cf dev (w : W) (S : System (W := W) (D := D)) p bs :
  cfg_mtu cf ∈u U16 -> (forall d, queue d w = []) ->
  rtc (sys_step b write_all) (boot cf dev w) S ->
  p ∈ queue (pkt_chan (stack S)) (sworld (stack S)) -> to_bytes p = Ok bs ->
  len bs <= Z.max 60 (cfg_mtu cf).
Proof.
  intros Hm Hw Hr Hin Hbs. by apply (system_sent b write_all cf dev w S p).
Qed.

(** C4: In-order delivery end to end: in every run of the system in which the
    packets of session [K] that the device returns carry pieces of one stream [bs]
    of the peer, whose numbers do not wrap, and none of them is a FIN|ACK, in any
    order and with any losses, repetitions, resets and packets of other sessions
    between them, what the user has read from a stream of the
    session is at every moment the beginning of [bs]; so no byte is lost in the
    middle, repeated or taken from elsewhere. *)
Theorem system_in_order cf dev (w : W) (S : System (W := W) (D := D)) tr K irs bs ch :
  cfg_mtu cf ∈u U16 -> (forall d, queue d w = []) ->
  0 <= irs -> irs + len bs < U32 ->
  sys_trace b write_all tr (boot cf dev w) S ->
  (forall buf, Input buf ∈ tr -> peer_input K irs bs (offset b (stack_new cf dev w)) buf) ->
  bytes_read (ch, K) tr `prefix_of` bs.
Proof.
  intros Hm Hw Hirs Hfit Htr Hin.
  destruct (trace_ordered b write_all K irs bs Hirs Hfit tr (boot cf dev w) S (fun _ => K) (fun _ => []))
    as (_ & _ & Ho); [done|by apply boot_inv|by apply boot_ordered|done|].
  apply (os_prefix _ _ _ _ _ Ho ch).
Qed.

(** C5: Nothing but what the user wrote is sent: in every run of the system there
    is a first number for each stream such that every TCP packet with data that is
    on its way to the device or was taken for it (sent by a write, by a
    retransmission while reading, or by the task of a dropped stream) carries at
    its sequence number, modulo 2{^32}, the bytes that writes to a stream of its
    session have accepted at that place. *)
Theorem system_sends_written cf dev (w : W) (S : System (W := W) (D := D)) tr :
  cfg_mtu cf ∈u U16 -> (forall d, queue d w = []) -> sys_trace b write_all tr (boot cf dev w) S ->
  exists iss : Chan (W := W) (A := NetworkPacket) -> Z, forall p h,
    Output p ∈ tr \/ p ∈ queue (pkt_chan (stack S)) (sworld (stack S)) ->
    transport p = TransTcp h -> Packet.payload p <> [] ->
    exists ch, wpiece (iss ch) (bytes_written (ch, reverse_network_tuple p) tr)
                 (sequence_number h) (Packet.payload p).
Proof.
  intros Hm Hw Htr. destruct (trace_sends b write_all cf dev w tr S Hm Hw Htr) as (o & iss & _ & Hse & Hout).
  exists iss. intros p h [Hp|Hp] Ht Hne; [by apply (Hout p Hp h)|].
  pose proof (ss_queue _ _ _ _ _ Hse) as Hq. rewrite Forall_forall in Hq. by apply (Hq p Hp h).
Qed.

End system_theorems.

(** ** A concrete run *)

Abbreviation DemoSystem := (System (W := World) (D := Tape)).

Definition after_device (p : NetworkPacket) (S : DemoSystem) : DemoSystem :=
  mkSystem (device_round p (stack S)) (held S) (tasks S).
Definition after_accept (S : DemoSystem) : DemoSystem :=
  match accept true (stack S) with
  | (s, Ready (Ok x)) => mkSystem s (held S ++ [x]) (tasks S)
  | _ => S
  end.
(** The user polls the first stream for reading. *)
Definition after_poll (S : DemoSystem) : DemoSystem :=
  match held S with
  | StreamTcp t :: h =>
      match wrapper_poll_read dev_build 20 WAKER t (sworld (stack S)) (buffer 100) with
      | Some (t', w', _, Ret _) => mkSystem (with_world w' (stack S)) (StreamTcp t' :: h) (tasks S)
      | _ => S
      end
  | _ => S
  end.

(** What the poll hands over. *)
Definition poll_event (S : DemoSystem) : event (W := World) :=
  match held S with
  | StreamTcp t :: h =>
      match wrapper_poll_read dev_build 20 WAKER t (sworld (stack S)) (buffer 100) with
      | Some (_, _, rb, Ret r) => Called (stream_channel (StreamTcp t)) (got (buffer 100) rb (Ret r : exec Empty_set PollUnit))
      | _ => Silent
      end
  | _ => Silent
  end.

Definition sys0 : DemoSystem := boot config_default [] (ref_world 0 []).
Definition sys1 : DemoSystem := after_device syn sys0.
Definition sys2 : DemoSystem := after_accept sys1.
Definition sys3 : DemoSystem := after_poll sys2.
Definition sys4 : DemoSystem := after_device data_ack sys3.

Lemma device_event p (S : DemoSystem) :
  (match (on_device_read dev_build 0 (bytes p) (stack S)).2 with Ret _ => true | _ => false end) = true ->
  sys_event dev_build tape_write (Input (bytes p)) S (after_device p S).
Proof.
  intros Hr. destruct S as [s h ts]. apply (sys_device _ _ 0 (bytes p)); [lia|].
  unfold device_round. simpl in *. by destruct (on_device_read _ _ _ _) as [s' [[]|e|q]].
Qed.

Lemma accept_event (S : DemoSystem) :
  (0 < length (accepted (stack S)))%nat -> sys_event dev_build tape_write Silent S (after_accept S).
Proof.
  intros Hr. destruct S as [s h ts]. unfold after_accept, accept; simpl in *.
  destruct (accepted s) as [|x l] eqn:Ha; [simpl in Hr; lia|].
  apply (sys_accept _ _ x). unfold accept. by rewrite Ha.
Qed.

Definition poll_returns (S : DemoSystem) : bool :=
  match held S with
  | StreamTcp t :: h =>
      match wrapper_poll_read dev_build 20 WAKER t (sworld (stack S)) (buffer 100) with
      | Some (_, _, _, Ret _) => true
      | _ => false
      end
  | _ => false
  end.

Lemma polled_event (S : DemoSystem) :
  poll_returns S = true -> sys_event dev_build tape_write (poll_event S) S (after_poll S).
Proof.
  intros Hr. destruct S as [s [|[t|u|u|bs] h] ts]; try done. unfold after_poll, poll_event, poll_returns in *.
  cbn [held stack tasks] in *.
  destruct (wrapper_poll_read _ _ _ _ _ _) as [[[[t' w'] rb'] [r|e|q]]|] eqn:Hp; try done.
  apply (sys_call _ _ 0 _ (StreamTcp t) (StreamTcp t')); [done|].
  by apply (call_tcp_read dev_build 20 WAKER (buffer 100) t (sworld s) t' w' rb' (Ret r)).
Qed.

Lemma demo_run : rtc (sys_step dev_build tape_write) sys0 sys4.
Proof.
  eapply rtc_l; [eapply event_step, (device_event syn)|eapply rtc_l; [eapply event_step, accept_event|
    eapply rtc_l; [eapply event_step, polled_event|apply rtc_once; eapply event_step, (device_event data_ack)]]].
  - vm_compute. reflexivity.
  - vm_compute. lia.
  - vm_compute. reflexivity.
  - vm_compute. reflexivity.
Qed.

(** The client completes the handshake and sends three bytes, the first of them
    last; the user reads. *)
Definition part1 : NetworkPacket := segment 501 101 (Z.lor PSH ACK) 1000 [Byte.x61].
Definition part2 : NetworkPacket := segment 502 101 ACK 1000 [Byte.x62; Byte.x63].

Definition sys5 : DemoSystem := after_device (segment 501 101 ACK 1000 []) sys3.
Definition sys6 : DemoSystem := after_device part2 sys5.
Definition sys7 : DemoSystem := after_device part1 sys6.
Definition sys8 : DemoSystem := after_poll sys7.

Definition demo_stream : IpStackStream (W := World) :=
  default (StreamUnknownNetwork []) (head (held sys4)).

Lemma dispatch_sound_witness :
  stream_channel demo_stream = Some (session_chan (stack sys4), key) /\
  exists p, p ∈ queue (session_chan (stack sys4)) (sworld (stack sys4)) /\ network_tuple p = key.
Proof.
  split; [vm_compute; reflexivity|].
  set (p := default syn (head (queue (session_chan (stack sys4)) (sworld (stack sys4))))).
  assert (p ∈ queue (session_chan (stack sys4)) (sworld (stack sys4))) as Hp
    by (vm_compute; constructor).
  exists p. split; [exact Hp|].
  apply (dispatch_sound dev_build tape_write config_default [] (ref_world 0 []) sys4
            demo_stream (session_chan (stack sys4)) key p).
  - split; [discriminate|reflexivity].
  - reflexivity.
  - exact demo_run.
  - apply elem_of_app. left. apply default_head_in. vm_compute. reflexivity.
  - vm_compute. reflexivity.
  - exact Hp.
Defined.

Lemma mtu_respected_witness :
  exists p, p ∈ queue (pkt_chan (stack sys4)) (sworld (stack sys4)) /\ len (bytes p) <= 65535.
Proof.
  set (p := default syn (head (queue (pkt_chan (stack sys4)) (sworld (stack sys4))))).
  assert (p ∈ queue (pkt_chan (stack sys4)) (sworld (stack sys4))) as Hp by (vm_compute; constructor).
  exists p. split; [exact Hp|].
  apply (mtu_respected dev_build tape_write config_default [] (ref_world 0 []) sys4 p (bytes p)).
  - split; [discriminate|reflexivity].
  - reflexivity.
  - exact demo_run.
  - exact Hp.
  - vm_compute. reflexivity.
Defined.

Definition sys9 : DemoSystem := after_poll sys8.

Definition read_trace : list (event (W := World)) :=
  [] ++ [Input (bytes syn)] ++ [Silent] ++ [poll_event sys2] ++
  [Input (bytes (segment 501 101 ACK 1000 []))] ++ [Input (bytes part2)] ++ [Input (bytes part1)] ++
  [poll_event sys7] ++ [poll_event sys8].

Lemma read_run : sys_trace dev_build tape_write read_trace sys0 sys9.
Proof.
  unfold read_trace. rewrite !app_assoc. apply trace_snoc with sys8; [apply trace_snoc with sys7; [
    apply trace_snoc with sys6; [apply trace_snoc with sys5; [apply trace_snoc with sys3; [
    apply trace_snoc with sys2; [apply trace_snoc with sys1; [apply trace_snoc with sys0; [apply trace_nil|]|]
    |]|]|]|]|]|].
  - apply device_event. vm_compute. reflexivity.
  - apply accept_event. vm_compute. lia.
  - apply polled_event. vm_compute. reflexivity.
  - apply device_event. vm_compute. reflexivity.
  - apply device_event. vm_compute. reflexivity.
  - apply device_event. vm_compute. reflexivity.
  - apply polled_event. vm_compute. reflexivity.
  - apply polled_event. vm_compute. reflexivity.
Qed.

Definition abc : list byte := [Byte.x61; Byte.x62; Byte.x63].

(** Bytes that parse to a packet of the client with a piece of the stream. *)
Lemma demo_input x h :
  parse (drain_front 0 (bytes x)) = Ok (parsed x) -> transport (parsed x) = TransTcp h ->
  (tcp_syn h = true -> sequence_number h + 1 = 501) -> flags (wrap_tcp_header h) <> Z.lor FIN ACK ->
  (flags (wrap_tcp_header h) = ACK \/ flags (wrap_tcp_header h) = Z.lor PSH ACK ->
   piece 501 abc (sequence_number h) (Packet.payload (parsed x))) ->
  peer_input key 501 abc 0 (bytes x).
Proof.
  intros Hp Ht Hs Hf Hpc p. rewrite Hp. intros [= <-] _. split; intros h'; rewrite Ht; by intros [= <-].
Qed.

Lemma read_inputs buf :
  Input buf ∈ read_trace ->
  buf = bytes syn \/ buf = bytes (segment 501 101 ACK 1000 []) \/ buf = bytes part2 \/ buf = bytes part1.
Proof.
  assert (forall S, Input buf <> poll_event S) as Hpoll
    by (intros [s [|[t|u|u|bs] h] ts]; unfold poll_event; repeat case_match; done).
  unfold read_trace. rewrite app_nil_l, !elem_of_app, !list_elem_of_singleton.
  intros [[= ->]|[Hx|[Hx%Hpoll|[[= ->]|[[= ->]|[[= ->]|[Hx%Hpoll|Hx%Hpoll]]]]]]]; auto; done.
Qed.

Lemma system_in_order_witness :
  bytes_read (RX, key) read_trace = abc /\ bytes_read (RX, key) read_trace `prefix_of` abc.
Proof.
  split; [vm_compute; reflexivity|].
  apply (system_in_order dev_build tape_write config_default [] (ref_world 0 []) sys9 read_trace
           key 501 abc RX).
  - split; [discriminate|reflexivity].
  - reflexivity.
  - discriminate.
  - reflexivity.
  - exact read_run.
  - intros buf Hin. change (offset dev_build _) with 0.
    destruct (read_inputs buf Hin) as [->|[->|[->| ->]]].
    + eapply demo_input; [vm_compute; reflexivity|vm_compute; reflexivity|done|done|].
      intros [Hf|Hf]; vm_compute in Hf; discriminate.
    + eapply demo_input; [vm_compute; reflexivity|vm_compute; reflexivity|done|done|].
      intros _. split; [done|apply prefix_nil].
    + eapply demo_input; [vm_compute; reflexivity|vm_compute; reflexivity|done|done|].
      intros _. split; [done|]. by exists [].
    + eapply demo_input; [vm_compute; reflexivity|vm_compute; reflexivity|done|done|].
      intros _. split; [done|]. by exists [Byte.x62; Byte.x63].
Defined.

(** ** A run that writes *)

Definition after_write (bs : list byte) (S : DemoSystem) : DemoSystem :=
  match held S with
  | StreamTcp t :: h =>
      let '(t', w', _) := wrapper_poll_write dev_build WAKER bs t (sworld (stack S)) in
      mkSystem (with_world w' (stack S)) (StreamTcp t' :: h) (tasks S)
  | _ => S
  end.
Definition write_event (bs : list byte) (S : DemoSystem) : event (W := World) :=
  match held S with
  | StreamTcp t :: h =>
      match wrapper_poll_write dev_build WAKER bs t (sworld (stack S)) with
      | (_, _, Ret r) => Called (stream_channel (StreamTcp t)) (wrote bs (Ret r : exec Empty_set PollSize))
      | _ => Silent
      end
  | _ => Silent
  end.

Lemma written_event bs (S : DemoSystem) :
  (match write_event bs S with Called _ _ => true | _ => false end) = true ->
  sys_event dev_build tape_write (write_event bs S) S (after_write bs S).
Proof.
  intros Hr. destruct S as [s [|[t|u|u|x] h] ts]; try done. unfold after_write, write_event in *.
  cbn [held stack tasks] in *. destruct (wrapper_poll_write _ _ _ _ _) as [[t' w'] [r|[]|q]] eqn:Hp; try done.
  apply (sys_call _ _ 0 _ (StreamTcp t) (StreamTcp t')); [done|].
  by apply (call_tcp_write dev_build WAKER bs t (sworld s) t' w' (Ret r)).
Qed.

Definition sys10 : DemoSystem := after_write abc sys9.
Definition write_trace : list (event (W := World)) := read_trace ++ [write_event abc sys9].

Lemma write_run : sys_trace dev_build tape_write write_trace sys0 sys10.
Proof.
  eapply trace_snoc; [exact read_run|]. apply written_event. vm_compute. reflexivity.
Qed.

Lemma system_sends_written_witness :
  exists iss p h, p ∈ queue (pkt_chan (stack sys10)) (sworld (stack sys10)) /\
    transport p = TransTcp h /\ Packet.payload p = abc /\
    exists ch, wpiece (iss ch) (bytes_written (ch, reverse_network_tuple p) write_trace)
                 (sequence_number h) (Packet.payload p).
Proof.
  destruct (system_sends_written dev_build tape_write config_default [] (ref_world 0 []) sys10 write_trace)
    as [iss Hiss].
  - split; [discriminate|reflexivity].
  - reflexivity.
  - exact write_run.
  - set (p := default syn (last (queue (pkt_chan (stack sys10)) (sworld (stack sys10))))).
    assert (p ∈ queue (pkt_chan (stack sys10)) (sworld (stack sys10))) as Hp
      by (vm_compute; repeat constructor).
    exists iss, p, (header_of p). split; [exact Hp|].
    assert (transport p = TransTcp (header_of p)) as Ht by (vm_compute; reflexivity).
    assert (Packet.payload p = abc) as Hpl by (vm_compute; reflexivity).
    split; [exact Ht|]. split; [exact Hpl|].
    apply Hiss; [by right|exact Ht|rewrite Hpl; discriminate].
Defined.
