(* ===== verification/SurvivalTheorems.v ===== *)
(** * The whole system survives its peers

    The safety of one connection, carried through the stack: in every run, what a
    user or a background task does next with a TCP stream returns. *)

From S2P Require Import Prelude Errors Etherparse Packet Runtime Tcb TcbSpec Tcp TcpPacket TcpLoop.
From S2P Require Import TcpFoot TcpSafety TcpSend TcpApi TcpTrace TcpWrapper Udp Unknown Stream Stack StackSpec.
From S2P Require Import StackInv System SystemSend SystemSafe Reference Scenario StackTheorems SystemTheorems.

Section survival.
Context `{EP : Etherparse, EL : !EtherparseLaws} {W : Type} `{RT : !Runtime W NetworkPacket}.
Context `{RO : !RuntimeObs W NetworkPacket, RL : !RuntimeLaws W NetworkPacket}.
Context (b : Build) (L : Z).
Implicit Types (t : TcpStreamWrapper (W := W)) (w : W).

(** Whatever is called on the stream returns, without a panic, if a buffer that
    is read into has room for the longest payload. *)
Record calls_return t w : Prop := {
  cr_read : forall k rb, L <= remaining rb ->
    exists n t' w' rb' r, wrapper_poll_read b n k t w rb = Some (t', w', rb', Ret r);
  cr_write : forall k buf, exists t' w' r, wrapper_poll_write b k buf t w = (t', w', Ret r);
  cr_flush : exists t' w' r, wrapper_poll_flush b t w = (t', w', Ret r);
  cr_shutdown : forall k, exists n t' w' r, wrapper_poll_shutdown b n k t w = Some (t', w', Ret r);
}.

Lemma inv_calls_return u n t i w :
  TcpWrapper.inner t = Some i -> conn_inv (mkPeer L u) n (mkConn i w) ->
  (forall buf, write_ok buf (mkConn i w)) -> calls_return t w.
Proof.
  intros Hi Hc Hok. set (R := mkPeer L u) in *.
  assert (length (rxq (mkConn i w)) + rank (conn_state (mkConn i w)) < read_fuel (mkConn i w))%nat as Hf
    by (unfold read_fuel; lia).
  split.
  - intros k rb Hrb. unfold wrapper_poll_read. rewrite Hi.
    destruct (poll_read_safe b R n k (mkReadSt (mkConn i w) rb) (read_fuel (mkConn i w)))
      as (s' & r & Hrun & _); [by split; [|intros _]|done|].
    do 5 eexists. rewrite Hrun. reflexivity.
  - intros k buf. unfold wrapper_poll_write. rewrite Hi.
    destruct (poll_write_safe b R (E := Empty_set) n k buf (mkConn i w)) as (c' & r & -> & _); [done..|]. eauto.
  - unfold wrapper_poll_flush. rewrite Hi. pose proof (safe_poll_flush b R (E := Empty_set) n _ Hc) as Hw.
    unfold wp in Hw. destruct (poll_flush b _) as [c' [r|[]|q]]; destruct Hw; [eauto|done].
  - intros k. destruct (poll_shutdown_safe b R n (read_fuel (mkConn i w)) k (mkConn i w))
      as (c' & r & Hrun & _); [done..|].
    exists (read_fuel (mkConn i w)). unfold wrapper_poll_shutdown. rewrite Hi, Hrun. eauto.
Qed.

Context {D : Type} (write_all : list byte -> D -> D * Result unit IoError).

(** C3: No packet from the device makes a call on a TCP stream panic or hang: in
    every run of the system, of any length below 2{^47} - 1, with a TCP timeout that
    can be added to the time, each TCP stream has a first
    number, which its sequence number shows, such that whatever the user does next
    with the stream, and whatever its background task does next once it is dropped,
    returns; if only, so far, the packets of its session were no longer than the
    buffers and none acknowledged the number before the first one, and the bytes
    written to it stay away from the wrap-around by one packet. *)
Theorem system_survives cf dev (w : W) (S : System (W := W) (D := D)) tr :
  cfg_mtu cf ∈u U16 -> timely (W := W) (cfg_tcp_timeout cf) -> (forall d, queue d w = []) -> sys_trace b write_all tr (boot cf dev w) S ->
  Z.of_nat (length tr) < 2 ^ 47 - 1 ->
  exists first : Chan (W := W) (A := NetworkPacket) -> Z, let off := offset b (stack_new cf dev w) in
    (forall i, i ∈ conns (held S) (stack S) (tasks S) ->
       1 <= first (Tcp.stream_receiver i) <= U32 /\
       numbered (first (Tcp.stream_receiver i)) (bytes_written (name_of i) tr) (tcb i)) /\
    (forall t i, StreamTcp t ∈ held S -> TcpWrapper.inner t = Some i ->
       relies L off (first (Tcp.stream_receiver i)) (name_of i) tr -> calls_return t (sworld (stack S))) /\
    (forall d, d ∈ tasks S ->
       relies L off (first (Tcp.stream_receiver (task_stream d))) (name_of (task_stream d)) tr ->
       forall k, exists n w' r, drop_task_poll b n k d (sworld (stack S)) = Some (w', Ret r)).
Proof.
  intros Hm Htm Hw Htr Hlen.
  destruct (trace_survives b write_all L cf dev w tr S Hm Htm Hw Htr Hlen)
    as (owner & iss & [Hinv Hse _ _ _ Hfirst Hc]).
  pose proof (ss_conns _ _ _ _ _ Hse) as Hss. rewrite Forall_forall in Hss.
  assert (forall i, i ∈ conns (held S) (stack S) (tasks S) -> numbered (iss (Tcp.stream_receiver i))
    (bytes_written (name_of i) tr) (tcb i)) as Hnum
    by (intros i Hi; apply (sv_numbered _ _ _ (Hss i Hi (sworld (stack S))))).
  exists iss. split; [by auto|]. split.
  - intros t i Ht Hi Hrel. assert (i ∈ conns (held S) (stack S) (tasks S)) as Hin.
    { apply elem_of_conns. left. exists (StreamTcp t). split; [apply elem_of_app; by left|done]. }
    pose proof (Hc i Hin Hrel) as Hci. eapply inv_calls_return; [done|exact Hci|].
    intros buf Hst _. pose proof (Hnum i Hin) as Hn. unfold numbered, conn_state in *. simpl in *.
    rewrite Hst in Hn. destruct (Hfirst i Hin), Hrel as [_ Hfit].
    assert (seq (tcb i) ∈u U32) by (destruct Hci as [Hb _]; apply (conn_base_wf _ _ _ Hb)).
    pose proof (len_nonneg (bytes_written (name_of i) tr)). rewrite !cast_small in Hn by lia. lia.
  - intros d Hd Hrel k. assert (task_stream d ∈ conns (held S) (stack S) (tasks S)) as Hin
      by (apply elem_of_conns; right; by exists d).
    pose proof (Hc _ Hin Hrel) as Hci.
    destruct (drop_task_poll_ok b _ _ (read_fuel (mkConn (task_stream d) (sworld (stack S)))) k d
      (sworld (stack S)) Hci) as (w' & r & Hrun & _); [|unfold read_fuel; lia|by eauto].
    unfold tx_open. simpl. destruct (conns_good owner S _ Hinv Hin) as (_ & -> & _). apply Hinv.
Qed.

End survival.

(** ** The run that reads and writes *)

(** The user holds one stream, that of the client, and has sent three bytes. *)
Definition one_stream (S : DemoSystem) : bool :=
  match held S with
  | [StreamTcp t] =>
      match TcpWrapper.inner t with
      | Some i => bool_decide (name_of i = (RX, key)) && bool_decide (state (tcb i) = Established)
                  && (seq (tcb i) =? 104)
      | None => false
      end
  | _ => false
  end.

Lemma one_stream_spec S :
  one_stream S = true ->
  exists t i, held S = [StreamTcp t] /\ TcpWrapper.inner t = Some i /\ name_of i = (RX, key) /\
    state (tcb i) = Established /\ seq (tcb i) = 104.
Proof.
  unfold one_stream. destruct (held S) as [|[t| | |] [|]]; try done.
  destruct (TcpWrapper.inner t) as [i|] eqn:Hi; [|done].
  intros [[Hnm%bool_decide_eq_true Hst%bool_decide_eq_true]%andb_true_iff Hsq%Z.eqb_eq]%andb_true_iff.
  by exists t, i.
Qed.

Lemma demo_honest x h :
  parse (drain_front 0 (bytes x)) = Ok (parsed x) -> transport (parsed x) = TransTcp h ->
  acknowledgment_number h <> 100 -> len (Packet.payload (parsed x)) <= 1460 ->
  honest_input (W := World) 1460 0 101 key (Input (bytes x)).
Proof. intros Hp Ht Ha Hl buf p h' [= <-]. rewrite Hp. intros [= <-] _. rewrite Ht. by intros [= <-]. Qed.

Lemma write_honest e : e ∈ write_trace -> honest_input (W := World) 1460 0 101 key e.
Proof.
  intros He. destruct e as [buf| | |]; try (intros ? ? ? ?; discriminate).
  assert (Input buf ∈ read_trace) as Hr.
  { apply elem_of_app in He as [He|He]; [done|]. exfalso. revert He. rewrite list_elem_of_singleton.
    unfold write_event. destruct (held sys9) as [|[t| | |] h]; try done. by repeat case_match. }
  destruct (read_inputs buf Hr) as [->|[->|[->| ->]]];
    (eapply demo_honest; [vm_compute; reflexivity|vm_compute; reflexivity|vm_compute; discriminate
                         |vm_compute; discriminate]).
Qed.

Lemma system_survives_witness :
  exists t, held sys10 = [StreamTcp t] /\ calls_return dev_build 1460 t (sworld (stack sys10)).
Proof.
  destruct (system_survives dev_build 1460 tape_write config_default [] (ref_world 0 []) sys10 write_trace)
    as (first & Hnum & Hcalls & _).
  - split; [discriminate|reflexivity].
  - by apply short_timely.
  - reflexivity.
  - exact write_run.
  - reflexivity.
  - assert (one_stream sys10 = true) as Hone by (vm_compute; reflexivity).
    assert (len (bytes_written (RX, key) write_trace) = 3) as Hw by (vm_compute; reflexivity).
    apply one_stream_spec in Hone as (t & i & Hh & Hi & Hnm & Hst & Hsq).
    assert (StreamTcp t ∈ held sys10) as Hin by (rewrite Hh; constructor).
    exists t. split; [exact Hh|]. destruct (Hnum i) as [Hr Hn].
    { apply elem_of_conns. left. exists (StreamTcp t). split; [apply elem_of_app; by left|exact Hi]. }
    rewrite Hnm in Hn. unfold numbered in Hn. rewrite Hst, Hsq, Hw in Hn.
    pose proof (f_equal fst Hnm) as Hrx. simpl in Hrx. rewrite Hrx in Hr, Hn.
    assert (first RX = 101) as Hf.
    { rewrite (cast_small U32 104) in Hn by lia. unfold cast in Hn.
      pose proof (Z.div_mod (first RX + 3) U32 ltac:(lia)). lia. }
    apply (Hcalls t i); [exact Hin|exact Hi|]. rewrite Hrx, Hf, Hnm. split; [exact write_honest|].
    rewrite Hw. reflexivity.
Defined.
