(* ===== verification/ExampleTheorems.v ===== *)
(** * Theorems on the example programs

    What a user of the crate gets: pings are answered, sessions are counted (also
    those whose task panicked), the program keeps to the rules of the system, the two
    programs do the same, and the Windows device takes every packet the stack
    writes. *)

From S2P Require Import Prelude Errors Etherparse Packet Runtime Tcb Tcp TcpPacket TcpLoop.
From S2P Require Import TcpFoot TcpWrapper Udp Unknown Stream Stack StackSpec StackInv Run System.
From S2P Require Import Icmp Examples ExampleMain WintunDevice Reference Scenario StackTheorems SystemTheorems.

Section example_theorems.
Context `{EP : Etherparse, EL : !EtherparseLaws, IC : !Icmp, IL : !IcmpLaws}.
Context {W : Type} `{RT : !Runtime W NetworkPacket}.
Context `{RO : !RuntimeObs W NetworkPacket, RL : !RuntimeLaws W NetworkPacket}.
Context (b : Build).
Context {D Peer : Type} (write_all : list byte -> D -> D * Result unit IoError).
Implicit Types t : Tun2 (W := W) (D := D) (Peer := Peer).

(** An IPv4 packet back to the sender of the packet with header [ih]. *)
Definition back_to (ih : Ipv4Header) (mtu : Z) (q : NetworkPacket) : Prop :=
  exists ih' d, q = mkNetworkPacket (Ipv4 ih') TransUnknown d /\
    ip4_source ih' = ip4_destination ih /\ ip4_destination ih' = ip4_source ih /\
    ip4_protocol ih' = ip4_protocol ih /\ ip4_time_to_live ih' = TTL b /\
    ip4_total_len ih' = 20 + len d /\ ip4_total_len ih' <= mtu.

(** C34: A ping is answered: an ICMPv4 echo request read from the device is
    handed to the program, which sends the reply back to the sender in packets
    that fit the MTU; put together they parse as the echo reply with the
    request's identifier, number and data; and the program goes on. *)
Theorem ping_answered fuel rnd buf p ih h e rest t number :
  ex_pc t = AtAccept number -> accepted (ex_stack t) = [] -> accepting (ex_stack t) = true ->
  offset b (ex_stack t) <= len buf ->
  parse (drain_front (offset b (ex_stack t)) buf) = Ok p ->
  transport p = TransUnknown -> ip p = Ipv4 ih -> ip4_protocol ih = IpNumber_ICMP ->
  icmp_from_slice (Packet.payload p) = Ok (h, rest) -> icmp_type h = EchoRequest e ->
  cfg_mtu (config (ex_stack t)) ∈u U16 -> 20 < cfg_mtu (config (ex_stack t)) ->
  rx_open (pkt_chan (ex_stack t)) (sworld (ex_stack t)) = true ->
  (length (echo_reply e rest) < fuel)%nat ->
  exists s1 s2 x t' pkts,
    on_device_read b rnd buf (ex_stack t) = (s1, Ret tt) /\
    accept true s1 = (s2, Ready (Ok x)) /\
    tun2_on_accept b fuel (Ok x) (set_stack s2 t) = Some (t', Ret tt) /\
    ex_pc t' = AtAccept (serial_number t) /\
    queue (pkt_chan (ex_stack t)) (sworld (ex_stack t')) =
      queue (pkt_chan (ex_stack t)) (sworld (ex_stack t)) ++ pkts /\
    Forall (back_to ih (cfg_mtu (config (ex_stack t)))) pkts /\
    exists h', icmp_from_slice (concat (Packet.payload <$> pkts)) = Ok (h', rest) /\
      icmp_type h' = EchoReply e.
Proof.
  intros Hpc Hacc Hing Hoff Hp Ht Hip Hpr Hic Hty Hm Hlt Ho Hfuel.
  set (s := ex_stack t) in *.
  set (u := unknown_new (W := W) (sock_ip (Packet.src_addr p)) (sock_ip (Packet.dst_addr p))
              (Packet.payload p) (ip p) (cfg_mtu (config s)) (pkt_chan s)).
  assert (unk_src_addr u = IpV4 (ip4_source ih)) as Hsa
    by (unfold u, Packet.src_addr; simpl; by rewrite Hip).
  assert (unk_dst_addr u = IpV4 (ip4_destination ih)) as Hda
    by (unfold u, Packet.dst_addr; simpl; by rewrite Hip).
  assert (protocol u = IpNumber_ICMP) as Hproto by (unfold u, unknown_new; simpl; by rewrite Hip).
  destruct (send_v4_ok b u _ _ Hsa Hda Hm Hlt fuel (echo_reply e rest) (sworld s) Ho Hfuel)
    as (w' & pkts & Hsend & Hq & Hall & Hcat & _).
  set (s1 := mkStack (config s) (sessions s) (pkt_chan s) (device s) [StreamUnknownTransport u]
               true (sworld s)).
  exists s1, s, (StreamUnknownTransport u),
    (next_round (set_stack (with_world w' s) t)), pkts.
  split; [|split; [|split; [|split; [done|split; [done|split]]]]].
  - unfold on_device_read. destruct (Z.ltb_spec (len buf) (offset b s)); [lia|].
    unfold process_device_read, transport_protocol. rewrite Hp, Ht, Hing, Hacc. done.
  - unfold s1, accept. simpl. rewrite <-Hacc, <-Hing. by destruct s.
  - unfold tun2_on_accept. cbn [ex_pc set_stack ex_stack]. rewrite Hpc.
    unfold on_unknown, Unknown.src_addr, Unknown.ip_protocol, Unknown.payload.
    rewrite Hsa, Hproto, bool_decide_eq_true_2 by done. cbn [is_ipv4_addr andb].
    change (unk_payload u) with (Packet.payload p). rewrite Hic, Hty, Hsend. done.
  - eapply Forall_impl; [exact Hall|]. intros q (d & -> & Hle). do 2 eexists. split; [reflexivity|].
    simpl. unfold ip_total_len in Hle. simpl in Hle. rewrite Hpr. repeat split; try done; lia.
  - rewrite Hcat. unfold echo_reply.
    destruct (icmp_echo_range _ _ _ _ Hic Hty) as [Hid Hsq].
    apply icmp_reply_roundtrip; [|done..]. rewrite update_checksum_type, icmp_header_new_type.
    by destruct e.
Qed.

(** C33: What the session count of tun2.rs counts: in every run the counter is the
    number of copying tasks and of those that have panicked, which are never counted
    off; so (with fewer than 2{^64} of them) a session that starts or ends logs that
    number, neither the addition nor the subtraction overflows, and where panics abort
    the process the number is that of the sessions. *)
Theorem session_count (n : nat) (s : Stack (W := W) (D := D)) t :
  tun2_run b write_all n (tun2_start s) t -> len (ex_sessions t) + Z.of_nat n + 1 < U64 ->
  count t = len (ex_sessions t) + Z.of_nat n /\
  (forall number st peer, ex_pc t = AtConnect number st ->
    (tun2_on_connect b (Ok peer) t).2 = Ret tt /\
    last (ex_log (tun2_on_connect b (Ok peer) t).1) =
      Some (Connecting number (len (ex_sessions t) + Z.of_nat n + 1))) /\
  (forall i s, ex_sessions t !! i = Some s ->
    (tun2_session_end b i t).2 = Ret tt /\
    last (ex_log (tun2_session_end b i t).1) =
      Some (SessionClosed (s_number s) (len (ex_sessions t) + Z.of_nat n - 1))) /\
  (unwinds b = false -> n = 0%nat).
Proof.
  intros Hr Hlen. pose proof (len_nonneg (ex_sessions t)).
  assert (counted n t) as Hc by (by apply (tun2_run_counted b write_all 0 n _ _ Hr)).
  unfold counted in Hc. rewrite cast_small in Hc by lia. split; [done|]. split; [|split].
  - intros number st peer Hpc. unfold tun2_on_connect, plain_add. rewrite Hpc, Hc, arith_small by lia.
    simpl. split; [done|]. by rewrite last_snoc.
  - intros i se Hi. apply lookup_lt_Some in Hi as Hlt. unfold len in *.
    unfold tun2_session_end, plain_sub. rewrite Hi, Hc.
    destruct (Z.leb_spec 1 (Z.of_nat (length (ex_sessions t)) + Z.of_nat n)); [|lia].
    unfold release. simpl. destruct (drop_user _ _). simpl. split; [done|]. by rewrite last_snoc.
  - intros Hu. by apply (tun2_run_aborts b write_all n _ _ Hu Hr).
Qed.

(** C32: The program only does what a user of the stack may do: its set-up
    configures the device with the MTU of the stack and, if there is a device,
    every run of tun2.rs (its [main], the task of the stack, the tasks of dropped
    streams and the copying tasks, whether they end or panic) is, as long as the task
    of the stack goes on, a run of the system of stack, streams and tasks from its
    start with the program's configuration, with the program's streams as the ones
    the user holds. *)
Theorem tun2_uses_the_stack `{TA : !TunApi D, TL : !TunLaws TA} args (w : W) n t0 t :
  tun2_main b args w = Ok t0 -> tun2_run b write_all n t0 t -> ex_run t <> None ->
  exists dev, create_as_async (tun2_tun_config b) = Ok dev /\
    mtu_of (tun2_tun_config b) = Some (cfg_mtu (tun2_config args)) /\
    rtc (sys_step b write_all) (boot (tun2_config args) dev w) (tun2_view (Peer := Peer) t).
Proof.
  unfold tun2_main. destruct (create_as_async _) as [dev|e]; [|done]. intros [= <-] Hr Hrun. exists dev.
  split; [done|]. split; [apply tun2_tun_config_spec|]. change (boot (tun2_config args) dev w)
    with (tun2_view (Peer := Peer) (tun2_start (stack_new (tun2_config args) dev w))).
  by apply (tun2_run_refines b write_all n).
Qed.

(** C35: The two example programs do the same: they start alike, on every answer of [accept] and of
    [connect], and at the end of every session, tun2.rs does to the stack, the
    sessions and the place it waits at exactly what tun_wintun.rs does, and goes
    on or fails likewise; what it has in addition is the counting. *)
Theorem examples_agree t :
  len (ex_sessions t) <= count t -> count t + 1 < U64 ->
  (forall s : Stack (W := W) (D := D), forget (Peer := Peer) (tun2_start s) = wintun_start s) /\
  (forall fuel r, prod_map forget id <$> tun2_on_accept b fuel r t =
                  wintun_on_accept b fuel r (forget t)) /\
  (forall r, prod_map forget id (tun2_on_connect b r t) = (wintun_on_connect r (forget t), Ret tt)) /\
  (forall i, prod_map forget id (tun2_session_end b i t) = (wintun_session_end i (forget t), Ret tt)).
Proof.
  intros Hc H1. pose proof (len_nonneg (ex_sessions t)). split; [done|]. split; [intros; apply forget_accept|]. split; [intros; apply forget_connect; lia|].
  intros i. destruct (ex_sessions t !! i) as [s|] eqn:Hi.
  - apply forget_session_end. apply lookup_lt_Some in Hi. unfold len in Hc. lia.
  - unfold tun2_session_end, wintun_session_end, prod_map. simpl. by rewrite list_lookup_fmap, Hi.
Qed.

(** One bad packet ends the program: an ICMP packet that is too short for
    its header makes [main] return, with every session it serves. *)
Theorem bad_ping_stops fuel t number (u : IpStackUnknownTransport (W := W)) a e :
  ex_pc t = AtAccept number -> unk_src_addr u = IpV4 a -> protocol u = IpNumber_ICMP ->
  icmp_from_slice (unk_payload u) = Err e ->
  tun2_on_accept b fuel (Ok (StreamUnknownTransport u)) t =
    Some (set_pc (Stopped (MainIcmp e)) t, Ret tt).
Proof.
  intros Hpc Hsa Hpr Hic. unfold tun2_on_accept, on_unknown, Unknown.src_addr, Unknown.ip_protocol,
    Unknown.payload. rewrite Hpc, Hsa, Hpr, bool_decide_eq_true_2, Hic by done. simpl.
  destruct t as [[] ? ? ? ? ? ? ?]. done.
Qed.

(** At the end of its input a device returns 0 bytes at once, again and again: the
    stack takes each of them for a packet it does not know, and the program gets
    an endless supply of empty [UnknownNetwork] streams. *)
Theorem device_eof_floods rnd n (s : Stack (W := W) (D := D)) e :
  offset b s = 0 -> accepting s = true -> parse [] = Err e ->
  Nat.iter n (fun s => (on_device_read b rnd [] s).1) s =
    mkStack (config s) (sessions s) (pkt_chan s) (device s)
      (accepted s ++ replicate n (StreamUnknownNetwork [])) true (sworld s).
Proof.
  intros Ho Ha Hp. induction n as [|n IH]; simpl.
  - rewrite app_nil_r. rewrite <-Ha. by destruct s.
  - rewrite IH. unfold on_device_read, process_device_read.
    match goal with |- context [offset b ?x] =>
      change (offset b x) with (offset b s) end.
    rewrite Ho. change (len [] <? 0) with false. unfold drain_front. rewrite drop_nil, Hp. simpl.
    by rewrite <-app_assoc, <-replicate_cons_app.
Qed.

End example_theorems.

Section wintun_theorems.
Context `{EP : Etherparse, EL : !EtherparseLaws} {W : Type} `{RT : !Runtime W NetworkPacket}.
Context `{RO : !RuntimeObs W NetworkPacket, RL : !RuntimeLaws W NetworkPacket}.
Context `{WA : WintunApi, WL : !WintunLaws} {V : Type} `{RV : !Runtime V (list byte)}.
Context (b : Build).
Context {D : Type} (write_all : list byte -> D -> D * Result unit IoError).

(** C36: The Windows device takes every packet of the stack: in every run of the
    system, a packet that waits for the device goes to the driver whole, in one
    write, when the driver has room for it; the cast of its length to 16 bits
    loses nothing. *)
Theorem wintun_write cf dev (w : W) (S : System (W := W) (D := D)) p bs
    (d : WinTunDevice (W := V)) s pk :
  cfg_mtu cf ∈u U16 -> (forall c, queue c w = []) ->
  rtc (sys_step b write_all) (boot cf dev w) S ->
  p ∈ queue (pkt_chan (stack S)) (sworld (stack S)) -> to_bytes p = Ok bs ->
  allocate_send_packet (len bs) (session d) = (s, Ok pk) ->
  wintun_poll_write bs d =
    (mkDevice (send_packet pk bs s) (receiver d), Ret (Ready (Ok (len bs)))).
Proof.
  intros Hm Hw Hr Hin Hbs Ha. apply write_whole; [|done].
  pose proof (system_sent b write_all cf dev w S p Hm Hw Hr Hin bs Hbs). lia.
Qed.

End wintun_theorems.

(** ** Concrete runs *)

(** A ping of three bytes from 0.0.0.1 to 0.0.0.2, and one cut short. *)
Definition echo : IcmpEchoHeader := mkEcho 7 1.
Definition ping_data : list byte := [Byte.x61; Byte.x62; Byte.x63].
Definition ping_header : Ipv4Header := mkIpv4Header 31 true 64 1 1 2 tt.
Definition ping : NetworkPacket :=
  mkNetworkPacket (Ipv4 ping_header) TransUnknown
    (icmp_to_bytes (mkIcmp (EchoRequest echo) 0) ++ ping_data).

Abbreviation DemoTun2 := (Tun2 (W := World) (D := Tape) (Peer := unit)).
Definition tun2_stack : DemoStack := stack_new (tun2_config (args_default server)) [] (ref_world 0 []).
Definition tun2_0 : DemoTun2 := tun2_start tun2_stack.

Lemma ping_answered_witness :
  exists t' pkts h',
    queue (pkt_chan tun2_stack) (sworld (ex_stack t')) = queue (pkt_chan tun2_stack) (sworld tun2_stack) ++ pkts /\
    Forall (back_to dev_build ping_header (cfg_mtu (config tun2_stack))) pkts /\
    icmp_from_slice (concat (Packet.payload <$> pkts)) = Ok (h', ping_data) /\
    icmp_type h' = EchoReply echo /\ ex_pc (t' : DemoTun2) = AtAccept 1.
Proof.
  destruct (ping_answered dev_build (Peer := unit) 100 0 (bytes ping) ping ping_header
              (mkIcmp (EchoRequest echo) 0) echo ping_data tun2_0 0)
    as (s1 & s2 & x & t' & pkts & _ & _ & _ & Hpc & Hq & Hall & h' & Hp & Ht).
  1-3: reflexivity.
  - vm_compute. discriminate.
  - vm_compute. reflexivity.
  - reflexivity.
  - reflexivity.
  - reflexivity.
  - vm_compute. reflexivity.
  - reflexivity.
  - split; [discriminate|reflexivity].
  - reflexivity.
  - vm_compute. reflexivity.
  - vm_compute. lia.
  - exists t', pkts, h'. split; [exact Hq|]. split; [exact Hall|]. split; [exact Hp|]. by split.
Defined.

(** A client sends a datagram and the program serves it: one session. *)
Definition tun2_device (p : NetworkPacket) (t : DemoTun2) : DemoTun2 :=
  set_run (Some (true, true)) (set_stack (device_round p (ex_stack t)) t).
Definition tun2_accepts (t : DemoTun2) : option (DemoTun2 * exec Empty_set unit) :=
  match accept true (ex_stack t) with
  | (s, Ready r) => tun2_on_accept dev_build 20 r (set_stack s t)
  | _ => None
  end.
Definition after_round (o : option (DemoTun2 * exec Empty_set unit)) (t : DemoTun2) : DemoTun2 :=
  match o with Some (t', _) => t' | None => t end.
Definition tun2_1 : DemoTun2 := tun2_device query tun2_0.
Definition tun2_2 : DemoTun2 := after_round (tun2_accepts tun2_1) tun2_1.
Definition tun2_3 : DemoTun2 := (tun2_on_connect dev_build (Ok tt) tun2_2).1.

(** The datagram does not fit the buffer of the copying task. *)
Definition short_read (t : DemoTun2) : option (UdpSt (W := World) * exec Empty_set PollUnit) :=
  match ex_sessions t with
  | s :: _ =>
      match s_stream s with
      | StreamUdp u => Some (udp_poll_read WAKER (mkUdpSt u (sworld (ex_stack t)) (buffer 1)))
      | _ => None
      end
  | [] => None
  end.
Definition tun2_4 : DemoTun2 :=
  match short_read tun2_3 with
  | Some (us, _) => tun2_crashed 0 (StreamUdp (ustream us)) (uworld us) tun2_3
  | None => tun2_3
  end.

Lemma tun2_device_step p (t : DemoTun2) :
  main_runs t -> ex_run t = Some (true, true) ->
  (match (on_device_read dev_build 0 (bytes p) (ex_stack t)).2 with Ret _ => true | _ => false end) = true ->
  tun2_step dev_build tape_write false t (tun2_device p t).
Proof.
  intros Hm Hr Hok. split; [done|].
  apply (t2_run dev_build tape_write true true (new_round (device_round p (ex_stack t)))); [done|].
  apply (run_branch _ _ (ReadDone 0 (Ok (bytes p)))); [done|by simpl; lia|]. simpl. unfold device_round.
  by destruct (on_device_read _ _ _ _) as [s [[]|e|q]].
Qed.

Lemma tun2_accept_step number (t : DemoTun2) :
  ex_pc t = AtAccept number -> ex_run t = Some (true, true) ->
  (match tun2_accepts t with Some (_, Ret _) => true | _ => false end) = true ->
  tun2_step dev_build tape_write false t (after_round (tun2_accepts t) t).
Proof.
  unfold tun2_accepts. intros Hpc Hrn Hr. split; [unfold main_runs; by rewrite Hpc|].
  destruct (accept true (ex_stack t)) as [s [r|]] eqn:Ha; [|done].
  destruct (tun2_on_accept dev_build 20 r (set_stack s t)) as [[t' [[]|e|q]]|] eqn:Ht; try done.
  eapply t2_accept; [done|by rewrite Hrn|done].
Qed.

Lemma tun2_connect_step r (t : DemoTun2) :
  main_runs t -> (match (tun2_on_connect dev_build r t).2 with Ret _ => true | _ => false end) = true ->
  tun2_step dev_build tape_write false t (tun2_on_connect dev_build r t).1.
Proof.
  intros Hm Hr. split; [done|]. apply (t2_connect _ _ r).
  by destruct (tun2_on_connect dev_build r t) as [t' [[]|e|q]].
Qed.

Lemma tun2_crash_step (t : DemoTun2) us q :
  main_runs t -> short_read t = Some (us, Panic q) ->
  tun2_step dev_build tape_write true t (tun2_crashed 0 (StreamUdp (ustream us)) (uworld us) t).
Proof.
  intros Hm Hr. split; [done|]. unfold short_read in Hr. destruct (ex_sessions t) as [|s l] eqn:Hs; [done|].
  destruct (s_stream s) as [|u| |] eqn:Hu; try done. apply (inj Some) in Hr.
  eapply (t2_crash _ _ 0 OtherCall s); [done|by rewrite Hs|]. rewrite Hu.
  by apply (call_udp_read dev_build WAKER u (sworld (ex_stack t)) (buffer 1) us (Panic q)).
Qed.

Lemma tun2_serves : tun2_run dev_build tape_write 0 tun2_0 tun2_3.
Proof.
  apply (tun2_run_snoc _ _ 0 false _ tun2_2); [apply (tun2_run_snoc _ _ 0 false _ tun2_1);
    [apply (tun2_run_snoc _ _ 0 false _ tun2_0); [constructor|]|]|].
  - apply (tun2_device_step query tun2_0); [done|reflexivity|]. vm_compute. reflexivity.
  - apply (tun2_accept_step 0 tun2_1); [reflexivity|reflexivity|]. vm_compute. reflexivity.
  - apply (tun2_connect_step (Ok tt) tun2_2); vm_compute; done.
Qed.

Lemma tun2_crashes : tun2_run dev_build tape_write 1 tun2_0 tun2_4.
Proof.
  apply (tun2_run_snoc _ _ 0 true _ tun2_3); [exact tun2_serves|].
  assert (match short_read tun2_3 with Some (_, Panic _) => true | _ => false end = true) as Hp
    by (vm_compute; reflexivity).
  assert (main_runs tun2_3) as Hm by (vm_compute; done). unfold tun2_4.
  pose proof (tun2_crash_step tun2_3) as Hs. revert Hp Hm Hs. generalize (short_read tun2_3).
  intros [[us [v|[]|q]]|]; try done. intros _ Hm Hs. by apply (Hs us q).
Qed.

(** The task has panicked: there is no session, and the counter says one. *)
Lemma session_count_witness :
  count tun2_4 = 1 /\ len (ex_sessions tun2_4) = 0 /\ count tun2_4 = len (ex_sessions tun2_4) + 1.
Proof.
  assert (len (ex_sessions tun2_4) = 0) as Hl by (vm_compute; reflexivity).
  destruct (session_count dev_build tape_write 1 tun2_stack tun2_4) as (Hc & _).
  - exact tun2_crashes.
  - rewrite Hl. reflexivity.
  - split; [rewrite Hc, Hl; reflexivity|]. split; [exact Hl|exact Hc].
Defined.

(** A TUN library that records the MTU and the address and always has a device. *)
Record RefTun := mkRefTun { rt_mtu : option Z; rt_address : option Z }.
#[export] Instance ref_tun : TunApi Tape := {|
  Configuration := RefTun;
  PlatformConfig := unit;
  TunError := unit;
  configuration_default := mkRefTun None None;
  tun_address a c := mkRefTun (rt_mtu c) (Some a);
  tun_netmask _ c := c;
  tun_mtu m c := mkRefTun (Some m) (rt_address c);
  tun_up c := c;
  tun_destination _ c := c;
  platform_config _ c := c;
  ensure_root_privileges _ p := p;
  device_guid _ p := p;
  create_as_async _ := Ok [];
|}.
#[export] Instance ref_tun_laws : TunLaws ref_tun.
Proof. by refine {| mtu_of c := rt_mtu c; address_of c := rt_address c |}. Defined.

Lemma tun2_uses_the_stack_witness :
  exists dev, create_as_async (tun2_tun_config dev_build) = Ok dev /\
    mtu_of (tun2_tun_config dev_build) = Some (cfg_mtu (tun2_config (args_default server))) /\
    rtc (sys_step dev_build tape_write) (boot (tun2_config (args_default server)) dev (ref_world 0 []))
      (tun2_view tun2_4).
Proof.
  apply (tun2_uses_the_stack dev_build tape_write (args_default server) (ref_world 0 []) 1 tun2_0 tun2_4).
  - reflexivity.
  - exact tun2_crashes.
  - vm_compute. discriminate.
Defined.

Lemma examples_agree_witness :
  prod_map forget id (tun2_session_end dev_build 0 tun2_3) =
    (wintun_session_end 0 (forget tun2_3), Ret tt).
Proof.
  destruct (examples_agree dev_build tun2_3) as (_ & _ & _ & H).
  - vm_compute. discriminate.
  - vm_compute. reflexivity.
  - apply H.
Defined.

Definition cut_ping : IpStackUnknownTransport (W := World) :=
  unknown_new (IpV4 1) (IpV4 2) [Byte.x08] (Ipv4 ping_header) 1500 PKT.

Lemma bad_ping_stops_witness :
  tun2_on_accept dev_build 20 (Ok (StreamUnknownTransport cut_ping)) tun2_3 =
    Some (set_pc (Stopped (MainIcmp tt)) tun2_3, Ret tt).
Proof.
  apply (bad_ping_stops dev_build 20 tun2_3 1 cut_ping 1 tt); reflexivity.
Defined.

Definition demo_device : WinTunDevice (W := RefWorld (list byte)) := mkDevice [] 0%nat.

Lemma wintun_write_witness :
  exists p, p ∈ queue (pkt_chan (stack sys4)) (sworld (stack sys4)) /\
    wintun_poll_write (bytes p) demo_device =
      (mkDevice [bytes p] 0%nat, Ret (Ready (Ok (len (bytes p))))).
Proof.
  set (p := default syn (head (queue (pkt_chan (stack sys4)) (sworld (stack sys4))))).
  assert (p ∈ queue (pkt_chan (stack sys4)) (sworld (stack sys4))) as Hp by (vm_compute; constructor).
  exists p. split; [exact Hp|].
  apply (wintun_write dev_build tape_write config_default [] (ref_world 0 []) sys4 p (bytes p)
           demo_device [] (len (bytes p))).
  - split; [discriminate|reflexivity].
  - reflexivity.
  - exact demo_run.
  - exact Hp.
  - vm_compute. reflexivity.
  - reflexivity.
Defined.
